(** * kuberbac: the policy-rule compiler and the binding synthesizer

    A shallow embedding of the controllers of prosimcorp/kuberbac
    (package [controller] and [globals.IsSubset]) together with the
    properties of its specification that were checked against it.

    Conventions of the embedding:
    - Go strings are [string]; [[]string] is [list string]; a nil slice and
      an empty slice are both [[]] (the code only ever takes [len] of them);
    - Go maps are [gmap string _]; a [range] over a map visits the keys in
      an order the runtime picks afresh each time, which is modelled by an
      oracle consulted through a counter (section [Compiler]);
    - an index out of range is the outcome [Panic]; a Go [error] value is
      the outcome [Err]. *)

From Stdlib Require Import ZArith Lia Ascii String.
From stdpp Require Import base strings list gmap fin_maps.

Local Open Scope string_scope.
Local Open Scope list_scope.
Local Open Scope Z_scope.

(** ** Go's [strings] and [slices] helpers used by the controllers *)

Module GoStrings.

(** [strings.HasPrefix(s, prefix)] *)
Fixpoint HasPrefix (s prefix : string) {struct prefix} : bool :=
  match prefix with
  | EmptyString => true
  | String c prefix' =>
      match s with
      | EmptyString => false
      | String d s' => if decide (c = d) then HasPrefix s' prefix' else false
      end
  end.

(** [strings.HasSuffix(s, suffix)] for a one-byte suffix (the only use is
    [HasSuffix(key, "*")]). *)
Fixpoint HasSuffix (s : string) (suffix : ascii) : bool :=
  match s with
  | EmptyString => false
  | String c s' =>
      match s' with
      | EmptyString => bool_decide (c = suffix)
      | String _ _ => HasSuffix s' suffix
      end
  end.

(** [strings.TrimSuffix(s, suffix)] for a one-byte suffix: drops the last
    byte when it is [suffix], else returns [s]. *)
Fixpoint TrimSuffix (s : string) (suffix : ascii) : string :=
  match s with
  | EmptyString => EmptyString
  | String c s' =>
      match s' with
      | EmptyString => if decide (c = suffix) then EmptyString else s
      | String _ _ => String c (TrimSuffix s' suffix)
      end
  end.

(** [strings.Split(s, sep)] for a one-byte separator (the code splits on
    ["#"] and on ["/"] only).  The result is never empty. *)
Fixpoint Split (s : string) (sep : ascii) : list string :=
  match s with
  | EmptyString => [EmptyString]
  | String c s' =>
      if decide (c = sep) then EmptyString :: Split s' sep
      else match Split s' sep with
           | h :: t => String c h :: t
           | [] => [String c EmptyString]
           end
  end.

(** [strings.Join(elems, sep)] *)
Fixpoint Join (elems : list string) (sep : string) : string :=
  match elems with
  | [] => EmptyString
  | [e] => e
  | e :: rest => e +:+ sep +:+ Join rest sep
  end.

(** [slices.Contains(l, x)] *)
Definition Contains (l : list string) (x : string) : bool := bool_decide (x ∈ l).

(** Insertion into a list kept in [String.leb] order: the helper of the
    model of [slices.Sort] on strings. *)
Fixpoint insert_sorted (x : string) (l : list string) : list string :=
  match l with
  | [] => [x]
  | y :: l' => if String.leb x y then x :: l else y :: insert_sorted x l'
  end.

(** [slices.Sort(l)] on strings.  The sorted arrangement of a list under a
    total order on its values is unique, so the algorithm Go runs does not
    matter. *)
Definition Sort (l : list string) : list string := foldr insert_sorted [] l.

(** [slices.Compact(l)]: collapses runs of equal consecutive elements. *)
Fixpoint Compact (l : list string) : list string :=
  match l with
  | [] => []
  | x :: l' =>
      match l' with
      | [] => [x]
      | y :: _ => if decide (x = y) then Compact l' else x :: Compact l'
      end
  end.

(** The byte ['#'] that separates the parts of a map key, and ['/'], which
    separates a resource from its subresource. *)
Definition hash : ascii := "#"%char.
Definition slash : ascii := "/"%char.
Definition star : ascii := "*"%char.

(** [nofree c s]: the byte [c] does not occur in [s]. *)
Fixpoint occurs (c : ascii) (s : string) : bool :=
  match s with
  | EmptyString => false
  | String d s' => if decide (d = c) then true else occurs c s'
  end.

End GoStrings.
Import GoStrings.

(** ** Outcomes and the map-iteration monad *)

(** What a Go call can end in: a value, a non-nil [error], or a run-time
    panic (the only panics of this code are indexes out of range). *)
Inductive outcome (A : Type) : Type :=
  | Ok (a : A)
  | Err (msg : string)
  | Panic.
Arguments Ok {A} a.
Arguments Err {A} msg.
Arguments Panic {A}.

(** Indexing a slice: [l[i]] panics out of range. *)
Definition index {A} (l : list A) (i : nat) : outcome A :=
  match l !! i with
  | Some x => Ok x
  | None => Panic
  end.

(** A computation that may range over maps: it threads the number of
    [range] statements executed so far, which is the index at which the
    iteration-order oracle is consulted. *)
Definition M (A : Type) : Type := nat → outcome (A * nat).

Global Instance M_ret : MRet M := λ A a n, Ok (a, n).
Global Instance M_bind : MBind M := λ A B f c n,
  match c n with
  | Ok (a, n') => f a n'
  | Err e => Err e
  | Panic => Panic
  end.

(** Lifting an outcome that does not range over any map. *)
Definition lift {A} (o : outcome A) : M A := λ n,
  match o with
  | Ok a => Ok (a, n)
  | Err e => Err e
  | Panic => Panic
  end.

(** The value a computation returns, forgetting the counter. *)
Definition value {A} (c : M A) (n : nat) : outcome A :=
  match c n with
  | Ok (a, _) => Ok a
  | Err e => Err e
  | Panic => Panic
  end.

(** [for _, x := range l { acc = body(acc, x) }] over a slice, in a monad. *)
Fixpoint foldM {T : Type → Type} `{!MBind T, !MRet T} {A B}
    (body : A → B → T A) (acc : A) (l : list B) : T A :=
  match l with
  | [] => mret acc
  | x :: l' => acc' ← body acc x; foldM body acc' l'
  end.

(** [if err != nil { return fmt.Errorf(prefix + "%s", err.Error()) }] *)
Definition wrapErr {A} (prefix : string) (c : M A) : M A := λ n,
  match c n with
  | Err e => Err (prefix +:+ e)
  | r => r
  end.

(** [len(l) == 0] *)
Definition isEmpty {A} (l : list A) : bool :=
  match l with
  | [] => true
  | _ :: _ => false
  end.

(** 64-bit signed wrap-around of Go's [int]. *)
Definition wrap64 (z : Z) : Z := (z + 2 ^ 63) `mod` 2 ^ 64 - 2 ^ 63.

(** The length of a Go slice fits an [int]. *)
Definition slice_len_ok {A} (l : list A) : Prop := Z.of_nat (length l) < 2 ^ 63.

Global Instance outcome_ret : MRet outcome := λ A a, Ok a.
Global Instance outcome_bind : MBind outcome := λ A B f o,
  match o with
  | Ok a => f a
  | Err e => Err e
  | Panic => Panic
  end.

(** ** The Kubernetes types the compiler works on *)

Module schema.
Record GroupVersionKind : Type := {
  Group : string;
  Version : string;
  Kind : string;
}.
End schema.

Module metav1.

Module TypeMeta.
Record t : Type := { Kind : string; APIVersion : string }.
End TypeMeta.

(** The fields of [ObjectMeta] the controllers read or write.  A nil
    [DeletionTimestamp] is [None]. *)
Module ObjectMeta.
Record t : Type := {
  Name : string;
  Namespace : string;
  Labels : gmap string string;
  Annotations : gmap string string;
  DeletionTimestamp : option Z;
  Finalizers : list string;
}.
Definition zero : t :=
  {| Name := ""; Namespace := ""; Labels := ∅; Annotations := ∅;
     DeletionTimestamp := None; Finalizers := [] |}.
End ObjectMeta.

Module Condition.
Record t : Type := {
  Type_ : string;
  Status : string;
  Reason : string;
  Message : string;
}.
End Condition.

Module APIResource.
Record t : Type := {
  Name : string;
  Namespaced : bool;
  Kind : string;
  Verbs : list string;
}.
End APIResource.

Module APIResourceList.
Record t : Type := {
  GroupVersion : string;
  APIResources : list APIResource.t;
}.
End APIResourceList.

End metav1.

Module corev1.

Module Namespace.
Record t : Type := { ObjectMeta : metav1.ObjectMeta.t }.
Definition Name (ns : t) : string := metav1.ObjectMeta.Name (ObjectMeta ns).
Definition Labels (ns : t) : gmap string string := metav1.ObjectMeta.Labels (ObjectMeta ns).
End Namespace.

Module ServiceAccount.
Record t : Type := { ObjectMeta : metav1.ObjectMeta.t }.
Definition Name (sa : t) : string := metav1.ObjectMeta.Name (ObjectMeta sa).
Definition Namespace (sa : t) : string := metav1.ObjectMeta.Namespace (ObjectMeta sa).
Definition Labels (sa : t) : gmap string string := metav1.ObjectMeta.Labels (ObjectMeta sa).
Definition Annotations (sa : t) : gmap string string :=
  metav1.ObjectMeta.Annotations (ObjectMeta sa).
End ServiceAccount.

End corev1.

Module rbacv1.
Record PolicyRule : Type := {
  Verbs : list string;
  APIGroups : list string;
  Resources : list string;
  ResourceNames : list string;
  NonResourceURLs : list string;
}.

(** The zero value [rbacv1.PolicyRule{}], which is also what reading a
    missing key of a [map[string]rbacv1.PolicyRule] gives. *)
Definition zero : PolicyRule :=
  {| Verbs := []; APIGroups := []; Resources := []; ResourceNames := [];
     NonResourceURLs := [] |}.

(** [tmp := rule; tmp.Verbs = verbs] *)
Definition withVerbs (rule : PolicyRule) (verbs : list string) : PolicyRule :=
  {| Verbs := verbs; APIGroups := APIGroups rule; Resources := Resources rule;
     ResourceNames := ResourceNames rule; NonResourceURLs := NonResourceURLs rule |}.

Module Subject.
Record t : Type := {
  Kind : string;
  APIGroup : string;
  Name : string;
  Namespace : string;
}.
End Subject.

Module RoleRef.
Record t : Type := { APIGroup : string; Kind : string; Name : string }.
End RoleRef.

Module ClusterRole.
Record t : Type := {
  ObjectMeta : metav1.ObjectMeta.t;
  Rules : list PolicyRule;
}.
Definition Name (o : t) : string := metav1.ObjectMeta.Name (ObjectMeta o).
Definition Annotations (o : t) : gmap string string :=
  metav1.ObjectMeta.Annotations (ObjectMeta o).
End ClusterRole.

Module ClusterRoleBinding.
Record t : Type := {
  ObjectMeta : metav1.ObjectMeta.t;
  Subjects : list Subject.t;
  RoleRef : RoleRef.t;
}.
Definition Name (o : t) : string := metav1.ObjectMeta.Name (ObjectMeta o).
Definition Annotations (o : t) : gmap string string :=
  metav1.ObjectMeta.Annotations (ObjectMeta o).
End ClusterRoleBinding.

(** [RoleBinding] has the fields of [ClusterRoleBinding]; the code converts
    one into the other. *)
Module RoleBinding.
Record t : Type := {
  ObjectMeta : metav1.ObjectMeta.t;
  Subjects : list Subject.t;
  RoleRef : RoleRef.t;
}.
Definition Name (o : t) : string := metav1.ObjectMeta.Name (ObjectMeta o).
Definition Namespace (o : t) : string := metav1.ObjectMeta.Namespace (ObjectMeta o).
Definition Annotations (o : t) : gmap string string :=
  metav1.ObjectMeta.Annotations (ObjectMeta o).

(** [rbacv1.RoleBinding(clusterRoleBinding)] *)
Definition ofClusterRoleBinding (o : ClusterRoleBinding.t) : t :=
  {| ObjectMeta := ClusterRoleBinding.ObjectMeta o;
     Subjects := ClusterRoleBinding.Subjects o;
     RoleRef := ClusterRoleBinding.RoleRef o |}.

(** [roleBinding.SetNamespace(namespace)] *)
Definition SetNamespace (o : t) (namespace : string) : t :=
  {| ObjectMeta :=
       {| metav1.ObjectMeta.Name := metav1.ObjectMeta.Name (ObjectMeta o);
          metav1.ObjectMeta.Namespace := namespace;
          metav1.ObjectMeta.Labels := metav1.ObjectMeta.Labels (ObjectMeta o);
          metav1.ObjectMeta.Annotations := metav1.ObjectMeta.Annotations (ObjectMeta o);
          metav1.ObjectMeta.DeletionTimestamp :=
            metav1.ObjectMeta.DeletionTimestamp (ObjectMeta o);
          metav1.ObjectMeta.Finalizers := metav1.ObjectMeta.Finalizers (ObjectMeta o) |};
     Subjects := Subjects o;
     RoleRef := RoleRef o |}.
End RoleBinding.

End rbacv1.

(** The custom resources and their selectors (package [v1alpha1]).  A slice
    or map field on which the code asks [reflect.Value.IsZero] is an
    [option]: [None] is the nil value, which alone is zero; [Some []] is an
    empty, non-nil value. *)
Module kuberbacv1alpha1.

Module MatchRegexT.
Record t : Type := { Negative : bool; Expression : string }.
Definition IsZero (x : t) : bool := negb (Negative x) && bool_decide (Expression x = "").
End MatchRegexT.

Module MetaSelectorT.
Record t : Type := {
  MatchLabels : option (gmap string string);
  MatchAnnotations : option (gmap string string);
}.
Definition IsZero (x : t) : bool :=
  bool_decide (MatchLabels x = None) && bool_decide (MatchAnnotations x = None).
End MetaSelectorT.

Module NameSelectorT.
Record t : Type := {
  MatchList : option (list string);
  MatchRegex : MatchRegexT.t;
}.
Definition IsZero (x : t) : bool :=
  bool_decide (MatchList x = None) && MatchRegexT.IsZero (MatchRegex x).
End NameSelectorT.

Module NamespaceSelectorT.
Record t : Type := {
  MatchLabels : option (gmap string string);
  MatchList : option (list string);
  MatchRegex : MatchRegexT.t;
}.
Definition IsZero (x : t) : bool :=
  bool_decide (MatchLabels x = None) && bool_decide (MatchList x = None)
  && MatchRegexT.IsZero (MatchRegex x).
Definition zero : t :=
  {| MatchLabels := None; MatchList := None;
     MatchRegex := {| MatchRegexT.Negative := false; MatchRegexT.Expression := "" |} |}.
End NamespaceSelectorT.

Module SynchronizationT.
Record t : Type := { Time : string }.
End SynchronizationT.

Module DynamicRoleBindingSourceSubject.
Record t : Type := {
  ApiGroup : string;
  Kind : string;
  MetaSelector : MetaSelectorT.t;
  NameSelector : NameSelectorT.t;
  NamespaceSelector : NamespaceSelectorT.t;
}.
End DynamicRoleBindingSourceSubject.

Module DynamicRoleBindingSource.
Record t : Type := {
  ClusterRole : string;
  Subject : DynamicRoleBindingSourceSubject.t;
}.
End DynamicRoleBindingSource.

Module DynamicRoleBindingTargets.
Record t : Type := {
  Name : string;
  Annotations : gmap string string;
  Labels : gmap string string;
  ClusterScoped : bool;
  NamespaceSelector : NamespaceSelectorT.t;
}.
End DynamicRoleBindingTargets.

Module DynamicRoleBindingSpec.
Record t : Type := {
  Synchronization : SynchronizationT.t;
  Source : DynamicRoleBindingSource.t;
  Targets : DynamicRoleBindingTargets.t;
}.
End DynamicRoleBindingSpec.

Module DynamicRoleBinding.
Record t : Type := {
  TypeMeta : metav1.TypeMeta.t;
  ObjectMeta : metav1.ObjectMeta.t;
  Spec : DynamicRoleBindingSpec.t;
}.
End DynamicRoleBinding.

Module TargetT.
Record t : Type := {
  Name : string;
  Annotations : gmap string string;
  Labels : gmap string string;
  SeparateScopes : bool;
}.
End TargetT.

Module DynamicClusterRoleSpec.
Record t : Type := {
  Synchronization : SynchronizationT.t;
  Target : TargetT.t;
  Allow : list rbacv1.PolicyRule;
  Deny : list rbacv1.PolicyRule;
}.
End DynamicClusterRoleSpec.

Module DynamicClusterRole.
Record t : Type := {
  TypeMeta : metav1.TypeMeta.t;
  ObjectMeta : metav1.ObjectMeta.t;
  Spec : DynamicClusterRoleSpec.t;
  Status_Conditions : list metav1.Condition.t;
}.
End DynamicClusterRole.

End kuberbacv1alpha1.

Global Instance GroupVersionKind_eq_dec : EqDecision schema.GroupVersionKind.
Proof. solve_decision. Defined.
Global Instance PolicyRule_eq_dec : EqDecision rbacv1.PolicyRule.
Proof. solve_decision. Defined.

(** [GVKR] represents a resource type inside Kubernetes. *)
Record GVKR : Type := {
  GVK : schema.GroupVersionKind;
  Resource : string;
  Subresource : string;
  Namespaced : bool;
  UsableVerbs : list string;
}.

Definition GVKR_zero : GVKR :=
  {| GVK := {| schema.Group := ""; schema.Version := ""; schema.Kind := "" |};
     Resource := ""; Subresource := ""; Namespaced := false; UsableVerbs := [] |}.

(** [PolicyRulesProcessorT]: the inventory of the cluster's resources and
    the client.  Of the client the compiler uses one call, the listing of
    every object of a kind, of which it reads the names. *)
Record PolicyRulesProcessorT : Type := {
  Client_List : schema.GroupVersionKind → outcome (list string);
  ResourcesByGroup : gmap string (list GVKR);
  ResourceList : list string;
}.

(** Reading a key of a Go map: the zero value when the key is missing. *)
Definition groupResources (p : PolicyRulesProcessorT) (group : string) : list GVKR :=
  default [] (ResourcesByGroup p !! group).

Definition ruleAt (m : gmap string rbacv1.PolicyRule) (key : string) : rbacv1.PolicyRule :=
  default rbacv1.zero (m !! key).

(** [resource.Resource], followed by ["/" + resource.Subresource] when there
    is a subresource. *)
Definition resourceName (gvkr : GVKR) : string :=
  if decide (Subresource gvkr ≠ "") then Resource gvkr +:+ "/" +:+ Subresource gvkr
  else Resource gvkr.

(** [strings.Split(s, sep)[0]]; the index is always in range. *)
Definition firstPart (s : string) (sep : ascii) : string :=
  match Split s sep with
  | h :: _ => h
  | [] => ""
  end.

(** The eight verbs ["*"] stands for. *)
Definition canonicalVerbs : list string :=
  ["create"; "delete"; "deletecollection"; "get"; "list"; "patch"; "update"; "watch"].

(** ** The rule compiler (methods of [PolicyRulesProcessorT]) *)

Section Compiler.

(** The order in which the [n]-th [range] over a map visits its entries. *)
Variable shuffle : nat → ∀ A : Type, list A → list A.

(** [for k, v := range m]: the entries of [m] in the order of the oracle. *)
Definition rangeMap {V} (m : gmap string V) : M (list (string * V)) :=
  λ n, Ok (shuffle n _ (map_to_list m), S n).

(** [SetResourceList] constructs a simple list of the resources available
    in the cluster. *)
Definition SetResourceList (resourcesByGroup : gmap string (list GVKR)) : M (list string) :=
  groups ← rangeMap resourcesByGroup;
  mret (foldl (λ resourceList '(_, resList),
                 foldl (λ resourceList res, resourceList ++ [resourceName res])
                       resourceList resList)
              [] groups).

(** [GetSurvivingVerbs] returns allowed verbs that are not in the deny list. *)
Definition GetSurvivingVerbs (allowVerbs denyVerbs : list string) : M (list string) :=
  let tmpMap : gmap string Z := foldl (λ tmpMap v, <[v := 1]> tmpMap) ∅ allowVerbs in
  let tmpMap : gmap string Z :=
    foldl (λ tmpMap v,
             match tmpMap !! v with
             | None => tmpMap
             | Some c => <[v := wrap64 (c + 1)]> tmpMap
             end) tmpMap denyVerbs in
  entries ← rangeMap tmpMap;
  mret (foldl (λ result '(tmpMapKey, tmpMapVal),
                 if decide (tmpMapVal = 1) then result ++ [tmpMapKey] else result)
              [] entries).

(** Step 2.1 of [ExpandPolicyRules], innermost loop: the group is marked
    when one of its resource types is the type of [resource], unless it is
    marked already. *)
Fixpoint markGroup (gvkrs : list GVKR) (resource group : string)
    (newGroupList : list string) : list string :=
  match gvkrs with
  | [] => newGroupList
  | gvkr :: rest =>
      let resourceType := firstPart resource slash in
      if bool_decide (Resource gvkr = resourceType) && negb (Contains newGroupList group)
      then newGroupList ++ [group]
      else markGroup rest resource group newGroupList
  end.

(** Step 2.1 of [ExpandPolicyRules]: delete the groups that should not be
    there for the resources present in the rule. *)
Definition cleanGroups (p : PolicyRulesProcessorT) (resources groups : list string)
    : list string :=
  foldl (λ newGroupList resource,
           foldl (λ newGroupList group,
                    markGroup (groupResources p group) resource group newGroupList)
                 newGroupList groups)
        [] resources.

(** The body of the loop of [ExpandPolicyRules] for a rule that passed the
    four validity checks. *)
Definition expandRule (p : PolicyRulesProcessorT) (policyRule : rbacv1.PolicyRule)
    : M rbacv1.PolicyRule :=
  (* 1. expand groups *)
  apiGroups ←
    (if Contains (rbacv1.APIGroups policyRule) "*" then
       groups ← rangeMap (ResourcesByGroup p);
       mret (groups.*1)
     else
       mret (filter (λ group, is_Some (ResourcesByGroup p !! group))
                    (rbacv1.APIGroups policyRule)));
  (* 2. expand resources *)
  let resources :=
    if Contains (rbacv1.Resources policyRule) "*" then
      foldl (λ resources group,
               match ResourcesByGroup p !! group with
               | Some gvkrs => resources ++ (resourceName <$> gvkrs)
               | None => resources
               end) [] apiGroups
    else
      filter (λ resource, resource ∈ ResourceList p) (rbacv1.Resources policyRule) in
  (* 2.1 middle cleanup *)
  let newGroupList := cleanGroups p resources apiGroups in
  (* 3, 4 *)
  mret {| rbacv1.APIGroups := newGroupList;
          rbacv1.Resources := resources;
          rbacv1.ResourceNames := rbacv1.ResourceNames policyRule;
          rbacv1.NonResourceURLs := rbacv1.NonResourceURLs policyRule;
          rbacv1.Verbs := if Contains (rbacv1.Verbs policyRule) "*" then canonicalVerbs
                          else rbacv1.Verbs policyRule |}.

(** The four validity checks at the head of the loop of
    [ExpandPolicyRules]; a rule that fails one is skipped. *)
Definition validRule (policyRule : rbacv1.PolicyRule) : bool :=
  let nru := rbacv1.NonResourceURLs policyRule in
  let groups := rbacv1.APIGroups policyRule in
  let resources := rbacv1.Resources policyRule in
  let names := rbacv1.ResourceNames policyRule in
  negb (isEmpty (rbacv1.Verbs policyRule))
  && negb (negb (isEmpty nru)
           && (negb (isEmpty groups) || negb (isEmpty resources) || negb (isEmpty names)))
  && negb (isEmpty nru && (isEmpty groups || isEmpty resources))
  && negb (negb (isEmpty names) && (isEmpty groups || isEmpty resources)).

(** [ExpandPolicyRules] gets a list of PolicyRules and expands wildcard
    items to specific ones. *)
Definition ExpandPolicyRules (p : PolicyRulesProcessorT)
    (policyRules : list rbacv1.PolicyRule) : M (list rbacv1.PolicyRule) :=
  foldM (λ result policyRule,
           if validRule policyRule then
             newPolicyRule ← expandRule p policyRule;
             mret (result ++ [newPolicyRule])
           else mret result)
        [] policyRules.

(** The check of [StretchPolicyRules] that a resource exists in a group. *)
Definition resourceFound (p : PolicyRulesProcessorT) (group resource : string) : bool :=
  foldl (λ found gvkr, if decide (resourceName gvkr = resource) then true else found)
        false (groupResources p group).

(** [StretchPolicyRules] gets a list of complex PolicyRules and returns a new
    list with a single resource per item. *)
Definition StretchPolicyRules (p : PolicyRulesProcessorT)
    (policyRules : list rbacv1.PolicyRule) : list rbacv1.PolicyRule :=
  foldl (λ result policyRule,
    if negb (isEmpty (rbacv1.NonResourceURLs policyRule)) then
      foldl (λ result url,
               result ++ [ {| rbacv1.NonResourceURLs := [url];
                              rbacv1.Verbs := rbacv1.Verbs policyRule;
                              rbacv1.APIGroups := []; rbacv1.Resources := [];
                              rbacv1.ResourceNames := [] |} ])
            result (rbacv1.NonResourceURLs policyRule)
    else
      foldl (λ result resource,
        foldl (λ result group,
          if negb (resourceFound p group resource) then result
          else if negb (isEmpty (rbacv1.ResourceNames policyRule)) then
            foldl (λ result name,
                     result ++ [ {| rbacv1.APIGroups := [group];
                                    rbacv1.Resources := [resource];
                                    rbacv1.ResourceNames := [name];
                                    rbacv1.Verbs := rbacv1.Verbs policyRule;
                                    rbacv1.NonResourceURLs := [] |} ])
                  result (rbacv1.ResourceNames policyRule)
          else
            result ++ [ {| rbacv1.APIGroups := [group];
                           rbacv1.Resources := [resource];
                           rbacv1.Verbs := rbacv1.Verbs policyRule;
                           rbacv1.ResourceNames := []; rbacv1.NonResourceURLs := [] |} ])
          result (rbacv1.APIGroups policyRule))
        result (rbacv1.Resources policyRule))
    [] policyRules.

(** The verbs of two rules of one key: appended, sorted, compacted. *)
Definition mergeVerbs (old new : list string) : list string := Compact (Sort (old ++ new)).

(** [GetMapFromStretchedPolicyRules] returns a map with the keys in the form
    of "group#resource#resourceName" or "nonresourceurl#url", and the value
    as PolicyRule. *)
Definition GetMapFromStretchedPolicyRules (policyRules : list rbacv1.PolicyRule)
    : outcome (gmap string rbacv1.PolicyRule) :=
  foldM (λ (result : gmap string rbacv1.PolicyRule) policyRule,
    if negb (isEmpty (rbacv1.NonResourceURLs policyRule)) then
      url ← index (rbacv1.NonResourceURLs policyRule) 0;
      let nonResourceUrlMapKey := "nonresourceurl#" +:+ url in
      match result !! nonResourceUrlMapKey with
      | Some found =>
          let tmp := mergeVerbs (rbacv1.Verbs found) (rbacv1.Verbs policyRule) in
          mret (<[nonResourceUrlMapKey :=
                   {| rbacv1.NonResourceURLs := rbacv1.NonResourceURLs policyRule;
                      rbacv1.Verbs := tmp;
                      rbacv1.APIGroups := []; rbacv1.Resources := [];
                      rbacv1.ResourceNames := [] |}]> result)
      | None => mret (<[nonResourceUrlMapKey := policyRule]> result)
      end
    else
      group ← index (rbacv1.APIGroups policyRule) 0;
      resource ← index (rbacv1.Resources policyRule) 0;
      let resourceKey := group +:+ "#" +:+ resource +:+ "#" in
      resourceKey ←
        (if negb (isEmpty (rbacv1.ResourceNames policyRule)) then
           name ← index (rbacv1.ResourceNames policyRule) 0;
           mret (resourceKey +:+ name)
         else mret resourceKey);
      match result !! resourceKey with
      | Some found =>
          let tmp := mergeVerbs (rbacv1.Verbs found) (rbacv1.Verbs policyRule) in
          mret (<[resourceKey :=
                   {| rbacv1.APIGroups := rbacv1.APIGroups policyRule;
                      rbacv1.Resources := rbacv1.Resources policyRule;
                      rbacv1.ResourceNames := rbacv1.ResourceNames policyRule;
                      rbacv1.Verbs := tmp;
                      rbacv1.NonResourceURLs := [] |}]> result)
      | None => mret (<[resourceKey := policyRule]> result)
      end)
    ∅ policyRules.

(** The lookup of [EvaluateSpecialCases] for the GVKR of the resource a deny
    rule names: the last entry of the group whose resource type is
    [coreResourceType], or the zero GVKR. *)
Definition findGvkr (p : PolicyRulesProcessorT) (group coreResourceType : string) : GVKR :=
  foldl (λ tmpGvkr gvkr,
           if decide (Resource gvkr = coreResourceType) then gvkr else tmpGvkr)
        GVKR_zero (groupResources p group).

(** The inner loop of [EvaluateSpecialCases]: one allow per object name,
    copied from the allow at [key]. *)
Definition allowPerInstance (key : string) (names : list string)
    (allowMap : gmap string rbacv1.PolicyRule) : gmap string rbacv1.PolicyRule :=
  foldl (λ allowMap name,
           <[key +:+ name :=
              {| rbacv1.APIGroups := rbacv1.APIGroups (ruleAt allowMap key);
                 rbacv1.Resources := rbacv1.Resources (ruleAt allowMap key);
                 rbacv1.ResourceNames := [name];
                 rbacv1.Verbs := rbacv1.Verbs (ruleAt allowMap key);
                 rbacv1.NonResourceURLs := [] |}]> allowMap)
        allowMap names.

(** [EvaluateSpecialCases] checks for special cases in the PolicyRules maps
    and returns the resulting map with them evaluated. *)
Definition EvaluateSpecialCases (p : PolicyRulesProcessorT)
    (allowMap denyMap : gmap string rbacv1.PolicyRule)
    : M (gmap string rbacv1.PolicyRule) :=
  entries ← rangeMap denyMap;
  foldM (λ (allowMap : gmap string rbacv1.PolicyRule) '(denyMapkey, policyRule),
    if HasPrefix denyMapkey "nonresourceurl" then mret allowMap
    else
      let parts := Split denyMapkey hash in
      name ← lift (index parts 2);
      if decide (name = "") then mret allowMap
      else
        let key := Join (take 2 parts) "#" +:+ "#" in
        match allowMap !! key with
        | None => mret allowMap
        | Some _ =>
            resource ← lift (index (rbacv1.Resources policyRule) 0);
            let coreResourceType := firstPart resource slash in
            group ← lift (index (rbacv1.APIGroups policyRule) 0);
            let tmpGvkr := findGvkr p group coreResourceType in
            names ← lift (Client_List p (GVK tmpGvkr));
            mret (delete key (allowPerInstance key names allowMap))
        end)
    allowMap entries.

(** The statements [tmp := allowMap[key]; tmp.Verbs = GetSurvivingVerbs(...);
    allowMap[key] = tmp] of [EvaluatePolicyRules]. *)
Definition subtractVerbs (key : string) (denyVerbs : list string)
    (allowMap : gmap string rbacv1.PolicyRule) : M (gmap string rbacv1.PolicyRule) :=
  let tmpPolicyRule := ruleAt allowMap key in
  verbs ← GetSurvivingVerbs (rbacv1.Verbs (ruleAt allowMap key)) denyVerbs;
  mret (<[key := rbacv1.withVerbs tmpPolicyRule verbs]> allowMap).

(** [if len(allowMap[key].Verbs) == 0 { delete(allowMap, key) }] *)
Definition deleteIfNoVerbs (key : string) (allowMap : gmap string rbacv1.PolicyRule)
    : gmap string rbacv1.PolicyRule :=
  if isEmpty (rbacv1.Verbs (ruleAt allowMap key)) then delete key allowMap else allowMap.

(** The two loops of [EvaluatePolicyRules] over the allow map: every allow
    whose key starts with [prefix] loses the denied verbs, and every allow
    left without verbs is deleted. *)
Definition subtractByPrefix (prefix : string) (denyVerbs : list string)
    (allowMap : gmap string rbacv1.PolicyRule) : M (gmap string rbacv1.PolicyRule) :=
  entries ← rangeMap allowMap;
  foldM (λ (allowMap : gmap string rbacv1.PolicyRule) '(allowMapKey, _),
           allowMap ←
             (if HasPrefix allowMapKey prefix
              then subtractVerbs allowMapKey denyVerbs allowMap
              else mret allowMap);
           mret (deleteIfNoVerbs allowMapKey allowMap))
        allowMap entries.

(** [EvaluatePolicyRules] compares the allow and deny PolicyRule maps and
    returns the resulting map. *)
Definition EvaluatePolicyRules (allowMap denyMap : gmap string rbacv1.PolicyRule)
    : M (gmap string rbacv1.PolicyRule) :=
  entries ← rangeMap denyMap;
  foldM (λ (allowMap : gmap string rbacv1.PolicyRule) '(denyMapKey, policyRule),
    if HasPrefix denyMapKey "nonresourceurl" then
      if HasSuffix denyMapKey star then
        subtractByPrefix (TrimSuffix denyMapKey star) (rbacv1.Verbs policyRule) allowMap
      else
        allowMap ← subtractVerbs denyMapKey (rbacv1.Verbs policyRule) allowMap;
        mret (deleteIfNoVerbs denyMapKey allowMap)
    else
      let denyMapKeyParts := Split denyMapKey hash in
      name ← lift (index denyMapKeyParts 2);
      if decide (name = "") then
        subtractByPrefix denyMapKey (rbacv1.Verbs policyRule) allowMap
      else
        match allowMap !! denyMapKey with
        | Some _ =>
            allowMap ← subtractVerbs denyMapKey (rbacv1.Verbs policyRule) allowMap;
            mret (deleteIfNoVerbs denyMapKey allowMap)
        | None => mret allowMap
        end)
    allowMap entries.

(** The inner loop of [SplitPolicyRules]: the rule goes to the list of the
    scope of the first resource of its group that bears its name. *)
Fixpoint placeRule (resources : list GVKR) (policyRule : rbacv1.PolicyRule)
    (lists : list rbacv1.PolicyRule * list rbacv1.PolicyRule)
    : outcome (list rbacv1.PolicyRule * list rbacv1.PolicyRule) :=
  match resources with
  | [] => Ok lists
  | resource :: rest =>
      ruleResource ← index (rbacv1.Resources policyRule) 0;
      if decide (ruleResource ≠ resourceName resource) then placeRule rest policyRule lists
      else if Namespaced resource
           then Ok (lists.1, lists.2 ++ [policyRule])
           else Ok (lists.1 ++ [policyRule], lists.2)
  end.

(** [SplitPolicyRules] separates PolicyRules into two lists:
    clusterScopedRules and namespaceScopedRules. *)
Definition SplitPolicyRules (p : PolicyRulesProcessorT)
    (policyRules : list rbacv1.PolicyRule)
    : outcome (list rbacv1.PolicyRule * list rbacv1.PolicyRule) :=
  foldM (λ lists policyRule,
           group ← index (rbacv1.APIGroups policyRule) 0;
           placeRule (groupResources p group) policyRule lists)
        ([], []) policyRules.

(** The compiling part of [DynamicClusterRoleReconciler.SyncTarget]: from the
    allow and deny lists of the resource to the map [result]. *)
Definition CompileRules (p : PolicyRulesProcessorT) (allow deny : list rbacv1.PolicyRule)
    : M (gmap string rbacv1.PolicyRule) :=
  expandedAllowList ← ExpandPolicyRules p allow;
  expandedDenyList ← ExpandPolicyRules p deny;
  let stretchAllowList := StretchPolicyRules p expandedAllowList in
  let stretchDenyList := StretchPolicyRules p expandedDenyList in
  allowMap ← lift (GetMapFromStretchedPolicyRules stretchAllowList);
  denyMap ← lift (GetMapFromStretchedPolicyRules stretchDenyList);
  allowMap ← wrapErr "error evaluating especial cases: "
                     (EvaluateSpecialCases p allowMap denyMap);
  wrapErr "error evaluating allow and deny maps: "
          (EvaluatePolicyRules allowMap denyMap).

(** The key-merged form of a list of rules: expanded, stretched, keyed and
    merged (the first three stages of the compiler). *)
Definition KeyMerge (p : PolicyRulesProcessorT) (rules : list rbacv1.PolicyRule)
    : M (gmap string rbacv1.PolicyRule) :=
  expanded ← ExpandPolicyRules p rules;
  lift (GetMapFromStretchedPolicyRules (StretchPolicyRules p expanded)).

(** [maps.Values(m)] *)
Definition mapValues {V} (m : gmap string V) : M (list V) :=
  entries ← rangeMap m;
  mret (entries.*2).

End Compiler.


(** ** Package [globals] *)

Module globals.

(** [IsSubset(smaller, larger)]: every entry of [smaller] is an entry of
    [larger].  The loop returns [false] at the first entry that is not, and
    the answer does not depend on the order of the visit. *)
Definition IsSubset (smaller larger : gmap string string) : bool :=
  bool_decide (map_Forall (λ key value, larger !! key = Some value) smaller).

End globals.

(** ** The cluster behind the client *)

(** What the controllers read from the API server.  [discovery] is the
    answer of [ServerGroupsAndResources]; [objects] gives the names of the
    objects of a kind, the answer to listing an [UnstructuredList]. *)
Record Cluster : Type := {
  discovery : outcome (list metav1.APIResourceList.t);
  objects : schema.GroupVersionKind → outcome (list string);
  namespaces : list corev1.Namespace.t;
  serviceAccounts : list corev1.ServiceAccount.t;
  clusterRoles : list rbacv1.ClusterRole.t;
  clusterRoleBindings : list rbacv1.ClusterRoleBinding.t;
  roleBindings : list rbacv1.RoleBinding.t;
  dynamicClusterRoles : list kuberbacv1alpha1.DynamicClusterRole.t;
}.

(** The writing calls of the client. *)
Inductive Call : Type :=
  | UpdateClusterRole (o : rbacv1.ClusterRole.t)
  | DeleteClusterRole (o : rbacv1.ClusterRole.t)
  | UpdateClusterRoleBinding (o : rbacv1.ClusterRoleBinding.t)
  | UpdateRoleBinding (o : rbacv1.RoleBinding.t)
  | DeleteRoleBinding (o : rbacv1.RoleBinding.t)
  | UpdateDynamicClusterRole (o : kuberbacv1alpha1.DynamicClusterRole.t)
  | UpdateStatusDynamicClusterRole (o : kuberbacv1alpha1.DynamicClusterRole.t).

(** The state a reconcile runs against: the cluster, and the writing calls
    issued so far, oldest first. *)
Record World : Type := {
  cluster : Cluster;
  calls : list Call;
}.

(** A computation that talks to the API server.  The server of the model
    answers every call; a call the real server refuses is outside it. *)
Definition C (A : Type) : Type := World → outcome A * World.

Global Instance C_ret : MRet C := λ A a w, (Ok a, w).
Global Instance C_bind : MBind C := λ A B f c w,
  match c w with
  | (Ok a, w') => f a w'
  | (Err e, w') => (Err e, w')
  | (Panic, w') => (Panic, w')
  end.

(** [return fmt.Errorf(msg)] *)
Definition fail {A} (msg : string) : C A := λ w, (Err msg, w).

Definition liftC {A} (o : outcome A) : C A := λ w, (o, w).

Definition wrapErrC {A} (prefix : string) (c : C A) : C A := λ w,
  match c w with
  | (Err e, w') => (Err (prefix +:+ e), w')
  | r => r
  end.

Module client.

(** Replacing the stored object of the same key, or adding the object. *)
Fixpoint upsert {A K} `{EqDecision K} (key : A → K) (o : A) (l : list A) : list A :=
  match l with
  | [] => [o]
  | o' :: l' => if decide (key o' = key o) then o :: l' else o' :: upsert key o l'
  end.

Definition withCluster (w : World) (c : Cluster) (call : Call) : World :=
  {| cluster := c; calls := calls w ++ [call] |}.

Definition ListNamespaces : C (list corev1.Namespace.t) :=
  λ w, (Ok (namespaces (cluster w)), w).

Definition ListServiceAccounts : C (list corev1.ServiceAccount.t) :=
  λ w, (Ok (serviceAccounts (cluster w)), w).

Definition ListRoleBindings : C (list rbacv1.RoleBinding.t) :=
  λ w, (Ok (roleBindings (cluster w)), w).

Definition ListClusterRoles : C (list rbacv1.ClusterRole.t) :=
  λ w, (Ok (clusterRoles (cluster w)), w).

(** [Get] of a cluster-role-binding followed by [client.IgnoreNotFound]:
    [None] when there is no object of the name. *)
Definition GetClusterRoleBinding (name : string) : C (option rbacv1.ClusterRoleBinding.t) :=
  λ w, (Ok (find (λ o, bool_decide (rbacv1.ClusterRoleBinding.Name o = name))
                 (clusterRoleBindings (cluster w))), w).

Definition GetDynamicClusterRole (namespace name : string)
    : C (option kuberbacv1alpha1.DynamicClusterRole.t) :=
  λ w, (Ok (find (λ o, bool_decide
                    (metav1.ObjectMeta.Namespace (kuberbacv1alpha1.DynamicClusterRole.ObjectMeta o)
                       = namespace
                     ∧ metav1.ObjectMeta.Name (kuberbacv1alpha1.DynamicClusterRole.ObjectMeta o)
                       = name))
                 (dynamicClusterRoles (cluster w))), w).

(** [Update] of an RBAC object creates the object when it is missing. *)
Definition UpdateClusterRoleBinding' (o : rbacv1.ClusterRoleBinding.t) : C unit := λ w,
  let c := cluster w in
  (Ok (), withCluster w
     {| discovery := discovery c; objects := objects c; namespaces := namespaces c;
        serviceAccounts := serviceAccounts c; clusterRoles := clusterRoles c;
        clusterRoleBindings :=
          upsert rbacv1.ClusterRoleBinding.Name o (clusterRoleBindings c);
        roleBindings := roleBindings c; dynamicClusterRoles := dynamicClusterRoles c |}
     (UpdateClusterRoleBinding o)).

Definition UpdateRoleBinding' (o : rbacv1.RoleBinding.t) : C unit := λ w,
  let c := cluster w in
  (Ok (), withCluster w
     {| discovery := discovery c; objects := objects c; namespaces := namespaces c;
        serviceAccounts := serviceAccounts c; clusterRoles := clusterRoles c;
        clusterRoleBindings := clusterRoleBindings c;
        roleBindings :=
          upsert (λ o, (rbacv1.RoleBinding.Namespace o, rbacv1.RoleBinding.Name o)) o
                 (roleBindings c);
        dynamicClusterRoles := dynamicClusterRoles c |}
     (UpdateRoleBinding o)).

Definition DeleteRoleBinding' (o : rbacv1.RoleBinding.t) : C unit := λ w,
  let c := cluster w in
  (Ok (), withCluster w
     {| discovery := discovery c; objects := objects c; namespaces := namespaces c;
        serviceAccounts := serviceAccounts c; clusterRoles := clusterRoles c;
        clusterRoleBindings := clusterRoleBindings c;
        roleBindings :=
          filter (λ o', (rbacv1.RoleBinding.Namespace o', rbacv1.RoleBinding.Name o')
                        ≠ (rbacv1.RoleBinding.Namespace o, rbacv1.RoleBinding.Name o))
                 (roleBindings c);
        dynamicClusterRoles := dynamicClusterRoles c |}
     (DeleteRoleBinding o)).

Definition UpdateClusterRole' (o : rbacv1.ClusterRole.t) : C unit := λ w,
  let c := cluster w in
  (Ok (), withCluster w
     {| discovery := discovery c; objects := objects c; namespaces := namespaces c;
        serviceAccounts := serviceAccounts c;
        clusterRoles := upsert rbacv1.ClusterRole.Name o (clusterRoles c);
        clusterRoleBindings := clusterRoleBindings c;
        roleBindings := roleBindings c; dynamicClusterRoles := dynamicClusterRoles c |}
     (UpdateClusterRole o)).

Definition DeleteClusterRole' (o : rbacv1.ClusterRole.t) : C unit := λ w,
  let c := cluster w in
  (Ok (), withCluster w
     {| discovery := discovery c; objects := objects c; namespaces := namespaces c;
        serviceAccounts := serviceAccounts c;
        clusterRoles :=
          filter (λ o', rbacv1.ClusterRole.Name o' ≠ rbacv1.ClusterRole.Name o)
                 (clusterRoles c);
        clusterRoleBindings := clusterRoleBindings c;
        roleBindings := roleBindings c; dynamicClusterRoles := dynamicClusterRoles c |}
     (DeleteClusterRole o)).

Definition dcrKey (o : kuberbacv1alpha1.DynamicClusterRole.t) : string * string :=
  (metav1.ObjectMeta.Namespace (kuberbacv1alpha1.DynamicClusterRole.ObjectMeta o),
   metav1.ObjectMeta.Name (kuberbacv1alpha1.DynamicClusterRole.ObjectMeta o)).

(** [Update] of the custom resource.  The server drops an object whose
    deletion timestamp is set once its last finalizer is gone. *)
Definition UpdateDynamicClusterRole' (o : kuberbacv1alpha1.DynamicClusterRole.t) : C unit :=
  λ w,
  let c := cluster w in
  let ometa := kuberbacv1alpha1.DynamicClusterRole.ObjectMeta o in
  let stored :=
    if bool_decide (metav1.ObjectMeta.DeletionTimestamp ometa ≠ None)
       && isEmpty (metav1.ObjectMeta.Finalizers ometa)
    then filter (λ o', dcrKey o' ≠ dcrKey o) (dynamicClusterRoles c)
    else upsert dcrKey o (dynamicClusterRoles c) in
  (Ok (), withCluster w
     {| discovery := discovery c; objects := objects c; namespaces := namespaces c;
        serviceAccounts := serviceAccounts c; clusterRoles := clusterRoles c;
        clusterRoleBindings := clusterRoleBindings c;
        roleBindings := roleBindings c; dynamicClusterRoles := stored |}
     (UpdateDynamicClusterRole o)).

(** [Status().Update] of the custom resource. *)
Definition UpdateStatusDynamicClusterRole' (o : kuberbacv1alpha1.DynamicClusterRole.t)
    : C unit := λ w,
  let c := cluster w in
  (Ok (), withCluster w
     {| discovery := discovery c; objects := objects c; namespaces := namespaces c;
        serviceAccounts := serviceAccounts c; clusterRoles := clusterRoles c;
        clusterRoleBindings := clusterRoleBindings c;
        roleBindings := roleBindings c;
        dynamicClusterRoles := upsert dcrKey o (dynamicClusterRoles c) |}
     (UpdateStatusDynamicClusterRole o)).

End client.

(** The four ownership annotations of the targets of a source. *)
Definition referenceAnnotationsOf (typeMeta : metav1.TypeMeta.t)
    (objectMeta : metav1.ObjectMeta.t) : gmap string string :=
  <["kuberbac.prosimcorp.com/owner-apiversion" := metav1.TypeMeta.APIVersion typeMeta]>
  (<["kuberbac.prosimcorp.com/owner-kind" := metav1.TypeMeta.Kind typeMeta]>
  (<["kuberbac.prosimcorp.com/owner-name" := metav1.ObjectMeta.Name objectMeta]>
  (<["kuberbac.prosimcorp.com/owner-namespace" := metav1.ObjectMeta.Namespace objectMeta]>
   ∅))).

(** ** The binding synthesizer (methods of [DynamicRoleBindingReconciler]) *)

Module DynamicRoleBindingReconciler.
Import kuberbacv1alpha1.

Section Synthesizer.

(** Package [regexp]: a compiled expression is its [MatchString].
    [regexp_Compile] fails on a malformed expression; [regexp_zero] is the
    [&regexp.Regexp{}] the code matches with when no expression is given. *)
Variable regexp_Compile : string → outcome (string → outcome bool).
Variable regexp_zero : string → outcome bool.

(** [len(m)] of a map or slice field that may be nil. *)
Definition lenMap (m : option (gmap string string)) : nat := size (default ∅ m).
Definition lenList (l : option (list string)) : nat := length (default [] l).

(** [CheckMetaSelector] checks if the metaSelector has only one field filled. *)
Definition CheckMetaSelector (metaSelector : MetaSelectorT.t) : outcome unit :=
  let filledSelectorFields := 0%nat in
  let filledSelectorFields :=
    if bool_decide (0 < lenMap (MetaSelectorT.MatchLabels metaSelector))%nat
    then S filledSelectorFields else filledSelectorFields in
  let filledSelectorFields :=
    if bool_decide (0 < lenMap (MetaSelectorT.MatchAnnotations metaSelector))%nat
    then S filledSelectorFields else filledSelectorFields in
  if decide (filledSelectorFields ≠ 1%nat)
  then Err "only one of the following fields is allowed as metaSelector: matchLabels, matchAnnotations"
  else Ok ().

(** [CheckNameSelector] checks if the nameSelector has only one field filled. *)
Definition CheckNameSelector (nameSelector : NameSelectorT.t) : outcome unit :=
  let filledSelectorFields := 0%nat in
  let filledSelectorFields :=
    if bool_decide (0 < lenList (NameSelectorT.MatchList nameSelector))%nat
    then S filledSelectorFields else filledSelectorFields in
  let filledSelectorFields :=
    if decide (MatchRegexT.Expression (NameSelectorT.MatchRegex nameSelector) ≠ "")
    then S filledSelectorFields else filledSelectorFields in
  if decide (filledSelectorFields ≠ 1%nat)
  then Err "only one of the following fields is allowed as nameSelector: matchList, matchRegex"
  else Ok ().

(** [CheckNamespaceSelector] checks if the namespaceSelector has only one
    field filled. *)
Definition CheckNamespaceSelector (namespaceSelector : NamespaceSelectorT.t) : outcome unit :=
  let filledSelectorFields := 0%nat in
  let filledSelectorFields :=
    if bool_decide (0 < lenMap (NamespaceSelectorT.MatchLabels namespaceSelector))%nat
    then S filledSelectorFields else filledSelectorFields in
  let filledSelectorFields :=
    if bool_decide (0 < lenList (NamespaceSelectorT.MatchList namespaceSelector))%nat
    then S filledSelectorFields else filledSelectorFields in
  let filledSelectorFields :=
    if decide (MatchRegexT.Expression (NamespaceSelectorT.MatchRegex namespaceSelector) ≠ "")
    then S filledSelectorFields else filledSelectorFields in
  if decide (filledSelectorFields ≠ 1%nat)
  then Err "only one of the following fields is allowed as namespaceSelector: matchLabels, matchList, matchRegex"
  else Ok ().

(** The regular expression a selector matches with. *)
Definition compileRegex (matchRegex : MatchRegexT.t) : outcome (string → outcome bool) :=
  if decide (MatchRegexT.Expression matchRegex ≠ "")
  then regexp_Compile (MatchRegexT.Expression matchRegex)
  else Ok regexp_zero.

(** [FilterNamespaceListBySelector] returns a list of namespaces that match
    a namespaceSelector field. *)
Definition FilterNamespaceListBySelector (namespaceList : list corev1.Namespace.t)
    (namespaceSelector : NamespaceSelectorT.t) : outcome (list string) :=
  (* Return all namespaces if namespaceSelector is empty *)
  if NamespaceSelectorT.IsZero namespaceSelector then
    Ok (foldl (λ namespaces namespace, namespaces ++ [corev1.Namespace.Name namespace])
              [] namespaceList)
  else
    _ ← CheckNamespaceSelector namespaceSelector;
    matchRegex ← compileRegex (NamespaceSelectorT.MatchRegex namespaceSelector);
    foldM (λ namespaces namespace,
      let name := corev1.Namespace.Name namespace in
      (* Check MatchLabels *)
      let namespaces :=
        if bool_decide (0 < lenMap (NamespaceSelectorT.MatchLabels namespaceSelector))%nat
           && globals.IsSubset (default ∅ (NamespaceSelectorT.MatchLabels namespaceSelector))
                               (corev1.Namespace.Labels namespace)
        then namespaces ++ [name] else namespaces in
      (* Check MatchList *)
      let namespaces :=
        if bool_decide (0 < lenList (NamespaceSelectorT.MatchList namespaceSelector))%nat
           && Contains (default [] (NamespaceSelectorT.MatchList namespaceSelector)) name
        then namespaces ++ [name] else namespaces in
      (* Check MatchRegex *)
      if decide (MatchRegexT.Expression (NamespaceSelectorT.MatchRegex namespaceSelector) ≠ "")
      then
        namespaceMatched ← matchRegex name;
        let negative := MatchRegexT.Negative (NamespaceSelectorT.MatchRegex namespaceSelector) in
        if negb namespaceMatched && negative then Ok (namespaces ++ [name])
        else if namespaceMatched && negb negative then Ok (namespaces ++ [name])
        else Ok namespaces
      else Ok namespaces)
    [] namespaceList.

(** The first statement of the loop of [GetServiceAccountsBySelectors]:
    ignore namespaces not present in the desired list. *)
Definition namespaceIgnored (filteredNamespaceList : list string)
    (serviceAccount : corev1.ServiceAccount.t) : bool :=
  negb (isEmpty filteredNamespaceList)
  && negb (Contains filteredNamespaceList (corev1.ServiceAccount.Namespace serviceAccount)).

(** The rest of the loop of [GetServiceAccountsBySelectors]: whether the
    selectors of the subject pick the service account. *)
Definition selected (subject : DynamicRoleBindingSourceSubject.t)
    (matchRegex : string → outcome bool) (serviceAccount : corev1.ServiceAccount.t)
    : outcome bool :=
  let metaSelector := DynamicRoleBindingSourceSubject.MetaSelector subject in
  let nameSelector := DynamicRoleBindingSourceSubject.NameSelector subject in
  match MetaSelectorT.MatchLabels metaSelector with
  | Some matchLabels =>
      Ok (globals.IsSubset matchLabels (corev1.ServiceAccount.Labels serviceAccount))
  | None =>
  match MetaSelectorT.MatchAnnotations metaSelector with
  | Some matchAnnotations =>
      Ok (globals.IsSubset matchAnnotations (corev1.ServiceAccount.Annotations serviceAccount))
  | None =>
  if bool_decide (0 < lenList (NameSelectorT.MatchList nameSelector))%nat then
    Ok (Contains (default [] (NameSelectorT.MatchList nameSelector))
                 (corev1.ServiceAccount.Name serviceAccount))
  else
    nameMatched ← matchRegex (corev1.ServiceAccount.Name serviceAccount);
    let negative := MatchRegexT.Negative (NameSelectorT.MatchRegex nameSelector) in
    if negb nameMatched && negative then Ok true
    else if nameMatched && negb negative then Ok true
    else Ok false
  end end.

(** [GetServiceAccountsBySelectors] *)
Definition GetServiceAccountsBySelectors (filteredNamespaceList : list string)
    (subject : DynamicRoleBindingSourceSubject.t) : C (list corev1.ServiceAccount.t) :=
  let metaSelector := DynamicRoleBindingSourceSubject.MetaSelector subject in
  let nameSelector := DynamicRoleBindingSourceSubject.NameSelector subject in
  tmpServiceAccountList ← client.ListServiceAccounts;
  (* Check nameSelector and metaSelector are NOT filled together *)
  if negb (NameSelectorT.IsZero nameSelector) && negb (MetaSelectorT.IsZero metaSelector)
  then fail "nameSelector and labelSelector are mutually exclusive"
  else
    (* Check only one metaSelector is used at once when filled *)
    _ ← liftC (if negb (MetaSelectorT.IsZero metaSelector)
               then CheckMetaSelector metaSelector else Ok ());
    (* Check only one nameSelector is used at once when filled *)
    _ ← liftC (if negb (NameSelectorT.IsZero nameSelector)
               then CheckNameSelector nameSelector else Ok ());
    (* Compile regex expression when filled *)
    matchRegex ← liftC (compileRegex (NameSelectorT.MatchRegex nameSelector));
    (* Process ServiceAccounts discarding those from not-desired namespaces *)
    liftC (foldM (λ result serviceAccount,
                    if namespaceIgnored filteredNamespaceList serviceAccount then Ok result
                    else
                      picked ← selected subject matchRegex serviceAccount;
                      Ok (if picked : bool then result ++ [serviceAccount] else result))
                 [] tmpServiceAccountList).

(** The loop of [SyncTarget] that looks for an existing role-binding of the
    same name and namespace that does not carry the annotations. *)
Fixpoint foreignRoleBindingFound (existing : list rbacv1.RoleBinding.t)
    (namespace : string) (roleBindingResource : rbacv1.RoleBinding.t) : bool :=
  match existing with
  | [] => false
  | roleBinding :: rest =>
      if bool_decide (rbacv1.RoleBinding.Namespace roleBinding ≠ namespace)
         || bool_decide (rbacv1.RoleBinding.Name roleBinding
                         ≠ rbacv1.RoleBinding.Name roleBindingResource)
      then foreignRoleBindingFound rest namespace roleBindingResource
      else if negb (globals.IsSubset (rbacv1.RoleBinding.Annotations roleBindingResource)
                                     (rbacv1.RoleBinding.Annotations roleBinding))
           then true
           else foreignRoleBindingFound rest namespace roleBindingResource
  end.

(** The first part of [SyncTarget]: the checks of the subject and its
    expansion into the subjects of the binding.  It returns the list of
    namespaces it read, which the second part uses again, and the subjects. *)
Definition expandSubjects (resource : DynamicRoleBinding.t)
    : C (list corev1.Namespace.t * list rbacv1.Subject.t) :=
  let subject := DynamicRoleBindingSource.Subject
                   (DynamicRoleBindingSpec.Source (DynamicRoleBinding.Spec resource)) in
  let kind := DynamicRoleBindingSourceSubject.Kind subject in
  let nameSelector := DynamicRoleBindingSourceSubject.NameSelector subject in
  (* Check source.subject.kind is one of the valid values *)
  if negb (Contains ["ServiceAccount"; "User"; "Group"] kind) then
    fail "source.subject.kind must be one of the following values: ServiceAccount, User, Group"
  (* Check namespaceSelector does NOT exist for subjects other than ServiceAccount *)
  else if Contains ["Group"; "User"] kind
          && (negb (NamespaceSelectorT.IsZero
                      (DynamicRoleBindingSourceSubject.NamespaceSelector subject))
              || negb (MetaSelectorT.IsZero
                         (DynamicRoleBindingSourceSubject.MetaSelector subject))) then
    fail "namespaceSelector and labelSelector are only allowed for ServiceAccount subjects"
  else
    (* Get all the namespaces and filter them by namespaceSelector later *)
    namespaceList ← client.ListNamespaces;
    subjectFilteredNamespaces ←
      liftC (FilterNamespaceListBySelector namespaceList
               (DynamicRoleBindingSourceSubject.NamespaceSelector subject));
    (* Expand Group and User subjects *)
    expandedSubjects ←
      (if Contains ["Group"; "User"] kind then
         if negb (MatchRegexT.IsZero (NameSelectorT.MatchRegex nameSelector)) then
           fail "MatchRegex nameSelector is not allowed for subjects: Group, User"
         else
           match NameSelectorT.MatchList nameSelector with
           | None => fail "MatchList nameSelector is required for subjects: Group, User"
           | Some matchList =>
               mret ((λ listItem,
                        {| rbacv1.Subject.Kind := kind;
                           rbacv1.Subject.APIGroup :=
                             DynamicRoleBindingSourceSubject.ApiGroup subject;
                           rbacv1.Subject.Name := listItem;
                           rbacv1.Subject.Namespace := "" |}) <$> matchList)
           end
       else mret []);
    (* Expand ServiceAccount subjects *)
    if decide (kind = "ServiceAccount") then
      serviceAccounts ←
        wrapErrC "error getting selected ServiceAccounts: "
                 (GetServiceAccountsBySelectors subjectFilteredNamespaces subject);
      mret (namespaceList, expandedSubjects ++
            ((λ serviceAccount,
                {| rbacv1.Subject.Kind := "ServiceAccount";
                   rbacv1.Subject.APIGroup :=
                     DynamicRoleBindingSourceSubject.ApiGroup subject;
                   rbacv1.Subject.Name := corev1.ServiceAccount.Name serviceAccount;
                   rbacv1.Subject.Namespace :=
                     corev1.ServiceAccount.Namespace serviceAccount |})
               <$> serviceAccounts))
    else mret (namespaceList, expandedSubjects).

(** The ownership annotations of the targets of a DynamicRoleBinding. *)
Definition referenceAnnotations (resource : DynamicRoleBinding.t) : gmap string string :=
  referenceAnnotationsOf (DynamicRoleBinding.TypeMeta resource)
                         (DynamicRoleBinding.ObjectMeta resource).

(** The [clusterRoleBindingResource] that [SyncTarget] builds. *)
Definition bindingResource (resource : DynamicRoleBinding.t)
    (expandedSubjects : list rbacv1.Subject.t) : rbacv1.ClusterRoleBinding.t :=
  let targets := DynamicRoleBindingSpec.Targets (DynamicRoleBinding.Spec resource) in
  {| rbacv1.ClusterRoleBinding.ObjectMeta :=
       {| metav1.ObjectMeta.Name := DynamicRoleBindingTargets.Name targets;
          metav1.ObjectMeta.Namespace := "";
          metav1.ObjectMeta.Labels := DynamicRoleBindingTargets.Labels targets;
          (* maps.Copy(targets.Annotations, referenceAnnotations) *)
          metav1.ObjectMeta.Annotations :=
            referenceAnnotations resource ∪ DynamicRoleBindingTargets.Annotations targets;
          metav1.ObjectMeta.DeletionTimestamp := None;
          metav1.ObjectMeta.Finalizers := [] |};
     rbacv1.ClusterRoleBinding.RoleRef :=
       {| rbacv1.RoleRef.APIGroup := "rbac.authorization.k8s.io";
          rbacv1.RoleRef.Kind := "ClusterRole";
          rbacv1.RoleRef.Name :=
            DynamicRoleBindingSource.ClusterRole
              (DynamicRoleBindingSpec.Source (DynamicRoleBinding.Spec resource)) |};
     rbacv1.ClusterRoleBinding.Subjects := expandedSubjects |}.

(** The namespaces of the list that the target selector did not pick
    ([slices.DeleteFunc] of those it picked), by name. *)
Definition complementaryNamespaces (namespaceList : list corev1.Namespace.t)
    (targetFilteredNamespaces : list string) : list string :=
  corev1.Namespace.Name <$>
    filter (λ namespace, corev1.Namespace.Name namespace ∉ targetFilteredNamespaces)
           namespaceList.

(** The last loop of [SyncTarget]: remove owned role-bindings not defined in
    the manifest. *)
Definition reapRoleBindings (referenceAnnotations : gmap string string)
    (complementary : list string) (existing : list rbacv1.RoleBinding.t) : C unit :=
  foldM (λ _ roleBinding,
           let delete :=
             globals.IsSubset referenceAnnotations (rbacv1.RoleBinding.Annotations roleBinding) in
           if delete && Contains complementary (rbacv1.RoleBinding.Namespace roleBinding)
           then client.DeleteRoleBinding' roleBinding
           else mret ())
        () existing.

(** [SyncTarget] calls the Kubernetes API to actually perform actions over
    the resource. *)
Definition SyncTarget (resource : DynamicRoleBinding.t) : C unit :=
  let targets := DynamicRoleBindingSpec.Targets (DynamicRoleBinding.Spec resource) in
'(namespaceList, expandedSubjects) ← expandSubjects resource;
  let clusterRoleBindingResource := bindingResource resource expandedSubjects in
  (* Generate or update the ClusterRoleBinding resource *)
  if DynamicRoleBindingTargets.ClusterScoped targets then
    tmpClusterRoleBindingResource ←
      client.GetClusterRoleBinding (DynamicRoleBindingTargets.Name targets);
    (* Review reference annotations when the resource already exists *)
    match tmpClusterRoleBindingResource with
    | Some existing =>
        (* an object read from the server bears a name: it is not the zero value *)
        if negb (globals.IsSubset (referenceAnnotations resource)
                                  (rbacv1.ClusterRoleBinding.Annotations existing))
        then mret ()
        else client.UpdateClusterRoleBinding' clusterRoleBindingResource
    | None => client.UpdateClusterRoleBinding' clusterRoleBindingResource
    end
  else
    (* Generate or update RoleBinding resources *)
    let roleBindingResource := rbacv1.RoleBinding.ofClusterRoleBinding clusterRoleBindingResource in
    existentRoleBindingList ← client.ListRoleBindings;
    targetFilteredNamespaces ←
      liftC (FilterNamespaceListBySelector namespaceList
               (DynamicRoleBindingTargets.NamespaceSelector targets));
    (* Create the RoleBinding resource on targeted namespaces *)
    _ ← foldM (λ _ namespace,
                 let roleBindingResource :=
                   rbacv1.RoleBinding.SetNamespace roleBindingResource namespace in
                 if foreignRoleBindingFound existentRoleBindingList namespace roleBindingResource
                 then mret ()
                 else client.UpdateRoleBinding' roleBindingResource)
              () targetFilteredNamespaces;
    (* Remove owned RoleBindings not defined in manifest *)
    reapRoleBindings (referenceAnnotations resource)
                     (complementaryNamespaces namespaceList targetFilteredNamespaces)
                     existentRoleBindingList.

End Synthesizer.
End DynamicRoleBindingReconciler.

(** ** The role synthesizer and its reconcile loop
       (methods of [DynamicClusterRoleReconciler]) *)

Module DynamicClusterRoleReconciler.
Import kuberbacv1alpha1.

(** [patchFinalizer] *)
Definition patchFinalizer : string := "kuberbac.prosimcorp.com/finalizer".

(** [ctrl.Result]; the zero duration is no requeue. *)
Record Result : Type := { RequeueAfter : Z }.

(** [controllerutil.ContainsFinalizer], [RemoveFinalizer], [AddFinalizer] *)
Definition setFinalizers (o : DynamicClusterRole.t) (finalizers : list string)
    : DynamicClusterRole.t :=
  let ometa := DynamicClusterRole.ObjectMeta o in
  {| DynamicClusterRole.TypeMeta := DynamicClusterRole.TypeMeta o;
     DynamicClusterRole.ObjectMeta :=
       {| metav1.ObjectMeta.Name := metav1.ObjectMeta.Name ometa;
          metav1.ObjectMeta.Namespace := metav1.ObjectMeta.Namespace ometa;
          metav1.ObjectMeta.Labels := metav1.ObjectMeta.Labels ometa;
          metav1.ObjectMeta.Annotations := metav1.ObjectMeta.Annotations ometa;
          metav1.ObjectMeta.DeletionTimestamp := metav1.ObjectMeta.DeletionTimestamp ometa;
          metav1.ObjectMeta.Finalizers := finalizers |};
     DynamicClusterRole.Spec := DynamicClusterRole.Spec o;
     DynamicClusterRole.Status_Conditions := DynamicClusterRole.Status_Conditions o |}.

Definition ContainsFinalizer (o : DynamicClusterRole.t) (finalizer : string) : bool :=
  Contains (metav1.ObjectMeta.Finalizers (DynamicClusterRole.ObjectMeta o)) finalizer.

Definition RemoveFinalizer (o : DynamicClusterRole.t) (finalizer : string)
    : DynamicClusterRole.t :=
  setFinalizers o (filter (λ f, f ≠ finalizer)
                          (metav1.ObjectMeta.Finalizers (DynamicClusterRole.ObjectMeta o))).

Definition AddFinalizer (o : DynamicClusterRole.t) (finalizer : string)
    : DynamicClusterRole.t :=
  if ContainsFinalizer o finalizer then o
  else setFinalizers o (metav1.ObjectMeta.Finalizers (DynamicClusterRole.ObjectMeta o)
                        ++ [finalizer]).

Definition setConditions (o : DynamicClusterRole.t) (conditions : list metav1.Condition.t)
    : DynamicClusterRole.t :=
  {| DynamicClusterRole.TypeMeta := DynamicClusterRole.TypeMeta o;
     DynamicClusterRole.ObjectMeta := DynamicClusterRole.ObjectMeta o;
     DynamicClusterRole.Spec := DynamicClusterRole.Spec o;
     DynamicClusterRole.Status_Conditions := conditions |}.

(** The ownership annotations of the targets of a DynamicClusterRole. *)
Definition referenceAnnotations (resource : DynamicClusterRole.t) : gmap string string :=
  referenceAnnotationsOf (DynamicClusterRole.TypeMeta resource)
                         (DynamicClusterRole.ObjectMeta resource).

(** [SetResourcesByGroup] retrieves all resources available in the cluster
    and stores a map of groups with their resources. *)
Definition SetResourcesByGroup (discovered : outcome (list metav1.APIResourceList.t))
    : outcome (gmap string (list GVKR)) :=
  apiGroupResourcesLists ← discovered;
  Ok (foldl (λ (resourcesByGroup : gmap string (list GVKR)) resourcesLists,
        let groupVersion := Split (metav1.APIResourceList.GroupVersion resourcesLists) slash in
        let group := if decide (length groupVersion = 2%nat)
                     then firstPart (metav1.APIResourceList.GroupVersion resourcesLists) slash
                     else "" in
        let version := if decide (length groupVersion = 2%nat)
                       then default "" (groupVersion !! 1%nat)
                       else firstPart (metav1.APIResourceList.GroupVersion resourcesLists) slash in
        foldl (λ (resourcesByGroup : gmap string (list GVKR)) apiResource,
                 let resourceSubResource := Split (metav1.APIResource.Name apiResource) slash in
                 let resource := firstPart (metav1.APIResource.Name apiResource) slash in
                 let subresource :=
                   if bool_decide (1 < length resourceSubResource)%nat
                   then Join (drop 1 resourceSubResource) "/" else "" in
                 <[group := default [] (resourcesByGroup !! group) ++
                     [ {| Resource := resource;
                          Subresource := subresource;
                          GVK := {| schema.Group := group;
                                    schema.Version := version;
                                    schema.Kind := metav1.APIResource.Kind apiResource |};
                          Namespaced := metav1.APIResource.Namespaced apiResource;
                          UsableVerbs := metav1.APIResource.Verbs apiResource |} ]]>
                 resourcesByGroup)
              (<[group := []]> resourcesByGroup)
              (metav1.APIResourceList.APIResources resourcesLists))
      ∅ apiGroupResourcesLists).

Section Reconciler.

Variable shuffle : nat → ∀ A : Type, list A → list A.

(** [time.ParseDuration]: the duration, or [None] for an error. *)
Variable time_ParseDuration : string → option Z.

(** The condition helpers and constants of package [globals], which the
    sources of the controllers only call. *)
Variable globals_NewCondition : string → string → string → string → metav1.Condition.t.
Variable globals_UpdateCondition :
  list metav1.Condition.t → metav1.Condition.t → list metav1.Condition.t.
Variable ConditionTypeResourceSynced : string.
Variable ConditionReasonTargetSynced : string.
Variable ConditionReasonTargetSyncedMessage : string.
Variable ConditionReasonKubernetesApiCallErrorType : string.
Variable ConditionReasonKubernetesApiCallErrorMessage : string.

(** [metav1.ConditionTrue] *)
Definition ConditionTrue : string := "True".

Definition UpdateConditionSuccess (resource : DynamicClusterRole.t) : DynamicClusterRole.t :=
  let condition := globals_NewCondition ConditionTypeResourceSynced ConditionTrue
                     ConditionReasonTargetSynced ConditionReasonTargetSyncedMessage in
  setConditions resource
    (globals_UpdateCondition (DynamicClusterRole.Status_Conditions resource) condition).

Definition UpdateConditionKubernetesApiCallFailure (resource : DynamicClusterRole.t)
    : DynamicClusterRole.t :=
  let condition := globals_NewCondition ConditionTypeResourceSynced ConditionTrue
                     ConditionReasonKubernetesApiCallErrorType
                     ConditionReasonKubernetesApiCallErrorMessage in
  setConditions resource
    (globals_UpdateCondition (DynamicClusterRole.Status_Conditions resource) condition).

(** [NewPolicyRuleProcessor] *)
Definition NewPolicyRuleProcessor (c : Cluster) : M PolicyRulesProcessorT :=
  resourcesByGroup ← lift (SetResourcesByGroup (discovery c));
  resourceList ← SetResourceList shuffle resourcesByGroup;
  mret {| Client_List := objects c;
          ResourcesByGroup := resourcesByGroup;
          ResourceList := resourceList |}.

Definition clusterRoleOf (name : string) (annotations labels : gmap string string)
    (rules : list rbacv1.PolicyRule) : rbacv1.ClusterRole.t :=
  {| rbacv1.ClusterRole.ObjectMeta :=
       {| metav1.ObjectMeta.Name := name;
          metav1.ObjectMeta.Namespace := "";
          metav1.ObjectMeta.Labels := labels;
          metav1.ObjectMeta.Annotations := annotations;
          metav1.ObjectMeta.DeletionTimestamp := None;
          metav1.ObjectMeta.Finalizers := [] |};
     rbacv1.ClusterRole.Rules := rules |}.

(** The part of [SyncTarget] before the writes: the cluster roles to write. *)
Definition targetClusterRoles (c : Cluster) (resource : DynamicClusterRole.t)
    : M (list rbacv1.ClusterRole.t) :=
  let spec := DynamicClusterRole.Spec resource in
  let target := DynamicClusterRoleSpec.Target spec in
  policyRulesProcessor ← wrapErr "error generating PolicyRulesProcessor: "
                                 (NewPolicyRuleProcessor c);
  result ← CompileRules shuffle policyRulesProcessor
             (DynamicClusterRoleSpec.Allow spec) (DynamicClusterRoleSpec.Deny spec);
  rules ← mapValues shuffle result;
  if TargetT.SeparateScopes target then
    values ← mapValues shuffle result;
    '(clusterScopedRules, namespaceScopedRules) ←
      lift (SplitPolicyRules policyRulesProcessor values);
    mret [ clusterRoleOf (TargetT.Name target +:+ "-cluster")
             (referenceAnnotations resource) (TargetT.Labels target) clusterScopedRules;
           clusterRoleOf (TargetT.Name target +:+ "-namespace")
             (referenceAnnotations resource) (TargetT.Labels target) namespaceScopedRules ]
  else
    mret [ clusterRoleOf (TargetT.Name target)
             (referenceAnnotations resource) (TargetT.Labels target) rules ].

(** [SyncTarget] calls the Kubernetes API to actually perform actions over
    the resource.  [n] is the number of map iterations run before. *)
Definition SyncTarget (resource : DynamicClusterRole.t) (n : nat) : C unit := λ w,
  match value (targetClusterRoles (cluster w) resource) n with
  | Ok clusterRoles =>
      foldM (λ _ clusterRole, client.UpdateClusterRole' clusterRole) () clusterRoles w
  | Err e => (Err e, w)
  | Panic => (Panic, w)
  end.

(** [DeleteTargets] deletes all the ClusterRoles that are owned by the
    DynamicClusterRole resource. *)
Definition DeleteTargets (resource : DynamicClusterRole.t) : C unit :=
  clusterRoleList ← client.ListClusterRoles;
  foldM (λ _ clusterRole,
           if globals.IsSubset (referenceAnnotations resource)
                               (rbacv1.ClusterRole.Annotations clusterRole)
           then client.DeleteClusterRole' clusterRole
           else mret ())
        () clusterRoleList.

(** Steps 7 and 8 of [Reconcile], followed by the deferred status update:
    sync the target, set the condition, update the status. *)
Definition syncAndReport (resource : DynamicClusterRole.t) (result : Result) (n : nat)
    : C Result := λ w,
  match SyncTarget resource n w with
  | (Ok _, w') =>
      (_ ← client.UpdateStatusDynamicClusterRole' (UpdateConditionSuccess resource);
       mret result) w'
  | (Err _, w') =>
      (_ ← client.UpdateStatusDynamicClusterRole'
             (UpdateConditionKubernetesApiCallFailure resource);
       mret result) w'
  | (Panic, w') => (Panic, (client.UpdateStatusDynamicClusterRole' resource w').2)
  end.

(** Step 4 of [Reconcile]: add the finalizer to the resource. *)
Definition ensureFinalizer (resource : DynamicClusterRole.t) : C DynamicClusterRole.t :=
  if negb (ContainsFinalizer resource patchFinalizer) then
    let resource := AddFinalizer resource patchFinalizer in
    _ ← client.UpdateDynamicClusterRole' resource;
    mret resource
  else mret resource.

(** [Reconcile] is part of the main kubernetes reconciliation loop.  The
    request names the resource; [n] is the number of map iterations run
    before.  The status update deferred at step 5 runs at every later
    return, and its error is the one [Reconcile] returns. *)
Definition Reconcile (namespace name : string) (n : nat) : C Result :=
  let noRequeue := {| RequeueAfter := 0 |} in
  (* 1, 2. get the resource; not found: nothing to do *)
  found ← client.GetDynamicClusterRole namespace name;
  match found with
  | None => mret noRequeue
  | Some resource =>
      (* 3. the resource is marked to be deleted *)
      if bool_decide (metav1.ObjectMeta.DeletionTimestamp
                        (DynamicClusterRole.ObjectMeta resource) ≠ None) then
        _ ← (if ContainsFinalizer resource patchFinalizer
             then client.UpdateDynamicClusterRole' (RemoveFinalizer resource patchFinalizer)
             else mret ());
        mret noRequeue
      else
        (* 4. add the finalizer *)
        resource ← ensureFinalizer resource;
        (* 6. schedule the periodical request *)
        match time_ParseDuration
                (SynchronizationT.Time
                   (DynamicClusterRoleSpec.Synchronization (DynamicClusterRole.Spec resource)))
        with
        | None =>
            _ ← client.UpdateStatusDynamicClusterRole' resource;
            mret noRequeue
        | Some RequeueTime =>
            syncAndReport resource {| RequeueAfter := RequeueTime |} n
        end
  end.

End Reconciler.
End DynamicClusterRoleReconciler.

(** * Properties *)

(** ** Vocabulary of the statements *)

(** The number of occurrences of [v] in [l]. *)
Fixpoint occurrences (v : string) (l : list string) : nat :=
  match l with
  | [] => 0%nat
  | x :: l' => if decide (x = v) then S (occurrences v l') else occurrences v l'
  end.

(** The counter of a verb after [k] increments. *)
Definition bumped (k : nat) (c : Z) : Z := Nat.iter k (λ c, wrap64 (c + 1)) c.

(** The three loops of [GetSurvivingVerbs], one by one. *)
Definition markAllowed (allowVerbs : list string) (tmpMap : gmap string Z) : gmap string Z :=
  foldl (λ tmpMap v, <[v := 1]> tmpMap) tmpMap allowVerbs.

Definition countDenied (denyVerbs : list string) (tmpMap : gmap string Z) : gmap string Z :=
  foldl (λ tmpMap v,
           match tmpMap !! v with
           | None => tmpMap
           | Some c => <[v := wrap64 (c + 1)]> tmpMap
           end) tmpMap denyVerbs.

Definition pickSurvivors (entries : list (string * Z)) (result : list string) : list string :=
  foldl (λ result '(tmpMapKey, tmpMapVal),
           if decide (tmpMapVal = 1) then result ++ [tmpMapKey] else result)
        result entries.

(** The verbs an allow map grants on a key: none when the key is missing. *)
Definition verbsAt (m : gmap string rbacv1.PolicyRule) (key : string) : list string :=
  rbacv1.Verbs (ruleAt m key).

(** Whether [EvaluatePolicyRules] subtracts the verbs of the deny entry at
    [denyMapKey] from the allow entry at [allowMapKey]: the four cases of
    its loop. *)
Definition applies (denyMapKey allowMapKey : string) : bool :=
  if HasPrefix denyMapKey "nonresourceurl" then
    if HasSuffix denyMapKey star
    then HasPrefix allowMapKey (TrimSuffix denyMapKey star)
    else bool_decide (allowMapKey = denyMapKey)
  else
    match Split denyMapKey hash !! 2%nat with
    | Some name =>
        if decide (name = "") then HasPrefix allowMapKey denyMapKey
        else bool_decide (allowMapKey = denyMapKey)
    | None => false
    end.

(** A key [EvaluatePolicyRules] can take apart: a URL key, or a key of at
    least three parts. *)
Definition splittable (key : string) : Prop :=
  HasPrefix key "nonresourceurl" = true ∨ is_Some (Split key hash !! 2%nat).

(** The allow map [m'] is [m] after the subtraction of [denyVerbs] from the
    entries that [hit] selects: the verbs of every key, the other fields of
    the entries that remain, and no entry that was hit is left without
    verbs. *)
Definition subtracted (denyVerbs : list string) (hit : string → bool)
    (m m' : gmap string rbacv1.PolicyRule) : Prop :=
  ∀ a,
    (∀ v, v ∈ verbsAt m' a ↔ v ∈ verbsAt m a ∧ (hit a = true → v ∉ denyVerbs))
    ∧ (∀ r', m' !! a = Some r' →
             ∃ r, m !! a = Some r ∧ r' = rbacv1.withVerbs r (rbacv1.Verbs r'))
    ∧ (∀ r', m' !! a = Some r' → hit a = true → rbacv1.Verbs r' ≠ []).

(** The same for a list of deny entries. *)
Definition evaluated (entries : list (string * rbacv1.PolicyRule))
    (m m' : gmap string rbacv1.PolicyRule) : Prop :=
  ∀ a,
    (∀ v, v ∈ verbsAt m' a ↔
          v ∈ verbsAt m a
          ∧ ∀ d dr, (d, dr) ∈ entries → applies d a = true → v ∉ rbacv1.Verbs dr)
    ∧ (∀ r', m' !! a = Some r' →
             ∃ r, m !! a = Some r ∧ r' = rbacv1.withVerbs r (rbacv1.Verbs r'))
    ∧ (∀ r', m' !! a = Some r' →
             (∃ d dr, (d, dr) ∈ entries ∧ applies d a = true) → rbacv1.Verbs r' ≠ []).

(** What one pass of a prefix loop of [EvaluatePolicyRules] does to the
    entry of a key. *)
Definition passed (denyVerbs : list string) (hit : bool)
    (o o' : option rbacv1.PolicyRule) : Prop :=
  match o with
  | None => o' = None
  | Some r =>
      ∃ vs, (∀ v, v ∈ vs ↔ v ∈ rbacv1.Verbs r ∧ (hit = true → v ∉ denyVerbs))
            ∧ o' = if isEmpty vs then None else Some (rbacv1.withVerbs r vs)
  end.

(** The keys of the resource rules: ["group#resource#"] for a rule without
    a resource name, followed by the name for a rule with one. *)
Definition broadKey (group resource : string) : string :=
  group +:+ "#" +:+ resource +:+ "#".

Definition nameKey (group resource name : string) : string :=
  broadKey group resource +:+ name.

(** The byte ['#'] does not occur in the string. *)
Definition nohash (s : string) : Prop := occurs hash s = false.

(** A deny entry as [GetMapFromStretchedPolicyRules] makes them: the key of
    a URL rule, or the key of a resource rule together with the group and
    the resource in the rule. *)
Definition keyed (key : string) (rule : rbacv1.PolicyRule) : Prop :=
  HasPrefix key "nonresourceurl" = true
  ∨ ∃ group resource name,
      key = nameKey group resource name
      ∧ nohash group ∧ nohash resource ∧ nohash name
      ∧ rbacv1.APIGroups rule = [group] ∧ rbacv1.Resources rule = [resource].

(** The per-instance allow that [EvaluateSpecialCases] writes for a name. *)
Definition instanceRule (broad : rbacv1.PolicyRule) (name : string) : rbacv1.PolicyRule :=
  {| rbacv1.APIGroups := rbacv1.APIGroups broad;
     rbacv1.Resources := rbacv1.Resources broad;
     rbacv1.ResourceNames := [name];
     rbacv1.Verbs := rbacv1.Verbs broad;
     rbacv1.NonResourceURLs := [] |}.

(** The names of the live objects of a resource, as [EvaluateSpecialCases]
    lists them. *)
Definition instancesOf (p : PolicyRulesProcessorT) (group resource : string)
    : outcome (list string) :=
  Client_List p (GVK (findGvkr p group (firstPart resource slash))).

(** The names of Kubernetes objects are not empty. *)
Definition objectName (name : string) : Prop := name ≠ "".

(** The state of the allow map once [EvaluateSpecialCases] has replaced the
    broad allow of a resource: the broad key is gone and every live object
    of the resource has its own allow. *)
Definition expandedAt (group resource : string) (names : list string)
    (broad : rbacv1.PolicyRule) (m : gmap string rbacv1.PolicyRule) : Prop :=
  m !! broadKey group resource = None
  ∧ ∀ n, n ∈ names → m !! nameKey group resource n = Some (instanceRule broad n).

(** What one turn of the loop of [EvaluateSpecialCases] does for a deny
    entry: nothing, or the expansion of the broad allow of its resource. *)
Definition expansion (p : PolicyRulesProcessorT) (denyMapkey : string)
    (m m' : gmap string rbacv1.PolicyRule) : Prop :=
  (m' = m
   ∧ ∀ group resource name,
       denyMapkey = nameKey group resource name →
       nohash group → nohash resource → name ≠ "" →
       HasPrefix denyMapkey "nonresourceurl" = false →
       m !! broadKey group resource = None)
  ∨ ∃ group resource name names broad,
      denyMapkey = nameKey group resource name
      ∧ nohash group ∧ nohash resource ∧ name ≠ ""
      ∧ m !! broadKey group resource = Some broad
      ∧ instancesOf p group resource = Ok names ∧ Forall objectName names
      ∧ m' = delete (broadKey group resource)
                    (allowPerInstance (broadKey group resource) names m).

(** The listing of the objects of a kind succeeds, with names of objects. *)
Definition listerAnswers (p : PolicyRulesProcessorT) : Prop :=
  ∀ gvk, ∃ names, Client_List p gvk = Ok names ∧ Forall objectName names.

(** Stage D of the compiler: the special cases, then the evaluation. *)
Definition Evaluate (shuffle : nat → ∀ A : Type, list A → list A)
    (p : PolicyRulesProcessorT) (allowMap denyMap : gmap string rbacv1.PolicyRule)
    : M (gmap string rbacv1.PolicyRule) :=
  allowMap ← EvaluateSpecialCases shuffle p allowMap denyMap;
  EvaluatePolicyRules shuffle allowMap denyMap.

(** The name-scoped deny as it is claimed for the deny entry on [name]: of
    the per-instance allows that replace the broad allow, the one of [name]
    loses the verbs of that entry and every other one keeps all the verbs of
    the broad allow. *)
Definition nameScopedDenyAsClaimed (shuffle : nat → ∀ A : Type, list A → list A)
    (p : PolicyRulesProcessorT) (allowMap denyMap : gmap string rbacv1.PolicyRule)
    (group resource name : string) : Prop :=
  ∀ broad deny names,
    allowMap !! broadKey group resource = Some broad →
    denyMap !! nameKey group resource name = Some deny →
    instancesOf p group resource = Ok names →
    ∃ result n',
      Evaluate shuffle p allowMap denyMap 0%nat = Ok (result, n')
      ∧ result !! broadKey group resource = None
      ∧ (∀ v, v ∈ verbsAt result (nameKey group resource name)
              ↔ v ∈ rbacv1.Verbs broad ∧ v ∉ rbacv1.Verbs deny)
      ∧ (∀ n, n ∈ names → n ≠ name →
              ∀ v, v ∈ verbsAt result (nameKey group resource n) ↔ v ∈ rbacv1.Verbs broad).

(** Map iteration in the order of the keys, an order the runtime may pick. *)
Definition inOrder : nat → ∀ A : Type, list A → list A := λ _ _ l, l.

(** A rule on resources and a rule on URLs. *)
Definition resourceRule (groups resources names verbs : list string) : rbacv1.PolicyRule :=
  {| rbacv1.APIGroups := groups; rbacv1.Resources := resources;
     rbacv1.ResourceNames := names; rbacv1.Verbs := verbs;
     rbacv1.NonResourceURLs := [] |}.

Definition urlRule (urls verbs : list string) : rbacv1.PolicyRule :=
  {| rbacv1.APIGroups := []; rbacv1.Resources := []; rbacv1.ResourceNames := [];
     rbacv1.Verbs := verbs; rbacv1.NonResourceURLs := urls |}.

Definition gvkr (group version kind resource subresource : string) (namespaced : bool)
    : GVKR :=
  {| GVK := {| schema.Group := group; schema.Version := version; schema.Kind := kind |};
     Resource := resource; Subresource := subresource; Namespaced := namespaced;
     UsableVerbs := [] |}.

(** A small cluster: pods, configmaps and nodes in the core group,
    deployments in [apps]; every listing answers the objects [a], [b], [c]. *)
Definition sampleProcessor : PolicyRulesProcessorT :=
  {| Client_List := λ _, Ok ["a"; "b"; "c"];
     ResourcesByGroup :=
       {[ "" := [ gvkr "" "v1" "Pod" "pods" "" true;
                  gvkr "" "v1" "ConfigMap" "configmaps" "" true;
                  gvkr "" "v1" "Node" "nodes" "" false ];
          "apps" := [ gvkr "apps" "v1" "Deployment" "deployments" "" true ] ]};
     ResourceList := ["deployments"; "pods"; "configmaps"; "nodes"] |}.

(** A broad allow on configmaps, and two denies on the configmaps [a], [b]. *)
Definition sampleAllowMap : gmap string rbacv1.PolicyRule :=
  {[ "#configmaps#" := resourceRule [""] ["configmaps"] [] ["get"; "delete"] ]}.

Definition sampleDenyMap : gmap string rbacv1.PolicyRule :=
  <["#configmaps#a" := resourceRule [""] ["configmaps"] ["a"] ["delete"]]>
    {[ "#configmaps#b" := resourceRule [""] ["configmaps"] ["b"] ["get"] ]}.

(** The property of the groups the cleanup of [ExpandPolicyRules] keeps: the
    group holds one of the resources, compared on the name before ["/"]. *)
Definition ownsOneOf (p : PolicyRulesProcessorT) (resources : list string) (group : string)
    : Prop :=
  ∃ resource gvkr,
    resource ∈ resources ∧ gvkr ∈ groupResources p group
    ∧ Resource gvkr = firstPart resource slash.


(** A computation that only reads the cluster: run in [w] it leaves [w] as
    it is, and what it returns satisfies [Q]. *)
Definition observes {A} (w : World) (c : C A) (Q : A → Prop) : Prop :=
  match c w with
  | (Ok a, w') => w' = w ∧ Q a
  | (_, w') => w' = w
  end.

(** The writing calls a run has added to those of [w]. *)
Definition newCalls (w w' : World) (new : list Call) : Prop := calls w' = calls w ++ new.

(** The role-bindings [SyncTarget] upserts: the binding in every target
    namespace that holds no binding of the name without the annotations. *)
Definition upsertedRoleBindings (existing : list rbacv1.RoleBinding.t)
    (roleBindingResource : rbacv1.RoleBinding.t) (targetNamespaces : list string)
    : list rbacv1.RoleBinding.t :=
  rbacv1.RoleBinding.SetNamespace roleBindingResource <$>
    filter (λ namespace,
              DynamicRoleBindingReconciler.foreignRoleBindingFound existing namespace
                (rbacv1.RoleBinding.SetNamespace roleBindingResource namespace) = false)
           targetNamespaces.

(** The role-bindings [SyncTarget] reaps: those of the listed ones that
    bear the ownership annotations and live in a namespace of the
    complement. *)
Definition reapedRoleBindings (referenceAnnotations : gmap string string)
    (complementary : list string) (existing : list rbacv1.RoleBinding.t)
    : list rbacv1.RoleBinding.t :=
  filter (λ roleBinding,
            globals.IsSubset referenceAnnotations
                             (rbacv1.RoleBinding.Annotations roleBinding) = true
            ∧ rbacv1.RoleBinding.Namespace roleBinding ∈ complementary)
         existing.

(** The key of a role-binding in the cluster. *)
Definition roleBindingKey (o : rbacv1.RoleBinding.t) : string * string :=
  (rbacv1.RoleBinding.Namespace o, rbacv1.RoleBinding.Name o).

(** C8 as it is claimed: with [clusterScoped=true] and a cluster-role-binding
    of the name of the target that does not bear the ownership annotations,
    [SyncTarget] writes nothing and returns without error. *)
Definition foreignBindingKeptAsClaimed
    (regexp_Compile : string → outcome (string → outcome bool))
    (regexp_zero : string → outcome bool)
    (resource : kuberbacv1alpha1.DynamicRoleBinding.t) (w : World) : Prop :=
  let targets := kuberbacv1alpha1.DynamicRoleBindingSpec.Targets
                   (kuberbacv1alpha1.DynamicRoleBinding.Spec resource) in
  kuberbacv1alpha1.DynamicRoleBindingTargets.ClusterScoped targets = true →
  ∀ existing,
    existing ∈ clusterRoleBindings (cluster w) →
    rbacv1.ClusterRoleBinding.Name existing
    = kuberbacv1alpha1.DynamicRoleBindingTargets.Name targets →
    globals.IsSubset (DynamicRoleBindingReconciler.referenceAnnotations resource)
                     (rbacv1.ClusterRoleBinding.Annotations existing) = false →
    DynamicRoleBindingReconciler.SyncTarget regexp_Compile regexp_zero resource w
    = (Ok (), w).

(** C9 as it is claimed: with [clusterScoped=false] and a zero target
    selector, the set of target namespaces is empty and no role-binding is
    written. *)
Definition emptyTargetSelectorAsClaimed
    (regexp_Compile : string → outcome (string → outcome bool))
    (regexp_zero : string → outcome bool)
    (resource : kuberbacv1alpha1.DynamicRoleBinding.t) (w : World) : Prop :=
  let targets := kuberbacv1alpha1.DynamicRoleBindingSpec.Targets
                   (kuberbacv1alpha1.DynamicRoleBinding.Spec resource) in
  kuberbacv1alpha1.DynamicRoleBindingTargets.ClusterScoped targets = false →
  kuberbacv1alpha1.NamespaceSelectorT.IsZero
    (kuberbacv1alpha1.DynamicRoleBindingTargets.NamespaceSelector targets) = true →
  DynamicRoleBindingReconciler.FilterNamespaceListBySelector regexp_Compile regexp_zero
    (namespaces (cluster w))
    (kuberbacv1alpha1.DynamicRoleBindingTargets.NamespaceSelector targets) = Ok []
  ∧ ∀ roleBinding,
      UpdateRoleBinding roleBinding
      ∉ calls (DynamicRoleBindingReconciler.SyncTarget regexp_Compile regexp_zero
                 resource w).2.

(** Sample objects of the binding synthesizer. *)
Definition objectMeta (name namespace : string) (annotations : gmap string string)
    : metav1.ObjectMeta.t :=
  {| metav1.ObjectMeta.Name := name; metav1.ObjectMeta.Namespace := namespace;
     metav1.ObjectMeta.Labels := ∅; metav1.ObjectMeta.Annotations := annotations;
     metav1.ObjectMeta.DeletionTimestamp := None; metav1.ObjectMeta.Finalizers := [] |}.

Definition namespaceNamed (name : string) : corev1.Namespace.t :=
  {| corev1.Namespace.ObjectMeta := objectMeta name "" ∅ |}.

Definition serviceAccountIn (namespace name : string) : corev1.ServiceAccount.t :=
  {| corev1.ServiceAccount.ObjectMeta := objectMeta name namespace ∅ |}.

Definition noRegex : kuberbacv1alpha1.MatchRegexT.t :=
  {| kuberbacv1alpha1.MatchRegexT.Negative := false;
     kuberbacv1alpha1.MatchRegexT.Expression := "" |}.

Definition noMetaSelector : kuberbacv1alpha1.MetaSelectorT.t :=
  {| kuberbacv1alpha1.MetaSelectorT.MatchLabels := None;
     kuberbacv1alpha1.MetaSelectorT.MatchAnnotations := None |}.

Definition namesListed (names : list string) : kuberbacv1alpha1.NameSelectorT.t :=
  {| kuberbacv1alpha1.NameSelectorT.MatchList := Some names;
     kuberbacv1alpha1.NameSelectorT.MatchRegex := noRegex |}.

Definition namespacesListed (names : list string) : kuberbacv1alpha1.NamespaceSelectorT.t :=
  {| kuberbacv1alpha1.NamespaceSelectorT.MatchLabels := None;
     kuberbacv1alpha1.NamespaceSelectorT.MatchList := Some names;
     kuberbacv1alpha1.NamespaceSelectorT.MatchRegex := noRegex |}.

(** A DynamicRoleBinding named [binding] for the cluster role [viewer]. *)
Definition sampleBinding (kind : string)
    (nameSelector : kuberbacv1alpha1.NameSelectorT.t)
    (sourceNamespaces : kuberbacv1alpha1.NamespaceSelectorT.t)
    (clusterScoped : bool) (targetNamespaces : kuberbacv1alpha1.NamespaceSelectorT.t)
    : kuberbacv1alpha1.DynamicRoleBinding.t :=
  {| kuberbacv1alpha1.DynamicRoleBinding.TypeMeta :=
       {| metav1.TypeMeta.Kind := "DynamicRoleBinding";
          metav1.TypeMeta.APIVersion := "kuberbac.prosimcorp.com/v1alpha1" |};
     kuberbacv1alpha1.DynamicRoleBinding.ObjectMeta := objectMeta "binding" "" ∅;
     kuberbacv1alpha1.DynamicRoleBinding.Spec :=
       {| kuberbacv1alpha1.DynamicRoleBindingSpec.Synchronization :=
            {| kuberbacv1alpha1.SynchronizationT.Time := "10s" |};
          kuberbacv1alpha1.DynamicRoleBindingSpec.Source :=
            {| kuberbacv1alpha1.DynamicRoleBindingSource.ClusterRole := "viewer";
               kuberbacv1alpha1.DynamicRoleBindingSource.Subject :=
                 {| kuberbacv1alpha1.DynamicRoleBindingSourceSubject.ApiGroup := "";
                    kuberbacv1alpha1.DynamicRoleBindingSourceSubject.Kind := kind;
                    kuberbacv1alpha1.DynamicRoleBindingSourceSubject.MetaSelector :=
                      noMetaSelector;
                    kuberbacv1alpha1.DynamicRoleBindingSourceSubject.NameSelector :=
                      nameSelector;
                    kuberbacv1alpha1.DynamicRoleBindingSourceSubject.NamespaceSelector :=
                      sourceNamespaces |} |};
          kuberbacv1alpha1.DynamicRoleBindingSpec.Targets :=
            {| kuberbacv1alpha1.DynamicRoleBindingTargets.Name := "x";
               kuberbacv1alpha1.DynamicRoleBindingTargets.Annotations := ∅;
               kuberbacv1alpha1.DynamicRoleBindingTargets.Labels := ∅;
               kuberbacv1alpha1.DynamicRoleBindingTargets.ClusterScoped := clusterScoped;
               kuberbacv1alpha1.DynamicRoleBindingTargets.NamespaceSelector :=
                 targetNamespaces |} |} |}.

Definition roleBindingIn (namespace name : string) (annotations : gmap string string)
    : rbacv1.RoleBinding.t :=
  {| rbacv1.RoleBinding.ObjectMeta := objectMeta name namespace annotations;
     rbacv1.RoleBinding.Subjects := [];
     rbacv1.RoleBinding.RoleRef :=
       {| rbacv1.RoleRef.APIGroup := "rbac.authorization.k8s.io";
          rbacv1.RoleRef.Kind := "ClusterRole"; rbacv1.RoleRef.Name := "viewer" |} |}.

(** The ownership annotations of the targets of [sampleBinding]. *)
Definition sampleOwnership : gmap string string :=
  referenceAnnotationsOf
    {| metav1.TypeMeta.Kind := "DynamicRoleBinding";
       metav1.TypeMeta.APIVersion := "kuberbac.prosimcorp.com/v1alpha1" |}
    (objectMeta "binding" "" ∅).

Definition foreignBinding : rbacv1.ClusterRoleBinding.t :=
  {| rbacv1.ClusterRoleBinding.ObjectMeta := objectMeta "x" "" ∅;
     rbacv1.ClusterRoleBinding.Subjects := [];
     rbacv1.ClusterRoleBinding.RoleRef :=
       {| rbacv1.RoleRef.APIGroup := "rbac.authorization.k8s.io";
          rbacv1.RoleRef.Kind := "ClusterRole"; rbacv1.RoleRef.Name := "admin" |} |}.

(** A cluster of the namespaces [ns1], [ns3], [ns4], with a service account
    in [ns1], a foreign cluster-role-binding [x], and role-bindings [x] of
    [sampleBinding] in [ns3] and [ns4]. *)
Definition sampleCluster : Cluster :=
  {| discovery := Ok [];
     objects := λ _, Ok [];
     namespaces := [namespaceNamed "ns1"; namespaceNamed "ns3"; namespaceNamed "ns4"];
     serviceAccounts := [serviceAccountIn "ns1" "default"];
     clusterRoles := [];
     clusterRoleBindings := [foreignBinding];
     roleBindings := [roleBindingIn "ns3" "x" sampleOwnership;
                      roleBindingIn "ns4" "x" sampleOwnership];
     dynamicClusterRoles := [] |}.

Definition sampleWorld : World := {| cluster := sampleCluster; calls := [] |}.

(** A regular-expression engine that refuses every expression; the samples
    use none. *)
Definition noCompile : string → outcome (string → outcome bool) :=
  λ _, Err "error parsing regexp".
Definition neverMatches : string → outcome bool := λ _, Ok false.

(** The sample bindings of the statements: users listed by name, cluster
    scoped or not, with a target selector. *)
Definition userBinding (kind : string) (clusterScoped : bool)
    (targetNamespaces : kuberbacv1alpha1.NamespaceSelectorT.t)
    : kuberbacv1alpha1.DynamicRoleBinding.t :=
  sampleBinding kind (namesListed ["alice"]) kuberbacv1alpha1.NamespaceSelectorT.zero
                clusterScoped targetNamespaces.

Definition alice : rbacv1.Subject.t :=
  {| rbacv1.Subject.Kind := "User"; rbacv1.Subject.APIGroup := "";
     rbacv1.Subject.Name := "alice"; rbacv1.Subject.Namespace := "" |}.

(** A DynamicClusterRole marked for deletion that still bears the
    finalizer, and a cluster role it owns. *)
Definition deletedRole : kuberbacv1alpha1.DynamicClusterRole.t :=
  {| kuberbacv1alpha1.DynamicClusterRole.TypeMeta :=
       {| metav1.TypeMeta.Kind := "DynamicClusterRole";
          metav1.TypeMeta.APIVersion := "kuberbac.prosimcorp.com/v1alpha1" |};
     kuberbacv1alpha1.DynamicClusterRole.ObjectMeta :=
       {| metav1.ObjectMeta.Name := "role"; metav1.ObjectMeta.Namespace := "";
          metav1.ObjectMeta.Labels := ∅; metav1.ObjectMeta.Annotations := ∅;
          metav1.ObjectMeta.DeletionTimestamp := Some 1;
          metav1.ObjectMeta.Finalizers := [DynamicClusterRoleReconciler.patchFinalizer] |};
     kuberbacv1alpha1.DynamicClusterRole.Spec :=
       {| kuberbacv1alpha1.DynamicClusterRoleSpec.Synchronization :=
            {| kuberbacv1alpha1.SynchronizationT.Time := "10s" |};
          kuberbacv1alpha1.DynamicClusterRoleSpec.Target :=
            {| kuberbacv1alpha1.TargetT.Name := "role";
               kuberbacv1alpha1.TargetT.Annotations := ∅;
               kuberbacv1alpha1.TargetT.Labels := ∅;
               kuberbacv1alpha1.TargetT.SeparateScopes := false |};
          kuberbacv1alpha1.DynamicClusterRoleSpec.Allow :=
            [resourceRule [""] ["pods"] [] ["get"]];
          kuberbacv1alpha1.DynamicClusterRoleSpec.Deny := [] |};
     kuberbacv1alpha1.DynamicClusterRole.Status_Conditions := [] |}.

Definition ownedRole : rbacv1.ClusterRole.t :=
  {| rbacv1.ClusterRole.ObjectMeta :=
       objectMeta "role" "" (DynamicClusterRoleReconciler.referenceAnnotations deletedRole);
     rbacv1.ClusterRole.Rules := [resourceRule [""] ["pods"] [] ["get"]] |}.

Definition deletedWorld : World :=
  {| cluster :=
       {| discovery := Ok []; objects := λ _, Ok [];
          namespaces := []; serviceAccounts := [];
          clusterRoles := [ownedRole];
          clusterRoleBindings := []; roleBindings := [];
          dynamicClusterRoles := [deletedRole] |};
     calls := [] |}.

(** ** Vocabulary of the further properties *)

(** The cluster roles of a list that bear the ownership annotations of a
    DynamicClusterRole, and those that do not. *)
Definition ownedClusterRoles (resource : kuberbacv1alpha1.DynamicClusterRole.t)
    (l : list rbacv1.ClusterRole.t) : list rbacv1.ClusterRole.t :=
  filter (λ clusterRole,
            globals.IsSubset (DynamicClusterRoleReconciler.referenceAnnotations resource)
                             (rbacv1.ClusterRole.Annotations clusterRole) = true) l.

Definition foreignClusterRoles (resource : kuberbacv1alpha1.DynamicClusterRole.t)
    (l : list rbacv1.ClusterRole.t) : list rbacv1.ClusterRole.t :=
  filter (λ clusterRole,
            globals.IsSubset (DynamicClusterRoleReconciler.referenceAnnotations resource)
                             (rbacv1.ClusterRole.Annotations clusterRole) ≠ true) l.

(** A call that deletes an object. *)
Definition isDelete (call : Call) : bool :=
  match call with
  | DeleteClusterRole _ | DeleteRoleBinding _ => true
  | _ => false
  end.

(** Every writing call that the computation issues satisfies [P], from
    whatever state it is run and however it ends. *)
Definition issues {A} (P : Call → Prop) (c : C A) : Prop :=
  ∀ w, ∃ new, calls (c w).2 = calls w ++ new ∧ Forall P new.

(** A call that writes or deletes a binding that bears the ownership
    annotations of the DynamicRoleBinding. *)
Definition onOwnBinding (resource : kuberbacv1alpha1.DynamicRoleBinding.t) (call : Call)
    : Prop :=
  match call with
  | UpdateClusterRoleBinding o =>
      globals.IsSubset (DynamicRoleBindingReconciler.referenceAnnotations resource)
                       (rbacv1.ClusterRoleBinding.Annotations o) = true
  | UpdateRoleBinding o | DeleteRoleBinding o =>
      globals.IsSubset (DynamicRoleBindingReconciler.referenceAnnotations resource)
                       (rbacv1.RoleBinding.Annotations o) = true
  | _ => False
  end.

(** What the one filled field of a namespace selector asks of a namespace:
    the labels of the selector among its labels, its name in the list, or
    its name matching the expression exactly when the selector is not
    negative.  [matches] is the matching of the compiled expression. *)
Definition picksNamespace (namespaceSelector : kuberbacv1alpha1.NamespaceSelectorT.t)
    (matches : string → bool) (namespace : corev1.Namespace.t) : bool :=
  let labels := default ∅ (kuberbacv1alpha1.NamespaceSelectorT.MatchLabels namespaceSelector) in
  let names := default [] (kuberbacv1alpha1.NamespaceSelectorT.MatchList namespaceSelector) in
  let matchRegex := kuberbacv1alpha1.NamespaceSelectorT.MatchRegex namespaceSelector in
  if bool_decide (labels ≠ ∅) then
    globals.IsSubset labels (corev1.Namespace.Labels namespace)
  else if bool_decide (names ≠ []) then
    bool_decide (corev1.Namespace.Name namespace ∈ names)
  else
    xorb (matches (corev1.Namespace.Name namespace))
         (kuberbacv1alpha1.MatchRegexT.Negative matchRegex).

(** Exactly one of three propositions holds. *)
Definition exactlyOne (a b c : Prop) : Prop :=
  (a ∧ ¬ b ∧ ¬ c) ∨ (¬ a ∧ b ∧ ¬ c) ∨ (¬ a ∧ ¬ b ∧ c).

(** The subject of a binding for an item of the list of a User or Group
    selector. *)
Definition listedSubject (subject : kuberbacv1alpha1.DynamicRoleBindingSourceSubject.t)
    (listItem : string) : rbacv1.Subject.t :=
  {| rbacv1.Subject.Kind := kuberbacv1alpha1.DynamicRoleBindingSourceSubject.Kind subject;
     rbacv1.Subject.APIGroup := kuberbacv1alpha1.DynamicRoleBindingSourceSubject.ApiGroup subject;
     rbacv1.Subject.Name := listItem;
     rbacv1.Subject.Namespace := "" |}.

(** The loop of [IsSubset] run over the entries of [smaller] in the order
    of a visit of the map: it returns at the first entry that is not in
    [larger]. *)
Fixpoint IsSubset_visit (entries : list (string * string)) (larger : gmap string string)
    : bool :=
  match entries with
  | [] => true
  | (key, value) :: rest =>
      match larger !! key with
      | Some largerValue =>
          if decide (largerValue ≠ value) then false else IsSubset_visit rest larger
      | None => false
      end
  end.

(** The group and the version that [SetResourcesByGroup] reads off the
    [GroupVersion] of a list of API resources. *)
Definition groupOf (resourcesLists : metav1.APIResourceList.t) : string :=
  let groupVersion := Split (metav1.APIResourceList.GroupVersion resourcesLists) slash in
  if decide (length groupVersion = 2%nat)
  then firstPart (metav1.APIResourceList.GroupVersion resourcesLists) slash else "".

Definition versionOf (resourcesLists : metav1.APIResourceList.t) : string :=
  let groupVersion := Split (metav1.APIResourceList.GroupVersion resourcesLists) slash in
  if decide (length groupVersion = 2%nat)
  then default "" (groupVersion !! 1%nat)
  else firstPart (metav1.APIResourceList.GroupVersion resourcesLists) slash.

(** The entry that [SetResourcesByGroup] stores for an API resource. *)
Definition gvkrOf (group version : string) (apiResource : metav1.APIResource.t) : GVKR :=
  let resourceSubResource := Split (metav1.APIResource.Name apiResource) slash in
  {| Resource := firstPart (metav1.APIResource.Name apiResource) slash;
     Subresource := if bool_decide (1 < length resourceSubResource)%nat
                    then Join (drop 1 resourceSubResource) "/" else "";
     GVK := {| schema.Group := group; schema.Version := version;
               schema.Kind := metav1.APIResource.Kind apiResource |};
     Namespaced := metav1.APIResource.Namespaced apiResource;
     UsableVerbs := metav1.APIResource.Verbs apiResource |}.

(** A rule that [ExpandPolicyRules] keeps: it has verbs, and either URLs and
    nothing else, or no URL and both groups and resources. *)
Definition wellFormed (rule : rbacv1.PolicyRule) : Prop :=
  rbacv1.Verbs rule ≠ []
  ∧ ((rbacv1.NonResourceURLs rule ≠ [] ∧ rbacv1.APIGroups rule = []
      ∧ rbacv1.Resources rule = [] ∧ rbacv1.ResourceNames rule = [])
     ∨ (rbacv1.NonResourceURLs rule = [] ∧ rbacv1.APIGroups rule ≠ []
        ∧ rbacv1.Resources rule ≠ [])).

(** The verbs [ExpandPolicyRules] gives a rule. *)
Definition expandedVerbs (verbs : list string) : list string :=
  if Contains verbs "*" then canonicalVerbs else verbs.

(** What [ExpandPolicyRules] makes of a rule it keeps: names and URLs as
    they are, the verbs expanded, groups and resources of the inventory, and
    for a rule on URLs neither group nor resource. *)
Definition expansionOf (p : PolicyRulesProcessorT) (rule rule' : rbacv1.PolicyRule) : Prop :=
  rbacv1.ResourceNames rule' = rbacv1.ResourceNames rule
  ∧ rbacv1.NonResourceURLs rule' = rbacv1.NonResourceURLs rule
  ∧ rbacv1.Verbs rule' = expandedVerbs (rbacv1.Verbs rule)
  ∧ Forall (λ group, is_Some (ResourcesByGroup p !! group)) (rbacv1.APIGroups rule')
  ∧ Forall (λ resource, resource ∈ ResourceList p) (rbacv1.Resources rule')
  ∧ (rbacv1.NonResourceURLs rule ≠ [] →
     rbacv1.APIGroups rule' = [] ∧ rbacv1.Resources rule' = []).

(** A rule that [StretchPolicyRules] makes of [rule]: one per URL, or one
    per resource, group that holds the resource, and name if there are
    names. *)
Definition stretchedFrom (p : PolicyRulesProcessorT) (rule rule' : rbacv1.PolicyRule) : Prop :=
  if isEmpty (rbacv1.NonResourceURLs rule) then
    ∃ resource group,
      resource ∈ rbacv1.Resources rule ∧ group ∈ rbacv1.APIGroups rule
      ∧ resourceFound p group resource = true
      ∧ ((rbacv1.ResourceNames rule = []
          ∧ rule' = resourceRule [group] [resource] [] (rbacv1.Verbs rule))
         ∨ ∃ name, name ∈ rbacv1.ResourceNames rule
                   ∧ rule' = resourceRule [group] [resource] [name] (rbacv1.Verbs rule))
  else
    ∃ url, url ∈ rbacv1.NonResourceURLs rule ∧ rule' = urlRule [url] (rbacv1.Verbs rule).

(** The rules [StretchPolicyRules] makes of one rule. *)
Definition stretchOne (p : PolicyRulesProcessorT) (policyRule : rbacv1.PolicyRule)
    : list rbacv1.PolicyRule :=
  if negb (isEmpty (rbacv1.NonResourceURLs policyRule)) then
    mjoin ((λ url, [urlRule [url] (rbacv1.Verbs policyRule)])
             <$> rbacv1.NonResourceURLs policyRule)
  else
    mjoin ((λ resource,
              mjoin ((λ group,
                        if negb (resourceFound p group resource) then []
                        else if negb (isEmpty (rbacv1.ResourceNames policyRule)) then
                          mjoin ((λ name, [resourceRule [group] [resource] [name]
                                             (rbacv1.Verbs policyRule)])
                                   <$> rbacv1.ResourceNames policyRule)
                        else [resourceRule [group] [resource] [] (rbacv1.Verbs policyRule)])
                       <$> rbacv1.APIGroups policyRule))
             <$> rbacv1.Resources policyRule).


(** The shape of the rules [StretchPolicyRules] makes, as far as
    [GetMapFromStretchedPolicyRules] reads them: URLs alone, or no URL and
    both groups and resources. *)
Definition shaped (rule : rbacv1.PolicyRule) : Prop :=
  (rbacv1.NonResourceURLs rule ≠ [] ∧ rbacv1.APIGroups rule = []
   ∧ rbacv1.Resources rule = [] ∧ rbacv1.ResourceNames rule = [])
  ∨ (rbacv1.NonResourceURLs rule = [] ∧ rbacv1.APIGroups rule ≠ []
     ∧ rbacv1.Resources rule ≠ []).

(** The key under which [GetMapFromStretchedPolicyRules] files a rule. *)
Definition keyOf (rule : rbacv1.PolicyRule) : string :=
  if negb (isEmpty (rbacv1.NonResourceURLs rule)) then
    "nonresourceurl#" +:+ default "" (head (rbacv1.NonResourceURLs rule))
  else
    let resourceKey := default "" (head (rbacv1.APIGroups rule)) +:+ "#"
                       +:+ default "" (head (rbacv1.Resources rule)) +:+ "#" in
    if negb (isEmpty (rbacv1.ResourceNames rule))
    then resourceKey +:+ default "" (head (rbacv1.ResourceNames rule))
    else resourceKey.

(** The map [m] files the rules of [rules] under their keys, with the verbs
    of the rules of a key brought together. *)
Definition keyMerged (rules : list rbacv1.PolicyRule) (m : gmap string rbacv1.PolicyRule)
    : Prop :=
  ∀ key,
    (∀ v, v ∈ verbsAt m key
          ↔ ∃ rule, rule ∈ rules ∧ keyOf rule = key ∧ v ∈ rbacv1.Verbs rule)
    ∧ (∀ r, m !! key = Some r →
            ∃ rule, rule ∈ rules ∧ keyOf rule = key
                    ∧ r = rbacv1.withVerbs rule (rbacv1.Verbs r))
    ∧ (m !! key = None ↔ ∀ rule, rule ∈ rules → keyOf rule ≠ key).

(** A deny entry that [EvaluateSpecialCases] and [EvaluatePolicyRules] can
    read: a URL key, or a key of three parts at least with a rule that has a
    group and a resource. *)
Definition readable (key : string) (rule : rbacv1.PolicyRule) : Prop :=
  HasPrefix key "nonresourceurl" = true
  ∨ (is_Some (Split key hash !! 2%nat)
     ∧ rbacv1.APIGroups rule ≠ [] ∧ rbacv1.Resources rule ≠ []).

(** Every rule of [m] is under a rule of [m0]: its key begins with the key
    of a rule of [m0] that has its groups and resources, and all its verbs. *)
Definition coveredBy (m0 m : gmap string rbacv1.PolicyRule) : Prop :=
  ∀ key rule,
    m !! key = Some rule →
    ∃ key0 rule0,
      m0 !! key0 = Some rule0 ∧ HasPrefix key key0 = true
      ∧ rbacv1.APIGroups rule = rbacv1.APIGroups rule0
      ∧ rbacv1.Resources rule = rbacv1.Resources rule0
      ∧ rbacv1.Verbs rule ⊆ rbacv1.Verbs rule0.

(** A failure of the compiler is a failure of the listing of objects: the
    error is that of a listing, under the prefix of the special cases, and a
    panic is a panic of a listing. *)
Definition failsWithTheLister {A} (p : PolicyRulesProcessorT) (o : outcome A) : Prop :=
  match o with
  | Ok _ => True
  | Err e => ∃ gvk e', Client_List p gvk = Err e'
                       ∧ e = "error evaluating especial cases: " +:+ e'
  | Panic => ∃ gvk, Client_List p gvk = Panic
  end.

(** The scope [SplitPolicyRules] finds for a rule: whether the first
    resource of the inventory of its first group that bears the name of its
    first resource is namespaced; none when the group holds no resource of
    the name. *)
Definition scopeOf (p : PolicyRulesProcessorT) (rule : rbacv1.PolicyRule) : option bool :=
  Namespaced <$>
    find (λ gvkr, bool_decide (resourceName gvkr = default "" (head (rbacv1.Resources rule))))
         (groupResources p (default "" (head (rbacv1.APIGroups rule)))).

(** ** Sample objects of the further properties *)

(** A DynamicClusterRole named [role] that is not marked for deletion and
    bears no finalizer yet, with the synchronization time [time]; its
    ownership annotations are those of [deletedRole]. *)
Definition liveRole (time : string) : kuberbacv1alpha1.DynamicClusterRole.t :=
  {| kuberbacv1alpha1.DynamicClusterRole.TypeMeta :=
       {| metav1.TypeMeta.Kind := "DynamicClusterRole";
          metav1.TypeMeta.APIVersion := "kuberbac.prosimcorp.com/v1alpha1" |};
     kuberbacv1alpha1.DynamicClusterRole.ObjectMeta := objectMeta "role" "" ∅;
     kuberbacv1alpha1.DynamicClusterRole.Spec :=
       {| kuberbacv1alpha1.DynamicClusterRoleSpec.Synchronization :=
            {| kuberbacv1alpha1.SynchronizationT.Time := time |};
          kuberbacv1alpha1.DynamicClusterRoleSpec.Target :=
            {| kuberbacv1alpha1.TargetT.Name := "role";
               kuberbacv1alpha1.TargetT.Annotations := ∅;
               kuberbacv1alpha1.TargetT.Labels := ∅;
               kuberbacv1alpha1.TargetT.SeparateScopes := false |};
          kuberbacv1alpha1.DynamicClusterRoleSpec.Allow :=
            [resourceRule [""] ["pods"] [] ["get"]];
          kuberbacv1alpha1.DynamicClusterRoleSpec.Deny := [] |};
     kuberbacv1alpha1.DynamicClusterRole.Status_Conditions := [] |}.

(** A cluster role without annotations, as an administrator writes it. *)
Definition strangerRole (name : string) : rbacv1.ClusterRole.t :=
  {| rbacv1.ClusterRole.ObjectMeta := objectMeta name "" ∅;
     rbacv1.ClusterRole.Rules := [resourceRule ["*"] ["*"] [] ["*"]] |}.

(** A discovery of three lists: the core group, and [apps] in two versions. *)
Definition apiResource (name kind : string) (namespaced : bool) : metav1.APIResource.t :=
  {| metav1.APIResource.Name := name; metav1.APIResource.Namespaced := namespaced;
     metav1.APIResource.Kind := kind; metav1.APIResource.Verbs := ["get"; "list"] |}.

Definition sampleDiscovery : list metav1.APIResourceList.t :=
  [ {| metav1.APIResourceList.GroupVersion := "v1";
       metav1.APIResourceList.APIResources :=
         [ apiResource "pods" "Pod" true; apiResource "pods/log" "Pod" true;
           apiResource "nodes" "Node" false ] |};
    {| metav1.APIResourceList.GroupVersion := "apps/v1beta1";
       metav1.APIResourceList.APIResources :=
         [ apiResource "deployments" "Deployment" true;
           apiResource "statefulsets" "StatefulSet" true ] |};
    {| metav1.APIResourceList.GroupVersion := "apps/v1";
       metav1.APIResourceList.APIResources :=
         [ apiResource "deployments" "Deployment" true;
           apiResource "deployments/scale" "Scale" true ] |} ].

(** A cluster of that discovery that holds the DynamicClusterRole
    [resource] and the cluster roles [roles]. *)
Definition roleWorld (resource : kuberbacv1alpha1.DynamicClusterRole.t)
    (roles : list rbacv1.ClusterRole.t) : World :=
  {| cluster :=
       {| discovery := Ok sampleDiscovery; objects := λ _, Ok ["a"; "b"];
          namespaces := []; serviceAccounts := [];
          clusterRoles := roles;
          clusterRoleBindings := []; roleBindings := [];
          dynamicClusterRoles := [resource] |};
     calls := [] |}.

(** A parser of durations that knows ["10s"], in nanoseconds, and a
    library of conditions that keeps one condition per type. *)
Definition parsesTenSeconds : string → option Z :=
  λ s, if decide (s = "10s") then Some 10000000000 else None.

Definition sampleNewCondition (type status reason message : string) : metav1.Condition.t :=
  {| metav1.Condition.Type_ := type; metav1.Condition.Status := status;
     metav1.Condition.Reason := reason; metav1.Condition.Message := message |}.

Definition sampleUpdateCondition (conditions : list metav1.Condition.t)
    (condition : metav1.Condition.t) : list metav1.Condition.t :=
  filter (λ c, metav1.Condition.Type_ c ≠ metav1.Condition.Type_ condition) conditions
  ++ [condition].

(** [sampleWorld] without its cluster-role-binding. *)
Definition unboundWorld : World :=
  {| cluster :=
       {| discovery := discovery sampleCluster; objects := objects sampleCluster;
          namespaces := namespaces sampleCluster;
          serviceAccounts := serviceAccounts sampleCluster;
          clusterRoles := clusterRoles sampleCluster;
          clusterRoleBindings := [];
          roleBindings := roleBindings sampleCluster;
          dynamicClusterRoles := dynamicClusterRoles sampleCluster |};
     calls := [] |}.

(** The binding [resource] with the annotations [annotations] for its
    targets. *)
Definition withTargetAnnotations (annotations : gmap string string)
    (resource : kuberbacv1alpha1.DynamicRoleBinding.t)
    : kuberbacv1alpha1.DynamicRoleBinding.t :=
  let spec := kuberbacv1alpha1.DynamicRoleBinding.Spec resource in
  let targets := kuberbacv1alpha1.DynamicRoleBindingSpec.Targets spec in
  {| kuberbacv1alpha1.DynamicRoleBinding.TypeMeta :=
       kuberbacv1alpha1.DynamicRoleBinding.TypeMeta resource;
     kuberbacv1alpha1.DynamicRoleBinding.ObjectMeta :=
       kuberbacv1alpha1.DynamicRoleBinding.ObjectMeta resource;
     kuberbacv1alpha1.DynamicRoleBinding.Spec :=
       {| kuberbacv1alpha1.DynamicRoleBindingSpec.Synchronization :=
            kuberbacv1alpha1.DynamicRoleBindingSpec.Synchronization spec;
          kuberbacv1alpha1.DynamicRoleBindingSpec.Source :=
            kuberbacv1alpha1.DynamicRoleBindingSpec.Source spec;
          kuberbacv1alpha1.DynamicRoleBindingSpec.Targets :=
            {| kuberbacv1alpha1.DynamicRoleBindingTargets.Name :=
                 kuberbacv1alpha1.DynamicRoleBindingTargets.Name targets;
               kuberbacv1alpha1.DynamicRoleBindingTargets.Annotations := annotations;
               kuberbacv1alpha1.DynamicRoleBindingTargets.Labels :=
                 kuberbacv1alpha1.DynamicRoleBindingTargets.Labels targets;
               kuberbacv1alpha1.DynamicRoleBindingTargets.ClusterScoped :=
                 kuberbacv1alpha1.DynamicRoleBindingTargets.ClusterScoped targets;
               kuberbacv1alpha1.DynamicRoleBindingTargets.NamespaceSelector :=
                 kuberbacv1alpha1.DynamicRoleBindingTargets.NamespaceSelector targets |} |} |}.

(** The rules of the samples of the compiler. *)
Definition sampleAllow : list rbacv1.PolicyRule :=
  [ resourceRule [""] ["pods"; "nodes"] [] ["get"; "list"];
    resourceRule ["apps"] ["deployments"] [] ["*"] ].

Definition sampleDeny : list rbacv1.PolicyRule :=
  [ resourceRule [""] ["pods"] ["a"] ["list"];
    resourceRule ["apps"] ["deployments"] [] ["delete"] ].

(** What the compiler makes of them on [sampleProcessor], and the rules of
    the map it returns. *)
Definition sampleCompiled : gmap string rbacv1.PolicyRule :=
  match CompileRules inOrder sampleProcessor sampleAllow sampleDeny 0%nat with
  | Ok (result, _) => result
  | _ => ∅
  end.

Definition sampleCompiledRules : list rbacv1.PolicyRule :=
  match mapValues inOrder sampleCompiled 0%nat with
  | Ok (values, _) => values
  | _ => []
  end.

(** ** The monads *)

Lemma M_bind_Ok {A B} (c : M A) (f : A → M B) n a n' :
  c n = Ok (a, n') → (c ≫= f) n = f a n'.
Proof. intros H. unfold mbind, M_bind. by rewrite H. Qed.

Lemma M_ret_Ok {A} (a : A) n : (mret a : M A) n = Ok (a, n).
Proof. reflexivity. Qed.

Lemma lift_Ok {A} (a : A) n : lift (Ok a) n = Ok (a, n).
Proof. reflexivity. Qed.

(** ** 64-bit counters *)

Lemma wrap64_succ z : wrap64 (wrap64 z + 1) = wrap64 (z + 1).
Proof.
  unfold wrap64.
  replace ((z + 2 ^ 63) `mod` 2 ^ 64 - 2 ^ 63 + 1 + 2 ^ 63)
    with ((z + 2 ^ 63) `mod` 2 ^ 64 + 1) by lia.
  rewrite Zplus_mod_idemp_l. f_equal. f_equal. lia.
Qed.

Lemma wrap64_small z : - 2 ^ 63 ≤ z < 2 ^ 63 → wrap64 z = z.
Proof. intros H. unfold wrap64. rewrite Z.mod_small; lia. Qed.

Lemma wrap64_one c : 0 ≤ c < 2 ^ 63 → wrap64 (1 + c) = 1 → c = 0.
Proof.
  intros Hc. unfold wrap64. intros H.
  destruct (decide (c = 2 ^ 63 - 1)) as [->|Hne].
  - exfalso. revert H. vm_compute. discriminate.
  - rewrite Z.mod_small in H; lia.
Qed.

(** ** [GetSurvivingVerbs] *)

Section SurvivingVerbs.

Variable shuffle : nat → ∀ A : Type, list A → list A.
Hypothesis shuffle_perm : ∀ n A (l : list A), shuffle n A l ≡ₚ l.

Lemma occurrences_le v l : (occurrences v l ≤ length l)%nat.
Proof. induction l as [|x l IH]; simpl; [lia|]. case_decide; lia. Qed.

Lemma occurrences_zero v l : occurrences v l = 0%nat ↔ v ∉ l.
Proof.
  induction l as [|x l IH]; simpl.
  - split; [intros _; apply not_elem_of_nil | done].
  - rewrite not_elem_of_cons. case_decide as Hx.
    + split; [lia | intros [Hne _]; congruence].
    + rewrite IH. split; [intros H; split; [congruence | done] | tauto].
Qed.

Lemma bumped_one k : bumped k 1 = wrap64 (1 + Z.of_nat k).
Proof.
  induction k as [|k IH]; [reflexivity|].
  unfold bumped in *. simpl. rewrite IH, wrap64_succ. f_equal. lia.
Qed.

Lemma bumped_succ_r k c : bumped k (wrap64 (c + 1)) = bumped (S k) c.
Proof. unfold bumped. by rewrite Nat.iter_succ_r. Qed.

Lemma markAllowed_lookup allowVerbs tmpMap v :
  markAllowed allowVerbs tmpMap !! v
  = if decide (v ∈ allowVerbs) then Some 1 else tmpMap !! v.
Proof.
  revert tmpMap. induction allowVerbs as [|x l IH]; intros tmpMap.
  - rewrite decide_False; [done | apply not_elem_of_nil].
  - change (markAllowed (x :: l) tmpMap) with (markAllowed l (<[x:=1]> tmpMap)).
    rewrite IH.
    destruct (decide (v ∈ l)) as [Hin|Hnin].
    + rewrite decide_True; [done | by right].
    + destruct (decide (x = v)) as [->|Hne].
      * rewrite lookup_insert_eq, decide_True; [done | by left].
      * rewrite lookup_insert_ne by done.
        rewrite decide_False; [done|]. rewrite elem_of_cons. intros [?|?]; congruence.
Qed.

Lemma countDenied_lookup denyVerbs tmpMap v :
  countDenied denyVerbs tmpMap !! v = bumped (occurrences v denyVerbs) <$> tmpMap !! v.
Proof.
  revert tmpMap. induction denyVerbs as [|x l IH]; intros tmpMap.
  - simpl. by destruct (tmpMap !! v).
  - change (countDenied (x :: l) tmpMap)
      with (countDenied l (match tmpMap !! x with
                           | None => tmpMap
                           | Some c => <[x := wrap64 (c + 1)]> tmpMap
                           end)).
    rewrite IH. clear IH. cbn [occurrences].
    destruct (decide (x = v)) as [->|Hne].
    + destruct (tmpMap !! v) as [c|] eqn:Hc; rewrite ?Hc; [|done].
      rewrite lookup_insert_eq. simpl. f_equal. apply bumped_succ_r.
    + destruct (tmpMap !! x); [by rewrite lookup_insert_ne | done].
Qed.

Lemma pickSurvivors_eq entries result :
  pickSurvivors entries result = result ++ (filter (λ e, e.2 = 1) entries).*1.
Proof.
  revert result. induction entries as [|[k c] l IH]; intros result; simpl.
  - by rewrite app_nil_r.
  - unfold pickSurvivors in *. simpl. rewrite IH. rewrite filter_cons. simpl.
    case_decide; simpl; [by rewrite <- app_assoc | done].
Qed.

(** [GetSurvivingVerbs] returns, in some order and without repetition, the
    verbs of [allowVerbs] that are not in [denyVerbs]. *)
Lemma GetSurvivingVerbs_spec allowVerbs denyVerbs n :
  slice_len_ok denyVerbs →
  ∃ result,
    GetSurvivingVerbs shuffle allowVerbs denyVerbs n = Ok (result, S n)
    ∧ NoDup result
    ∧ ∀ v, v ∈ result ↔ v ∈ allowVerbs ∧ v ∉ denyVerbs.
Proof.
  intros Hlen.
  set (tmpMap := countDenied denyVerbs (markAllowed allowVerbs ∅)).
  set (entries := shuffle n _ (map_to_list tmpMap)).
  exists ((filter (λ e, e.2 = 1) entries).*1).
  assert (Hperm : entries ≡ₚ map_to_list tmpMap) by apply shuffle_perm.
  split; [|split].
  - unfold GetSurvivingVerbs, rangeMap, mbind, M_bind. simpl.
    fold (markAllowed allowVerbs ∅). fold (countDenied denyVerbs (markAllowed allowVerbs ∅)).
    fold tmpMap. fold entries. unfold mret, M_ret. f_equal. f_equal.
    apply (pickSurvivors_eq entries []).
  - assert (Hnd : NoDup entries.*1).
    { rewrite Hperm. apply NoDup_fst_map_to_list. }
    eapply sublist_NoDup; [exact Hnd|].
    apply fmap_sublist, sublist_filter.
  - intros v. rewrite list_elem_of_fmap. split.
    + intros ([k c] & -> & Hin). apply list_elem_of_filter in Hin as [Hc Hin].
      simpl in *. subst c. rewrite Hperm in Hin.
      apply elem_of_map_to_list in Hin. unfold tmpMap in Hin.
      rewrite countDenied_lookup, markAllowed_lookup in Hin.
      case_decide as Ha; [|by rewrite lookup_empty in Hin].
      simpl in Hin. injection Hin as Hin. rewrite bumped_one in Hin.
      split; [done|]. apply occurrences_zero.
      pose proof (occurrences_le k denyVerbs). unfold slice_len_ok in Hlen.
      apply wrap64_one in Hin; lia.
    + intros [Ha Hd]. exists (v, 1). split; [done|].
      apply list_elem_of_filter. split; [done|]. rewrite Hperm.
      apply elem_of_map_to_list. unfold tmpMap.
      rewrite countDenied_lookup, markAllowed_lookup, decide_True by done.
      apply occurrences_zero in Hd. by rewrite Hd.
Qed.

End SurvivingVerbs.

(** ** [EvaluatePolicyRules] *)

Lemma withVerbs_id r : rbacv1.withVerbs r (rbacv1.Verbs r) = r.
Proof. by destruct r. Qed.

Lemma withVerbs_withVerbs r vs vs' :
  rbacv1.withVerbs (rbacv1.withVerbs r vs) vs' = rbacv1.withVerbs r vs'.
Proof. reflexivity. Qed.

Lemma isEmpty_nil {A} (l : list A) : isEmpty l = true ↔ l = [].
Proof. by destruct l. Qed.

Lemma no_elements {A} (l : list A) : (∀ x, x ∉ l) → l = [].
Proof. destruct l as [|x l]; [done|]. intros H. destruct (H x). by left. Qed.

Lemma verbsAt_Some m a r : m !! a = Some r → verbsAt m a = rbacv1.Verbs r.
Proof. intros H. unfold verbsAt, ruleAt. by rewrite H. Qed.

Lemma verbsAt_None m a : m !! a = None → verbsAt m a = [].
Proof. intros H. unfold verbsAt, ruleAt. by rewrite H. Qed.

Lemma deleteIfNoVerbs_insert key r (m : gmap string rbacv1.PolicyRule) :
  deleteIfNoVerbs key (<[key := r]> m)
  = if isEmpty (rbacv1.Verbs r) then delete key m else <[key := r]> m.
Proof.
  unfold deleteIfNoVerbs, ruleAt. rewrite lookup_insert_eq.
  change (default rbacv1.zero (Some r)) with r.
  destruct (isEmpty (rbacv1.Verbs r)); [apply delete_insert_eq | done].
Qed.

Lemma ruleAt_Some m a r : m !! a = Some r → ruleAt m a = r.
Proof. intros H. unfold ruleAt. by rewrite H. Qed.

Section Evaluation.

Variable shuffle : nat → ∀ A : Type, list A → list A.
Hypothesis shuffle_perm : ∀ n A (l : list A), shuffle n A l ≡ₚ l.

Lemma rangeMap_Ok {V} (m : gmap string V) n :
  ∃ entries, rangeMap shuffle m n = Ok (entries, S n) ∧ entries ≡ₚ map_to_list m.
Proof. eexists. split; [reflexivity | apply shuffle_perm]. Qed.

Lemma subtractVerbs_spec key denyVerbs allowMap n :
  slice_len_ok denyVerbs →
  ∃ vs, subtractVerbs shuffle key denyVerbs allowMap n
        = Ok (<[key := rbacv1.withVerbs (ruleAt allowMap key) vs]> allowMap, S n)
        ∧ ∀ v, v ∈ vs ↔ v ∈ verbsAt allowMap key ∧ v ∉ denyVerbs.
Proof.
  intros Hlen.
  destruct (GetSurvivingVerbs_spec shuffle shuffle_perm
              (rbacv1.Verbs (ruleAt allowMap key)) denyVerbs n Hlen)
    as (vs & Hrun & _ & Hvs).
  exists vs. split; [|exact Hvs].
  unfold subtractVerbs. by rewrite (M_bind_Ok _ _ _ _ _ Hrun).
Qed.

(** One turn of a prefix loop touches the entry of its key only. *)
Lemma prefix_turn prefix denyVerbs allowMap key (x : rbacv1.PolicyRule) n :
  slice_len_ok denyVerbs →
  ∃ m' n',
    (allowMap ←
       (if HasPrefix key prefix
        then subtractVerbs shuffle key denyVerbs allowMap
        else mret allowMap);
     mret (deleteIfNoVerbs key allowMap)) n = Ok (m', n')
    ∧ (∀ a, a ≠ key → m' !! a = allowMap !! a)
    ∧ passed denyVerbs (HasPrefix key prefix) (allowMap !! key) (m' !! key).
Proof.
  intros Hlen. destruct (HasPrefix key prefix) eqn:Hp.
  - destruct (subtractVerbs_spec key denyVerbs allowMap n Hlen) as (vs & Hrun & Hvs).
    rewrite (M_bind_Ok _ _ _ _ _ Hrun). rewrite M_ret_Ok.
    eexists _, _. split; [reflexivity|].
    rewrite deleteIfNoVerbs_insert. cbn [rbacv1.withVerbs rbacv1.Verbs].
    split.
    + intros a Ha. destruct (isEmpty vs).
      * by rewrite lookup_delete_ne.
      * by rewrite lookup_insert_ne.
    + unfold passed. destruct (allowMap !! key) as [r|] eqn:Hk.
      * exists vs. split.
        { intros v. rewrite Hvs, (verbsAt_Some _ _ _ Hk). tauto. }
        rewrite (ruleAt_Some _ _ _ Hk).
        destruct (isEmpty vs); [by rewrite lookup_delete_eq | by rewrite lookup_insert_eq].
      * assert (vs = []) as ->.
        { apply no_elements. intros v Hv. apply Hvs in Hv as [Hv _].
          rewrite (verbsAt_None _ _ Hk) in Hv. by apply elem_of_nil in Hv. }
        cbn [isEmpty]. by rewrite lookup_delete_eq.
  - eexists _, _. split; [reflexivity|].
    unfold deleteIfNoVerbs. split.
    + intros a Ha. destruct (isEmpty _); [by rewrite lookup_delete_ne | done].
    + unfold passed. destruct (allowMap !! key) as [r|] eqn:Hk.
      * exists (rbacv1.Verbs r).
        split; [intros v; split; [intros ?; split; [done | discriminate] | intros [? _]; done]|].
        rewrite (ruleAt_Some _ _ _ Hk).
        destruct (isEmpty (rbacv1.Verbs r)).
        -- by rewrite lookup_delete_eq.
        -- by rewrite Hk, withVerbs_id.
      * destruct (isEmpty _); [by rewrite lookup_delete_eq | done].
Qed.

Lemma prefix_loop prefix denyVerbs (l : list (string * rbacv1.PolicyRule)) allowMap n :
  slice_len_ok denyVerbs → NoDup l.*1 →
  ∃ m' n',
    foldM (λ (allowMap : gmap string rbacv1.PolicyRule) '(allowMapKey, _),
             allowMap ←
               (if HasPrefix allowMapKey prefix
                then subtractVerbs shuffle allowMapKey denyVerbs allowMap
                else mret allowMap);
             mret (deleteIfNoVerbs allowMapKey allowMap))
          allowMap l n = Ok (m', n')
    ∧ (∀ a, a ∉ l.*1 → m' !! a = allowMap !! a)
    ∧ (∀ a, a ∈ l.*1 →
            passed denyVerbs (HasPrefix a prefix) (allowMap !! a) (m' !! a)).
Proof.
  intros Hlen. revert allowMap n.
  induction l as [|[k x] l IH]; intros allowMap n Hnd.
  - eexists _, _. split; [reflexivity|]. split; [done|].
    intros a Ha. by apply elem_of_nil in Ha.
  - simpl in Hnd. apply NoDup_cons in Hnd as [Hk Hnd].
    destruct (prefix_turn prefix denyVerbs allowMap k x n Hlen)
      as (m1 & n1 & Hrun1 & Hother & Hkey).
    destruct (IH m1 n1 Hnd) as (m' & n' & Hrun & Hout & Hin).
    exists m', n'. split.
    { cbn [foldM]. rewrite (M_bind_Ok _ _ _ _ _ Hrun1). exact Hrun. }
    split.
    + intros a Ha. simpl in Ha. apply not_elem_of_cons in Ha as [Hak Ha].
      rewrite Hout by done. by apply Hother.
    + intros a Ha. simpl in Ha. apply elem_of_cons in Ha as [->|Ha].
      * rewrite Hout by done. exact Hkey.
      * assert (a ≠ k) by (intros ->; done).
        rewrite <- (Hother a) by done. by apply Hin.
Qed.

Lemma subtractByPrefix_spec prefix denyVerbs allowMap n :
  slice_len_ok denyVerbs →
  ∃ m' n',
    subtractByPrefix shuffle prefix denyVerbs allowMap n = Ok (m', n')
    ∧ subtracted denyVerbs (λ a, HasPrefix a prefix) allowMap m'.
Proof.
  intros Hlen.
  destruct (rangeMap_Ok allowMap n) as (entries & Hrange & Hperm).
  assert (Hnd : NoDup entries.*1).
  { rewrite Hperm. apply NoDup_fst_map_to_list. }
  destruct (prefix_loop prefix denyVerbs entries allowMap (S n) Hlen Hnd)
    as (m' & n' & Hrun & Hout & Hin).
  exists m', n'. split.
  { unfold subtractByPrefix. rewrite (M_bind_Ok _ _ _ _ _ Hrange). exact Hrun. }
  assert (Hpass : ∀ a, passed denyVerbs (HasPrefix a prefix) (allowMap !! a) (m' !! a)).
  { intros a. destruct (decide (a ∈ entries.*1)) as [Ha|Ha]; [by apply Hin|].
    rewrite Hout by done.
    destruct (allowMap !! a) as [r|] eqn:Hr; [|done].
    destruct Ha. rewrite Hperm. apply list_elem_of_fmap. exists (a, r).
    split; [done | by apply elem_of_map_to_list]. }
  intros a. specialize (Hpass a). unfold passed in Hpass.
  destruct (allowMap !! a) as [r|] eqn:Hr.
  - destruct Hpass as (vs & Hvs & Hm').
    assert (Hverbs : verbsAt m' a = vs).
    { destruct vs as [|v0 vs]; simpl in Hm'.
      - by apply verbsAt_None.
      - by rewrite (verbsAt_Some _ _ _ Hm'). }
    split; [|split].
    + intros v. by rewrite Hverbs, (verbsAt_Some _ _ _ Hr).
    + intros r' Hr'. exists r. split; [done|].
      destruct (isEmpty vs); [congruence|]. by simplify_eq.
    + intros r' Hr' _. rewrite <- (verbsAt_Some _ _ _ Hr'), Hverbs.
      intros ->. simpl in Hm'. congruence.
  - split; [|split].
    + intros v. rewrite (verbsAt_None _ _ Hpass), (verbsAt_None _ _ Hr).
      split; [intros H; by apply elem_of_nil in H | intros [H _]; done].
    + intros r' Hr'. congruence.
    + intros r' Hr'. congruence.
Qed.

(** The subtraction at one key: the exact cases of [EvaluatePolicyRules]. *)
Lemma subtractExact_spec key denyVerbs allowMap n :
  slice_len_ok denyVerbs →
  ∃ m' n',
    (allowMap ← subtractVerbs shuffle key denyVerbs allowMap;
     mret (deleteIfNoVerbs key allowMap)) n = Ok (m', n')
    ∧ subtracted denyVerbs (λ a, bool_decide (a = key)) allowMap m'.
Proof.
  intros Hlen.
  destruct (subtractVerbs_spec key denyVerbs allowMap n Hlen) as (vs & Hrun & Hvs).
  rewrite (M_bind_Ok _ _ _ _ _ Hrun). rewrite M_ret_Ok.
  eexists _, _. split; [reflexivity|].
  rewrite deleteIfNoVerbs_insert. cbn [rbacv1.withVerbs rbacv1.Verbs].
  set (m' := if isEmpty vs then delete key allowMap
             else <[key:=rbacv1.withVerbs (ruleAt allowMap key) vs]> allowMap).
  intros a. destruct (decide (a = key)) as [->|Ha].
  - rewrite bool_decide_eq_true_2 by done.
    assert (Hverbs : verbsAt m' key = vs).
    { unfold m'. destruct vs as [|v0 vs]; cbn [isEmpty].
      - apply verbsAt_None, lookup_delete_eq.
      - by rewrite (verbsAt_Some _ _ _ (lookup_insert_eq _ _ _)). }
    split; [|split].
    + intros v. rewrite Hverbs, Hvs. tauto.
    + intros r' Hr'. unfold m' in Hr'. destruct (isEmpty vs) eqn:Hvse.
      * by rewrite lookup_delete_eq in Hr'.
      * rewrite lookup_insert_eq in Hr'. simplify_eq.
        destruct (allowMap !! key) as [r|] eqn:Hr.
        -- exists r. by rewrite (ruleAt_Some _ _ _ Hr).
        -- assert (vs = []) as ->; [|done].
           apply no_elements. intros v Hv. apply Hvs in Hv as [Hv _].
           rewrite (verbsAt_None _ _ Hr) in Hv. by apply elem_of_nil in Hv.
    + intros r' Hr' _. rewrite <- (verbsAt_Some _ _ _ Hr'), Hverbs.
      intros ->. unfold m' in Hr'. cbn [isEmpty] in Hr'. by rewrite lookup_delete_eq in Hr'.
  - rewrite bool_decide_eq_false_2 by done.
    assert (Hsame : m' !! a = allowMap !! a).
    { unfold m'. destruct (isEmpty vs).
      - by rewrite lookup_delete_ne.
      - by rewrite lookup_insert_ne. }
    split; [|split].
    + intros v. unfold verbsAt, ruleAt. rewrite Hsame. split; [by intros ? | tauto].
    + intros r' Hr'. rewrite Hsame in Hr'. exists r'. by rewrite withVerbs_id.
    + intros r' _ ?. done.
Qed.

Lemma subtracted_nothing denyVerbs hit m : (∀ a, hit a = false) → subtracted denyVerbs hit m m.
Proof.
  intros Hhit a. rewrite Hhit. split; [|split].
  - intros v. split; [by intros ? | tauto].
  - intros r' Hr'. exists r'. by rewrite withVerbs_id.
  - done.
Qed.

Lemma subtracted_ext denyVerbs hit hit' m m' :
  (∀ a, hit a = hit' a) → subtracted denyVerbs hit m m' → subtracted denyVerbs hit' m m'.
Proof. intros Heq H a. rewrite <- Heq. apply H. Qed.

(** One turn of the loop of [EvaluatePolicyRules]. *)
Lemma evaluate_turn denyMapKey policyRule allowMap n :
  splittable denyMapKey → slice_len_ok (rbacv1.Verbs policyRule) →
  ∃ m' n',
    (if HasPrefix denyMapKey "nonresourceurl" then
       if HasSuffix denyMapKey star then
         subtractByPrefix shuffle (TrimSuffix denyMapKey star)
                          (rbacv1.Verbs policyRule) allowMap
       else
         allowMap ← subtractVerbs shuffle denyMapKey (rbacv1.Verbs policyRule) allowMap;
         mret (deleteIfNoVerbs denyMapKey allowMap)
     else
       let denyMapKeyParts := Split denyMapKey hash in
       name ← lift (index denyMapKeyParts 2);
       if decide (name = "") then
         subtractByPrefix shuffle denyMapKey (rbacv1.Verbs policyRule) allowMap
       else
         match allowMap !! denyMapKey with
         | Some _ =>
             allowMap ← subtractVerbs shuffle denyMapKey (rbacv1.Verbs policyRule) allowMap;
             mret (deleteIfNoVerbs denyMapKey allowMap)
         | None => mret allowMap
         end) n = Ok (m', n')
    ∧ subtracted (rbacv1.Verbs policyRule) (applies denyMapKey) allowMap m'.
Proof.
  intros Hsplit Hlen. unfold applies.
  destruct (HasPrefix denyMapKey "nonresourceurl") eqn:Hurl.
  - destruct (HasSuffix denyMapKey star).
    + apply subtractByPrefix_spec; done.
    + apply subtractExact_spec; done.
  - destruct Hsplit as [?|[name Hname]]; [congruence|].
    cbn zeta. unfold index. rewrite Hname. rewrite M_bind_Ok with (a := name) (n' := n) by done.
    destruct (decide (name = "")).
    + apply subtractByPrefix_spec; done.
    + destruct (allowMap !! denyMapKey) as [r|] eqn:Hr.
      * apply subtractExact_spec; done.
      * eexists _, _. split; [reflexivity|].
        intros a. destruct (decide (a = denyMapKey)) as [->|Ha].
        -- split; [|split].
           ++ intros v. rewrite (verbsAt_None _ _ Hr).
              split; [intros H; by apply elem_of_nil in H | intros [H _]; done].
           ++ congruence.
           ++ congruence.
        -- rewrite bool_decide_eq_false_2 by done. split; [|split].
           ++ intros v. split; [by intros ? | tauto].
           ++ intros r' Hr'. exists r'. by rewrite withVerbs_id.
           ++ done.
Qed.

Lemma evaluated_nil m : evaluated [] m m.
Proof.
  intros a. split; [|split].
  - intros v. split; [intros H; split; [done|] | tauto].
    intros d dr Hin. by apply elem_of_nil in Hin.
  - intros r' Hr'. exists r'. by rewrite withVerbs_id.
  - intros r' _ (d & dr & Hin & _). by apply elem_of_nil in Hin.
Qed.

Lemma evaluated_cons d dr entries m m1 m' :
  subtracted (rbacv1.Verbs dr) (applies d) m m1 →
  evaluated entries m1 m' →
  evaluated ((d, dr) :: entries) m m'.
Proof.
  intros Hstep Hrest a.
  destruct (Hstep a) as (S1 & S2 & S3). destruct (Hrest a) as (E1 & E2 & E3).
  split; [|split].
  - intros v. rewrite E1, S1. split.
    + intros [[Hv Hd] Hall]. split; [done|].
      intros d' dr' Hin Happ. apply elem_of_cons in Hin as [Heq|Hin].
      * simplify_eq. by apply Hd.
      * by eapply Hall.
    + intros [Hv Hall]. split; [split; [done|]|].
      * intros Happ. eapply Hall; [by left | done].
      * intros d' dr' Hin Happ. eapply Hall; [by right | done].
  - intros r' Hr'. destruct (E2 r' Hr') as (r1 & Hr1 & Heq1).
    destruct (S2 r1 Hr1) as (r & Hr & Heq). exists r. split; [done|].
    rewrite Heq1. rewrite Heq at 1. reflexivity.
  - intros r' Hr' (d' & dr' & Hin & Happ).
    apply elem_of_cons in Hin as [Heq|Hin].
    + simplify_eq.
      destruct (decide (Exists (λ e, applies e.1 a = true) entries)) as [Hex|Hnone].
      * apply (E3 r' Hr'). apply Exists_exists in Hex as ([d'' dr''] & Hin & Happ'').
        by exists d'', dr''.
      * destruct (E2 r' Hr') as (r1 & Hr1 & Heq1).
        pose proof (S3 r1 Hr1 Happ) as Hne.
        intros Hnil. apply Hne.
        apply no_elements. intros v Hv.
        assert (Hv' : v ∈ verbsAt m' a).
        { apply E1. split; [by rewrite (verbsAt_Some _ _ _ Hr1)|].
          intros d'' dr'' Hin' Happ'. destruct Hnone.
          apply Exists_exists. by exists (d'', dr''). }
        rewrite (verbsAt_Some _ _ _ Hr'), Hnil in Hv'. by apply elem_of_nil in Hv'.
    + apply (E3 r' Hr'). by exists d', dr'.
Qed.

Lemma evaluate_loop (entries : list (string * rbacv1.PolicyRule)) allowMap n :
  Forall (λ e, splittable e.1 ∧ slice_len_ok (rbacv1.Verbs e.2)) entries →
  ∃ m' n',
    foldM (λ (allowMap : gmap string rbacv1.PolicyRule) '(denyMapKey, policyRule),
      if HasPrefix denyMapKey "nonresourceurl" then
        if HasSuffix denyMapKey star then
          subtractByPrefix shuffle (TrimSuffix denyMapKey star)
                           (rbacv1.Verbs policyRule) allowMap
        else
          allowMap ← subtractVerbs shuffle denyMapKey (rbacv1.Verbs policyRule) allowMap;
          mret (deleteIfNoVerbs denyMapKey allowMap)
      else
        let denyMapKeyParts := Split denyMapKey hash in
        name ← lift (index denyMapKeyParts 2);
        if decide (name = "") then
          subtractByPrefix shuffle denyMapKey (rbacv1.Verbs policyRule) allowMap
        else
          match allowMap !! denyMapKey with
          | Some _ =>
              allowMap ← subtractVerbs shuffle denyMapKey (rbacv1.Verbs policyRule) allowMap;
              mret (deleteIfNoVerbs denyMapKey allowMap)
          | None => mret allowMap
          end)
      allowMap entries n = Ok (m', n')
    ∧ evaluated entries allowMap m'.
Proof.
  revert allowMap n. induction entries as [|[d dr] entries IH]; intros allowMap n Hok.
  - eexists _, _. split; [reflexivity | apply evaluated_nil].
  - apply Forall_cons in Hok as [[Hd Hdr] Hok]. cbn [fst snd] in Hd, Hdr.
    destruct (evaluate_turn d dr allowMap n Hd Hdr) as (m1 & n1 & Hrun1 & Hstep).
    destruct (IH m1 n1 Hok) as (m' & n' & Hrun & Hrest).
    exists m', n'. split.
    + cbn [foldM]. rewrite (M_bind_Ok _ _ _ _ _ Hrun1). exact Hrun.
    + by eapply evaluated_cons.
Qed.

Lemma evaluated_perm entries entries' m m' :
  entries ≡ₚ entries' → evaluated entries m m' → evaluated entries' m m'.
Proof.
  intros Hperm H a. destruct (H a) as (E1 & E2 & E3). split; [|split].
  - intros v. rewrite E1. split; intros [Hv Hall]; (split; [done|]);
      intros d dr Hin; apply Hall.
    + by rewrite Hperm.
    + by rewrite <- Hperm.
  - exact E2.
  - intros r' Hr' (d & dr & Hin & Happ). apply (E3 r' Hr').
    exists d, dr. by rewrite Hperm.
Qed.

(** [EvaluatePolicyRules] returns the allow map from which every deny entry
    has been subtracted. *)
Lemma EvaluatePolicyRules_spec allowMap denyMap n :
  map_Forall (λ d dr, splittable d ∧ slice_len_ok (rbacv1.Verbs dr)) denyMap →
  ∃ result n',
    EvaluatePolicyRules shuffle allowMap denyMap n = Ok (result, n')
    ∧ evaluated (map_to_list denyMap) allowMap result.
Proof.
  intros Hok.
  destruct (rangeMap_Ok denyMap n) as (entries & Hrange & Hperm).
  assert (Hall : Forall (λ e, splittable e.1 ∧ slice_len_ok (rbacv1.Verbs e.2)) entries).
  { rewrite Hperm. apply Forall_forall. intros [d dr] Hin.
    apply elem_of_map_to_list in Hin. by apply (Hok d dr). }
  destruct (evaluate_loop entries allowMap (S n) Hall) as (m' & n' & Hrun & Hev).
  exists m', n'. split.
  - unfold EvaluatePolicyRules. rewrite (M_bind_Ok _ _ _ _ _ Hrange). exact Hrun.
  - by eapply evaluated_perm.
Qed.

End Evaluation.

(** C1. During evaluation the verbs that survive are the set difference of
    the allowed and the denied verbs: [GetSurvivingVerbs] returns, without
    repetition, exactly the verbs of [allowVerbs] that are not in
    [denyVerbs]; and [EvaluatePolicyRules] leaves no entry in its result for
    a key from which a deny entry was subtracted and every verb of which is
    denied by a deny entry that applies to it. *)
Theorem surviving_verbs_are_the_set_difference
    (shuffle : nat → ∀ A : Type, list A → list A)
    (allowVerbs denyVerbs : list string)
    (allowMap denyMap : gmap string rbacv1.PolicyRule) (n : nat) :
  (∀ n A (l : list A), shuffle n A l ≡ₚ l) →
  slice_len_ok denyVerbs →
  map_Forall (λ d dr, splittable d ∧ slice_len_ok (rbacv1.Verbs dr)) denyMap →
  (∃ result,
     GetSurvivingVerbs shuffle allowVerbs denyVerbs n = Ok (result, S n)
     ∧ NoDup result
     ∧ ∀ v, v ∈ result ↔ v ∈ allowVerbs ∧ v ∉ denyVerbs)
  ∧ (∃ result n',
       EvaluatePolicyRules shuffle allowMap denyMap n = Ok (result, n')
       ∧ ∀ key,
           (∃ d dr, denyMap !! d = Some dr ∧ applies d key = true) →
           (∀ v, v ∈ verbsAt allowMap key →
                 ∃ d dr, denyMap !! d = Some dr ∧ applies d key = true
                         ∧ v ∈ rbacv1.Verbs dr) →
           result !! key = None).
Proof.
  intros Hperm Hlen Hok. split.
  - by apply GetSurvivingVerbs_spec.
  - destruct (EvaluatePolicyRules_spec shuffle Hperm allowMap denyMap n Hok)
      as (result & n' & Hrun & Hev).
    exists result, n'. split; [done|].
    intros key (d & dr & Hd & Happ) Hall.
    destruct (result !! key) as [rule|] eqn:Hrule; [exfalso | done].
    destruct (Hev key) as (E1 & _ & E3).
    assert (Hne : rbacv1.Verbs rule ≠ []).
    { apply (E3 rule Hrule). exists d, dr. split; [|done]. by apply elem_of_map_to_list. }
    destruct (rbacv1.Verbs rule) as [|v vs] eqn:Hvs; [done|].
    assert (Hv : v ∈ verbsAt result key).
    { rewrite (verbsAt_Some _ _ _ Hrule), Hvs. by left. }
    apply E1 in Hv as [Hv Hnot].
    destruct (Hall v Hv) as (d' & dr' & Hd' & Happ' & Hin).
    apply (Hnot d' dr'); [by apply elem_of_map_to_list | done | done].
Qed.

(** ** Keys *)

Lemma append_cons x (a b : string) : String x a +:+ b = String x (a +:+ b).
Proof. reflexivity. Qed.

Lemma append_nil_l (b : string) : "" +:+ b = b.
Proof. reflexivity. Qed.

Lemma append_assoc (a b c : string) : (a +:+ b) +:+ c = a +:+ (b +:+ c).
Proof. induction a as [|x a IH]; [done|]. rewrite !append_cons. by f_equal. Qed.

Lemma append_nil_r (a : string) : a +:+ "" = a.
Proof. induction a as [|x a IH]; [done|]. rewrite append_cons. by f_equal. Qed.

Lemma Split_nonempty s sep : Split s sep ≠ [].
Proof.
  destruct s as [|c s]; simpl; [done|].
  case_decide; [done|]. by destruct (Split s sep).
Qed.

Lemma Split_cons_sep s sep : Split (String sep s) sep = "" :: Split s sep.
Proof. simpl. by rewrite decide_True. Qed.

Lemma Split_app g rest :
  nohash g → Split (g +:+ String hash rest) hash = g :: Split rest hash.
Proof.
  unfold nohash. induction g as [|c g IH]; intros Hg.
  - apply Split_cons_sep.
  - simpl in Hg. destruct (decide (c = hash)) as [|Hc]; [done|].
    rewrite append_cons. cbn [Split]. rewrite decide_False by done.
    by rewrite (IH Hg).
Qed.

Lemma Split_nohash s : nohash s → Split s hash = [s].
Proof.
  unfold nohash. induction s as [|c s IH]; intros Hs; [done|].
  simpl in Hs. destruct (decide (c = hash)) as [|Hc]; [done|].
  cbn [Split]. rewrite decide_False by done. by rewrite (IH Hs).
Qed.

Lemma nameKey_eq g r n : nameKey g r n = g +:+ String hash (r +:+ String hash n).
Proof.
  unfold nameKey, broadKey. by rewrite !append_assoc.
Qed.

Lemma broadKey_nameKey g r : broadKey g r = nameKey g r "".
Proof. unfold nameKey. by rewrite append_nil_r. Qed.

Lemma Split_nameKey g r n :
  nohash g → nohash r → nohash n → Split (nameKey g r n) hash = [g; r; n].
Proof.
  intros Hg Hr Hn. rewrite nameKey_eq.
  by rewrite (Split_app _ _ Hg), (Split_app _ _ Hr), (Split_nohash _ Hn).
Qed.

Lemma append_inv_head (g x y : string) : g +:+ x = g +:+ y → x = y.
Proof.
  induction g as [|c g IH]; [done|]. rewrite !append_cons. intros H. apply IH. congruence.
Qed.

Lemma nameKey_inj g r n g' r' n' :
  nohash g → nohash r → nohash g' → nohash r' →
  nameKey g r n = nameKey g' r' n' → g = g' ∧ r = r' ∧ n = n'.
Proof.
  intros Hg Hr Hg' Hr' Heq. rewrite !nameKey_eq in Heq.
  assert (Hs := f_equal (λ s, Split s hash) Heq). cbn beta in Hs.
  rewrite (Split_app _ _ Hg), (Split_app _ _ Hg') in Hs.
  injection Hs as -> Hs'.
  apply append_inv_head in Heq. injection Heq as Heq.
  assert (Hs := f_equal (λ s, Split s hash) Heq). cbn beta in Hs.
  rewrite (Split_app _ _ Hr), (Split_app _ _ Hr') in Hs.
  injection Hs as -> _.
  apply append_inv_head in Heq. injection Heq as ->. done.
Qed.

Lemma Join_take_nameKey g r n :
  Join (take 2 [g; r; n]) "#" +:+ "#" = broadKey g r.
Proof. unfold broadKey. cbn [take Join]. by rewrite !append_assoc. Qed.

Lemma HasPrefix_refl s : HasPrefix s s = true.
Proof. induction s as [|c s IH]; simpl; [done|]. by rewrite decide_True. Qed.

Lemma HasPrefix_app s t : HasPrefix (s +:+ t) s = true.
Proof.
  induction s as [|c s IH]; [by destruct t|].
  rewrite append_cons. cbn [HasPrefix]. by rewrite decide_True.
Qed.

Lemma HasPrefix_trans a b c :
  HasPrefix a b = true → HasPrefix b c = true → HasPrefix a c = true.
Proof.
  revert a b. induction c as [|x c IH]; intros a b Hab Hbc; [by destruct a|].
  destruct b as [|y b]; [done|]. simpl in Hbc.
  destruct (decide (x = y)) as [<-|]; [|done].
  destruct a as [|z a]; [done|]. simpl in Hab |- *.
  destruct (decide (x = z)) as [<-|]; [|done].
  by eapply IH.
Qed.

(** A prefix without ['#'] of a key is a prefix of its group. *)
Lemma HasPrefix_group g rest prefix :
  nohash prefix → HasPrefix (g +:+ String hash rest) prefix = HasPrefix g prefix.
Proof.
  unfold nohash. revert g. induction prefix as [|c prefix IH]; intros g Hp; [done|].
  simpl in Hp. destruct (decide (c = hash)) as [|Hc]; [done|].
  destruct g as [|d g]; rewrite ?append_cons, ?append_nil_l; cbn [HasPrefix].
  - by rewrite decide_False.
  - destruct (decide (c = d)); [by apply IH | done].
Qed.

Lemma HasPrefix_nameKey_url g r n :
  HasPrefix (nameKey g r n) "nonresourceurl" = HasPrefix g "nonresourceurl".
Proof. rewrite nameKey_eq. by apply HasPrefix_group. Qed.

(** A key is under a broad key exactly when it is a key of the same group
    and resource. *)
Lemma HasPrefix_same_group g g' x y :
  nohash g → nohash g' →
  HasPrefix (g +:+ String hash x) (g' +:+ String hash y) = true ↔ g = g' ∧ HasPrefix x y = true.
Proof.
  unfold nohash. revert g'. induction g as [|c g IH]; intros g' Hg Hg'.
  - destruct g' as [|c' g']; rewrite ?append_cons, ?append_nil_l; cbn [HasPrefix].
    + rewrite decide_True by done. by split; [intros ? | intros [_ ?]].
    + cbn [occurs] in Hg'. destruct (decide (c' = hash)) as [|Hc']; [done|].
      split; [done | intros [? _]; done].
  - cbn [occurs] in Hg. destruct (decide (c = hash)) as [|Hc]; [done|].
    destruct g' as [|c' g']; rewrite ?append_cons, ?append_nil_l; cbn [HasPrefix].
    + rewrite decide_False by done. split; [done | intros [? _]; done].
    + cbn [occurs] in Hg'. destruct (decide (c' = hash)) as [|Hc']; [done|].
      destruct (decide (c' = c)) as [->|Hne].
      * rewrite (IH g' Hg Hg'). split; intros [Heq ?]; split; congruence.
      * split; [done | intros [? _]; congruence].
Qed.

Lemma HasPrefix_nameKey_broadKey g r n g' r' :
  nohash g → nohash r → nohash g' → nohash r' →
  HasPrefix (nameKey g r n) (broadKey g' r') = true ↔ g = g' ∧ r = r'.
Proof.
  intros Hg Hr Hg' Hr'. rewrite broadKey_nameKey, !nameKey_eq.
  rewrite (HasPrefix_same_group _ _ _ _ Hg Hg'), (HasPrefix_same_group _ _ _ _ Hr Hr').
  split; [tauto|]. intros [-> ->]. split; [done|]. split; [done|]. by destruct n.
Qed.

Lemma TrimSuffix_cons y z s c :
  TrimSuffix (String y (String z s)) c = String y (TrimSuffix (String z s) c).
Proof. reflexivity. Qed.

Lemma HasSuffix_cons y z s c :
  HasSuffix (String y (String z s)) c = HasSuffix (String z s) c.
Proof. reflexivity. Qed.

(** Trimming the ["*"] of a URL key leaves its head in place. *)
Lemma HasPrefix_TrimSuffix s prefix c :
  occurs c prefix = false → HasSuffix s c = true →
  HasPrefix s prefix = true → HasPrefix (TrimSuffix s c) prefix = true.
Proof.
  revert s. induction prefix as [|x prefix IH]; intros s Hp Hs Hpre; [done|].
  cbn [occurs] in Hp. destruct (decide (x = c)) as [|Hx]; [done|].
  destruct s as [|y s]; [done|]. cbn [HasPrefix] in Hpre.
  destruct (decide (x = y)) as [<-|]; [|done].
  destruct s as [|z s].
  - cbn [HasSuffix] in Hs. apply bool_decide_eq_true in Hs. done.
  - rewrite TrimSuffix_cons. rewrite HasSuffix_cons in Hs.
    cbn [HasPrefix]. rewrite decide_True by done. by apply IH.
Qed.

(** ** [EvaluateSpecialCases] *)

Lemma append_nonempty_ne (key name : string) : name ≠ "" → key +:+ name ≠ key.
Proof.
  intros Hn Heq. apply Hn. apply (append_inv_head key).
  by rewrite append_nil_r.
Qed.

(** The inner loop of [EvaluateSpecialCases] writes one allow per name, and
    leaves the other keys alone. *)
Lemma allowPerInstance_spec key names (m : gmap string rbacv1.PolicyRule) b :
  m !! key = Some b → Forall objectName names →
  allowPerInstance key names m !! key = Some b
  ∧ (∀ n, n ∈ names → allowPerInstance key names m !! (key +:+ n) = Some (instanceRule b n))
  ∧ (∀ a, (∀ n, n ∈ names → a ≠ key +:+ n) → allowPerInstance key names m !! a = m !! a).
Proof.
  revert m. induction names as [|x names IH]; intros m Hkey Hnames.
  - split; [done|]. split; [|done]. intros n Hn. by apply elem_of_nil in Hn.
  - apply Forall_cons in Hnames as [Hx Hnames].
    change (allowPerInstance key (x :: names) m)
      with (allowPerInstance key names
              (<[key +:+ x :=
                  {| rbacv1.APIGroups := rbacv1.APIGroups (ruleAt m key);
                     rbacv1.Resources := rbacv1.Resources (ruleAt m key);
                     rbacv1.ResourceNames := [x];
                     rbacv1.Verbs := rbacv1.Verbs (ruleAt m key);
                     rbacv1.NonResourceURLs := [] |}]> m)).
    rewrite (ruleAt_Some _ _ _ Hkey). fold (instanceRule b x).
    assert (Hkey' : <[key +:+ x := instanceRule b x]> m !! key = Some b).
    { rewrite lookup_insert_ne; [done | by apply append_nonempty_ne]. }
    destruct (IH _ Hkey' Hnames) as (I1 & I2 & I3).
    split; [done|]. split.
    + intros n Hn. destruct (decide (n ∈ names)) as [Hin|Hnin]; [by apply I2|].
      apply elem_of_cons in Hn as [->|Hn]; [|done].
      rewrite I3; [apply lookup_insert_eq|].
      intros n' Hn' Heq. apply append_inv_head in Heq. congruence.
    + intros a Ha. rewrite I3.
      * rewrite lookup_insert_ne; [done|]. intros Heq. apply (Ha x); [by left | done].
      * intros n Hn. apply Ha. by right.
Qed.

Section SpecialCases.

Variable shuffle : nat → ∀ A : Type, list A → list A.
Hypothesis shuffle_perm : ∀ n A (l : list A), shuffle n A l ≡ₚ l.

Variable p : PolicyRulesProcessorT.
Hypothesis lister_ok : listerAnswers p.

Lemma special_turn denyMapkey policyRule allowMap n :
  keyed denyMapkey policyRule →
  ∃ m',
    (if HasPrefix denyMapkey "nonresourceurl" then mret allowMap
     else
       let parts := Split denyMapkey hash in
       name ← lift (index parts 2);
       if decide (name = "") then mret allowMap
       else
         let key := Join (take 2 parts) "#" +:+ "#" in
         match allowMap !! key with
         | None => mret allowMap
         | Some _ =>
             resource ← lift (index (rbacv1.Resources policyRule) 0);
             let coreResourceType := firstPart resource slash in
             group ← lift (index (rbacv1.APIGroups policyRule) 0);
             let tmpGvkr := findGvkr p group coreResourceType in
             names ← lift (Client_List p (GVK tmpGvkr));
             mret (delete key (allowPerInstance key names allowMap))
         end) n = Ok (m', n)
    ∧ expansion p denyMapkey allowMap m'.
Proof.
  intros Hkeyed.
  destruct (HasPrefix denyMapkey "nonresourceurl") eqn:Hurl.
  { exists allowMap. split; [done|]. left. split; [done | intros; congruence]. }
  destruct Hkeyed as [?|(g & r & name & -> & Hg & Hr & Hn & Hgroups & Hres)]; [congruence|].
  cbn zeta. rewrite (Split_nameKey _ _ _ Hg Hr Hn).
  change (lift (index [g; r; name] 2)) with (lift (Ok name)).
  rewrite (M_bind_Ok _ _ n name n) by done.
  destruct (decide (name = "")) as [->|Hname].
  { exists allowMap. split; [done|]. left. split; [done|].
    intros g' r' n' Heq Hg' Hr' Hn'.
    apply nameKey_inj in Heq as (_ & _ & Heq); done. }
  rewrite Join_take_nameKey.
  destruct (allowMap !! broadKey g r) as [broad|] eqn:Hbroad.
  2: { exists allowMap. split; [done|]. left. split; [done|].
       intros g' r' n' Heq Hg' Hr' Hn' _.
       apply nameKey_inj in Heq as (<- & <- & _); done. }
  rewrite Hres, Hgroups.
  change (lift (index [r] 0)) with (lift (Ok r)).
  rewrite (M_bind_Ok _ _ n r n) by done. cbn zeta.
  change (lift (index [g] 0)) with (lift (Ok g)).
  rewrite (M_bind_Ok _ _ n g n) by done.
  destruct (lister_ok (GVK (findGvkr p g (firstPart r slash)))) as (names & Hlist & Hnames).
  rewrite Hlist. rewrite (M_bind_Ok _ _ n names n) by done.
  eexists. split; [reflexivity|].
  right. exists g, r, name, names, broad. done.
Qed.

(** The resource whose broad allow the statements follow. *)
Variables (group resource : string) (names : list string) (broad : rbacv1.PolicyRule).
Hypothesis group_nohash : nohash group.
Hypothesis resource_nohash : nohash resource.
Hypothesis instances : instancesOf p group resource = Ok names.

Lemma names_ok : Forall objectName names.
Proof.
  destruct (lister_ok (GVK (findGvkr p group (firstPart resource slash))))
    as (names' & Hlist & Hnames).
  unfold instancesOf in instances. congruence.
Qed.

(** An expansion of another resource does not touch the keys of this one. *)
Lemma expansion_elsewhere g r names' (m : gmap string rbacv1.PolicyRule) b n :
  nohash g → nohash r → Forall objectName names' →
  m !! broadKey g r = Some b →
  (g, r) ≠ (group, resource) →
  delete (broadKey g r) (allowPerInstance (broadKey g r) names' m)
    !! nameKey group resource n
  = m !! nameKey group resource n.
Proof.
  intros Hg Hr Hnames Hb Hne.
  assert (Hdiff : ∀ n', nameKey group resource n ≠ nameKey g r n').
  { intros n' Heq. apply nameKey_inj in Heq as (-> & -> & _); done. }
  rewrite lookup_delete_ne.
  2: { rewrite broadKey_nameKey. intros Heq. by apply (Hdiff ""). }
  destruct (allowPerInstance_spec _ _ _ _ Hb Hnames) as (_ & _ & I3).
  apply I3. intros n' _. apply Hdiff.
Qed.

Lemma turn_keeps_expanded d m m' :
  expansion p d m m' →
  expandedAt group resource names broad m → expandedAt group resource names broad m'.
Proof.
  intros [[-> _]|(g & r & name & names' & b & -> & Hg & Hr & Hname & Hb & Hlist & Hnames & ->)];
    [done|].
  intros [Hnone Hall].
  destruct (decide ((g, r) = (group, resource))) as [Heq|Hne].
  { injection Heq as -> ->. congruence. }
  split.
  - rewrite broadKey_nameKey, (expansion_elsewhere g r names' m b) by done.
    by rewrite <- broadKey_nameKey.
  - intros n Hn. rewrite (expansion_elsewhere g r names' m b) by done. by apply Hall.
Qed.

Lemma turn_expands d m m' :
  expansion p d m m' →
  m !! broadKey group resource = Some broad →
  (m' !! broadKey group resource = Some broad
   ∧ ∀ name, name ≠ "" → HasPrefix d "nonresourceurl" = false →
             d ≠ nameKey group resource name)
  ∨ expandedAt group resource names broad m'.
Proof.
  intros [[-> Hno]|(g & r & name & names' & b & -> & Hg & Hr & Hname & Hb & Hlist & Hnames & ->)]
         Hbroad.
  - left. split; [done|]. intros name Hname Hurl ->.
    rewrite (Hno group resource name) in Hbroad; done.
  - destruct (decide ((g, r) = (group, resource))) as [Heq|Hne].
    + injection Heq as -> ->. right.
      assert (names' = names) as -> by congruence.
      assert (b = broad) as -> by congruence.
      destruct (allowPerInstance_spec _ _ _ _ Hb Hnames) as (_ & I2 & _).
      split; [apply lookup_delete_eq|].
      intros n Hn. rewrite lookup_delete_ne.
      * by apply I2.
      * intros Heq. symmetry in Heq. revert Heq. apply append_nonempty_ne.
        pose proof names_ok as Hok. rewrite Forall_forall in Hok.
        by apply (Hok n Hn).
    + left. split.
      * rewrite broadKey_nameKey, (expansion_elsewhere g r names' m b) by done.
        by rewrite <- broadKey_nameKey.
      * intros name' _ _ Heq. apply nameKey_inj in Heq as (-> & -> & _); done.
Qed.

Lemma special_loop (entries : list (string * rbacv1.PolicyRule)) allowMap n :
  Forall (λ e, keyed e.1 e.2) entries →
  ∃ m',
    foldM (λ (allowMap : gmap string rbacv1.PolicyRule) '(denyMapkey, policyRule),
      if HasPrefix denyMapkey "nonresourceurl" then mret allowMap
      else
        let parts := Split denyMapkey hash in
        name ← lift (index parts 2);
        if decide (name = "") then mret allowMap
        else
          let key := Join (take 2 parts) "#" +:+ "#" in
          match allowMap !! key with
          | None => mret allowMap
          | Some _ =>
              resource ← lift (index (rbacv1.Resources policyRule) 0);
              let coreResourceType := firstPart resource slash in
              group ← lift (index (rbacv1.APIGroups policyRule) 0);
              let tmpGvkr := findGvkr p group coreResourceType in
              names ← lift (Client_List p (GVK tmpGvkr));
              mret (delete key (allowPerInstance key names allowMap))
          end)
      allowMap entries n = Ok (m', n)
    ∧ (expandedAt group resource names broad allowMap →
       expandedAt group resource names broad m')
    ∧ (allowMap !! broadKey group resource = Some broad →
       (∃ name dr, (nameKey group resource name, dr) ∈ entries ∧ name ≠ ""
                   ∧ HasPrefix (nameKey group resource name) "nonresourceurl" = false) →
       expandedAt group resource names broad m').
Proof.
  revert allowMap. induction entries as [|[d dr] entries IH]; intros allowMap Hkeyed.
  - exists allowMap. split; [done|]. split; [done|].
    intros _ (name & dr & Hin & _). by apply elem_of_nil in Hin.
  - apply Forall_cons in Hkeyed as [Hd Hkeyed]. cbn [fst snd] in Hd.
    destruct (special_turn d dr allowMap n Hd) as (m1 & Hrun1 & Hexp).
    destruct (IH m1 Hkeyed) as (m' & Hrun & Hkeep & Hpend).
    exists m'. split.
    { cbn [foldM]. rewrite (M_bind_Ok _ _ _ _ _ Hrun1). exact Hrun. }
    split.
    + intros Hexpd. apply Hkeep. by eapply turn_keeps_expanded.
    + intros Hbroad (name & dr' & Hin & Hname & Hurl).
      destruct (turn_expands d allowMap m1 Hexp Hbroad) as [[Hbroad1 Hd']|Hexpd];
        [|by apply Hkeep].
      apply Hpend; [done|]. exists name, dr'.
      apply elem_of_cons in Hin as [Heq|Hin]; [|done].
      injection Heq as <- <-. by destruct (Hd' name Hname Hurl).
Qed.

(** [EvaluateSpecialCases] replaces the broad allow of a resource for which
    the deny map holds a named entry. *)
Lemma EvaluateSpecialCases_spec allowMap denyMap n name :
  map_Forall keyed denyMap →
  HasPrefix group "nonresourceurl" = false →
  allowMap !! broadKey group resource = Some broad →
  name ≠ "" → is_Some (denyMap !! nameKey group resource name) →
  ∃ special,
    EvaluateSpecialCases shuffle p allowMap denyMap n = Ok (special, S n)
    ∧ expandedAt group resource names broad special.
Proof.
  intros Hkeyed Hurl Hbroad Hname [dr Hdr].
  destruct (rangeMap_Ok shuffle shuffle_perm denyMap n) as (entries & Hrange & Hperm).
  assert (Hall : Forall (λ e, keyed e.1 e.2) entries).
  { rewrite Hperm. apply Forall_forall. intros [d dr'] Hin.
    apply elem_of_map_to_list in Hin. by apply (Hkeyed d dr'). }
  destruct (special_loop entries allowMap (S n) Hall) as (m' & Hrun & _ & Hexp).
  exists m'. split.
  - unfold EvaluateSpecialCases. rewrite (M_bind_Ok _ _ _ _ _ Hrange). exact Hrun.
  - apply Hexp; [done|]. exists name, dr. split; [|split; [done|]].
    + rewrite Hperm. by apply elem_of_map_to_list.
    + by rewrite HasPrefix_nameKey_url.
Qed.

End SpecialCases.

(** The deny entries that [EvaluatePolicyRules] subtracts from the allow of
    an object of the resource: the entry of the object and the entry of the
    resource. *)
Lemma applies_nameKey group resource d dr n :
  nohash group → nohash resource →
  keyed d dr → HasPrefix group "nonresourceurl" = false → n ≠ "" →
  applies d (nameKey group resource n) = true
  ↔ d = broadKey group resource ∨ d = nameKey group resource n.
Proof.
  intros group_nohash resource_nohash Hkeyed Hurl Hn. unfold applies.
  assert (Ha : HasPrefix (nameKey group resource n) "nonresourceurl" = false)
    by (by rewrite HasPrefix_nameKey_url).
  destruct (HasPrefix d "nonresourceurl") eqn:Hd.
  - split.
    + destruct (HasSuffix d star) eqn:Hstar.
      * intros Hpre. exfalso.
        assert (HasPrefix (nameKey group resource n) "nonresourceurl" = true); [|congruence].
        eapply HasPrefix_trans; [exact Hpre|].
        by apply HasPrefix_TrimSuffix.
      * intros Heq. apply bool_decide_eq_true in Heq. congruence.
    + intros [->| ->]; [|congruence].
      rewrite broadKey_nameKey, HasPrefix_nameKey_url in Hd. congruence.
  - destruct Hkeyed as [?|(g & r & n' & -> & Hg & Hr & Hn' & _)]; [congruence|].
    rewrite (Split_nameKey _ _ _ Hg Hr Hn'). cbn [lookup list_lookup].
    destruct (decide (n' = "")) as [->|Hne].
    + rewrite <- broadKey_nameKey.
      rewrite (HasPrefix_nameKey_broadKey _ _ _ _ _ group_nohash resource_nohash Hg Hr).
      split.
      * intros [-> ->]. by left.
      * rewrite !broadKey_nameKey.
        intros [Heq|Heq]; apply nameKey_inj in Heq as (-> & -> & Heq'); done.
    + split.
      * intros Heq. apply bool_decide_eq_true in Heq. by right.
      * intros [Heq| ->]; [|by apply bool_decide_eq_true].
        rewrite broadKey_nameKey in Heq.
        apply nameKey_inj in Heq as (_ & _ & Heq'); done.
Qed.


Lemma keyed_splittable d dr : keyed d dr → splittable d.
Proof.
  intros [Hurl|(g & r & n & -> & Hg & Hr & Hn & _)]; [by left|].
  right. by rewrite (Split_nameKey _ _ _ Hg Hr Hn).
Qed.


Lemma inOrder_perm : ∀ n A (l : list A), inOrder n A l ≡ₚ l.
Proof. done. Qed.

Lemma sampleProcessor_answers : listerAnswers sampleProcessor.
Proof.
  intros gvk. exists ["a"; "b"; "c"]. split; [done|].
  repeat constructor; done.
Qed.

Lemma sampleDenyMap_keyed :
  map_Forall (λ d dr, keyed d dr ∧ slice_len_ok (rbacv1.Verbs dr)) sampleDenyMap.
Proof.
  apply map_Forall_insert_2; [|apply map_Forall_singleton].
  - split; [|done]. right. by exists "", "configmaps", "a".
  - split; [|done]. right. by exists "", "configmaps", "b".
Qed.



(** ** [ExpandPolicyRules] *)

(** Whether a group holds a resource of the type of [resource], the
    subresource left aside. *)
Lemma markGroup_found gvkrs resource group newGroupList :
  Exists (λ gvkr, Resource gvkr = firstPart resource slash) gvkrs →
  group ∉ newGroupList →
  markGroup gvkrs resource group newGroupList = newGroupList ++ [group].
Proof.
  intros Hex Hnin. unfold Contains.
  induction gvkrs as [|gvkr gvkrs IH]; [by apply Exists_nil in Hex|].
  cbn [markGroup]. unfold Contains. rewrite (bool_decide_eq_false_2 _ Hnin).
  destruct (decide (Resource gvkr = firstPart resource slash)) as [Heq|Hne].
  - by rewrite (bool_decide_eq_true_2 _ Heq).
  - rewrite (bool_decide_eq_false_2 _ Hne). cbn [andb]. apply IH.
    apply Exists_cons in Hex as [?|?]; done.
Qed.

Lemma markGroup_marked gvkrs resource group newGroupList :
  group ∈ newGroupList → markGroup gvkrs resource group newGroupList = newGroupList.
Proof.
  intros Hin. induction gvkrs as [|gvkr gvkrs IH]; [done|].
  cbn [markGroup]. unfold Contains. rewrite (bool_decide_eq_true_2 _ Hin).
  by rewrite andb_false_r.
Qed.

Lemma markGroup_missing gvkrs resource group newGroupList :
  ¬ Exists (λ gvkr, Resource gvkr = firstPart resource slash) gvkrs →
  markGroup gvkrs resource group newGroupList = newGroupList.
Proof.
  intros Hno. induction gvkrs as [|gvkr gvkrs IH]; [done|].
  cbn [markGroup]. rewrite Exists_cons in Hno.
  rewrite bool_decide_eq_false_2 by tauto. cbn [andb]. apply IH. tauto.
Qed.

Lemma markGroup_owns p resources resource group newGroupList :
  resource ∈ resources →
  Forall (ownsOneOf p resources) newGroupList →
  Forall (ownsOneOf p resources)
         (markGroup (groupResources p group) resource group newGroupList).
Proof.
  intros Hres Hall.
  destruct (decide (Exists (λ gvkr, Resource gvkr = firstPart resource slash)
                           (groupResources p group))) as [Hex|Hno].
  - destruct (decide (group ∈ newGroupList)) as [Hin|Hnin].
    + by rewrite markGroup_marked.
    + rewrite markGroup_found by done. apply Forall_app. split; [done|].
      apply Forall_singleton. apply Exists_exists in Hex as (gvkr & Hin & Heq).
      by exists resource, gvkr.
  - by rewrite markGroup_missing.
Qed.

Lemma cleanGroups_owns p resources groups :
  Forall (ownsOneOf p resources) (cleanGroups p resources groups).
Proof.
  unfold cleanGroups.
  assert (Hgen : ∀ rs acc,
    rs ⊆ resources → Forall (ownsOneOf p resources) acc →
    Forall (ownsOneOf p resources)
      (foldl (λ newGroupList resource,
                foldl (λ newGroupList group,
                         markGroup (groupResources p group) resource group newGroupList)
                      newGroupList groups) acc rs)).
  { induction rs as [|r rs IH]; intros acc Hsub Hacc; [done|].
    cbn [foldl]. apply IH; [set_solver|].
    assert (Hr : r ∈ resources) by set_solver.
    clear IH Hsub. revert acc Hacc.
    induction groups as [|g groups IHg]; intros acc Hacc; [done|].
    cbn [foldl]. apply IHg. by apply markGroup_owns. }
  apply Hgen; [done | constructor].
Qed.

Section Expansion.

Variable shuffle : nat → ∀ A : Type, list A → list A.

Lemma expandRule_spec p policyRule n :
  ∃ rule' n',
    expandRule shuffle p policyRule n = Ok (rule', n')
    ∧ Forall (ownsOneOf p (rbacv1.Resources rule')) (rbacv1.APIGroups rule').
Proof.
  unfold expandRule.
  destruct (Contains (rbacv1.APIGroups policyRule) "*").
  - unfold rangeMap, mbind, M_bind, mret, M_ret.
    eexists _, _. split; [reflexivity|]. apply cleanGroups_owns.
  - unfold mbind, M_bind, mret, M_ret.
    eexists _, _. split; [reflexivity|]. apply cleanGroups_owns.
Qed.

Lemma ExpandPolicyRules_loop p policyRules result n :
  Forall (λ rule', Forall (ownsOneOf p (rbacv1.Resources rule')) (rbacv1.APIGroups rule'))
         result →
  ∃ expanded n',
    foldM (λ result policyRule,
             if validRule policyRule then
               newPolicyRule ← expandRule shuffle p policyRule;
               mret (result ++ [newPolicyRule])
             else mret result)
          result policyRules n = Ok (expanded, n')
    ∧ Forall (λ rule', Forall (ownsOneOf p (rbacv1.Resources rule'))
                              (rbacv1.APIGroups rule'))
             expanded.
Proof.
  revert result n. induction policyRules as [|rule rules IH]; intros result n Hres.
  - by eexists _, _.
  - cbn [foldM]. destruct (validRule rule).
    + destruct (expandRule_spec p rule n) as (rule' & n1 & Hrun & Hrule').
      rewrite (M_bind_Ok _ _ n (result ++ [rule']) n1).
      * apply IH. apply Forall_app. split; [done | by apply Forall_singleton].
      * by rewrite (M_bind_Ok _ _ _ _ _ Hrun).
    + rewrite (M_bind_Ok _ _ n result n) by done. by apply IH.
Qed.

Hypothesis shuffle_perm : ∀ n A (l : list A), shuffle n A l ≡ₚ l.

Lemma resourceList_fold (groups : list (string * list GVKR)) acc :
  foldl (λ resourceList '(_, resList),
           foldl (λ resourceList res, resourceList ++ [resourceName res])
                 resourceList resList)
        acc groups
  = acc ++ mjoin ((λ e : string * list GVKR, resourceName <$> e.2) <$> groups).
Proof.
  revert acc. induction groups as [|[g l] groups IH]; intros acc.
  - by rewrite app_nil_r.
  - cbn [foldl fmap list_fmap mjoin list_join snd]. rewrite IH, app_assoc. f_equal.
    clear IH. revert acc. induction l as [|x l IHl]; intros acc.
    + by rewrite app_nil_r.
    + cbn [foldl fmap list_fmap]. rewrite IHl. by rewrite <- app_assoc.
Qed.

(** [SetResourceList] lists the names of the resources of the inventory. *)
Lemma SetResourceList_spec resourcesByGroup n :
  ∃ resourceList,
    SetResourceList shuffle resourcesByGroup n = Ok (resourceList, S n)
    ∧ ∀ s, s ∈ resourceList ↔
           ∃ g gvkrs gvkr, resourcesByGroup !! g = Some gvkrs ∧ gvkr ∈ gvkrs
                           ∧ resourceName gvkr = s.
Proof.
  destruct (rangeMap_Ok shuffle shuffle_perm resourcesByGroup n)
    as (groups & Hrange & Hperm).
  eexists. split.
  { unfold SetResourceList. rewrite (M_bind_Ok _ _ _ _ _ Hrange). reflexivity. }
  intros s. rewrite resourceList_fold, app_nil_l, list_elem_of_join. split.
  - intros (l & Hs & Hl). apply list_elem_of_fmap in Hl as ([g gvkrs] & -> & Hin).
    cbn [snd] in Hs. apply list_elem_of_fmap in Hs as (gvkr & -> & Hgvkr).
    exists g, gvkrs, gvkr. split; [|done]. apply elem_of_map_to_list. by rewrite <- Hperm.
  - intros (g & gvkrs & gvkr & Hg & Hgvkr & <-).
    exists (resourceName <$> gvkrs). split; [by apply list_elem_of_fmap_2|].
    apply list_elem_of_fmap. exists (g, gvkrs). split; [done|].
    rewrite Hperm. by apply elem_of_map_to_list.
Qed.

Lemma groupResources_elem p group gvkr :
  gvkr ∈ groupResources p group →
  ∃ gvkrs, ResourcesByGroup p !! group = Some gvkrs ∧ gvkr ∈ gvkrs.
Proof.
  unfold groupResources. destruct (ResourcesByGroup p !! group) as [gvkrs|]; [eauto|].
  intros H. by apply elem_of_nil in H.
Qed.

(** The cleanup for the one resource [pods] that lives in the core group
    only: the core group is what remains of any list of groups it is in. *)
Lemma cleanGroups_pods p groups acc :
  (∃ gvkr, gvkr ∈ groupResources p "" ∧ Resource gvkr = "pods") →
  (∀ g gvkr, gvkr ∈ groupResources p g → Resource gvkr = "pods" → g = "") →
  NoDup groups →
  (acc = [] ∧ "" ∈ groups) ∨ (acc = [""] ∧ "" ∉ groups) →
  foldl (λ newGroupList group,
           markGroup (groupResources p group) "pods" group newGroupList)
        acc groups = [""].
Proof.
  intros (gvkr & Hin & Hpods) Honly. revert acc.
  induction groups as [|g groups IH]; intros acc Hnd Hacc.
  - destruct Hacc as [[_ H]|[-> _]]; [by apply elem_of_nil in H | done].
  - apply NoDup_cons in Hnd as [Hg Hnd]. cbn [foldl].
    destruct (decide (g = "")) as [->|Hne].
    + destruct Hacc as [[-> _]|[_ H]]; [|destruct H; by left].
      rewrite markGroup_found.
      * apply IH; [done|]. by right.
      * apply Exists_exists. by exists gvkr.
      * apply not_elem_of_nil.
    + rewrite markGroup_missing.
      * apply IH; [done|]. destruct Hacc as [[-> H]|[-> H]].
        -- left. split; [done|]. apply elem_of_cons in H as [?|?]; done.
        -- right. split; [done|]. by apply not_elem_of_cons in H as [_ ?].
      * intros Hex. apply Exists_exists in Hex as (gvkr' & Hin' & Heq).
        apply Hne. by apply (Honly g gvkr').
Qed.

End Expansion.



(** ** The compiler without denies *)

Lemma M_bind_Err {A B} (c : M A) (f : A → M B) n e :
  c n = Err e → (c ≫= f) n = Err e.
Proof. intros H. unfold mbind, M_bind. by rewrite H. Qed.

Lemma M_bind_Panic {A B} (c : M A) (f : A → M B) n :
  c n = Panic → (c ≫= f) n = Panic.
Proof. intros H. unfold mbind, M_bind. by rewrite H. Qed.

Section NoDeny.

Variable shuffle : nat → ∀ A : Type, list A → list A.
Hypothesis shuffle_perm : ∀ n A (l : list A), shuffle n A l ≡ₚ l.

Lemma rangeMap_empty {V} n : rangeMap shuffle (∅ : gmap string V) n = Ok ([], S n).
Proof.
  unfold rangeMap. f_equal. f_equal. apply Permutation_nil_r.
  by rewrite shuffle_perm, map_to_list_empty.
Qed.

Lemma EvaluateSpecialCases_no_deny p allowMap n :
  EvaluateSpecialCases shuffle p allowMap ∅ n = Ok (allowMap, S n).
Proof.
  unfold EvaluateSpecialCases. by rewrite (M_bind_Ok _ _ _ _ _ (rangeMap_empty n)).
Qed.

Lemma EvaluatePolicyRules_no_deny allowMap n :
  EvaluatePolicyRules shuffle allowMap ∅ n = Ok (allowMap, S n).
Proof.
  unfold EvaluatePolicyRules. by rewrite (M_bind_Ok _ _ _ _ _ (rangeMap_empty n)).
Qed.

Lemma CompileRules_no_deny p allow n :
  value (CompileRules shuffle p allow []) n = value (KeyMerge shuffle p allow) n.
Proof.
  unfold value, CompileRules, KeyMerge.
  destruct (ExpandPolicyRules shuffle p allow n) as [[expanded n1]|e|] eqn:Hexp.
  - rewrite !(M_bind_Ok _ _ _ _ _ Hexp).
    rewrite (M_bind_Ok _ _ n1 [] n1) by done.
    destruct (GetMapFromStretchedPolicyRules (StretchPolicyRules p expanded))
      as [allowMap|e|] eqn:Hmap.
    + rewrite (M_bind_Ok _ _ n1 allowMap n1) by done.
      rewrite (M_bind_Ok _ _ n1 ∅ n1) by done.
      rewrite (M_bind_Ok _ _ n1 allowMap (S n1)).
      * unfold wrapErr. by rewrite EvaluatePolicyRules_no_deny.
      * unfold wrapErr. by rewrite EvaluateSpecialCases_no_deny.
    + by rewrite (M_bind_Err _ _ n1 e).
    + by rewrite (M_bind_Panic _ _ n1).
  - by rewrite !(M_bind_Err _ _ _ _ Hexp).
  - by rewrite !(M_bind_Panic _ _ _ Hexp).
Qed.

End NoDeny.



(** ** [SplitPolicyRules] *)

(** C6 (the code at the failing input). The compiled map of the one allow
    [nonResourceURLs=["/healthz"]], [verbs=["get"]] holds this rule, and
    [SplitPolicyRules] panics on it, whatever the inventory: it indexes the
    empty [APIGroups] of the rule. *)
Theorem split_panics_on_url_rule :
  value (result ← CompileRules inOrder sampleProcessor [urlRule ["/healthz"] ["get"]] [];
         mapValues inOrder result) 0%nat
  = Ok [urlRule ["/healthz"] ["get"]]
  ∧ ∀ p, SplitPolicyRules p [urlRule ["/healthz"] ["get"]] = Panic.
Proof. split; [by vm_compute | done]. Qed.

(** ** The binding synthesizer *)

Lemma C_bind_Ok {A B} (c : C A) (f : A → C B) w a w' :
  c w = (Ok a, w') → (c ≫= f) w = f a w'.
Proof. intros H. unfold mbind, C_bind. by rewrite H. Qed.

Lemma C_bind_Err {A B} (c : C A) (f : A → C B) w e w' :
  c w = (Err e, w') → (c ≫= f) w = (Err e, w').
Proof. intros H. unfold mbind, C_bind. by rewrite H. Qed.

Lemma C_bind_Panic {A B} (c : C A) (f : A → C B) w w' :
  c w = (Panic, w') → (c ≫= f) w = (Panic, w').
Proof. intros H. unfold mbind, C_bind. by rewrite H. Qed.

Lemma observes_ret {A} w (a : A) (Q : A → Prop) : Q a → observes w (mret a) Q.
Proof. by intros H. Qed.

Lemma observes_fail {A} w msg (Q : A → Prop) : observes w (fail msg) Q.
Proof. done. Qed.

Lemma observes_liftC {A} w (o : outcome A) (Q : A → Prop) :
  (∀ a, o = Ok a → Q a) → observes w (liftC o) Q.
Proof. intros H. unfold observes, liftC. destruct o; [split; [done | by apply H] | done..]. Qed.

Lemma observes_bind {A B} w (c : C A) (f : A → C B) (Q1 : A → Prop) (Q2 : B → Prop) :
  observes w c Q1 → (∀ a, Q1 a → observes w (f a) Q2) → observes w (c ≫= f) Q2.
Proof.
  unfold observes. intros Hc Hf. unfold mbind, C_bind.
  destruct (c w) as [[a| |] w1]; [|done..].
  destruct Hc as [-> Ha]. by apply Hf.
Qed.

Lemma observes_wrapErrC {A} w prefix (c : C A) (Q : A → Prop) :
  observes w c Q → observes w (wrapErrC prefix c) Q.
Proof. unfold observes, wrapErrC. by destruct (c w) as [[a| |] w1]. Qed.

Lemma observes_weaken {A} w (c : C A) (Q Q' : A → Prop) :
  (∀ a, Q a → Q' a) → observes w c Q → observes w c Q'.
Proof.
  unfold observes. intros H. destruct (c w) as [[a| |] w1]; [|done..].
  intros [-> Ha]. split; [done | by apply H].
Qed.

Section SynthesizerFacts.

Import kuberbacv1alpha1.
Import DynamicRoleBindingReconciler.

Variable regexp_Compile : string → outcome (string → outcome bool).
Variable regexp_zero : string → outcome bool.

Local Abbreviation GetServiceAccountsBySelectors :=
  (GetServiceAccountsBySelectors regexp_Compile regexp_zero).
Local Abbreviation FilterNamespaceListBySelector :=
  (FilterNamespaceListBySelector regexp_Compile regexp_zero).
Local Abbreviation expandSubjects := (expandSubjects regexp_Compile regexp_zero).
Local Abbreviation SyncTarget := (SyncTarget regexp_Compile regexp_zero).

Lemma GetServiceAccounts_observes w filtered subject :
  observes w (GetServiceAccountsBySelectors filtered subject) (λ _, True).
Proof.
  unfold DynamicRoleBindingReconciler.GetServiceAccountsBySelectors.
  eapply observes_bind with (Q1 := λ _, True); [done|]. intros sas _.
  destruct (_ && _); [apply observes_fail|].
  eapply observes_bind with (Q1 := λ _, True); [by apply observes_liftC|]. intros _ _.
  eapply observes_bind with (Q1 := λ _, True); [by apply observes_liftC|]. intros _ _.
  eapply observes_bind with (Q1 := λ _, True); [by apply observes_liftC|]. intros re _.
  by apply observes_liftC.
Qed.

(** The first part of [SyncTarget] writes nothing, and the namespaces it
    returns are those of the cluster. *)
Lemma expandSubjects_observes w resource :
  observes w (expandSubjects resource) (λ r, r.1 = namespaces (cluster w)).
Proof.
  unfold DynamicRoleBindingReconciler.expandSubjects.
  destruct (negb _); [apply observes_fail|].
  destruct (_ && _); [apply observes_fail|].
  eapply observes_bind with (Q1 := λ nl, nl = namespaces (cluster w)); [done|].
  intros namespaceList ->.
  eapply observes_bind with (Q1 := λ _, True); [by apply observes_liftC|]. intros filtered _.
  eapply observes_bind with (Q1 := λ _, True).
  { destruct (Contains _ _); [|done].
    destruct (negb _); [apply observes_fail|].
    destruct (NameSelectorT.MatchList _); [done | apply observes_fail]. }
  intros expanded _.
  destruct (decide _); [|done].
  eapply observes_bind with (Q1 := λ _, True); [|done].
  apply observes_wrapErrC, GetServiceAccounts_observes.
Qed.

Lemma expandSubjects_Ok w resource namespaceList subjects w' :
  expandSubjects resource w = (Ok (namespaceList, subjects), w') →
  w' = w ∧ namespaceList = namespaces (cluster w).
Proof.
  intros H. pose proof (expandSubjects_observes w resource) as Hobs.
  unfold observes in Hobs. by rewrite H in Hobs.
Qed.

Lemma expandSubjects_reads w resource o w' :
  expandSubjects resource w = (o, w') → w' = w.
Proof.
  intros H. pose proof (expandSubjects_observes w resource) as Hobs.
  unfold observes in Hobs. rewrite H in Hobs. destruct o; [by destruct Hobs | done..].
Qed.

(** The loop of [SyncTarget] over the target namespaces issues one update
    per namespace that holds no foreign binding of the name. *)
Lemma upsert_loop existing roleBindingResource targetNamespaces w :
  ∃ w',
    foldM (λ _ namespace,
             let roleBindingResource :=
               rbacv1.RoleBinding.SetNamespace roleBindingResource namespace in
             if foreignRoleBindingFound existing namespace roleBindingResource
             then mret ()
             else client.UpdateRoleBinding' roleBindingResource)
          () targetNamespaces w = (Ok (), w')
    ∧ calls w' = calls w ++ (UpdateRoleBinding <$>
                               upsertedRoleBindings existing roleBindingResource
                                                    targetNamespaces).
Proof.
  revert w. induction targetNamespaces as [|ns l IH]; intros w.
  - exists w. split; [done|]. by rewrite app_nil_r.
  - cbn [foldM]. unfold upsertedRoleBindings. rewrite filter_cons. cbn zeta.
    destruct (foreignRoleBindingFound existing ns
                (rbacv1.RoleBinding.SetNamespace roleBindingResource ns)) eqn:Hf.
    + rewrite (C_bind_Ok _ _ w () w) by done.
      rewrite decide_False by done. apply IH.
    + rewrite decide_True by done.
      set (w1 := (client.UpdateRoleBinding'
                    (rbacv1.RoleBinding.SetNamespace roleBindingResource ns) w).2).
      rewrite (C_bind_Ok _ _ w () w1) by done.
      destruct (IH w1) as (w' & Hrun & Hcalls). exists w'. split; [done|].
      rewrite Hcalls. unfold w1, client.UpdateRoleBinding', client.withCluster.
      cbn [snd calls fmap list_fmap]. by rewrite <- app_assoc.
Qed.

(** The reaping loop issues one delete per owned binding of the complement,
    and these bindings leave the cluster. *)
Lemma reap_loop referenceAnnotations complementary existing w :
  ∃ w',
    reapRoleBindings referenceAnnotations complementary existing w = (Ok (), w')
    ∧ calls w' = calls w ++ (DeleteRoleBinding <$>
                               reapedRoleBindings referenceAnnotations complementary existing)
    ∧ ∀ o, o ∈ roleBindings (cluster w') ↔
           o ∈ roleBindings (cluster w)
           ∧ ∀ d, d ∈ reapedRoleBindings referenceAnnotations complementary existing →
                  roleBindingKey o ≠ roleBindingKey d.
Proof.
  unfold reapRoleBindings. revert w. induction existing as [|rb l IH]; intros w.
  - exists w. split; [done|]. split; [by rewrite app_nil_r|].
    intros o. split; [intros ?; split; [done|] | by intros [? _]].
    intros d Hd. by apply elem_of_nil in Hd.
  - cbn [foldM]. unfold reapedRoleBindings. rewrite filter_cons.
    fold (reapedRoleBindings referenceAnnotations complementary l).
    destruct (globals.IsSubset referenceAnnotations (rbacv1.RoleBinding.Annotations rb))
      eqn:Hown; cbn [andb].
    + unfold Contains. destruct (decide (rbacv1.RoleBinding.Namespace rb ∈ complementary))
        as [Hin|Hnin].
      * rewrite (bool_decide_eq_true_2 _ Hin). rewrite decide_True by done.
        set (w1 := (client.DeleteRoleBinding' rb w).2).
        rewrite (C_bind_Ok _ _ w () w1) by done.
        destruct (IH w1) as (w' & Hrun & Hcalls & Hstore). exists w'.
        split; [done|]. split.
        { rewrite Hcalls. unfold w1, client.DeleteRoleBinding', client.withCluster.
          cbn [snd calls fmap list_fmap]. by rewrite <- app_assoc. }
        intros o. rewrite Hstore. unfold w1, client.DeleteRoleBinding', client.withCluster.
        cbn [snd cluster roleBindings]. rewrite list_elem_of_filter.
        fold (roleBindingKey o). fold (roleBindingKey rb).
        split.
        -- intros [[Hne Ho] Hall]. split; [done|]. intros d Hd.
           apply elem_of_cons in Hd as [->|Hd]; [done | by apply Hall].
        -- intros [Ho Hall]. split; [split; [|done]|].
           ++ apply Hall. by left.
           ++ intros d Hd. apply Hall. by right.
      * rewrite (bool_decide_eq_false_2 _ Hnin). rewrite decide_False by tauto.
        rewrite (C_bind_Ok _ _ w () w) by done. apply IH.
    + rewrite decide_False by (intros [? _]; done).
      rewrite (C_bind_Ok _ _ w () w) by done. apply IH.
Qed.

(** The run of [SyncTarget] for role-bindings, once the subjects are
    expanded and the target namespaces selected. *)
Lemma SyncTarget_roleBindings resource w namespaceList subjects targetNamespaces :
  DynamicRoleBindingTargets.ClusterScoped
    (DynamicRoleBindingSpec.Targets (DynamicRoleBinding.Spec resource)) = false →
  expandSubjects resource w = (Ok (namespaceList, subjects), w) →
  FilterNamespaceListBySelector namespaceList
    (DynamicRoleBindingTargets.NamespaceSelector
       (DynamicRoleBindingSpec.Targets (DynamicRoleBinding.Spec resource)))
  = Ok targetNamespaces →
  let existing := roleBindings (cluster w) in
  let upserted :=
    upsertedRoleBindings existing
      (rbacv1.RoleBinding.ofClusterRoleBinding (bindingResource resource subjects))
      targetNamespaces in
  let reaped :=
    reapedRoleBindings (referenceAnnotations resource)
      (complementaryNamespaces namespaceList targetNamespaces) existing in
  ∃ w',
    SyncTarget resource w = (Ok (), w')
    ∧ calls w' = calls w ++ (UpdateRoleBinding <$> upserted) ++ (DeleteRoleBinding <$> reaped)
    ∧ ∀ d, d ∈ reaped → d ∉ roleBindings (cluster w').
Proof.
  intros Hscope Hexp Hfilter existing upserted reaped.
  unfold DynamicRoleBindingReconciler.SyncTarget.
  rewrite (C_bind_Ok _ _ _ _ _ Hexp). cbn zeta. rewrite Hscope.
  rewrite (C_bind_Ok _ _ w existing w) by done.
  rewrite Hfilter. rewrite (C_bind_Ok _ _ w targetNamespaces w) by done.
  destruct (upsert_loop existing
              (rbacv1.RoleBinding.ofClusterRoleBinding (bindingResource resource subjects))
              targetNamespaces w) as (w1 & Hrun1 & Hcalls1).
  rewrite (C_bind_Ok _ _ _ _ _ Hrun1).
  destruct (reap_loop (referenceAnnotations resource)
              (complementaryNamespaces namespaceList targetNamespaces) existing w1)
    as (w' & Hrun & Hcalls & Hstore).
  exists w'. split; [done|]. split.
  - rewrite Hcalls, Hcalls1. by rewrite <- app_assoc.
  - intros d Hd Hin. apply Hstore in Hin as [_ Hall]. by apply (Hall d).
Qed.

End SynthesizerFacts.

Section SynthesizerClaims.

Import kuberbacv1alpha1.
Import DynamicRoleBindingReconciler.

Variable regexp_Compile : string → outcome (string → outcome bool).
Variable regexp_zero : string → outcome bool.

Local Abbreviation GetServiceAccountsBySelectors :=
  (GetServiceAccountsBySelectors regexp_Compile regexp_zero).
Local Abbreviation FilterNamespaceListBySelector :=
  (FilterNamespaceListBySelector regexp_Compile regexp_zero).
Local Abbreviation expandSubjects := (expandSubjects regexp_Compile regexp_zero).
Local Abbreviation SyncTarget := (SyncTarget regexp_Compile regexp_zero).

Lemma complementaryNamespaces_elem namespaceList targetNamespaces ns :
  ns ∈ complementaryNamespaces namespaceList targetNamespaces
  ↔ ns ∈ corev1.Namespace.Name <$> namespaceList ∧ ns ∉ targetNamespaces.
Proof.
  unfold complementaryNamespaces. rewrite !list_elem_of_fmap. split.
  - intros (n & -> & Hin). apply list_elem_of_filter in Hin as [Hnot Hin].
    split; [by exists n | done].
  - intros [(n & -> & Hin) Hnot]. exists n. split; [done|].
    by apply list_elem_of_filter.
Qed.

Lemma all_names namespaceList acc :
  foldl (λ namespaces namespace, namespaces ++ [corev1.Namespace.Name namespace])
        acc namespaceList
  = acc ++ (corev1.Namespace.Name <$> namespaceList).
Proof.
  revert acc. induction namespaceList as [|ns l IH]; intros acc.
  - by rewrite app_nil_r.
  - cbn [foldl fmap list_fmap]. rewrite IH. by rewrite <- app_assoc.
Qed.

Lemma FilterNamespaceList_zero namespaceList namespaceSelector :
  NamespaceSelectorT.IsZero namespaceSelector = true →
  FilterNamespaceListBySelector namespaceList namespaceSelector
  = Ok (corev1.Namespace.Name <$> namespaceList).
Proof.
  intros Hzero. unfold DynamicRoleBindingReconciler.FilterNamespaceListBySelector.
  rewrite Hzero. by rewrite all_names.
Qed.

End SynthesizerClaims.

(** C7. In a reconcile with [clusterScoped=false] that reaches the reaping
    (the subjects expand and the target selector selects), the delete calls
    are those for the listed role-bindings that bear the four ownership
    annotations of the source and live in a namespace outside the target
    set, and these role-bindings leave the cluster; no owned role-binding of
    a target namespace is deleted.  The role-bindings of the cluster live
    in namespaces of the cluster. *)
Theorem orphaned_role_bindings_are_reaped
    (regexp_Compile : string → outcome (string → outcome bool))
    (regexp_zero : string → outcome bool)
    (resource : kuberbacv1alpha1.DynamicRoleBinding.t) (w : World)
    (namespaceList : list corev1.Namespace.t) (subjects : list rbacv1.Subject.t)
    (targetNamespaces : list string) :
  kuberbacv1alpha1.DynamicRoleBindingTargets.ClusterScoped
    (kuberbacv1alpha1.DynamicRoleBindingSpec.Targets
       (kuberbacv1alpha1.DynamicRoleBinding.Spec resource)) = false →
  DynamicRoleBindingReconciler.expandSubjects regexp_Compile regexp_zero resource w
  = (Ok (namespaceList, subjects), w) →
  DynamicRoleBindingReconciler.FilterNamespaceListBySelector regexp_Compile regexp_zero
    namespaceList
    (kuberbacv1alpha1.DynamicRoleBindingTargets.NamespaceSelector
       (kuberbacv1alpha1.DynamicRoleBindingSpec.Targets
          (kuberbacv1alpha1.DynamicRoleBinding.Spec resource)))
  = Ok targetNamespaces →
  (∀ roleBinding,
     roleBinding ∈ roleBindings (cluster w) →
     rbacv1.RoleBinding.Namespace roleBinding
     ∈ corev1.Namespace.Name <$> namespaces (cluster w)) →
  ∃ w' new,
    DynamicRoleBindingReconciler.SyncTarget regexp_Compile regexp_zero resource w
    = (Ok (), w')
    ∧ calls w' = calls w ++ new
    ∧ ∀ roleBinding,
        (DeleteRoleBinding roleBinding ∈ new
         ↔ roleBinding ∈ roleBindings (cluster w)
           ∧ globals.IsSubset (DynamicRoleBindingReconciler.referenceAnnotations resource)
                              (rbacv1.RoleBinding.Annotations roleBinding) = true
           ∧ rbacv1.RoleBinding.Namespace roleBinding ∉ targetNamespaces)
        ∧ (DeleteRoleBinding roleBinding ∈ new → roleBinding ∉ roleBindings (cluster w')).
Proof.
  intros Hscope Hexp Hfilter Hwf.
  destruct (expandSubjects_Ok _ _ _ _ _ _ _ Hexp) as [_ ->].
  destruct (SyncTarget_roleBindings regexp_Compile regexp_zero resource w _ subjects
              targetNamespaces Hscope Hexp Hfilter) as (w' & Hrun & Hcalls & Hgone).
  eexists w', _. split; [exact Hrun|]. split; [exact Hcalls|].
  intros rb.
  assert (Hdel : DeleteRoleBinding rb
                 ∈ (UpdateRoleBinding <$>
                      upsertedRoleBindings (roleBindings (cluster w))
                        (rbacv1.RoleBinding.ofClusterRoleBinding
                           (DynamicRoleBindingReconciler.bindingResource resource subjects))
                        targetNamespaces)
                   ++ (DeleteRoleBinding <$>
                         reapedRoleBindings
                           (DynamicRoleBindingReconciler.referenceAnnotations resource)
                           (DynamicRoleBindingReconciler.complementaryNamespaces
                              (namespaces (cluster w)) targetNamespaces)
                           (roleBindings (cluster w)))
                 ↔ rb ∈ reapedRoleBindings
                          (DynamicRoleBindingReconciler.referenceAnnotations resource)
                          (DynamicRoleBindingReconciler.complementaryNamespaces
                             (namespaces (cluster w)) targetNamespaces)
                          (roleBindings (cluster w))).
  { rewrite elem_of_app, !list_elem_of_fmap. split.
    - intros [(o & Heq & _)|(o & Heq & Hin)]; [discriminate|].
      injection Heq as ->. exact Hin.
    - intros Hin. right. exists rb. split; [reflexivity | exact Hin]. }
  split.
  - rewrite Hdel. unfold reapedRoleBindings. rewrite list_elem_of_filter.
    rewrite complementaryNamespaces_elem. split.
    + intros [[Hown [_ Hout]] Hin]. split; [exact Hin|]. split; [exact Hown | exact Hout].
    + intros (Hin & Hown & Hout). split; [|exact Hin]. split; [exact Hown|].
      split; [apply Hwf; exact Hin | exact Hout].
  - intros Hin. apply Hgone. apply Hdel. exact Hin.
Qed.

(** C8 (amended). With [clusterScoped=true] and a cluster-role-binding of
    the name of the target that does not bear the ownership annotations,
    [SyncTarget] issues no write; and it returns without error when the
    checks of the subject and its expansion, which come first, succeed. *)
Theorem foreign_cluster_role_binding_is_kept
    (regexp_Compile : string → outcome (string → outcome bool))
    (regexp_zero : string → outcome bool)
    (resource : kuberbacv1alpha1.DynamicRoleBinding.t) (w : World)
    (existing : rbacv1.ClusterRoleBinding.t) :
  kuberbacv1alpha1.DynamicRoleBindingTargets.ClusterScoped
    (kuberbacv1alpha1.DynamicRoleBindingSpec.Targets
       (kuberbacv1alpha1.DynamicRoleBinding.Spec resource)) = true →
  client.GetClusterRoleBinding
    (kuberbacv1alpha1.DynamicRoleBindingTargets.Name
       (kuberbacv1alpha1.DynamicRoleBindingSpec.Targets
          (kuberbacv1alpha1.DynamicRoleBinding.Spec resource))) w
  = (Ok (Some existing), w) →
  globals.IsSubset (DynamicRoleBindingReconciler.referenceAnnotations resource)
                   (rbacv1.ClusterRoleBinding.Annotations existing) = false →
  (DynamicRoleBindingReconciler.SyncTarget regexp_Compile regexp_zero resource w).2 = w
  ∧ (∀ namespaceList subjects w1,
       DynamicRoleBindingReconciler.expandSubjects regexp_Compile regexp_zero resource w
       = (Ok (namespaceList, subjects), w1) →
       DynamicRoleBindingReconciler.SyncTarget regexp_Compile regexp_zero resource w
       = (Ok (), w)).
Proof.
  intros Hscope Hget Hforeign.
  assert (Hrun : ∀ namespaceList subjects w1,
    DynamicRoleBindingReconciler.expandSubjects regexp_Compile regexp_zero resource w
    = (Ok (namespaceList, subjects), w1) →
    DynamicRoleBindingReconciler.SyncTarget regexp_Compile regexp_zero resource w
    = (Ok (), w)).
  { intros nl subjects w1 Hexp.
    destruct (expandSubjects_Ok _ _ _ _ _ _ _ Hexp) as [-> _].
    unfold DynamicRoleBindingReconciler.SyncTarget.
    rewrite (C_bind_Ok _ _ _ _ _ Hexp). cbn zeta. rewrite Hscope.
    rewrite (C_bind_Ok _ _ _ _ _ Hget). rewrite Hforeign. reflexivity. }
  split; [|exact Hrun].
  destruct (DynamicRoleBindingReconciler.expandSubjects regexp_Compile regexp_zero resource w)
    as [[[nl subjects]|e|] w1] eqn:Hexp.
  - rewrite (Hrun _ _ _ eq_refl). reflexivity.
  - pose proof (expandSubjects_reads _ _ _ _ _ _ Hexp) as ->.
    unfold DynamicRoleBindingReconciler.SyncTarget.
    rewrite (C_bind_Err _ _ _ _ _ Hexp). reflexivity.
  - pose proof (expandSubjects_reads _ _ _ _ _ _ Hexp) as ->.
    unfold DynamicRoleBindingReconciler.SyncTarget.
    rewrite (C_bind_Panic _ _ _ _ Hexp). reflexivity.
Qed.

(** C9 (amended). With [clusterScoped=false] and a zero target selector the
    target namespaces are all the namespaces of the cluster: once the
    subjects are expanded, [SyncTarget] updates the role-binding in every
    namespace that holds no foreign role-binding of the name, and deletes
    nothing. *)
Theorem zero_target_selector_selects_every_namespace
    (regexp_Compile : string → outcome (string → outcome bool))
    (regexp_zero : string → outcome bool)
    (resource : kuberbacv1alpha1.DynamicRoleBinding.t) (w : World)
    (namespaceList : list corev1.Namespace.t) (subjects : list rbacv1.Subject.t) :
  kuberbacv1alpha1.DynamicRoleBindingTargets.ClusterScoped
    (kuberbacv1alpha1.DynamicRoleBindingSpec.Targets
       (kuberbacv1alpha1.DynamicRoleBinding.Spec resource)) = false →
  kuberbacv1alpha1.NamespaceSelectorT.IsZero
    (kuberbacv1alpha1.DynamicRoleBindingTargets.NamespaceSelector
       (kuberbacv1alpha1.DynamicRoleBindingSpec.Targets
          (kuberbacv1alpha1.DynamicRoleBinding.Spec resource))) = true →
  DynamicRoleBindingReconciler.expandSubjects regexp_Compile regexp_zero resource w
  = (Ok (namespaceList, subjects), w) →
  DynamicRoleBindingReconciler.FilterNamespaceListBySelector regexp_Compile regexp_zero
    (namespaces (cluster w))
    (kuberbacv1alpha1.DynamicRoleBindingTargets.NamespaceSelector
       (kuberbacv1alpha1.DynamicRoleBindingSpec.Targets
          (kuberbacv1alpha1.DynamicRoleBinding.Spec resource)))
  = Ok (corev1.Namespace.Name <$> namespaces (cluster w))
  ∧ ∃ w',
      DynamicRoleBindingReconciler.SyncTarget regexp_Compile regexp_zero resource w
      = (Ok (), w')
      ∧ calls w'
        = calls w ++
          (UpdateRoleBinding <$>
             upsertedRoleBindings (roleBindings (cluster w))
               (rbacv1.RoleBinding.ofClusterRoleBinding
                  (DynamicRoleBindingReconciler.bindingResource resource subjects))
               (corev1.Namespace.Name <$> namespaces (cluster w))).
Proof.
  intros Hscope Hzero Hexp.
  destruct (expandSubjects_Ok _ _ _ _ _ _ _ Hexp) as [_ ->].
  pose proof (FilterNamespaceList_zero regexp_Compile regexp_zero
                (namespaces (cluster w)) _ Hzero) as Hfilter.
  split; [exact Hfilter|].
  destruct (SyncTarget_roleBindings regexp_Compile regexp_zero resource w _ subjects
              _ Hscope Hexp Hfilter) as (w' & Hrun & Hcalls & _).
  exists w'. split; [exact Hrun|]. rewrite Hcalls. f_equal.
  assert (Hnone : reapedRoleBindings
                    (DynamicRoleBindingReconciler.referenceAnnotations resource)
                    (DynamicRoleBindingReconciler.complementaryNamespaces
                       (namespaces (cluster w))
                       (corev1.Namespace.Name <$> namespaces (cluster w)))
                    (roleBindings (cluster w)) = []).
  { apply no_elements. intros rb Hin. unfold reapedRoleBindings in Hin.
    apply list_elem_of_filter in Hin as [[_ Hc] _].
    apply complementaryNamespaces_elem in Hc as [Hc Hnc]. exact (Hnc Hc). }
  rewrite Hnone. rewrite app_nil_r. reflexivity.
Qed.

Lemma foldM_outcome_ext {A B} (f g : A → B → outcome A) (l : list B) acc :
  (∀ a x, x ∈ l → f a x = g a x) → foldM f acc l = foldM g acc l.
Proof.
  revert acc. induction l as [|x l IH]; intros acc Hext; [reflexivity|].
  cbn [foldM]. rewrite (Hext acc x) by (by left).
  destruct (g acc x) as [a| |]; [|reflexivity..].
  unfold mbind, outcome_bind. apply IH. intros a' y Hy. apply Hext. by right.
Qed.

Lemma select_loop (pick : corev1.ServiceAccount.t → outcome bool)
    (l : list corev1.ServiceAccount.t) acc result :
  foldM (λ result serviceAccount,
           picked ← pick serviceAccount;
           Ok (if picked : bool then result ++ [serviceAccount] else result))
        acc l = Ok result →
  ∀ sa, sa ∈ result ↔ sa ∈ acc ∨ (sa ∈ l ∧ pick sa = Ok true).
Proof.
  revert acc. induction l as [|x l IH]; intros acc Hrun sa.
  - cbn [foldM] in Hrun. injection Hrun as <-.
    split; [by left | intros [?|[H _]]; [done | by apply elem_of_nil in H]].
  - cbn [foldM] in Hrun. unfold mbind at 1, outcome_bind at 1 in Hrun.
    destruct (pick x) as [picked| |] eqn:Hx; cbn in Hrun; [|discriminate..].
    rewrite (IH _ Hrun sa). rewrite elem_of_cons. destruct picked.
    + rewrite elem_of_app, list_elem_of_singleton. split.
      * intros [[?| ->]|[? ?]];
          [by left | right; split; [by left | done] | right; split; [by right | done]].
      * intros [?|[[-> |?] ?]]; [by left; left | by left; right | by right].
    + split.
      * intros [?|[? ?]]; [by left | right; split; [by right | done]].
      * intros [?|[[-> |?] ?]]; [by left | congruence | by right].
Qed.

(** C10. With an empty list of filtered namespaces the namespace check of
    [GetServiceAccountsBySelectors] discards no service account: the call
    answers what it answers for the list of the namespaces of all the
    service accounts of the cluster, and the service accounts it returns are
    those of the cluster, of whatever namespace, that the selectors of the
    subject pick. *)
Theorem empty_namespace_list_lifts_the_restriction
    (regexp_Compile : string → outcome (string → outcome bool))
    (regexp_zero : string → outcome bool)
    (subject : kuberbacv1alpha1.DynamicRoleBindingSourceSubject.t) (w : World) :
  (∀ serviceAccount, DynamicRoleBindingReconciler.namespaceIgnored [] serviceAccount = false)
  ∧ DynamicRoleBindingReconciler.GetServiceAccountsBySelectors regexp_Compile regexp_zero
      [] subject w
    = DynamicRoleBindingReconciler.GetServiceAccountsBySelectors regexp_Compile regexp_zero
        (corev1.ServiceAccount.Namespace <$> serviceAccounts (cluster w)) subject w
  ∧ ∀ result w',
      DynamicRoleBindingReconciler.GetServiceAccountsBySelectors regexp_Compile regexp_zero
        [] subject w = (Ok result, w') →
      ∃ matchRegex,
        DynamicRoleBindingReconciler.compileRegex regexp_Compile regexp_zero
          (kuberbacv1alpha1.NameSelectorT.MatchRegex
             (kuberbacv1alpha1.DynamicRoleBindingSourceSubject.NameSelector subject))
        = Ok matchRegex
        ∧ ∀ serviceAccount,
            serviceAccount ∈ result
            ↔ serviceAccount ∈ serviceAccounts (cluster w)
              ∧ DynamicRoleBindingReconciler.selected subject matchRegex serviceAccount
                = Ok true.
Proof.
  split; [reflexivity|]. split.
  - unfold DynamicRoleBindingReconciler.GetServiceAccountsBySelectors.
    rewrite !(C_bind_Ok _ _ w (serviceAccounts (cluster w)) w) by reflexivity.
    destruct (_ && _); [reflexivity|].
    unfold mbind, C_bind, liftC.
    destruct (if negb _ then _ else _) as [[]| |]; [|reflexivity..].
    destruct (if negb _ then _ else _) as [[]| |]; [|reflexivity..].
    destruct (DynamicRoleBindingReconciler.compileRegex _ _ _) as [matchRegex| |];
      [|reflexivity..].
    f_equal. apply foldM_outcome_ext. intros acc sa Hsa.
    unfold DynamicRoleBindingReconciler.namespaceIgnored, Contains.
    cbn [isEmpty negb andb].
    rewrite bool_decide_eq_true_2; [by rewrite andb_false_r|].
    by apply list_elem_of_fmap_2.
  - intros result w'.
    unfold DynamicRoleBindingReconciler.GetServiceAccountsBySelectors.
    rewrite (C_bind_Ok _ _ w (serviceAccounts (cluster w)) w) by reflexivity.
    destruct (_ && _); [discriminate|].
    unfold mbind, C_bind, liftC.
    destruct (if negb _ then _ else _) as [[]| |]; [|discriminate..].
    destruct (if negb _ then _ else _) as [[]| |]; [|discriminate..].
    destruct (DynamicRoleBindingReconciler.compileRegex _ _ _) as [matchRegex| |];
      [|discriminate..].
    intros Hrun. exists matchRegex. split; [reflexivity|].
    injection Hrun as Hrun _. intros sa.
    rewrite (select_loop _ _ _ _ Hrun sa). split.
    + intros [H|?]; [by apply elem_of_nil in H | done].
    + intros ?. by right.
Qed.

(** ** The statements at sample inputs *)

Lemma surviving_verbs_are_the_set_difference_witness :
  (∃ result,
     GetSurvivingVerbs inOrder ["get"; "list"; "watch"] ["list"] 0%nat = Ok (result, 1%nat)
     ∧ NoDup result
     ∧ ∀ v, v ∈ result ↔ v ∈ ["get"; "list"; "watch"] ∧ v ∉ ["list"])
  ∧ (∃ result n',
       EvaluatePolicyRules inOrder sampleAllowMap sampleDenyMap 0%nat = Ok (result, n')
       ∧ ∀ key,
           (∃ d dr, sampleDenyMap !! d = Some dr ∧ applies d key = true) →
           (∀ v, v ∈ verbsAt sampleAllowMap key →
                 ∃ d dr, sampleDenyMap !! d = Some dr ∧ applies d key = true
                         ∧ v ∈ rbacv1.Verbs dr) →
           result !! key = None).
Proof.
  apply (surviving_verbs_are_the_set_difference inOrder
           ["get"; "list"; "watch"] ["list"] sampleAllowMap sampleDenyMap 0%nat).
  - exact inOrder_perm.
  - reflexivity.
  - intros d dr Hd. destruct (sampleDenyMap_keyed d dr Hd) as [Hkeyed Hlen].
    split; [by eapply keyed_splittable | exact Hlen].
Defined.

Lemma userBinding_expands w clusterScoped targetNamespaces :
  DynamicRoleBindingReconciler.expandSubjects noCompile neverMatches
    (userBinding "User" clusterScoped targetNamespaces) w
  = (Ok (namespaces (cluster w), [alice]), w).
Proof. reflexivity. Qed.

Lemma orphaned_role_bindings_are_reaped_witness :
  ∃ w' new,
    DynamicRoleBindingReconciler.SyncTarget noCompile neverMatches
      (userBinding "User" false (namespacesListed ["ns3"])) sampleWorld
    = (Ok (), w')
    ∧ calls w' = calls sampleWorld ++ new
    ∧ ∀ roleBinding,
        (DeleteRoleBinding roleBinding ∈ new
         ↔ roleBinding ∈ roleBindings (cluster sampleWorld)
           ∧ globals.IsSubset
               (DynamicRoleBindingReconciler.referenceAnnotations
                  (userBinding "User" false (namespacesListed ["ns3"])))
               (rbacv1.RoleBinding.Annotations roleBinding) = true
           ∧ rbacv1.RoleBinding.Namespace roleBinding ∉ ["ns3"])
        ∧ (DeleteRoleBinding roleBinding ∈ new
           → roleBinding ∉ roleBindings (cluster w')).
Proof.
  apply (orphaned_role_bindings_are_reaped noCompile neverMatches
           (userBinding "User" false (namespacesListed ["ns3"])) sampleWorld
           (namespaces sampleCluster) [alice] ["ns3"]).
  - reflexivity.
  - apply userBinding_expands.
  - vm_compute. reflexivity.
  - intros rb Hin. cbn [sampleWorld cluster sampleCluster roleBindings] in Hin.
    apply elem_of_cons in Hin as [-> |Hin].
    { vm_compute. right. left. }
    apply list_elem_of_singleton in Hin as ->.
    vm_compute. right. right. left.
Defined.

(** C8 as claimed fails for a subject of a kind that is not valid: the
    check of the kind comes first and [SyncTarget] returns its error. *)
Lemma foreign_cluster_role_binding_counterexample :
  ¬ foreignBindingKeptAsClaimed noCompile neverMatches
      (userBinding "Robot" true kuberbacv1alpha1.NamespaceSelectorT.zero) sampleWorld.
Proof.
  intros Hclaim.
  specialize (Hclaim eq_refl foreignBinding).
  assert (Hrun :
    DynamicRoleBindingReconciler.SyncTarget noCompile neverMatches
      (userBinding "Robot" true kuberbacv1alpha1.NamespaceSelectorT.zero) sampleWorld
    = (Err "source.subject.kind must be one of the following values: ServiceAccount, User, Group",
       sampleWorld)) by reflexivity.
  rewrite Hrun in Hclaim.
  assert (Hbad : (Err "source.subject.kind must be one of the following values: ServiceAccount, User, Group" : outcome (), sampleWorld)
                 ≠ (Ok (), sampleWorld)) by discriminate.
  apply Hbad, Hclaim.
  - cbn [sampleWorld cluster sampleCluster clusterRoleBindings]. left.
  - reflexivity.
  - vm_compute. reflexivity.
Qed.

Lemma foreign_cluster_role_binding_is_kept_witness :
  (DynamicRoleBindingReconciler.SyncTarget noCompile neverMatches
     (userBinding "User" true kuberbacv1alpha1.NamespaceSelectorT.zero) sampleWorld).2
  = sampleWorld
  ∧ (∀ namespaceList subjects w1,
       DynamicRoleBindingReconciler.expandSubjects noCompile neverMatches
         (userBinding "User" true kuberbacv1alpha1.NamespaceSelectorT.zero) sampleWorld
       = (Ok (namespaceList, subjects), w1) →
       DynamicRoleBindingReconciler.SyncTarget noCompile neverMatches
         (userBinding "User" true kuberbacv1alpha1.NamespaceSelectorT.zero) sampleWorld
       = (Ok (), sampleWorld)).
Proof.
  apply (foreign_cluster_role_binding_is_kept noCompile neverMatches
           (userBinding "User" true kuberbacv1alpha1.NamespaceSelectorT.zero) sampleWorld
           foreignBinding).
  - reflexivity.
  - reflexivity.
  - vm_compute. reflexivity.
Defined.

(** C9 as claimed fails on the sample cluster: the zero target selector
    selects its three namespaces, not none. *)
Lemma zero_target_selector_counterexample :
  ¬ emptyTargetSelectorAsClaimed noCompile neverMatches
      (userBinding "User" false kuberbacv1alpha1.NamespaceSelectorT.zero) sampleWorld.
Proof.
  intros Hclaim. destruct (Hclaim eq_refl eq_refl) as [Hfilter _].
  vm_compute in Hfilter. discriminate Hfilter.
Qed.

Lemma zero_target_selector_selects_every_namespace_witness :
  DynamicRoleBindingReconciler.FilterNamespaceListBySelector noCompile neverMatches
    (namespaces (cluster sampleWorld)) kuberbacv1alpha1.NamespaceSelectorT.zero
  = Ok (corev1.Namespace.Name <$> namespaces (cluster sampleWorld))
  ∧ ∃ w',
      DynamicRoleBindingReconciler.SyncTarget noCompile neverMatches
        (userBinding "User" false kuberbacv1alpha1.NamespaceSelectorT.zero) sampleWorld
      = (Ok (), w')
      ∧ calls w'
        = calls sampleWorld ++
          (UpdateRoleBinding <$>
             upsertedRoleBindings (roleBindings (cluster sampleWorld))
               (rbacv1.RoleBinding.ofClusterRoleBinding
                  (DynamicRoleBindingReconciler.bindingResource
                     (userBinding "User" false kuberbacv1alpha1.NamespaceSelectorT.zero)
                     [alice]))
               (corev1.Namespace.Name <$> namespaces (cluster sampleWorld))).
Proof.
  apply (zero_target_selector_selects_every_namespace noCompile neverMatches
           (userBinding "User" false kuberbacv1alpha1.NamespaceSelectorT.zero) sampleWorld
           (namespaces sampleCluster) [alice]).
  - reflexivity.
  - reflexivity.
  - apply userBinding_expands.
Defined.

(** The source selector of a ServiceAccount subject that matches no
    namespace: the service account of [ns1] is selected all the same. *)
Example unmatched_source_selector_selects_everywhere :
  DynamicRoleBindingReconciler.expandSubjects noCompile neverMatches
    (sampleBinding "ServiceAccount" (namesListed ["default"]) (namespacesListed ["nowhere"])
                   true kuberbacv1alpha1.NamespaceSelectorT.zero) sampleWorld
  = (Ok (namespaces sampleCluster,
         [ {| rbacv1.Subject.Kind := "ServiceAccount"; rbacv1.Subject.APIGroup := "";
              rbacv1.Subject.Name := "default"; rbacv1.Subject.Namespace := "ns1" |} ]),
     sampleWorld).
Proof. vm_compute. reflexivity. Qed.

(** ** The reconcile loop of DynamicClusterRole *)

(** C5 (the code at the failing input). For a DynamicClusterRole whose
    deletion timestamp is set and which bears the finalizer, one pass of
    [Reconcile] issues one call, the update that removes the finalizer: the
    cluster role the resource owns is still in the cluster, although
    [DeleteTargets] run on the same cluster deletes it. *)
Theorem reconcile_of_deleted_role_skips_teardown
    (shuffle : nat → ∀ A : Type, list A → list A)
    (time_ParseDuration : string → option Z)
    (globals_NewCondition : string → string → string → string → metav1.Condition.t)
    (globals_UpdateCondition :
       list metav1.Condition.t → metav1.Condition.t → list metav1.Condition.t)
    (typeSynced reasonSynced messageSynced reasonError messageError : string) (n : nat) :
  let run := DynamicClusterRoleReconciler.Reconcile shuffle time_ParseDuration
               globals_NewCondition globals_UpdateCondition
               typeSynced reasonSynced messageSynced reasonError messageError
               "" "role" n deletedWorld in
  run.1 = Ok {| DynamicClusterRoleReconciler.RequeueAfter := 0 |}
  ∧ calls run.2
    = [UpdateDynamicClusterRole
         (DynamicClusterRoleReconciler.RemoveFinalizer deletedRole
            DynamicClusterRoleReconciler.patchFinalizer)]
  ∧ clusterRoles (cluster run.2) = [ownedRole]
  ∧ dynamicClusterRoles (cluster run.2) = []
  ∧ calls (DynamicClusterRoleReconciler.DeleteTargets deletedRole deletedWorld).2
    = [DeleteClusterRole ownedRole].
Proof. vm_compute. repeat split. Qed.

(** * Further properties *)

(** ** Teardown and synchronization of DynamicClusterRole *)

Lemma filter_ext_elem {A} (P Q : A → Prop) `{!∀ x, Decision (P x), !∀ x, Decision (Q x)}
    (l : list A) :
  (∀ x, x ∈ l → (P x ↔ Q x)) → filter P l = filter Q l.
Proof.
  induction l as [|x l IH]; intros Hext; [reflexivity|].
  rewrite !filter_cons.
  assert (Hl : filter P l = filter Q l).
  { apply IH. intros y Hy. apply Hext. by right. }
  destruct (decide (P x)) as [HP|HP], (decide (Q x)) as [HQ|HQ].
  - by rewrite Hl.
  - exfalso. apply HQ. apply Hext; [by left | exact HP].
  - exfalso. apply HP. apply Hext; [by left | exact HQ].
  - exact Hl.
Qed.

Lemma filter_all_elem {A} (P : A → Prop) `{!∀ x, Decision (P x)} (l : list A) :
  (∀ x, x ∈ l → P x) → filter P l = l.
Proof.
  induction l as [|x l IH]; intros Hall; [reflexivity|].
  rewrite filter_cons_True by (apply Hall; by left).
  f_equal. apply IH. intros y Hy. apply Hall. by right.
Qed.

Lemma NoDup_fmap_inj_elem {A B} (f : A → B) (l : list A) x y :
  NoDup (f <$> l) → x ∈ l → y ∈ l → f x = f y → x = y.
Proof.
  induction l as [|z l IH]; intros Hnd Hx Hy Hf.
  - by apply elem_of_nil in Hx.
  - rewrite fmap_cons in Hnd. apply NoDup_cons in Hnd as [Hz Hnd].
    apply elem_of_cons in Hx as [->|Hx]; apply elem_of_cons in Hy as [->|Hy].
    + reflexivity.
    + exfalso. apply Hz. rewrite Hf. apply list_elem_of_fmap. by exists y.
    + exfalso. apply Hz. rewrite <- Hf. apply list_elem_of_fmap. by exists x.
    + by apply IH.
Qed.

(** The loop of [DeleteTargets]. *)
Lemma DeleteTargets_loop resource (l : list rbacv1.ClusterRole.t) w :
  ∃ w',
    foldM (λ _ clusterRole,
             if globals.IsSubset (DynamicClusterRoleReconciler.referenceAnnotations resource)
                                 (rbacv1.ClusterRole.Annotations clusterRole)
             then client.DeleteClusterRole' clusterRole
             else mret ())
          () l w = (Ok (), w')
    ∧ calls w' = calls w ++ (DeleteClusterRole <$> ownedClusterRoles resource l)
    ∧ clusterRoles (cluster w')
      = filter (λ o, rbacv1.ClusterRole.Name o
                     ∉ rbacv1.ClusterRole.Name <$> ownedClusterRoles resource l)
               (clusterRoles (cluster w)).
Proof.
  revert w. induction l as [|cr l IH]; intros w.
  - exists w. split; [reflexivity|]. split; [by rewrite app_nil_r|].
    symmetry. apply filter_all_elem. intros x _ Hx. by apply elem_of_nil in Hx.
  - cbn [foldM]. unfold ownedClusterRoles. rewrite filter_cons.
    fold (ownedClusterRoles resource l).
    destruct (globals.IsSubset (DynamicClusterRoleReconciler.referenceAnnotations resource)
                               (rbacv1.ClusterRole.Annotations cr)) eqn:Hown.
    + rewrite decide_True by reflexivity.
      set (w1 := (client.DeleteClusterRole' cr w).2).
      rewrite (C_bind_Ok _ _ w () w1) by reflexivity.
      destruct (IH w1) as (w' & Hrun & Hcalls & Hstore). exists w'.
      split; [exact Hrun|]. split.
      * rewrite Hcalls. unfold w1, client.DeleteClusterRole', client.withCluster.
        cbn [snd calls fmap list_fmap]. by rewrite <- app_assoc.
      * rewrite Hstore. unfold w1, client.DeleteClusterRole', client.withCluster.
        cbn [snd cluster clusterRoles]. rewrite list_filter_filter.
        apply list_filter_iff. intros o. rewrite fmap_cons, not_elem_of_cons. tauto.
    + rewrite decide_False by discriminate.
      rewrite (C_bind_Ok _ _ w () w) by reflexivity. apply IH.
Qed.

(** X1. [DeleteTargets] deletes the cluster roles that bear the four
    ownership annotations of the resource, one call each in the order of the
    listing, and no other: the cluster roles left are those that do not bear
    them, and none that bears them is left.  The names of the cluster roles
    of a cluster are distinct. *)
Theorem teardown_deletes_the_owned_cluster_roles
    (resource : kuberbacv1alpha1.DynamicClusterRole.t) (w : World) :
  NoDup (rbacv1.ClusterRole.Name <$> clusterRoles (cluster w)) →
  ∃ w',
    DynamicClusterRoleReconciler.DeleteTargets resource w = (Ok (), w')
    ∧ calls w'
      = calls w ++ (DeleteClusterRole <$> ownedClusterRoles resource (clusterRoles (cluster w)))
    ∧ clusterRoles (cluster w') = foreignClusterRoles resource (clusterRoles (cluster w))
    ∧ ownedClusterRoles resource (clusterRoles (cluster w')) = [].
Proof.
  intros Hnd. unfold DynamicClusterRoleReconciler.DeleteTargets.
  rewrite (C_bind_Ok _ _ w (clusterRoles (cluster w)) w) by reflexivity.
  destruct (DeleteTargets_loop resource (clusterRoles (cluster w)) w)
    as (w' & Hrun & Hcalls & Hstore).
  exists w'. split; [exact Hrun|]. split; [exact Hcalls|].
  assert (Hleft : clusterRoles (cluster w')
                  = foreignClusterRoles resource (clusterRoles (cluster w))).
  { rewrite Hstore. unfold foreignClusterRoles. apply filter_ext_elem.
    intros o Ho. split.
    - intros Hnot Hown. apply Hnot. apply list_elem_of_fmap. exists o.
      split; [reflexivity|]. unfold ownedClusterRoles. apply list_elem_of_filter.
      split; [exact Hown | exact Ho].
    - intros Hnot Hin. apply list_elem_of_fmap in Hin as (o' & Hname & Hin).
      unfold ownedClusterRoles in Hin. apply list_elem_of_filter in Hin as [Hown Hin].
      assert (o = o') as ->.
      { eapply NoDup_fmap_inj_elem; [exact Hnd | exact Ho | exact Hin | exact Hname]. }
      apply Hnot, Hown. }
  split; [exact Hleft|].
  rewrite Hleft. unfold ownedClusterRoles, foreignClusterRoles.
  rewrite list_filter_filter. apply no_elements. intros x Hx.
  apply list_elem_of_filter in Hx as [[Hown Hnot] _]. apply Hnot, Hown.
Qed.

Lemma upsert_elem {A K} `{EqDecision K} (key : A → K) (o : A) (l : list A) x :
  NoDup (key <$> l) →
  x ∈ client.upsert key o l ↔ x = o ∨ (x ∈ l ∧ key x ≠ key o).
Proof.
  induction l as [|y l IH]; intros Hnd.
  - cbn [client.upsert]. rewrite list_elem_of_singleton. split; [by left|].
    intros [?|[Hx _]]; [done | by apply elem_of_nil in Hx].
  - rewrite fmap_cons in Hnd. apply NoDup_cons in Hnd as [Hy Hnd].
    cbn [client.upsert]. destruct (decide (key y = key o)) as [Heq|Hne].
    + rewrite !elem_of_cons. split.
      * intros [->|Hx]; [by left|]. right. split; [by right|].
        intros Hk. apply Hy. rewrite Heq, <- Hk. apply list_elem_of_fmap. by exists x.
      * intros [->|[[->|Hx] Hk]]; [by left | done | by right].
    + rewrite !elem_of_cons, (IH Hnd). split.
      * intros [->|[->|[Hx Hk]]]; [right; split; [by left | done] | by left |].
        right. split; [by right | done].
      * intros [->|[[->|Hx] Hk]]; [right; by left | by left | right; right; done].
Qed.

Lemma upsert_names {A K} `{EqDecision K} (key : A → K) (o : A) (l : list A) :
  key <$> client.upsert key o l
  = if decide (key o ∈ key <$> l) then key <$> l else (key <$> l) ++ [key o].
Proof.
  induction l as [|y l IH]; [reflexivity|].
  cbn [client.upsert]. destruct (decide (key y = key o)) as [Heq|Hne].
  - rewrite !fmap_cons. rewrite decide_True by (rewrite Heq; by left).
    by rewrite Heq.
  - rewrite !fmap_cons, IH. destruct (decide (key o ∈ key <$> l)) as [Hin|Hnin].
    + rewrite decide_True by (by right). reflexivity.
    + rewrite decide_False; [reflexivity|].
      intros Hin. apply elem_of_cons in Hin as [Heq|Hin]; [by apply Hne | by apply Hnin].
Qed.

Lemma upsert_NoDup {A K} `{EqDecision K} (key : A → K) (o : A) (l : list A) :
  NoDup (key <$> l) → NoDup (key <$> client.upsert key o l).
Proof.
  intros Hnd. rewrite upsert_names. destruct (decide _) as [Hin|Hnin]; [exact Hnd|].
  apply NoDup_app. split; [exact Hnd|]. split.
  - intros k Hk Hk'. apply list_elem_of_singleton in Hk' as ->. by apply Hnin.
  - apply NoDup_singleton.
Qed.

(** The loop of [SyncTarget] over the cluster roles to write. *)
Lemma update_loop (roles : list rbacv1.ClusterRole.t) w :
  ∃ w',
    foldM (λ _ clusterRole, client.UpdateClusterRole' clusterRole) () roles w = (Ok (), w')
    ∧ calls w' = calls w ++ (UpdateClusterRole <$> roles)
    ∧ clusterRoles (cluster w')
      = foldl (λ l o, client.upsert rbacv1.ClusterRole.Name o l) (clusterRoles (cluster w)) roles.
Proof.
  revert w. induction roles as [|cr roles IH]; intros w.
  - exists w. split; [reflexivity|]. split; [by rewrite app_nil_r | reflexivity].
  - cbn [foldM]. set (w1 := (client.UpdateClusterRole' cr w).2).
    rewrite (C_bind_Ok _ _ w () w1) by reflexivity.
    destruct (IH w1) as (w' & Hrun & Hcalls & Hstore). exists w'.
    split; [exact Hrun|]. split.
    + rewrite Hcalls. unfold w1, client.UpdateClusterRole', client.withCluster.
      cbn [snd calls fmap list_fmap]. by rewrite <- app_assoc.
    + rewrite Hstore. reflexivity.
Qed.

(** What [SyncTarget] does with the cluster roles it has compiled. *)
Lemma SyncTarget_run shuffle resource n w :
  match value (DynamicClusterRoleReconciler.targetClusterRoles shuffle (cluster w) resource) n
  with
  | Ok roles =>
      ∃ w', DynamicClusterRoleReconciler.SyncTarget shuffle resource n w = (Ok (), w')
            ∧ calls w' = calls w ++ (UpdateClusterRole <$> roles)
            ∧ clusterRoles (cluster w')
              = foldl (λ l o, client.upsert rbacv1.ClusterRole.Name o l)
                      (clusterRoles (cluster w)) roles
  | Err e => DynamicClusterRoleReconciler.SyncTarget shuffle resource n w = (Err e, w)
  | Panic => DynamicClusterRoleReconciler.SyncTarget shuffle resource n w = (Panic, w)
  end.
Proof.
  unfold DynamicClusterRoleReconciler.SyncTarget.
  destruct (value _ n) as [roles|e|]; [|reflexivity..].
  apply update_loop.
Qed.

(** The cluster roles [SyncTarget] compiles: one, or with [separateScopes]
    two, with the ownership annotations and the labels of the target. *)
Lemma targetClusterRoles_shape shuffle c resource n roles :
  value (DynamicClusterRoleReconciler.targetClusterRoles shuffle c resource) n = Ok roles →
  let target := kuberbacv1alpha1.DynamicClusterRoleSpec.Target
                  (kuberbacv1alpha1.DynamicClusterRole.Spec resource) in
  let name := kuberbacv1alpha1.TargetT.Name target in
  let role := DynamicClusterRoleReconciler.clusterRoleOf in
  let annotations := DynamicClusterRoleReconciler.referenceAnnotations resource in
  let labels := kuberbacv1alpha1.TargetT.Labels target in
  if kuberbacv1alpha1.TargetT.SeparateScopes target then
    ∃ clusterScopedRules namespaceScopedRules,
      roles = [role (name +:+ "-cluster") annotations labels clusterScopedRules;
               role (name +:+ "-namespace") annotations labels namespaceScopedRules]
  else ∃ rules, roles = [role name annotations labels rules].
Proof.
  unfold value, DynamicClusterRoleReconciler.targetClusterRoles.
  intros Hrun. cbn zeta.
  destruct (kuberbacv1alpha1.TargetT.SeparateScopes _);
    unfold mbind, M_bind, mret, M_ret in Hrun;
    repeat case_match; simplify_eq; eauto.
Qed.

Lemma IsSubset_refl (m : gmap string string) : globals.IsSubset m m = true.
Proof.
  unfold globals.IsSubset. apply bool_decide_eq_true_2. intros k v Hk. exact Hk.
Qed.


(** X3. [SyncTarget] does not look at the cluster role it replaces: a
    cluster role of the name of the target that does not bear the ownership
    annotations is overwritten by the compiled role. *)
Theorem sync_replaces_a_foreign_cluster_role
    (shuffle : nat → ∀ A : Type, list A → list A)
    (resource : kuberbacv1alpha1.DynamicClusterRole.t) (n : nat) (w : World)
    (old : rbacv1.ClusterRole.t) (roles : list rbacv1.ClusterRole.t) :
  let target := kuberbacv1alpha1.DynamicClusterRoleSpec.Target
                  (kuberbacv1alpha1.DynamicClusterRole.Spec resource) in
  kuberbacv1alpha1.TargetT.SeparateScopes target = false →
  NoDup (rbacv1.ClusterRole.Name <$> clusterRoles (cluster w)) →
  old ∈ clusterRoles (cluster w) →
  rbacv1.ClusterRole.Name old = kuberbacv1alpha1.TargetT.Name target →
  globals.IsSubset (DynamicClusterRoleReconciler.referenceAnnotations resource)
                   (rbacv1.ClusterRole.Annotations old) = false →
  value (DynamicClusterRoleReconciler.targetClusterRoles shuffle (cluster w) resource) n
  = Ok roles →
  ∃ w' new,
    DynamicClusterRoleReconciler.SyncTarget shuffle resource n w = (Ok (), w')
    ∧ calls w' = calls w ++ [UpdateClusterRole new]
    ∧ rbacv1.ClusterRole.Name new = kuberbacv1alpha1.TargetT.Name target
    ∧ rbacv1.ClusterRole.Annotations new
      = DynamicClusterRoleReconciler.referenceAnnotations resource
    ∧ new ∈ clusterRoles (cluster w')
    ∧ old ∉ clusterRoles (cluster w').
Proof.
  intros target Hscope Hnd Hold Hname Hforeign Hroles.
  pose proof (SyncTarget_run shuffle resource n w) as Hrun. rewrite Hroles in Hrun.
  destruct Hrun as (w' & Hrun & Hcalls & Hstore).
  pose proof (targetClusterRoles_shape _ _ _ _ _ Hroles) as Hshape. cbn zeta in Hshape.
  fold target in Hshape. rewrite Hscope in Hshape. destruct Hshape as (rules & ->).
  cbn [foldl] in Hstore. cbn [fmap list_fmap] in Hcalls.
  eexists w', _. split; [exact Hrun|]. split; [exact Hcalls|].
  split; [reflexivity|]. split; [reflexivity|].
  rewrite Hstore. split.
  - apply (upsert_elem _ _ _ _ Hnd). by left.
  - intros Hin. apply (upsert_elem _ _ _ _ Hnd) in Hin as [Heq|[_ Hne]].
    + rewrite Heq in Hforeign. unfold rbacv1.ClusterRole.Annotations in Hforeign.
      cbn [DynamicClusterRoleReconciler.clusterRoleOf rbacv1.ClusterRole.ObjectMeta
           metav1.ObjectMeta.Annotations] in Hforeign.
      rewrite IsSubset_refl in Hforeign. discriminate Hforeign.
    + apply Hne. exact Hname.
Qed.

(** ** A logic of the calls a computation issues *)

Lemma issues_ret {A} (P : Call → Prop) (a : A) : issues P (mret a).
Proof. intros w. exists []. split; [by rewrite app_nil_r | constructor]. Qed.

Lemma issues_reads {A} (P : Call → Prop) (c : C A) :
  (∀ w, (c w).2 = w) → issues P c.
Proof. intros Hc w. exists []. rewrite Hc. split; [by rewrite app_nil_r | constructor]. Qed.

Lemma issues_bind {A B} (P : Call → Prop) (c : C A) (f : A → C B) :
  issues P c → (∀ a, issues P (f a)) → issues P (c ≫= f).
Proof.
  intros Hc Hf w. destruct (Hc w) as (new1 & Hcalls1 & Hall1).
  unfold mbind, C_bind. destruct (c w) as [[a|e|] w1] eqn:Hcw; cbn [snd] in Hcalls1.
  - destruct (Hf a w1) as (new2 & Hcalls2 & Hall2). exists (new1 ++ new2). split.
    + rewrite Hcalls2, Hcalls1. by rewrite <- app_assoc.
    + apply Forall_app. split; assumption.
  - exists new1. split; assumption.
  - exists new1. split; assumption.
Qed.

Lemma issues_foldM {A B} (P : Call → Prop) (body : A → B → C A) (l : list B) acc :
  (∀ acc x, issues P (body acc x)) → issues P (foldM body acc l).
Proof.
  intros Hbody. revert acc. induction l as [|x l IH]; intros acc.
  - apply issues_ret.
  - cbn [foldM]. apply issues_bind; [apply Hbody | intros a; apply IH].
Qed.

Lemma issues_one {A} (P : Call → Prop) (c : C A) call :
  (∀ w, calls (c w).2 = calls w ++ [call]) → P call → issues P c.
Proof.
  intros Hc HP w. exists [call]. split; [apply Hc | by constructor].
Qed.

Lemma issues_weaken {A} (P Q : Call → Prop) (c : C A) :
  (∀ call, P call → Q call) → issues P c → issues Q c.
Proof.
  intros HPQ Hc w. destruct (Hc w) as (new & Hcalls & Hall). exists new.
  split; [exact Hcalls|]. eapply Forall_impl; [exact Hall | exact HPQ].
Qed.

Lemma SyncTarget_issues shuffle resource n :
  issues (λ call, ∃ o, call = UpdateClusterRole o)
         (DynamicClusterRoleReconciler.SyncTarget shuffle resource n).
Proof.
  intros w. pose proof (SyncTarget_run shuffle resource n w) as Hrun.
  destruct (value _ n) as [roles|e|].
  - destruct Hrun as (w' & -> & Hcalls & _). exists (UpdateClusterRole <$> roles).
    split; [exact Hcalls|]. apply Forall_fmap. apply Forall_forall. intros o _. by exists o.
  - rewrite Hrun. exists []. split; [by rewrite app_nil_r | constructor].
  - rewrite Hrun. exists []. split; [by rewrite app_nil_r | constructor].
Qed.

(** ** The reconcile loop of DynamicClusterRole, continued *)

Section ReconcileFacts.

Import kuberbacv1alpha1.
Import DynamicClusterRoleReconciler.

Variable shuffle : nat → ∀ A : Type, list A → list A.
Variable time_ParseDuration : string → option Z.
Variable globals_NewCondition : string → string → string → string → metav1.Condition.t.
Variable globals_UpdateCondition :
  list metav1.Condition.t → metav1.Condition.t → list metav1.Condition.t.
Variables typeSynced reasonSynced messageSynced reasonError messageError : string.

Local Abbreviation Reconcile :=
  (Reconcile shuffle time_ParseDuration globals_NewCondition globals_UpdateCondition
             typeSynced reasonSynced messageSynced reasonError messageError).
Local Abbreviation syncAndReport :=
  (syncAndReport shuffle globals_NewCondition globals_UpdateCondition
                 typeSynced reasonSynced messageSynced reasonError messageError).
Local Abbreviation succeeded :=
  (UpdateConditionSuccess globals_NewCondition globals_UpdateCondition
                          typeSynced reasonSynced messageSynced).
Local Abbreviation failed :=
  (UpdateConditionKubernetesApiCallFailure globals_NewCondition globals_UpdateCondition
                                           typeSynced reasonError messageError).

Lemma ensureFinalizer_run resource w :
  ensureFinalizer resource w
  = (Ok (AddFinalizer resource patchFinalizer),
     if ContainsFinalizer resource patchFinalizer then w
     else (client.UpdateDynamicClusterRole' (AddFinalizer resource patchFinalizer) w).2).
Proof.
  unfold ensureFinalizer, AddFinalizer.
  destruct (ContainsFinalizer resource patchFinalizer) eqn:Hc; cbn [negb]; reflexivity.
Qed.

Lemma ensureFinalizer_issues resource :
  issues (λ call, isDelete call = false) (ensureFinalizer resource).
Proof.
  intros w. rewrite ensureFinalizer_run. cbn [snd].
  destruct (ContainsFinalizer resource patchFinalizer).
  - exists []. split; [by rewrite app_nil_r | constructor].
  - eexists [_]. split; [reflexivity|]. constructor; [reflexivity | constructor].
Qed.

Lemma syncAndReport_issues resource result n :
  issues (λ call, isDelete call = false) (syncAndReport resource result n).
Proof.
  intros w. destruct (SyncTarget_issues shuffle resource n w) as (new & Hcalls & Hall).
  assert (Hnew : Forall (λ call, isDelete call = false) new).
  { eapply Forall_impl; [exact Hall|]. intros call [o ->]. reflexivity. }
  unfold DynamicClusterRoleReconciler.syncAndReport.
  destruct (SyncTarget shuffle resource n w) as [[[]|e|] w1]; cbn [snd] in Hcalls.
  - eexists (new ++ [_]). split.
    + unfold mbind, C_bind, client.UpdateStatusDynamicClusterRole', client.withCluster.
      cbn [snd calls mret C_ret]. rewrite Hcalls. by rewrite <- app_assoc.
    + apply Forall_app. split; [exact Hnew|]. constructor; [reflexivity | constructor].
  - eexists (new ++ [_]). split.
    + unfold mbind, C_bind, client.UpdateStatusDynamicClusterRole', client.withCluster.
      cbn [snd calls mret C_ret]. rewrite Hcalls. by rewrite <- app_assoc.
    + apply Forall_app. split; [exact Hnew|]. constructor; [reflexivity | constructor].
  - eexists (new ++ [_]). split.
    + unfold client.UpdateStatusDynamicClusterRole', client.withCluster.
      cbn [snd calls]. rewrite Hcalls. by rewrite <- app_assoc.
    + apply Forall_app. split; [exact Hnew|]. constructor; [reflexivity | constructor].
Qed.

Lemma Reconcile_issues namespace name n :
  issues (λ call, isDelete call = false) (Reconcile namespace name n).
Proof.
  unfold DynamicClusterRoleReconciler.Reconcile.
  apply issues_bind; [by apply issues_reads|]. intros [resource|]; [|apply issues_ret].
  destruct (bool_decide _).
  - apply issues_bind; [|intros; apply issues_ret].
    destruct (ContainsFinalizer resource patchFinalizer); [|apply issues_ret].
    eapply issues_one; [intros w; reflexivity | reflexivity].
  - apply issues_bind; [apply ensureFinalizer_issues|]. intros bearer.
    destruct (time_ParseDuration _).
    + apply syncAndReport_issues.
    + apply issues_bind; [|intros; apply issues_ret].
      eapply issues_one; [intros w; reflexivity | reflexivity].
Qed.

(** The pass over a resource that is not marked for deletion. *)
Lemma Reconcile_live namespace name n w resource :
  client.GetDynamicClusterRole namespace name w = (Ok (Some resource), w) →
  metav1.ObjectMeta.DeletionTimestamp (DynamicClusterRole.ObjectMeta resource) = None →
  let bearer := AddFinalizer resource patchFinalizer in
  let w1 := if ContainsFinalizer resource patchFinalizer then w
            else (client.UpdateDynamicClusterRole' bearer w).2 in
  Reconcile namespace name n w
  = match time_ParseDuration
            (SynchronizationT.Time
               (DynamicClusterRoleSpec.Synchronization (DynamicClusterRole.Spec resource)))
    with
    | None => (Ok {| RequeueAfter := 0 |}, (client.UpdateStatusDynamicClusterRole' bearer w1).2)
    | Some RequeueTime => syncAndReport bearer {| RequeueAfter := RequeueTime |} n w1
    end.
Proof.
  intros Hget Hlive bearer w1.
  unfold DynamicClusterRoleReconciler.Reconcile.
  rewrite (C_bind_Ok _ _ _ _ _ Hget). rewrite Hlive.
  rewrite bool_decide_eq_false_2 by (intros Hne; by apply Hne).
  rewrite (C_bind_Ok _ _ _ _ _ (ensureFinalizer_run resource w)).
  fold bearer. fold w1.
  assert (Hspec : DynamicClusterRole.Spec bearer = DynamicClusterRole.Spec resource).
  { unfold bearer, AddFinalizer. by destruct (ContainsFinalizer resource patchFinalizer). }
  rewrite Hspec. destruct (time_ParseDuration _); reflexivity.
Qed.

Lemma AddFinalizer_contains resource finalizer :
  ContainsFinalizer (AddFinalizer resource finalizer) finalizer = true.
Proof.
  unfold AddFinalizer. destruct (ContainsFinalizer resource finalizer) eqn:Hc; [exact Hc|].
  unfold ContainsFinalizer, Contains. cbn. apply bool_decide_eq_true_2.
  apply elem_of_app. right. by left.
Qed.

End ReconcileFacts.

(** X4. No pass of [Reconcile] deletes anything: whatever the request, the
    cluster and the way the pass ends, the calls it issues are updates. *)
Theorem reconcile_never_deletes
    (shuffle : nat → ∀ A : Type, list A → list A)
    (time_ParseDuration : string → option Z)
    (globals_NewCondition : string → string → string → string → metav1.Condition.t)
    (globals_UpdateCondition :
       list metav1.Condition.t → metav1.Condition.t → list metav1.Condition.t)
    (typeSynced reasonSynced messageSynced reasonError messageError : string)
    (namespace name : string) (n : nat) (w : World) :
  ∃ new,
    calls (DynamicClusterRoleReconciler.Reconcile shuffle time_ParseDuration
             globals_NewCondition globals_UpdateCondition
             typeSynced reasonSynced messageSynced reasonError messageError
             namespace name n w).2
    = calls w ++ new
    ∧ Forall (λ call, isDelete call = false) new.
Proof. apply Reconcile_issues. Qed.

(** X5. When [spec.synchronization.time] does not parse, the pass over a
    resource that is not marked for deletion compiles nothing and writes no
    cluster role; it attaches the finalizer if it is missing, updates the
    status, and returns no error and no requeue: the status update deferred
    at step 5 overwrites the error of the parsing. *)
Theorem reconcile_drops_the_sync_time_error
    (shuffle : nat → ∀ A : Type, list A → list A)
    (time_ParseDuration : string → option Z)
    (globals_NewCondition : string → string → string → string → metav1.Condition.t)
    (globals_UpdateCondition :
       list metav1.Condition.t → metav1.Condition.t → list metav1.Condition.t)
    (typeSynced reasonSynced messageSynced reasonError messageError : string)
    (namespace name : string) (n : nat) (w : World)
    (resource : kuberbacv1alpha1.DynamicClusterRole.t) :
  client.GetDynamicClusterRole namespace name w = (Ok (Some resource), w) →
  metav1.ObjectMeta.DeletionTimestamp
    (kuberbacv1alpha1.DynamicClusterRole.ObjectMeta resource) = None →
  time_ParseDuration
    (kuberbacv1alpha1.SynchronizationT.Time
       (kuberbacv1alpha1.DynamicClusterRoleSpec.Synchronization
          (kuberbacv1alpha1.DynamicClusterRole.Spec resource))) = None →
  let bearer := DynamicClusterRoleReconciler.AddFinalizer resource
                  DynamicClusterRoleReconciler.patchFinalizer in
  ∃ w',
    DynamicClusterRoleReconciler.Reconcile shuffle time_ParseDuration
      globals_NewCondition globals_UpdateCondition
      typeSynced reasonSynced messageSynced reasonError messageError
      namespace name n w
    = (Ok {| DynamicClusterRoleReconciler.RequeueAfter := 0 |}, w')
    ∧ calls w'
      = calls w
        ++ (if DynamicClusterRoleReconciler.ContainsFinalizer resource
                 DynamicClusterRoleReconciler.patchFinalizer
            then [] else [UpdateDynamicClusterRole bearer])
        ++ [UpdateStatusDynamicClusterRole bearer]
    ∧ clusterRoles (cluster w') = clusterRoles (cluster w).
Proof.
  intros Hget Hlive Htime bearer.
  rewrite (Reconcile_live _ _ _ _ _ _ _ _ _ _ _ _ _ _ Hget Hlive). rewrite Htime.
  fold bearer. eexists. split; [reflexivity|].
  destruct (DynamicClusterRoleReconciler.ContainsFinalizer resource
              DynamicClusterRoleReconciler.patchFinalizer).
  - split; reflexivity.
  - split; [|reflexivity].
    unfold client.UpdateStatusDynamicClusterRole', client.UpdateDynamicClusterRole',
      client.withCluster.
    cbn [snd calls]. by rewrite <- app_assoc.
Qed.


(** ** The binding synthesizer, continued *)

Lemma IsSubset_union_l (m t : gmap string string) : globals.IsSubset m (m ∪ t) = true.
Proof.
  unfold globals.IsSubset. apply bool_decide_eq_true_2. intros k v Hk.
  apply lookup_union_Some_l. exact Hk.
Qed.

Section SynthesizerMore.

Import kuberbacv1alpha1.
Import DynamicRoleBindingReconciler.

Variable regexp_Compile : string → outcome (string → outcome bool).
Variable regexp_zero : string → outcome bool.

Local Abbreviation FilterNamespaceListBySelector :=
  (FilterNamespaceListBySelector regexp_Compile regexp_zero).
Local Abbreviation expandSubjects := (expandSubjects regexp_Compile regexp_zero).
Local Abbreviation SyncTarget := (SyncTarget regexp_Compile regexp_zero).

Lemma bindingResource_owned resource subjects :
  globals.IsSubset (referenceAnnotations resource)
    (rbacv1.ClusterRoleBinding.Annotations (bindingResource resource subjects)) = true.
Proof. apply IsSubset_union_l. Qed.

Lemma SyncTarget_issues_own resource : issues (onOwnBinding resource) (SyncTarget resource).
Proof.
  unfold DynamicRoleBindingReconciler.SyncTarget.
  apply issues_bind.
  { apply issues_reads. intros w.
    destruct (expandSubjects resource w) as [o w'] eqn:Hrun.
    apply (expandSubjects_reads _ _ _ _ _ _ Hrun). }
  intros [namespaceList subjects]. cbn zeta.
  destruct (DynamicRoleBindingTargets.ClusterScoped _).
  - apply issues_bind; [by apply issues_reads|]. intros [existing|].
    + destruct (negb _); [apply issues_ret|].
      eapply issues_one; [intros w; reflexivity | apply bindingResource_owned].
    + eapply issues_one; [intros w; reflexivity | apply bindingResource_owned].
  - apply issues_bind; [by apply issues_reads|]. intros existing.
    apply issues_bind; [by apply issues_reads|]. intros targetNamespaces.
    apply issues_bind.
    + apply issues_foldM. intros _ namespace. cbn zeta.
      destruct (foreignRoleBindingFound _ _ _); [apply issues_ret|].
      eapply issues_one; [intros w; reflexivity|].
      exact (bindingResource_owned resource subjects).
    + intros _. unfold reapRoleBindings. apply issues_foldM. intros _ roleBinding. cbn zeta.
      destruct (globals.IsSubset (referenceAnnotations resource)
                  (rbacv1.RoleBinding.Annotations roleBinding)) eqn:Hown;
        cbn [andb]; [|apply issues_ret].
      destruct (Contains _ _); [|apply issues_ret].
      eapply issues_one; [intros w; reflexivity | exact Hown].
Qed.

(** A run of [SyncTarget] that does not succeed has written nothing. *)
Lemma SyncTarget_fails_early resource w :
  (SyncTarget resource w).1 ≠ Ok () → (SyncTarget resource w).2 = w.
Proof.
  unfold DynamicRoleBindingReconciler.SyncTarget.
  destruct (expandSubjects resource w) as [[[namespaceList subjects]|e|] w1] eqn:Hexp;
    pose proof (expandSubjects_reads _ _ _ _ _ _ Hexp) as ->.
  2: { rewrite (C_bind_Err _ _ _ _ _ Hexp). intros _. reflexivity. }
  2: { rewrite (C_bind_Panic _ _ _ _ Hexp). intros _. reflexivity. }
  rewrite (C_bind_Ok _ _ _ _ _ Hexp). cbn zeta.
  destruct (DynamicRoleBindingTargets.ClusterScoped _) eqn:Hscope.
  - unfold mbind, C_bind, client.GetClusterRoleBinding.
    destruct (find _ _) as [existing|].
    + destruct (negb _); [intros _; reflexivity|]. intros Hne. exfalso. by apply Hne.
    + intros Hne. exfalso. by apply Hne.
  - rewrite (C_bind_Ok _ _ w (roleBindings (cluster w)) w) by reflexivity.
    destruct (FilterNamespaceListBySelector namespaceList
                (DynamicRoleBindingTargets.NamespaceSelector
                   (DynamicRoleBindingSpec.Targets (DynamicRoleBinding.Spec resource))))
      as [targetNamespaces|e|] eqn:Hfilter.
    + rewrite (C_bind_Ok _ _ w targetNamespaces w) by reflexivity.
      destruct (upsert_loop (roleBindings (cluster w))
                  (rbacv1.RoleBinding.ofClusterRoleBinding (bindingResource resource subjects))
                  targetNamespaces w) as (w1 & Hrun1 & _).
      rewrite (C_bind_Ok _ _ _ _ _ Hrun1).
      destruct (reap_loop (referenceAnnotations resource)
                  (complementaryNamespaces namespaceList targetNamespaces)
                  (roleBindings (cluster w)) w1) as (w' & Hrun & _).
      rewrite Hrun. intros Hne. exfalso. by apply Hne.
    + intros _. reflexivity.
    + intros _. reflexivity.
Qed.

End SynthesizerMore.

(** X7. Every binding that [SyncTarget] writes, cluster-role-binding or
    role-binding, bears the four ownership annotations of the source,
    whatever [spec.targets.annotations] holds, and every role-binding it
    deletes bears them; it issues no other call. *)
Theorem sync_touches_only_bindings_of_the_source
    (regexp_Compile : string → outcome (string → outcome bool))
    (regexp_zero : string → outcome bool)
    (resource : kuberbacv1alpha1.DynamicRoleBinding.t) (w : World) :
  ∃ new,
    calls (DynamicRoleBindingReconciler.SyncTarget regexp_Compile regexp_zero resource w).2
    = calls w ++ new
    ∧ Forall (onOwnBinding resource) new.
Proof. apply SyncTarget_issues_own. Qed.

(** X8. Against a server that accepts the writes, a run of [SyncTarget]
    that returns an error (or panics in a regular expression) has written
    nothing: the checks of the subject, its expansion and the selection of
    the target namespaces all come before the first write. *)
Theorem sync_fails_before_it_writes
    (regexp_Compile : string → outcome (string → outcome bool))
    (regexp_zero : string → outcome bool)
    (resource : kuberbacv1alpha1.DynamicRoleBinding.t) (w : World) :
  (DynamicRoleBindingReconciler.SyncTarget regexp_Compile regexp_zero resource w).1 ≠ Ok () →
  (DynamicRoleBindingReconciler.SyncTarget regexp_Compile regexp_zero resource w).2 = w.
Proof. apply SyncTarget_fails_early. Qed.

Lemma upsert_here {A K} `{EqDecision K} (key : A → K) (o : A) (l : list A) :
  o ∈ client.upsert key o l.
Proof.
  induction l as [|y l IH]; cbn [client.upsert]; [by left|].
  destruct (decide (key y = key o)); [by left | by right].
Qed.

(** A loop that appends to its accumulator an image of some of the items. *)
Lemma foldM_picks {A B} (f : B → A) (Q : B → Prop) (body : list A → B → outcome (list A))
    (l : list B) acc res :
  (∀ acc x r, body acc x = Ok r → r = acc ∨ (r = acc ++ [f x] ∧ Q x)) →
  foldM body acc l = Ok res →
  ∃ picked, res = acc ++ (f <$> picked) ∧ picked `sublist_of` l ∧ Forall Q picked.
Proof.
  intros Hbody. revert acc. induction l as [|x l IH]; intros acc Hrun.
  - cbn [foldM] in Hrun. injection Hrun as <-. exists []. split; [by rewrite app_nil_r|].
    split; [reflexivity | constructor].
  - cbn [foldM] in Hrun. unfold mbind at 1, outcome_bind at 1 in Hrun.
    destruct (body acc x) as [r| |] eqn:Hx; [|discriminate..].
    destruct (IH _ Hrun) as (picked & -> & Hsub & Hall).
    destruct (Hbody _ _ _ Hx) as [->|[-> HQ]].
    + exists picked. split; [reflexivity|]. split; [by apply sublist_cons | exact Hall].
    + exists (x :: picked). split; [by rewrite <- app_assoc|].
      split; [by apply sublist_skip | by constructor].
Qed.

(** A loop that appends the image of the items a test picks. *)
Lemma foldM_filter {A B} (f : B → A) (p : B → bool) (body : list A → B → outcome (list A))
    (l : list B) acc :
  (∀ acc x, x ∈ l → body acc x = Ok (if p x then acc ++ [f x] else acc)) →
  foldM body acc l = Ok (acc ++ (f <$> filter (λ x, p x = true) l)).
Proof.
  revert acc. induction l as [|x l IH]; intros acc Hbody.
  - cbn [foldM]. by rewrite app_nil_r.
  - cbn [foldM]. rewrite (Hbody acc x) by (by left). unfold mbind, outcome_bind.
    rewrite IH by (intros a y Hy; apply Hbody; by right).
    rewrite filter_cons. destruct (p x).
    + rewrite decide_True by reflexivity. rewrite fmap_cons. by rewrite <- app_assoc.
    + rewrite decide_False by discriminate. reflexivity.
Qed.

Lemma lenMap_pos (m : option (gmap string string)) :
  (0 < DynamicRoleBindingReconciler.lenMap m)%nat ↔ default ∅ m ≠ ∅.
Proof.
  unfold DynamicRoleBindingReconciler.lenMap. rewrite <- map_size_non_empty_iff. lia.
Qed.

Lemma lenList_pos (l : option (list string)) :
  (0 < DynamicRoleBindingReconciler.lenList l)%nat ↔ default [] l ≠ [].
Proof.
  unfold DynamicRoleBindingReconciler.lenList. destruct (default [] l); cbn [length].
  - split; [lia | done].
  - split; [done | lia].
Qed.

Section SynthesizerSelectors.

Import kuberbacv1alpha1.
Import DynamicRoleBindingReconciler.

Variable regexp_Compile : string → outcome (string → outcome bool).
Variable regexp_zero : string → outcome bool.

Local Abbreviation FilterNamespaceListBySelector :=
  (FilterNamespaceListBySelector regexp_Compile regexp_zero).
Local Abbreviation GetServiceAccountsBySelectors :=
  (GetServiceAccountsBySelectors regexp_Compile regexp_zero).
Local Abbreviation expandSubjects := (expandSubjects regexp_Compile regexp_zero).
Local Abbreviation SyncTarget := (SyncTarget regexp_Compile regexp_zero).

Lemma CheckNamespaceSelector_Ok namespaceSelector :
  CheckNamespaceSelector namespaceSelector = Ok ()
  ↔ exactlyOne
      (default ∅ (NamespaceSelectorT.MatchLabels namespaceSelector) ≠ ∅)
      (default [] (NamespaceSelectorT.MatchList namespaceSelector) ≠ [])
      (MatchRegexT.Expression (NamespaceSelectorT.MatchRegex namespaceSelector) ≠ "").
Proof.
  unfold CheckNamespaceSelector, exactlyOne. rewrite <- lenMap_pos, <- lenList_pos.
  destruct (bool_decide (0 < lenMap _)%nat) eqn:Ha;
    [apply bool_decide_eq_true_1 in Ha | apply bool_decide_eq_false_1 in Ha];
    (destruct (bool_decide (0 < lenList _)%nat) eqn:Hb;
      [apply bool_decide_eq_true_1 in Hb | apply bool_decide_eq_false_1 in Hb]);
    destruct (decide (MatchRegexT.Expression _ ≠ "")) as [Hc|Hc]; cbn;
    (split; [try discriminate; intros _; tauto | intros H; try reflexivity; exfalso; tauto]).
Qed.

Lemma Filter_picks namespaceList namespaceSelector (matches : string → bool) :
  NamespaceSelectorT.IsZero namespaceSelector = false →
  CheckNamespaceSelector namespaceSelector = Ok () →
  (MatchRegexT.Expression (NamespaceSelectorT.MatchRegex namespaceSelector) ≠ "" →
   ∃ re, regexp_Compile (MatchRegexT.Expression (NamespaceSelectorT.MatchRegex namespaceSelector))
         = Ok re
         ∧ ∀ s, re s = Ok (matches s)) →
  FilterNamespaceListBySelector namespaceList namespaceSelector
  = Ok (corev1.Namespace.Name <$>
          filter (λ namespace, picksNamespace namespaceSelector matches namespace = true)
                 namespaceList).
Proof.
  intros Hzero Hcheck Hre.
  unfold DynamicRoleBindingReconciler.FilterNamespaceListBySelector.
  rewrite Hzero, Hcheck. unfold mbind at 1, outcome_bind at 1.
  apply CheckNamespaceSelector_Ok in Hcheck as [(Ha & Hb & Hc)|[(Ha & Hb & Hc)|(Ha & Hb & Hc)]].
  - (* labels *)
    assert (Hexpr : MatchRegexT.Expression (NamespaceSelectorT.MatchRegex namespaceSelector) = "").
    { destruct (decide (MatchRegexT.Expression
                          (NamespaceSelectorT.MatchRegex namespaceSelector) = "")); [done|].
      by exfalso. }
    unfold compileRegex. rewrite decide_False by (intros H; by apply H).
    unfold mbind at 1, outcome_bind at 1.
    rewrite <- (app_nil_l (_ <$> _)). apply foldM_filter. intros acc ns _. cbn zeta.
    rewrite (bool_decide_eq_true_2 _ (proj2 (lenMap_pos _) Ha)).
    rewrite (bool_decide_eq_false_2 (0 < lenList _)%nat)
      by (intros H; by apply lenList_pos in H).
    rewrite decide_False by (intros H; by apply H).
    unfold picksNamespace. rewrite (bool_decide_eq_true_2 _ Ha). cbn [andb].
    by destruct (globals.IsSubset _ _).
  - (* list *)
    assert (Hexpr : MatchRegexT.Expression (NamespaceSelectorT.MatchRegex namespaceSelector) = "").
    { destruct (decide (MatchRegexT.Expression
                          (NamespaceSelectorT.MatchRegex namespaceSelector) = "")); [done|].
      by exfalso. }
    unfold compileRegex. rewrite decide_False by (intros H; by apply H).
    unfold mbind at 1, outcome_bind at 1.
    rewrite <- (app_nil_l (_ <$> _)). apply foldM_filter. intros acc ns _. cbn zeta.
    rewrite (bool_decide_eq_false_2 (0 < lenMap _)%nat)
      by (intros H; by apply lenMap_pos in H).
    rewrite (bool_decide_eq_true_2 _ (proj2 (lenList_pos _) Hb)).
    rewrite decide_False by (intros H; by apply H).
    unfold picksNamespace. rewrite (bool_decide_eq_false_2 _ Ha).
    rewrite (bool_decide_eq_true_2 _ Hb). cbn [andb]. unfold Contains.
    by destruct (bool_decide _).
  - (* expression *)
    destruct (Hre Hc) as (re & Hcompile & Hmatches).
    unfold compileRegex. rewrite decide_True by exact Hc. rewrite Hcompile.
    unfold mbind at 1, outcome_bind at 1.
    rewrite <- (app_nil_l (_ <$> _)). apply foldM_filter. intros acc ns _. cbn zeta.
    rewrite (bool_decide_eq_false_2 (0 < lenMap _)%nat)
      by (intros H; by apply lenMap_pos in H).
    rewrite (bool_decide_eq_false_2 (0 < lenList _)%nat)
      by (intros H; by apply lenList_pos in H).
    rewrite decide_True by exact Hc. rewrite Hmatches.
    unfold picksNamespace. rewrite (bool_decide_eq_false_2 _ Ha).
    rewrite (bool_decide_eq_false_2 _ Hb). cbn [andb mbind outcome_bind].
    unfold mbind, outcome_bind.
    by destruct (matches _), (MatchRegexT.Negative _).
Qed.

Lemma Filter_sublist namespaceList namespaceSelector names :
  FilterNamespaceListBySelector namespaceList namespaceSelector = Ok names →
  names `sublist_of` (corev1.Namespace.Name <$> namespaceList).
Proof.
  unfold DynamicRoleBindingReconciler.FilterNamespaceListBySelector.
  destruct (NamespaceSelectorT.IsZero namespaceSelector).
  { rewrite all_names. intros [= <-]. reflexivity. }
  destruct (CheckNamespaceSelector namespaceSelector) as [[]| |] eqn:Hcheck; [|discriminate..].
  unfold mbind at 1, outcome_bind at 1.
  destruct (compileRegex regexp_Compile regexp_zero _) as [re| |]; [|discriminate..].
  unfold mbind at 1, outcome_bind at 1. intros Hrun.
  apply (foldM_picks corev1.Namespace.Name (λ _, True)) in Hrun.
  { destruct Hrun as (picked & -> & Hsub & _). rewrite app_nil_l. by apply fmap_sublist. }
  clear Hrun. intros acc ns r. cbn zeta.
  apply CheckNamespaceSelector_Ok in Hcheck as [(Ha & Hb & Hc)|[(Ha & Hb & Hc)|(Ha & Hb & Hc)]].
  - rewrite (bool_decide_eq_false_2 (0 < lenList _)%nat)
      by (intros H; by apply lenList_pos in H).
    rewrite decide_False by exact Hc. cbn [andb].
    destruct (_ && _); intros [= <-]; [right; done | by left].
  - rewrite (bool_decide_eq_false_2 (0 < lenMap _)%nat)
      by (intros H; by apply lenMap_pos in H).
    rewrite decide_False by exact Hc. cbn [andb].
    destruct (_ && _); intros [= <-]; [right; done | by left].
  - rewrite (bool_decide_eq_false_2 (0 < lenMap _)%nat)
      by (intros H; by apply lenMap_pos in H).
    rewrite (bool_decide_eq_false_2 (0 < lenList _)%nat)
      by (intros H; by apply lenList_pos in H).
    rewrite decide_True by exact Hc.
    cbn [andb]. unfold mbind, outcome_bind.
    destruct (re _) as [m| |]; [|discriminate..].
    destruct (negb m && _); [intros [= <-]; right; done|].
    destruct (m && _); intros [= <-]; [right; done | by left].
Qed.

Lemma GetServiceAccounts_restricted filteredNamespaceList subject w result w' :
  GetServiceAccountsBySelectors filteredNamespaceList subject w = (Ok result, w') →
  w' = w
  ∧ result `sublist_of` serviceAccounts (cluster w)
  ∧ (filteredNamespaceList ≠ [] →
     Forall (λ sa, corev1.ServiceAccount.Namespace sa ∈ filteredNamespaceList) result)
  ∧ (NameSelectorT.IsZero (DynamicRoleBindingSourceSubject.NameSelector subject) = true
     ∨ MetaSelectorT.IsZero (DynamicRoleBindingSourceSubject.MetaSelector subject) = true).
Proof.
  unfold DynamicRoleBindingReconciler.GetServiceAccountsBySelectors.
  rewrite (C_bind_Ok _ _ w (serviceAccounts (cluster w)) w) by reflexivity.
  destruct (NameSelectorT.IsZero _) eqn:Hname, (MetaSelectorT.IsZero _) eqn:Hmeta;
    cbn [negb andb]; try (unfold fail; discriminate).
  all: unfold mbind at 1, C_bind at 1, liftC at 1;
    match goal with |- context [CheckMetaSelector ?m] =>
      destruct (CheckMetaSelector m) as [[]| |] | _ => idtac end;
    try discriminate;
    unfold mbind at 1, C_bind at 1, liftC at 1;
    match goal with |- context [CheckNameSelector ?m] =>
      destruct (CheckNameSelector m) as [[]| |] | _ => idtac end;
    try discriminate;
    unfold mbind at 1, C_bind at 1, liftC at 1;
    destruct (compileRegex regexp_Compile regexp_zero _) as [re| |]; try discriminate;
    unfold liftC; intros [= Hrun <-]; (split; [reflexivity|]);
    apply (foldM_picks (λ sa, sa)
             (λ sa, filteredNamespaceList ≠ [] →
                    corev1.ServiceAccount.Namespace sa ∈ filteredNamespaceList)) in Hrun.
  all: try (destruct Hrun as (picked & -> & Hsub & Hall); rewrite app_nil_l, list_fmap_id;
            split; [exact Hsub|]; split;
            [intros Hne; eapply Forall_impl; [exact Hall|]; intros sa Hsa; by apply Hsa
            | tauto]).
  all: clear; intros acc sa r; unfold namespaceIgnored;
    destruct filteredNamespaceList as [|ns0 rest]; cbn [isEmpty negb andb];
    [ unfold mbind, outcome_bind; destruct (selected _ _ _) as [[]| |];
      intros [= <-]; [right; split; [reflexivity | intros H; by exfalso] | by left]
    | unfold Contains; destruct (bool_decide _) eqn:Hin; cbn [negb];
      [ apply bool_decide_eq_true_1 in Hin; unfold mbind, outcome_bind;
        destruct (selected _ _ _) as [[]| |]; intros [= <-];
        [right; split; [reflexivity | intros _; exact Hin] | by left]
      | intros [= <-]; by left ] ].
Qed.

Lemma expandSubjects_listed resource w :
  let subject := DynamicRoleBindingSource.Subject
                   (DynamicRoleBindingSpec.Source (DynamicRoleBinding.Spec resource)) in
  let nameSelector := DynamicRoleBindingSourceSubject.NameSelector subject in
  DynamicRoleBindingSourceSubject.Kind subject = "User"
  ∨ DynamicRoleBindingSourceSubject.Kind subject = "Group" →
  (∀ matchList,
     NameSelectorT.MatchList nameSelector = Some matchList →
     NamespaceSelectorT.IsZero (DynamicRoleBindingSourceSubject.NamespaceSelector subject)
     = true →
     MetaSelectorT.IsZero (DynamicRoleBindingSourceSubject.MetaSelector subject) = true →
     MatchRegexT.IsZero (NameSelectorT.MatchRegex nameSelector) = true →
     expandSubjects resource w
     = (Ok (namespaces (cluster w), listedSubject subject <$> matchList), w))
  ∧ (NameSelectorT.MatchList nameSelector = None
     ∨ NamespaceSelectorT.IsZero (DynamicRoleBindingSourceSubject.NamespaceSelector subject)
       = false
     ∨ MetaSelectorT.IsZero (DynamicRoleBindingSourceSubject.MetaSelector subject) = false
     ∨ MatchRegexT.IsZero (NameSelectorT.MatchRegex nameSelector) = false →
     ∃ e, expandSubjects resource w = (Err e, w)).
Proof.
  intros subject nameSelector Hkind.
  assert (Hvalid : Contains ["ServiceAccount"; "User"; "Group"]
                     (DynamicRoleBindingSourceSubject.Kind subject) = true).
  { destruct Hkind as [->| ->]; vm_compute; reflexivity. }
  assert (Hlisted : Contains ["Group"; "User"]
                      (DynamicRoleBindingSourceSubject.Kind subject) = true).
  { destruct Hkind as [->| ->]; vm_compute; reflexivity. }
  assert (Hsa : DynamicRoleBindingSourceSubject.Kind subject ≠ "ServiceAccount").
  { destruct Hkind as [->| ->]; discriminate. }
  unfold DynamicRoleBindingReconciler.expandSubjects. fold subject. fold nameSelector.
  rewrite Hvalid, Hlisted. cbn [negb andb].
  split.
  - intros matchList Hlist Hns Hmeta Hregex. rewrite Hns, Hmeta. cbn [negb orb].
    rewrite (C_bind_Ok _ _ w (namespaces (cluster w)) w) by reflexivity.
    rewrite (FilterNamespaceList_zero _ _ _ _ Hns).
    unfold mbind at 1, C_bind at 1, liftC at 1.
    rewrite Hregex, Hlist. cbn [negb].
    unfold mbind at 1, C_bind at 1, mret at 1, C_ret at 1.
    rewrite decide_False by exact Hsa. reflexivity.
  - intros Hbad.
    destruct (NamespaceSelectorT.IsZero _) eqn:Hns; cbn [negb orb];
      [|eexists; reflexivity].
    destruct (MetaSelectorT.IsZero _) eqn:Hmeta; cbn [negb orb]; [|eexists; reflexivity].
    rewrite (C_bind_Ok _ _ w (namespaces (cluster w)) w) by reflexivity.
    rewrite (FilterNamespaceList_zero _ _ _ _ Hns).
    unfold mbind at 1, C_bind at 1, liftC at 1.
    destruct (MatchRegexT.IsZero _) eqn:Hregex; cbn [negb].
    + destruct (NameSelectorT.MatchList nameSelector) eqn:Hlist.
      * exfalso. destruct Hbad as [?|[?|[?|?]]]; discriminate.
      * eexists. reflexivity.
    + eexists. reflexivity.
Qed.

Lemma SyncTarget_clusterScoped resource w namespaceList subjects :
  DynamicRoleBindingTargets.ClusterScoped
    (DynamicRoleBindingSpec.Targets (DynamicRoleBinding.Spec resource)) = true →
  expandSubjects resource w = (Ok (namespaceList, subjects), w) →
  (∀ existing,
     existing ∈ clusterRoleBindings (cluster w) →
     rbacv1.ClusterRoleBinding.Name existing
     = DynamicRoleBindingTargets.Name
         (DynamicRoleBindingSpec.Targets (DynamicRoleBinding.Spec resource)) →
     globals.IsSubset (referenceAnnotations resource)
                      (rbacv1.ClusterRoleBinding.Annotations existing) = true) →
  ∃ w',
    SyncTarget resource w = (Ok (), w')
    ∧ calls w' = calls w ++ [UpdateClusterRoleBinding (bindingResource resource subjects)]
    ∧ bindingResource resource subjects ∈ clusterRoleBindings (cluster w')
    ∧ roleBindings (cluster w') = roleBindings (cluster w).
Proof.
  intros Hscope Hexp Hown.
  unfold DynamicRoleBindingReconciler.SyncTarget.
  rewrite (C_bind_Ok _ _ _ _ _ Hexp). cbn zeta. rewrite Hscope.
  unfold mbind, C_bind, client.GetClusterRoleBinding.
  destruct (find _ _) as [existing|] eqn:Hfind.
  - apply find_some in Hfind as [Hin Hname].
    apply list_elem_of_In in Hin. apply bool_decide_eq_true_1 in Hname.
    rewrite (Hown existing Hin Hname). cbn [negb].
    eexists. split; [reflexivity|]. split; [reflexivity|]. split; [|reflexivity].
    apply upsert_here.
  - eexists. split; [reflexivity|]. split; [reflexivity|]. split; [|reflexivity].
    apply upsert_here.
Qed.

Lemma foreignRoleBindingFound_true existing namespace roleBindingResource :
  foreignRoleBindingFound existing namespace roleBindingResource = true
  ↔ ∃ roleBinding,
      roleBinding ∈ existing
      ∧ rbacv1.RoleBinding.Namespace roleBinding = namespace
      ∧ rbacv1.RoleBinding.Name roleBinding = rbacv1.RoleBinding.Name roleBindingResource
      ∧ globals.IsSubset (rbacv1.RoleBinding.Annotations roleBindingResource)
                         (rbacv1.RoleBinding.Annotations roleBinding) = false.
Proof.
  induction existing as [|rb l IH].
  - split; [discriminate|]. intros (x & Hx & _). by apply elem_of_nil in Hx.
  - cbn [foreignRoleBindingFound].
    destruct (decide (rbacv1.RoleBinding.Namespace rb = namespace)) as [Hns|Hns].
    + destruct (decide (rbacv1.RoleBinding.Name rb
                        = rbacv1.RoleBinding.Name roleBindingResource)) as [Hname|Hname].
      * rewrite (bool_decide_eq_false_2 (_ ≠ namespace)) by (intros H; by apply H).
        rewrite (bool_decide_eq_false_2 (_ ≠ rbacv1.RoleBinding.Name roleBindingResource))
          by (intros H; by apply H).
        cbn [orb].
        destruct (globals.IsSubset (rbacv1.RoleBinding.Annotations roleBindingResource)
                                   (rbacv1.RoleBinding.Annotations rb)) eqn:Hsub; cbn [negb].
        -- rewrite IH. split.
           ++ intros (x & Hx & H). exists x. split; [by right | exact H].
           ++ intros (x & Hx & Hxns & Hxname & Hxsub).
              apply elem_of_cons in Hx as [->|Hx]; [congruence|].
              exists x. split; [exact Hx|]. split; [exact Hxns|]. split; assumption.
        -- split; [|reflexivity]. intros _. exists rb. split; [by left|].
           split; [exact Hns|]. split; assumption.
      * rewrite (bool_decide_eq_true_2 (_ ≠ rbacv1.RoleBinding.Name roleBindingResource))
          by exact Hname.
        rewrite orb_true_r. rewrite IH. split.
        -- intros (x & Hx & H). exists x. split; [by right | exact H].
        -- intros (x & Hx & Hxns & Hxname & Hxsub).
           apply elem_of_cons in Hx as [->|Hx]; [by exfalso|].
           exists x. split; [exact Hx|]. split; [exact Hxns|]. split; assumption.
    + rewrite (bool_decide_eq_true_2 (_ ≠ namespace)) by exact Hns. cbn [orb].
      rewrite IH. split.
      * intros (x & Hx & H). exists x. split; [by right | exact H].
      * intros (x & Hx & Hxns & Hxname & Hxsub).
        apply elem_of_cons in Hx as [->|Hx]; [by exfalso|].
        exists x. split; [exact Hx|]. split; [exact Hxns|]. split; assumption.
Qed.

End SynthesizerSelectors.

(** X9. With [clusterScoped=true], subjects that expand, and no
    cluster-role-binding of the name of the target other than one that bears
    the ownership annotations, [SyncTarget] issues one call, the update of
    the cluster-role-binding it has built, which is in the cluster
    afterwards; the role-bindings of the cluster are left as they are, also
    those that an earlier run with [clusterScoped=false] has written. *)
Theorem cluster_scoped_sync_writes_one_binding
    (regexp_Compile : string → outcome (string → outcome bool))
    (regexp_zero : string → outcome bool)
    (resource : kuberbacv1alpha1.DynamicRoleBinding.t) (w : World)
    (namespaceList : list corev1.Namespace.t) (subjects : list rbacv1.Subject.t) :
  kuberbacv1alpha1.DynamicRoleBindingTargets.ClusterScoped
    (kuberbacv1alpha1.DynamicRoleBindingSpec.Targets
       (kuberbacv1alpha1.DynamicRoleBinding.Spec resource)) = true →
  DynamicRoleBindingReconciler.expandSubjects regexp_Compile regexp_zero resource w
  = (Ok (namespaceList, subjects), w) →
  (∀ existing,
     existing ∈ clusterRoleBindings (cluster w) →
     rbacv1.ClusterRoleBinding.Name existing
     = kuberbacv1alpha1.DynamicRoleBindingTargets.Name
         (kuberbacv1alpha1.DynamicRoleBindingSpec.Targets
            (kuberbacv1alpha1.DynamicRoleBinding.Spec resource)) →
     globals.IsSubset (DynamicRoleBindingReconciler.referenceAnnotations resource)
                      (rbacv1.ClusterRoleBinding.Annotations existing) = true) →
  ∃ w',
    DynamicRoleBindingReconciler.SyncTarget regexp_Compile regexp_zero resource w = (Ok (), w')
    ∧ calls w'
      = calls w ++ [UpdateClusterRoleBinding
                      (DynamicRoleBindingReconciler.bindingResource resource subjects)]
    ∧ DynamicRoleBindingReconciler.bindingResource resource subjects
      ∈ clusterRoleBindings (cluster w')
    ∧ roleBindings (cluster w') = roleBindings (cluster w).
Proof. apply SyncTarget_clusterScoped. Qed.

(** X10. With [clusterScoped=false], a role-binding of the name of the
    target is updated only where the one in place bears every annotation of
    the binding that [SyncTarget] has built, those of [spec.targets] and the
    ownership annotations: no update goes to the namespace of a role-binding
    of the name that lacks one of them, be it a role-binding that the same
    source has written before. *)
Theorem role_binding_lacking_an_annotation_is_not_updated
    (regexp_Compile : string → outcome (string → outcome bool))
    (regexp_zero : string → outcome bool)
    (resource : kuberbacv1alpha1.DynamicRoleBinding.t) (w : World)
    (namespaceList : list corev1.Namespace.t) (subjects : list rbacv1.Subject.t)
    (targetNamespaces : list string) (existing : rbacv1.RoleBinding.t) :
  kuberbacv1alpha1.DynamicRoleBindingTargets.ClusterScoped
    (kuberbacv1alpha1.DynamicRoleBindingSpec.Targets
       (kuberbacv1alpha1.DynamicRoleBinding.Spec resource)) = false →
  DynamicRoleBindingReconciler.expandSubjects regexp_Compile regexp_zero resource w
  = (Ok (namespaceList, subjects), w) →
  DynamicRoleBindingReconciler.FilterNamespaceListBySelector regexp_Compile regexp_zero
    namespaceList
    (kuberbacv1alpha1.DynamicRoleBindingTargets.NamespaceSelector
       (kuberbacv1alpha1.DynamicRoleBindingSpec.Targets
          (kuberbacv1alpha1.DynamicRoleBinding.Spec resource)))
  = Ok targetNamespaces →
  existing ∈ roleBindings (cluster w) →
  rbacv1.RoleBinding.Name existing
  = kuberbacv1alpha1.DynamicRoleBindingTargets.Name
      (kuberbacv1alpha1.DynamicRoleBindingSpec.Targets
         (kuberbacv1alpha1.DynamicRoleBinding.Spec resource)) →
  globals.IsSubset
    (rbacv1.ClusterRoleBinding.Annotations
       (DynamicRoleBindingReconciler.bindingResource resource subjects))
    (rbacv1.RoleBinding.Annotations existing) = false →
  ∃ w' new,
    DynamicRoleBindingReconciler.SyncTarget regexp_Compile regexp_zero resource w = (Ok (), w')
    ∧ calls w' = calls w ++ new
    ∧ ∀ o, UpdateRoleBinding o ∈ new →
           rbacv1.RoleBinding.Namespace o ≠ rbacv1.RoleBinding.Namespace existing.
Proof.
  intros Hscope Hexp Hfilter Hin Hname Hlack.
  destruct (SyncTarget_roleBindings regexp_Compile regexp_zero resource w namespaceList
              subjects targetNamespaces Hscope Hexp Hfilter) as (w' & Hrun & Hcalls & _).
  exists w'. eexists. split; [exact Hrun|]. split; [exact Hcalls|].
  intros o Ho Hns. apply elem_of_app in Ho as [Ho|Ho].
  - apply list_elem_of_fmap in Ho as (o' & [= <-] & Ho').
    unfold upsertedRoleBindings in Ho'.
    apply list_elem_of_fmap in Ho' as (ns & -> & Hns').
    apply list_elem_of_filter in Hns' as [Hfound _].
    assert (Htrue : DynamicRoleBindingReconciler.foreignRoleBindingFound
                      (roleBindings (cluster w)) ns
                      (rbacv1.RoleBinding.SetNamespace
                         (rbacv1.RoleBinding.ofClusterRoleBinding
                            (DynamicRoleBindingReconciler.bindingResource resource subjects))
                         ns) = true).
    { apply foreignRoleBindingFound_true. exists existing. split; [exact Hin|].
      split; [symmetry; exact Hns|]. split; [exact Hname | exact Hlack]. }
    rewrite Htrue in Hfound. discriminate Hfound.
  - apply list_elem_of_fmap in Ho as (o' & Heq & _). discriminate Heq.
Qed.

(** X11. The names [FilterNamespaceListBySelector] returns are names of
    namespaces of the list, in the order of the list and each namespace at
    most once; and it returns names only for a selector that is empty or has
    exactly one of its three fields filled. *)
Theorem filtered_namespaces_are_namespaces_of_the_list
    (regexp_Compile : string → outcome (string → outcome bool))
    (regexp_zero : string → outcome bool)
    (namespaceList : list corev1.Namespace.t)
    (namespaceSelector : kuberbacv1alpha1.NamespaceSelectorT.t) (names : list string) :
  DynamicRoleBindingReconciler.FilterNamespaceListBySelector regexp_Compile regexp_zero
    namespaceList namespaceSelector = Ok names →
  names `sublist_of` (corev1.Namespace.Name <$> namespaceList)
  ∧ (kuberbacv1alpha1.NamespaceSelectorT.IsZero namespaceSelector = true
     ∨ exactlyOne
         (default ∅ (kuberbacv1alpha1.NamespaceSelectorT.MatchLabels namespaceSelector) ≠ ∅)
         (default [] (kuberbacv1alpha1.NamespaceSelectorT.MatchList namespaceSelector) ≠ [])
         (kuberbacv1alpha1.MatchRegexT.Expression
            (kuberbacv1alpha1.NamespaceSelectorT.MatchRegex namespaceSelector) ≠ "")).
Proof.
  intros Hrun. split; [by eapply Filter_sublist|].
  unfold DynamicRoleBindingReconciler.FilterNamespaceListBySelector in Hrun.
  destruct (kuberbacv1alpha1.NamespaceSelectorT.IsZero namespaceSelector); [by left|].
  right. apply CheckNamespaceSelector_Ok.
  destruct (DynamicRoleBindingReconciler.CheckNamespaceSelector namespaceSelector)
    as [[]| |]; [reflexivity | discriminate..].
Qed.

(** X12. For a selector that is not empty and has exactly one field filled,
    [FilterNamespaceListBySelector] returns the names of the namespaces of
    the list that the field picks, in the order of the list: those whose
    labels hold the labels of the selector, those named in its list, or
    those whose name matches its expression if it is not negative and does
    not match it if it is. *)
Theorem selector_selects_the_namespaces_its_field_picks
    (regexp_Compile : string → outcome (string → outcome bool))
    (regexp_zero : string → outcome bool)
    (namespaceList : list corev1.Namespace.t)
    (namespaceSelector : kuberbacv1alpha1.NamespaceSelectorT.t) (matches : string → bool) :
  kuberbacv1alpha1.NamespaceSelectorT.IsZero namespaceSelector = false →
  exactlyOne
    (default ∅ (kuberbacv1alpha1.NamespaceSelectorT.MatchLabels namespaceSelector) ≠ ∅)
    (default [] (kuberbacv1alpha1.NamespaceSelectorT.MatchList namespaceSelector) ≠ [])
    (kuberbacv1alpha1.MatchRegexT.Expression
       (kuberbacv1alpha1.NamespaceSelectorT.MatchRegex namespaceSelector) ≠ "") →
  (kuberbacv1alpha1.MatchRegexT.Expression
     (kuberbacv1alpha1.NamespaceSelectorT.MatchRegex namespaceSelector) ≠ "" →
   ∃ re,
     regexp_Compile (kuberbacv1alpha1.MatchRegexT.Expression
                       (kuberbacv1alpha1.NamespaceSelectorT.MatchRegex namespaceSelector))
     = Ok re
     ∧ ∀ s, re s = Ok (matches s)) →
  DynamicRoleBindingReconciler.FilterNamespaceListBySelector regexp_Compile regexp_zero
    namespaceList namespaceSelector
  = Ok (corev1.Namespace.Name <$>
          filter (λ namespace, picksNamespace namespaceSelector matches namespace = true)
                 namespaceList).
Proof.
  intros Hzero Hone Hre. apply Filter_picks; [exact Hzero | | exact Hre].
  by apply CheckNamespaceSelector_Ok.
Qed.

(** X13. The service accounts [GetServiceAccountsBySelectors] returns are
    service accounts of the cluster, in the order of the listing and each at
    most once, and with a list of filtered namespaces that is not empty they
    all live in namespaces of that list; the call writes nothing, and it
    returns service accounts only for a subject whose name selector or whose
    meta selector is empty. *)
Theorem service_accounts_come_from_the_filtered_namespaces
    (regexp_Compile : string → outcome (string → outcome bool))
    (regexp_zero : string → outcome bool)
    (filteredNamespaceList : list string)
    (subject : kuberbacv1alpha1.DynamicRoleBindingSourceSubject.t)
    (w w' : World) (result : list corev1.ServiceAccount.t) :
  DynamicRoleBindingReconciler.GetServiceAccountsBySelectors regexp_Compile regexp_zero
    filteredNamespaceList subject w = (Ok result, w') →
  w' = w
  ∧ result `sublist_of` serviceAccounts (cluster w)
  ∧ (filteredNamespaceList ≠ [] →
     Forall (λ sa, corev1.ServiceAccount.Namespace sa ∈ filteredNamespaceList) result)
  ∧ (kuberbacv1alpha1.NameSelectorT.IsZero
       (kuberbacv1alpha1.DynamicRoleBindingSourceSubject.NameSelector subject) = true
     ∨ kuberbacv1alpha1.MetaSelectorT.IsZero
         (kuberbacv1alpha1.DynamicRoleBindingSourceSubject.MetaSelector subject) = true).
Proof. apply GetServiceAccounts_restricted. Qed.

(** X14. For a subject of kind User or Group the first part of
    [SyncTarget] returns one subject per item of the list of the name
    selector, in the order of the list, of the kind and the API group of the
    source and without namespace, when the list is given and the namespace
    selector, the meta selector and the expression of the name selector are
    empty; in every other case it returns an error.  It writes nothing. *)
Theorem user_and_group_subjects_are_the_listed_names
    (regexp_Compile : string → outcome (string → outcome bool))
    (regexp_zero : string → outcome bool)
    (resource : kuberbacv1alpha1.DynamicRoleBinding.t) (w : World) :
  let subject := kuberbacv1alpha1.DynamicRoleBindingSource.Subject
                   (kuberbacv1alpha1.DynamicRoleBindingSpec.Source
                      (kuberbacv1alpha1.DynamicRoleBinding.Spec resource)) in
  let nameSelector :=
    kuberbacv1alpha1.DynamicRoleBindingSourceSubject.NameSelector subject in
  kuberbacv1alpha1.DynamicRoleBindingSourceSubject.Kind subject = "User"
  ∨ kuberbacv1alpha1.DynamicRoleBindingSourceSubject.Kind subject = "Group" →
  (∀ matchList,
     kuberbacv1alpha1.NameSelectorT.MatchList nameSelector = Some matchList →
     kuberbacv1alpha1.NamespaceSelectorT.IsZero
       (kuberbacv1alpha1.DynamicRoleBindingSourceSubject.NamespaceSelector subject) = true →
     kuberbacv1alpha1.MetaSelectorT.IsZero
       (kuberbacv1alpha1.DynamicRoleBindingSourceSubject.MetaSelector subject) = true →
     kuberbacv1alpha1.MatchRegexT.IsZero
       (kuberbacv1alpha1.NameSelectorT.MatchRegex nameSelector) = true →
     DynamicRoleBindingReconciler.expandSubjects regexp_Compile regexp_zero resource w
     = (Ok (namespaces (cluster w), listedSubject subject <$> matchList), w))
  ∧ (kuberbacv1alpha1.NameSelectorT.MatchList nameSelector = None
     ∨ kuberbacv1alpha1.NamespaceSelectorT.IsZero
         (kuberbacv1alpha1.DynamicRoleBindingSourceSubject.NamespaceSelector subject) = false
     ∨ kuberbacv1alpha1.MetaSelectorT.IsZero
         (kuberbacv1alpha1.DynamicRoleBindingSourceSubject.MetaSelector subject) = false
     ∨ kuberbacv1alpha1.MatchRegexT.IsZero
         (kuberbacv1alpha1.NameSelectorT.MatchRegex nameSelector) = false →
     ∃ e, DynamicRoleBindingReconciler.expandSubjects regexp_Compile regexp_zero resource w
          = (Err e, w)).
Proof. apply expandSubjects_listed. Qed.

(** ** Package [globals], and the inventory *)

Lemma IsSubset_visit_spec (entries : list (string * string)) (larger : gmap string string) :
  IsSubset_visit entries larger = true
  ↔ ∀ key value, (key, value) ∈ entries → larger !! key = Some value.
Proof.
  induction entries as [|[k v] l IH].
  - split; [|reflexivity]. intros _ key value H. by apply elem_of_nil in H.
  - cbn [IsSubset_visit]. destruct (larger !! k) as [lv|] eqn:Hk.
    + destruct (decide (lv ≠ v)) as [Hne|Heq].
      * split; [discriminate|]. intros Hall. exfalso. apply Hne.
        specialize (Hall k v (list_elem_of_here _ _)). congruence.
      * assert (lv = v) as -> by (destruct (decide (lv = v)); [done | by exfalso]).
        rewrite IH. split.
        -- intros Hall key value Hin. apply elem_of_cons in Hin as [[= -> ->]|Hin];
             [exact Hk | by apply Hall].
        -- intros Hall key value Hin. apply Hall. by right.
    + split; [discriminate|]. intros Hall.
      specialize (Hall k v (list_elem_of_here _ _)). congruence.
Qed.

(** X15. [IsSubset] answers the same in whatever order the map [smaller]
    is visited: true when every key of [smaller] is in [larger] with the
    same value, and false otherwise; so the empty map is a subset of every
    map. *)
Theorem is_subset_in_any_order
    (entries : list (string * string)) (smaller larger : gmap string string) :
  entries ≡ₚ map_to_list smaller →
  IsSubset_visit entries larger = globals.IsSubset smaller larger
  ∧ (globals.IsSubset smaller larger = true ↔ smaller ⊆ larger)
  ∧ globals.IsSubset ∅ larger = true.
Proof.
  intros Hperm.
  assert (Hspec : globals.IsSubset smaller larger = true ↔ smaller ⊆ larger).
  { unfold globals.IsSubset. rewrite bool_decide_eq_true. rewrite map_subseteq_spec.
    unfold map_Forall. reflexivity. }
  split; [|split; [exact Hspec|]].
  - destruct (globals.IsSubset smaller larger) eqn:Hsub.
    + apply IsSubset_visit_spec. intros key value Hin.
      rewrite Hperm in Hin. apply elem_of_map_to_list in Hin.
      assert (Hsubset : smaller ⊆ larger) by (by apply Hspec).
      by apply (proj1 (map_subseteq_spec _ _) Hsubset).
    + apply not_true_is_false. intros Hvisit.
      assert (Hsubset : smaller ⊆ larger).
      { apply map_subseteq_spec. intros key value Hin.
        apply (proj1 (IsSubset_visit_spec _ _) Hvisit).
        rewrite Hperm. by apply elem_of_map_to_list. }
      apply Hspec in Hsubset. discriminate Hsubset.
  - unfold globals.IsSubset. apply bool_decide_eq_true_2. apply map_Forall_empty.
Qed.

(** The inner loop of [SetResourcesByGroup]. *)
Lemma SetResourcesByGroup_resources group version
    (resources : list metav1.APIResource.t) (acc : list GVKR) (m : gmap string (list GVKR)) :
  foldl (λ (resourcesByGroup : gmap string (list GVKR)) apiResource,
           let resourceSubResource := Split (metav1.APIResource.Name apiResource) slash in
           let resource := firstPart (metav1.APIResource.Name apiResource) slash in
           let subresource :=
             if bool_decide (1 < length resourceSubResource)%nat
             then Join (drop 1 resourceSubResource) "/" else "" in
           <[group := default [] (resourcesByGroup !! group) ++
               [ {| Resource := resource;
                    Subresource := subresource;
                    GVK := {| schema.Group := group;
                              schema.Version := version;
                              schema.Kind := metav1.APIResource.Kind apiResource |};
                    Namespaced := metav1.APIResource.Namespaced apiResource;
                    UsableVerbs := metav1.APIResource.Verbs apiResource |} ]]>
           resourcesByGroup)
        (<[group := acc]> m) resources
  = <[group := acc ++ (gvkrOf group version <$> resources)]> m.
Proof.
  revert acc. induction resources as [|r l IH]; intros acc.
  - cbn [foldl fmap list_fmap]. by rewrite app_nil_r.
  - cbn [foldl]. cbn zeta. rewrite lookup_insert_eq. cbn [default].
    rewrite insert_insert_eq. rewrite IH. rewrite fmap_cons. rewrite <- app_assoc.
    reflexivity.
Qed.

Lemma SetResourcesByGroup_lists (lists : list metav1.APIResourceList.t) :
  ∃ m,
    DynamicClusterRoleReconciler.SetResourcesByGroup (Ok lists) = Ok m
    ∧ ∀ group,
        m !! group
        = (λ resourcesLists,
             gvkrOf group (versionOf resourcesLists)
               <$> metav1.APIResourceList.APIResources resourcesLists)
          <$> last (filter (λ resourcesLists, groupOf resourcesLists = group) lists).
Proof.
  unfold DynamicClusterRoleReconciler.SetResourcesByGroup. unfold mbind, outcome_bind.
  eexists. split; [reflexivity|].
  induction lists as [|x lists IH] using rev_ind; intros group.
  - reflexivity.
  - rewrite foldl_app. cbn [foldl]. cbn zeta.
    fold (groupOf x). fold (versionOf x).
    rewrite (SetResourcesByGroup_resources (groupOf x) (versionOf x)).
    rewrite app_nil_l. rewrite filter_app, filter_cons, filter_nil.
    destruct (decide (groupOf x = group)) as [<-|Hne].
    + rewrite lookup_insert_eq. rewrite last_snoc. reflexivity.
    + rewrite lookup_insert_ne by exact Hne. rewrite app_nil_r. apply IH.
Qed.

(** X16. [SetResourcesByGroup] keeps, for every group, the resources of
    the last list of the discovery that is of this group, each stored with
    this group and the version of that list: of a group that is served in
    several versions, the resources of the versions listed before are
    dropped.  A group of no list has no entry, and an error of the discovery
    is returned as it is. *)
Theorem inventory_keeps_the_last_list_of_a_group
    (lists : list metav1.APIResourceList.t) :
  (∃ m,
     DynamicClusterRoleReconciler.SetResourcesByGroup (Ok lists) = Ok m
     ∧ ∀ group,
         m !! group
         = (λ resourcesLists,
              gvkrOf group (versionOf resourcesLists)
                <$> metav1.APIResourceList.APIResources resourcesLists)
           <$> last (filter (λ resourcesLists, groupOf resourcesLists = group) lists))
  ∧ ∀ e, DynamicClusterRoleReconciler.SetResourcesByGroup (Err e) = Err e.
Proof. split; [apply SetResourcesByGroup_lists | reflexivity]. Qed.

Lemma Join_cons_cons e e' rest sep :
  Join (e :: e' :: rest) sep = e +:+ sep +:+ Join (e' :: rest) sep.
Proof. reflexivity. Qed.

Lemma Join_Split s sep : Join (Split s sep) (String sep "") = s.
Proof.
  induction s as [|c s IH]; [reflexivity|].
  cbn [Split]. destruct (decide (c = sep)) as [->|Hne].
  - pose proof (Split_nonempty s sep) as Hnil.
    destruct (Split s sep) as [|h t]; [done|].
    rewrite Join_cons_cons, IH. reflexivity.
  - pose proof (Split_nonempty s sep) as Hnil.
    destruct (Split s sep) as [|h t]; [done|].
    destruct t as [|h' t].
    + cbn [Join] in IH |- *. by rewrite IH.
    + rewrite Join_cons_cons in IH |- *. rewrite append_cons. by rewrite IH.
Qed.

Lemma gvkrOf_name (group version : string) (apiResource : metav1.APIResource.t) :
  resourceName (gvkrOf group version apiResource) = metav1.APIResource.Name apiResource
  ∨ metav1.APIResource.Name apiResource
    = resourceName (gvkrOf group version apiResource) +:+ "/".
Proof.
  unfold resourceName, gvkrOf. cbn [Subresource Resource]. unfold firstPart.
  pose proof (Join_Split (metav1.APIResource.Name apiResource) slash) as Hjoin.
  pose proof (Split_nonempty (metav1.APIResource.Name apiResource) slash) as Hnil.
  destruct (Split (metav1.APIResource.Name apiResource) slash) as [|h t]; [done|].
  destruct t as [|h' t].
  - cbn [length drop]. rewrite bool_decide_eq_false_2 by (cbn; lia).
    rewrite decide_False by (intros H; by apply H). left. exact Hjoin.
  - cbn [length]. rewrite bool_decide_eq_true_2 by lia. cbn [drop].
    rewrite Join_cons_cons in Hjoin.
    destruct (decide (Join (h' :: t) "/" ≠ "")) as [Hsub|Hsub].
    + left. exact Hjoin.
    + right. assert (Join (h' :: t) "/" = "") as Heq.
      { destruct (decide (Join (h' :: t) "/" = "")); [done | by exfalso]. }
      change (String slash "") with "/" in Hjoin. rewrite Heq in Hjoin.
      rewrite <- Hjoin. reflexivity.
Qed.

(** X17. Every entry that [SetResourcesByGroup] stores under a group bears
    this group, and was made from an API resource of a list of this group:
    the name under which it is listed and looked up ([resource], or
    [resource/subresource]) is the name of that API resource, whatever the
    number of ["/"] in it, but for a name that ends in a lone ["/"] after
    its first part, which is listed without it. *)
Theorem stored_resource_keeps_its_name
    (lists : list metav1.APIResourceList.t) (m : gmap string (list GVKR))
    (group : string) (gvkrs : list GVKR) (gvkr : GVKR) :
  DynamicClusterRoleReconciler.SetResourcesByGroup (Ok lists) = Ok m →
  m !! group = Some gvkrs →
  gvkr ∈ gvkrs →
  schema.Group (GVK gvkr) = group
  ∧ ∃ resourcesLists apiResource,
      resourcesLists ∈ lists ∧ groupOf resourcesLists = group
      ∧ apiResource ∈ metav1.APIResourceList.APIResources resourcesLists
      ∧ (resourceName gvkr = metav1.APIResource.Name apiResource
         ∨ metav1.APIResource.Name apiResource = resourceName gvkr +:+ "/").
Proof.
  intros Hrun Hgroup Hin.
  destruct (SetResourcesByGroup_lists lists) as (m' & Hrun' & Hm).
  rewrite Hrun in Hrun'. injection Hrun' as <-.
  rewrite Hm in Hgroup.
  destruct (last (filter (λ resourcesLists, groupOf resourcesLists = group) lists))
    as [resourcesLists|] eqn:Hlast; [|discriminate Hgroup].
  cbn in Hgroup. injection Hgroup as <-.
  apply list_elem_of_fmap in Hin as (apiResource & -> & Hin).
  split; [reflexivity|].
  exists resourcesLists, apiResource.
  apply last_Some_elem_of in Hlast. apply list_elem_of_filter in Hlast as [Hg Hl].
  split; [exact Hl|]. split; [exact Hg|]. split; [exact Hin|]. apply gvkrOf_name.
Qed.

(** ** The rule compiler, continued *)

Lemma isEmpty_false {A} (l : list A) : isEmpty l = false ↔ l ≠ [].
Proof. destruct l; cbn; split; (done || discriminate). Qed.

Lemma validRule_wellFormed rule : validRule rule = true ↔ wellFormed rule.
Proof.
  unfold validRule, wellFormed.
  destruct (rbacv1.Verbs rule) as [|v vs], (rbacv1.NonResourceURLs rule) as [|u us],
    (rbacv1.APIGroups rule) as [|g gs], (rbacv1.Resources rule) as [|r rs],
    (rbacv1.ResourceNames rule) as [|x xs]; cbn;
    (split; [try discriminate; intros _ | intros H; try reflexivity; exfalso]);
    try (split; [discriminate|]);
    try (left; repeat split; (reflexivity || discriminate));
    try (right; repeat split; (reflexivity || discriminate));
    try (destruct H as [Hv [(H1 & H2 & H3 & H4)|(H1 & H2 & H3)]]; congruence).
Qed.

Lemma markGroup_sub gvkrs resource group newGroupList g :
  g ∈ markGroup gvkrs resource group newGroupList → g ∈ newGroupList ∨ g = group.
Proof.
  induction gvkrs as [|gvkr gvkrs IH]; cbn [markGroup]; [by left|].
  destruct (_ && _); [|exact IH].
  intros Hin. apply elem_of_app in Hin as [Hin|Hin]; [by left|].
  apply list_elem_of_singleton in Hin. by right.
Qed.

Lemma cleanGroups_sub p resources groups g :
  g ∈ cleanGroups p resources groups → g ∈ groups.
Proof.
  unfold cleanGroups.
  assert (Hgen : ∀ rs acc,
    g ∈ foldl (λ newGroupList resource,
                 foldl (λ newGroupList group,
                          markGroup (groupResources p group) resource group newGroupList)
                       newGroupList groups) acc rs →
    g ∈ acc ∨ g ∈ groups).
  { induction rs as [|r rs IH]; intros acc; [by left|].
    cbn [foldl]. intros Hin. apply IH in Hin as [Hin|Hin]; [|by right].
    assert (Hinner : ∀ gs acc',
      g ∈ foldl (λ newGroupList group,
                   markGroup (groupResources p group) r group newGroupList) acc' gs →
      g ∈ acc' ∨ g ∈ gs).
    { induction gs as [|g0 gs IHg]; intros acc'; [by left|].
      cbn [foldl]. intros Hin'. apply IHg in Hin' as [Hin'|Hin']; [|right; by right].
      apply markGroup_sub in Hin' as [Hin'| ->]; [by left | right; by left]. }
    exact (Hinner _ _ Hin). }
  intros Hin. apply Hgen in Hin as [Hin|Hin]; [by apply elem_of_nil in Hin | exact Hin].
Qed.

Section ExpansionMore.

Variable shuffle : nat → ∀ A : Type, list A → list A.
Hypothesis shuffle_perm : ∀ n A (l : list A), shuffle n A l ≡ₚ l.

Variable p : PolicyRulesProcessorT.
Hypothesis ResourceList_spec :
  ∀ s, s ∈ ResourceList p
       ↔ ∃ g gvkrs gvkr, ResourcesByGroup p !! g = Some gvkrs ∧ gvkr ∈ gvkrs
                          ∧ resourceName gvkr = s.

Lemma wildcard_resources (groups : list string) acc :
  Forall (λ resource, resource ∈ ResourceList p) acc →
  Forall (λ resource, resource ∈ ResourceList p)
    (foldl (λ resources group,
              match ResourcesByGroup p !! group with
              | Some gvkrs => resources ++ (resourceName <$> gvkrs)
              | None => resources
              end) acc groups).
Proof.
  revert acc. induction groups as [|g groups IH]; intros acc Hacc; [exact Hacc|].
  cbn [foldl]. apply IH. destruct (ResourcesByGroup p !! g) as [gvkrs|] eqn:Hg; [|exact Hacc].
  apply Forall_app. split; [exact Hacc|]. apply Forall_fmap, Forall_forall.
  intros gvkr Hin. apply ResourceList_spec. by exists g, gvkrs, gvkr.
Qed.

Lemma expandRule_expansion policyRule n :
  wellFormed policyRule →
  ∃ rule' n',
    expandRule shuffle p policyRule n = Ok (rule', n') ∧ expansionOf p policyRule rule'.
Proof.
  intros Hwf. unfold expandRule.
  assert (Hresources : ∀ apiGroups,
    Forall (λ resource, resource ∈ ResourceList p)
      (if Contains (rbacv1.Resources policyRule) "*" then
         foldl (λ resources group,
                  match ResourcesByGroup p !! group with
                  | Some gvkrs => resources ++ (resourceName <$> gvkrs)
                  | None => resources
                  end) [] apiGroups
       else filter (λ resource, resource ∈ ResourceList p) (rbacv1.Resources policyRule))).
  { intros apiGroups. destruct (Contains _ _).
    - apply wildcard_resources. constructor.
    - apply Forall_forall. intros r Hr. by apply list_elem_of_filter in Hr as [? _]. }
  assert (Hurl : rbacv1.NonResourceURLs policyRule ≠ [] →
                 rbacv1.APIGroups policyRule = [] ∧ rbacv1.Resources policyRule = []).
  { intros Hne. destruct Hwf as [_ [(_ & Hg & Hr & _)|(Hu & _)]]; [by split | by exfalso]. }
  destruct (Contains (rbacv1.APIGroups policyRule) "*") eqn:Hstar.
  - destruct (rangeMap_Ok shuffle shuffle_perm (ResourcesByGroup p) n)
      as (entries & Hrange & Hperm).
    unfold mbind, M_bind, mret, M_ret. rewrite Hrange.
    eexists _, _. split; [reflexivity|].
    unfold expansionOf. cbn [rbacv1.ResourceNames rbacv1.NonResourceURLs rbacv1.Verbs
                              rbacv1.APIGroups rbacv1.Resources].
    split; [reflexivity|]. split; [reflexivity|]. split; [reflexivity|]. split.
    + apply Forall_forall. intros g Hg. apply cleanGroups_sub in Hg.
      apply list_elem_of_fmap in Hg as ([g' gvkrs] & -> & Hin).
      rewrite Hperm in Hin. apply elem_of_map_to_list in Hin. cbn [fst]. by exists gvkrs.
    + split; [apply Hresources|].
      intros Hne. destruct (Hurl Hne) as [Hg _]. rewrite Hg in Hstar.
      unfold Contains in Hstar. apply bool_decide_eq_true_1 in Hstar.
      by apply elem_of_nil in Hstar.
  - unfold mbind, M_bind, mret, M_ret.
    eexists _, _. split; [reflexivity|].
    unfold expansionOf. cbn [rbacv1.ResourceNames rbacv1.NonResourceURLs rbacv1.Verbs
                              rbacv1.APIGroups rbacv1.Resources].
    split; [reflexivity|]. split; [reflexivity|]. split; [reflexivity|]. split.
    + apply Forall_forall. intros g Hg. apply cleanGroups_sub in Hg.
      by apply list_elem_of_filter in Hg as [? _].
    + split; [apply Hresources|].
      intros Hne. destruct (Hurl Hne) as [Hg Hr]. rewrite Hg, Hr.
      unfold Contains. rewrite bool_decide_eq_false_2 by (intros H; by apply elem_of_nil in H).
      cbn [filter list_filter]. split; reflexivity.
Qed.

Lemma ExpandPolicyRules_expansion policyRules result n :
  ∃ expanded n',
    foldM (λ result policyRule,
             if validRule policyRule then
               newPolicyRule ← expandRule shuffle p policyRule;
               mret (result ++ [newPolicyRule])
             else mret result)
          result policyRules n = Ok (result ++ expanded, n')
    ∧ Forall2 (expansionOf p) (filter wellFormed policyRules) expanded.
Proof.
  revert result n. induction policyRules as [|rule rules IH]; intros result n.
  - exists [], n. split; [by rewrite app_nil_r | constructor].
  - cbn [foldM]. rewrite filter_cons. destruct (validRule rule) eqn:Hvalid.
    + apply validRule_wellFormed in Hvalid. rewrite decide_True by exact Hvalid.
      destruct (expandRule_expansion rule n Hvalid) as (rule' & n1 & Hrun & Hrule').
      rewrite (M_bind_Ok _ _ n (result ++ [rule']) n1)
        by (by rewrite (M_bind_Ok _ _ _ _ _ Hrun)).
      destruct (IH (result ++ [rule']) n1) as (expanded & n' & Hloop & Hall).
      exists (rule' :: expanded), n'. split.
      * rewrite Hloop. by rewrite <- app_assoc.
      * by constructor.
    + rewrite decide_False
        by (intros Hwf; apply validRule_wellFormed in Hwf; congruence).
      rewrite (M_bind_Ok _ _ n result n) by reflexivity. apply IH.
Qed.

End ExpansionMore.

(** X18. [ExpandPolicyRules] returns one rule for each rule of its input
    that is well formed (verbs, and either URLs alone or groups and
    resources without URL), in the order of the input, and none for the
    others; the rule it returns has the names and the URLs of the input,
    its verbs or the eight verbs if ["*"] is among them, groups that are
    groups of the inventory and resources that are resources of the
    inventory, and for a rule on URLs no group and no resource. *)
Theorem expansion_keeps_the_well_formed_rules
    (shuffle : nat → ∀ A : Type, list A → list A) (p : PolicyRulesProcessorT)
    (policyRules : list rbacv1.PolicyRule) (n0 n1 n : nat) :
  (∀ n A (l : list A), shuffle n A l ≡ₚ l) →
  SetResourceList shuffle (ResourcesByGroup p) n0 = Ok (ResourceList p, n1) →
  ∃ expanded n',
    ExpandPolicyRules shuffle p policyRules n = Ok (expanded, n')
    ∧ Forall2 (expansionOf p) (filter wellFormed policyRules) expanded.
Proof.
  intros Hperm Hlist.
  destruct (SetResourceList_spec shuffle Hperm (ResourcesByGroup p) n0)
    as (resourceList & Hrun & Hspec).
  rewrite Hrun in Hlist. injection Hlist as Heq _. rewrite Heq in Hspec.
  destruct (ExpandPolicyRules_expansion shuffle Hperm p Hspec policyRules [] n)
    as (expanded & n' & Hloop & Hall).
  exists expanded, n'. split; [exact Hloop | exact Hall].
Qed.

Lemma foldl_appends {A B} (body : list A → B → list A) (f : B → list A) :
  (∀ acc x, body acc x = acc ++ f x) →
  ∀ l acc, foldl body acc l = acc ++ mjoin (f <$> l).
Proof.
  intros Hbody. induction l as [|x l IH]; intros acc.
  - cbn [foldl fmap list_fmap mjoin list_join]. by rewrite app_nil_r.
  - cbn [foldl fmap list_fmap mjoin list_join]. rewrite IH, Hbody. by rewrite <- app_assoc.
Qed.

Lemma resourceFound_spec p group resource :
  resourceFound p group resource = true
  ↔ ∃ gvkr, gvkr ∈ groupResources p group ∧ resourceName gvkr = resource.
Proof.
  unfold resourceFound.
  assert (Hgen : ∀ l found,
    foldl (λ found gvkr, if decide (resourceName gvkr = resource) then true else found)
          found l = true
    ↔ found = true ∨ ∃ gvkr, gvkr ∈ l ∧ resourceName gvkr = resource).
  { induction l as [|x l IH]; intros found.
    - cbn [foldl]. split; [by left|]. intros [?|(g & Hg & _)]; [done | by apply elem_of_nil in Hg].
    - cbn [foldl]. rewrite IH. destruct (decide (resourceName x = resource)) as [Heq|Hne].
      + split; [|by left]. intros _. right. exists x. split; [by left | exact Heq].
      + split.
        * intros [?|(g & Hg & Hname)]; [by left|]. right. exists g. split; [by right | exact Hname].
        * intros [?|(g & Hg & Hname)]; [by left|].
          apply elem_of_cons in Hg as [->|Hg]; [by exfalso|]. right. by exists g. }
  rewrite Hgen. split; [|by right]. intros [?|?]; [discriminate | done].
Qed.

Lemma StretchPolicyRules_join p policyRules :
  StretchPolicyRules p policyRules = mjoin (stretchOne p <$> policyRules).
Proof.
  unfold StretchPolicyRules.
  rewrite (foldl_appends _ (stretchOne p)); [reflexivity|].
  intros acc rule. unfold stretchOne. destruct (negb (isEmpty _)).
  - by apply foldl_appends.
  - apply foldl_appends. intros acc' resource.
    apply foldl_appends. intros acc'' group.
    destruct (negb (resourceFound p group resource)); [by rewrite app_nil_r|].
    destruct (negb (isEmpty _)); [|reflexivity].
    by apply foldl_appends.
Qed.

Lemma stretchOne_elem p rule rule' : rule' ∈ stretchOne p rule ↔ stretchedFrom p rule rule'.
Proof.
  unfold stretchOne, stretchedFrom.
  destruct (rbacv1.NonResourceURLs rule) as [|u us] eqn:Hurls; cbn [isEmpty negb].
  - rewrite list_elem_of_join. split.
    + intros (l & Hin & Hl). apply list_elem_of_fmap in Hl as (resource & -> & Hres).
      apply list_elem_of_join in Hin as (l & Hin & Hl).
      apply list_elem_of_fmap in Hl as (group & -> & Hgroup).
      destruct (resourceFound p group resource) eqn:Hfound; cbn [negb] in Hin;
        [|by apply elem_of_nil in Hin].
      exists resource, group. split; [exact Hres|]. split; [exact Hgroup|].
      split; [exact Hfound|].
      destruct (rbacv1.ResourceNames rule) as [|x xs] eqn:Hnames; cbn [isEmpty negb] in Hin.
      * left. apply list_elem_of_singleton in Hin. by split.
      * right. apply list_elem_of_join in Hin as (l & Hin & Hl).
        apply list_elem_of_fmap in Hl as (name & -> & Hname).
        apply list_elem_of_singleton in Hin. by exists name.
    + intros (resource & group & Hres & Hgroup & Hfound & Hrule).
      eexists. split; [|apply list_elem_of_fmap; exists resource; split; [reflexivity | exact Hres]].
      apply list_elem_of_join.
      eexists. split; [|apply list_elem_of_fmap; exists group; split; [reflexivity | exact Hgroup]].
      rewrite Hfound. cbn [negb].
      destruct Hrule as [[Hnames ->]|(name & Hname & ->)].
      * rewrite Hnames. cbn [isEmpty negb]. by apply list_elem_of_singleton.
      * destruct (rbacv1.ResourceNames rule) as [|x xs] eqn:Hnames;
          [by apply elem_of_nil in Hname|].
        cbn [isEmpty negb]. apply list_elem_of_join.
        eexists. split; [|apply list_elem_of_fmap; exists name; split; [reflexivity | exact Hname]].
        by apply list_elem_of_singleton.
  - rewrite list_elem_of_join. split.
    + intros (l & Hin & Hl). apply list_elem_of_fmap in Hl as (url & -> & Hurl).
      apply list_elem_of_singleton in Hin. by exists url.
    + intros (url & Hurl & ->).
      eexists. split; [|apply list_elem_of_fmap; exists url; split; [reflexivity | exact Hurl]].
      by apply list_elem_of_singleton.
Qed.

(** X19. The rules [StretchPolicyRules] returns are those it makes of the
    rules of its input: of a rule on URLs one rule per URL, with this URL
    and the verbs; of another rule one rule per resource of the rule, group
    of the rule whose inventory holds a resource of this name, and name if
    the rule has names, with this one group, resource and name and the
    verbs.  A resource is dropped with the groups that do not hold it. *)
Theorem stretched_rules_are_atomic
    (p : PolicyRulesProcessorT) (policyRules : list rbacv1.PolicyRule)
    (rule' : rbacv1.PolicyRule) :
  (rule' ∈ StretchPolicyRules p policyRules
   ↔ ∃ rule, rule ∈ policyRules ∧ stretchedFrom p rule rule')
  ∧ ∀ group resource,
      resourceFound p group resource = true
      ↔ ∃ gvkr, gvkr ∈ groupResources p group ∧ resourceName gvkr = resource.
Proof.
  split; [|apply resourceFound_spec].
  rewrite StretchPolicyRules_join, list_elem_of_join. split.
  - intros (l & Hin & Hl). apply list_elem_of_fmap in Hl as (rule & -> & Hrule).
    exists rule. split; [exact Hrule | by apply stretchOne_elem].
  - intros (rule & Hrule & Hfrom). exists (stretchOne p rule).
    split; [by apply stretchOne_elem|]. apply list_elem_of_fmap. by exists rule.
Qed.

(** *** [GetMapFromStretchedPolicyRules] *)

Lemma insert_sorted_elem x l v : v ∈ insert_sorted x l ↔ v = x ∨ v ∈ l.
Proof.
  induction l as [|y l IH]; cbn [insert_sorted].
  - rewrite list_elem_of_singleton. split; [by left|]. intros [?|H]; [done | by apply elem_of_nil in H].
  - destruct (String.leb x y).
    + by rewrite elem_of_cons.
    + rewrite !elem_of_cons, IH. tauto.
Qed.

Lemma Sort_elem l v : v ∈ Sort l ↔ v ∈ l.
Proof.
  unfold Sort. induction l as [|x l IH]; [reflexivity|].
  cbn [foldr]. rewrite insert_sorted_elem, IH, elem_of_cons. reflexivity.
Qed.

Lemma Compact_elem l v : v ∈ Compact l ↔ v ∈ l.
Proof.
  induction l as [|x l IH]; [reflexivity|].
  cbn [Compact]. destruct l as [|y l]; [reflexivity|].
  destruct (decide (x = y)) as [->|Hne].
  - rewrite IH. rewrite !elem_of_cons. tauto.
  - rewrite elem_of_cons, IH. rewrite !elem_of_cons. tauto.
Qed.

Lemma mergeVerbs_elem old new v : v ∈ mergeVerbs old new ↔ v ∈ old ∨ v ∈ new.
Proof. unfold mergeVerbs. by rewrite Compact_elem, Sort_elem, elem_of_app. Qed.

Lemma foldM_outcome_app {A B} (body : A → B → outcome A) (l1 l2 : list B) acc :
  foldM body acc (l1 ++ l2) = foldM body acc l1 ≫= λ a, foldM body a l2.
Proof.
  revert acc. induction l1 as [|x l1 IH]; intros acc; [reflexivity|].
  cbn [app foldM]. unfold mbind, outcome_bind.
  destruct (body acc x) as [a| |]; [|reflexivity..]. apply IH.
Qed.

(** One turn of the loop of [GetMapFromStretchedPolicyRules] for a rule of
    the shape it expects. *)
Lemma GetMap_turn (result : gmap string rbacv1.PolicyRule) policyRule :
  shaped policyRule →
  ∃ verbs,
    (if negb (isEmpty (rbacv1.NonResourceURLs policyRule)) then
       url ← index (rbacv1.NonResourceURLs policyRule) 0;
       let nonResourceUrlMapKey := "nonresourceurl#" +:+ url in
       match result !! nonResourceUrlMapKey with
       | Some found =>
           let tmp := mergeVerbs (rbacv1.Verbs found) (rbacv1.Verbs policyRule) in
           mret (<[nonResourceUrlMapKey :=
                    {| rbacv1.NonResourceURLs := rbacv1.NonResourceURLs policyRule;
                       rbacv1.Verbs := tmp;
                       rbacv1.APIGroups := []; rbacv1.Resources := [];
                       rbacv1.ResourceNames := [] |}]> result)
       | None => mret (<[nonResourceUrlMapKey := policyRule]> result)
       end
     else
       group ← index (rbacv1.APIGroups policyRule) 0;
       resource ← index (rbacv1.Resources policyRule) 0;
       let resourceKey := group +:+ "#" +:+ resource +:+ "#" in
       resourceKey ←
         (if negb (isEmpty (rbacv1.ResourceNames policyRule)) then
            name ← index (rbacv1.ResourceNames policyRule) 0;
            mret (resourceKey +:+ name)
          else mret resourceKey);
       match result !! resourceKey with
       | Some found =>
           let tmp := mergeVerbs (rbacv1.Verbs found) (rbacv1.Verbs policyRule) in
           mret (<[resourceKey :=
                    {| rbacv1.APIGroups := rbacv1.APIGroups policyRule;
                       rbacv1.Resources := rbacv1.Resources policyRule;
                       rbacv1.ResourceNames := rbacv1.ResourceNames policyRule;
                       rbacv1.Verbs := tmp;
                       rbacv1.NonResourceURLs := [] |}]> result)
       | None => mret (<[resourceKey := policyRule]> result)
       end)
    = Ok (<[keyOf policyRule := rbacv1.withVerbs policyRule verbs]> result)
    ∧ ∀ v, v ∈ verbs ↔ v ∈ verbsAt result (keyOf policyRule) ∨ v ∈ rbacv1.Verbs policyRule.
Proof.
  intros Hshape. unfold keyOf, verbsAt, ruleAt.
  destruct Hshape as [(Hu & Hg & Hr & Hn)|(Hu & Hg & Hr)].
  - destruct (rbacv1.NonResourceURLs policyRule) as [|url urls] eqn:Hurls; [done|].
    cbn [isEmpty negb head index lookup list_lookup].
    change (default "" (Some url)) with url. unfold mbind, outcome_bind.
    cbn zeta.
    destruct (result !! ("nonresourceurl#" +:+ url)) as [found|] eqn:Hfound.
    + exists (mergeVerbs (rbacv1.Verbs found) (rbacv1.Verbs policyRule)).
      split.
      * unfold mret, outcome_ret. do 2 f_equal. unfold rbacv1.withVerbs.
        rewrite Hurls, Hg, Hr, Hn. reflexivity.
      * intros v. change (default rbacv1.zero (Some found)) with found.
        apply mergeVerbs_elem.
    + exists (rbacv1.Verbs policyRule). split.
      * unfold mret, outcome_ret. do 2 f_equal. by destruct policyRule.
      * intros v. change (default rbacv1.zero None) with rbacv1.zero.
        cbn [rbacv1.zero rbacv1.Verbs]. split; [by right|].
        intros [H|H]; [by apply elem_of_nil in H | exact H].
  - rewrite Hu. cbn [isEmpty negb].
    destruct (rbacv1.APIGroups policyRule) as [|g gs] eqn:Hgs; [done|].
    destruct (rbacv1.Resources policyRule) as [|r rs] eqn:Hrs; [done|].
    cbn [head index lookup list_lookup].
    change (default "" (Some g)) with g. change (default "" (Some r)) with r.
    unfold mbind at 1 2, outcome_bind at 1 2.
    cbn zeta.
    assert (Hkey :
      (if negb (isEmpty (rbacv1.ResourceNames policyRule)) then
         name ← index (rbacv1.ResourceNames policyRule) 0;
         mret ((g +:+ "#" +:+ r +:+ "#") +:+ name)
       else mret (g +:+ "#" +:+ r +:+ "#"))
      = Ok (if negb (isEmpty (rbacv1.ResourceNames policyRule))
            then (g +:+ "#" +:+ r +:+ "#")
                 +:+ default "" (head (rbacv1.ResourceNames policyRule))
            else g +:+ "#" +:+ r +:+ "#")).
    { destruct (rbacv1.ResourceNames policyRule) as [|x xs]; reflexivity. }
    rewrite Hkey. unfold mbind, outcome_bind.
    set (key := if negb (isEmpty (rbacv1.ResourceNames policyRule)) then _ else _).
    destruct (result !! key) as [found|] eqn:Hfound.
    + exists (mergeVerbs (rbacv1.Verbs found) (rbacv1.Verbs policyRule)).
      split.
      * unfold mret, outcome_ret. do 2 f_equal. unfold rbacv1.withVerbs.
        rewrite Hu, Hgs, Hrs. reflexivity.
      * intros v. change (default rbacv1.zero (Some found)) with found.
        apply mergeVerbs_elem.
    + exists (rbacv1.Verbs policyRule). split.
      * unfold mret, outcome_ret. do 2 f_equal. by destruct policyRule.
      * intros v. change (default rbacv1.zero None) with rbacv1.zero.
        cbn [rbacv1.zero rbacv1.Verbs]. split; [by right|].
        intros [H|H]; [by apply elem_of_nil in H | exact H].
Qed.

Lemma keyMerged_nil : keyMerged [] ∅.
Proof.
  intros key. split; [|split].
  - intros v. unfold verbsAt, ruleAt. rewrite lookup_empty. cbn. split.
    + intros H. by apply elem_of_nil in H.
    + intros (rule & H & _). by apply elem_of_nil in H.
  - intros r H. by rewrite lookup_empty in H.
  - split; [|by rewrite lookup_empty]. intros _ rule H. by apply elem_of_nil in H.
Qed.

Lemma keyMerged_snoc rules m rule verbs :
  keyMerged rules m →
  (∀ v, v ∈ verbs ↔ v ∈ verbsAt m (keyOf rule) ∨ v ∈ rbacv1.Verbs rule) →
  keyMerged (rules ++ [rule]) (<[keyOf rule := rbacv1.withVerbs rule verbs]> m).
Proof.
  intros Hm Hverbs key. destruct (Hm key) as (Hv & He & Hn).
  destruct (decide (keyOf rule = key)) as [<-|Hne].
  - split; [|split].
    + intros v. unfold verbsAt, ruleAt. rewrite lookup_insert_eq. cbn [default rbacv1.withVerbs rbacv1.Verbs].
      rewrite Hverbs, Hv. split.
      * intros [(rule0 & Hin & Hk & Hin')|Hin].
        -- exists rule0. split; [apply elem_of_app; by left | by split].
        -- exists rule. split; [apply elem_of_app; right; by left | by split].
      * intros (rule0 & Hin & Hk & Hin'). apply elem_of_app in Hin as [Hin|Hin].
        -- left. by exists rule0.
        -- apply list_elem_of_singleton in Hin as ->. by right.
    + intros r. rewrite lookup_insert_eq. intros [= <-]. exists rule.
      split; [apply elem_of_app; right; by left|]. split; reflexivity.
    + rewrite lookup_insert_eq. split; [discriminate|]. intros Hall. exfalso.
      apply (Hall rule); [apply elem_of_app; right; by left | reflexivity].
  - split; [|split].
    + intros v. unfold verbsAt, ruleAt. rewrite lookup_insert_ne by exact Hne.
      fold (ruleAt m key). fold (verbsAt m key). rewrite Hv. split.
      * intros (rule0 & Hin & H). exists rule0. split; [apply elem_of_app; by left | exact H].
      * intros (rule0 & Hin & Hk & H). apply elem_of_app in Hin as [Hin|Hin].
        -- by exists rule0.
        -- apply list_elem_of_singleton in Hin as ->. by exfalso.
    + intros r. rewrite lookup_insert_ne by exact Hne. intros Hr.
      destruct (He r Hr) as (rule0 & Hin & H). exists rule0.
      split; [apply elem_of_app; by left | exact H].
    + rewrite lookup_insert_ne by exact Hne. rewrite Hn. split.
      * intros Hall rule0 Hin. apply elem_of_app in Hin as [Hin|Hin]; [by apply Hall|].
        apply list_elem_of_singleton in Hin as ->. exact Hne.
      * intros Hall rule0 Hin. apply Hall. apply elem_of_app. by left.
Qed.

Lemma GetMap_keyMerged (policyRules : list rbacv1.PolicyRule) :
  Forall shaped policyRules →
  ∃ m, GetMapFromStretchedPolicyRules policyRules = Ok m ∧ keyMerged policyRules m.
Proof.
  unfold GetMapFromStretchedPolicyRules.
  induction policyRules as [|rule rules IH] using rev_ind; intros Hall.
  - exists ∅. split; [reflexivity | apply keyMerged_nil].
  - apply Forall_app in Hall as [Hrules Hrule]. rewrite Forall_singleton in Hrule.
    destruct (IH Hrules) as (m & Hrun & Hm).
    rewrite foldM_outcome_app, Hrun. unfold mbind at 1, outcome_bind at 1.
    destruct (GetMap_turn m rule Hrule) as (verbs & Hturn & Hverbs).
    change (foldM ?body m [rule]) with (body m rule ≫= λ a, mret a).
    cbv beta zeta in Hturn |- *.
    rewrite Hturn. unfold mbind, outcome_bind, mret, outcome_ret.
    eexists. split; [reflexivity|]. by apply keyMerged_snoc.
Qed.

Lemma stretched_shaped p policyRules : Forall shaped (StretchPolicyRules p policyRules).
Proof.
  apply Forall_forall. intros rule' Hin.
  rewrite StretchPolicyRules_join in Hin. apply list_elem_of_join in Hin as (l & Hin & Hl).
  apply list_elem_of_fmap in Hl as (rule & -> & _).
  apply stretchOne_elem in Hin. unfold stretchedFrom in Hin.
  destruct (isEmpty (rbacv1.NonResourceURLs rule)).
  - destruct Hin as (resource & group & _ & _ & _ & [[_ ->]|(name & _ & ->)]);
      right; repeat split; discriminate.
  - destruct Hin as (url & _ & ->). left. repeat split. discriminate.
Qed.

(** *** The evaluation *)

Lemma coveredBy_refl m : coveredBy m m.
Proof.
  intros key rule Hrule. exists key, rule. split; [exact Hrule|].
  split; [apply HasPrefix_refl|]. split; [reflexivity|]. split; reflexivity.
Qed.

Lemma coveredBy_trans m0 m1 m2 : coveredBy m0 m1 → coveredBy m1 m2 → coveredBy m0 m2.
Proof.
  intros H01 H12 key rule Hrule.
  destruct (H12 key rule Hrule) as (key1 & rule1 & Hrule1 & Hpre1 & Hg1 & Hr1 & Hv1).
  destruct (H01 key1 rule1 Hrule1) as (key0 & rule0 & Hrule0 & Hpre0 & Hg0 & Hr0 & Hv0).
  exists key0, rule0. split; [exact Hrule0|].
  split; [by eapply HasPrefix_trans|]. split; [congruence|]. split; [congruence|].
  by etrans.
Qed.

Lemma deleteIfNoVerbs_covered key m : coveredBy m (deleteIfNoVerbs key m).
Proof.
  unfold deleteIfNoVerbs. destruct (isEmpty _); [|apply coveredBy_refl].
  intros k rule Hrule. apply lookup_delete_Some in Hrule as [_ Hrule].
  by apply coveredBy_refl.
Qed.

Section EvaluationMore.

Variable shuffle : nat → ∀ A : Type, list A → list A.
Hypothesis shuffle_perm : ∀ n A (l : list A), shuffle n A l ≡ₚ l.

Lemma GetSurvivingVerbs_sub allowVerbs denyVerbs n :
  ∃ result,
    GetSurvivingVerbs shuffle allowVerbs denyVerbs n = Ok (result, S n)
    ∧ result ⊆ allowVerbs.
Proof.
  set (tmpMap := countDenied denyVerbs (markAllowed allowVerbs ∅)).
  set (entries := shuffle n _ (map_to_list tmpMap)).
  exists ((filter (λ e, e.2 = 1) entries).*1).
  assert (Hperm : entries ≡ₚ map_to_list tmpMap) by apply shuffle_perm.
  split.
  - unfold GetSurvivingVerbs, rangeMap, mbind, M_bind. cbn zeta.
    fold (markAllowed allowVerbs ∅). fold (countDenied denyVerbs (markAllowed allowVerbs ∅)).
    fold tmpMap. fold entries. unfold mret, M_ret. f_equal. f_equal.
    apply (pickSurvivors_eq entries []).
  - intros v Hv. apply list_elem_of_fmap in Hv as ([k c] & -> & Hin).
    apply list_elem_of_filter in Hin as [_ Hin]. cbn [fst].
    rewrite Hperm in Hin. apply elem_of_map_to_list in Hin. unfold tmpMap in Hin.
    rewrite countDenied_lookup, markAllowed_lookup in Hin.
    destruct (decide (k ∈ allowVerbs)) as [Ha|Ha]; [exact Ha|].
    rewrite lookup_empty in Hin. discriminate Hin.
Qed.

(** The subtraction of the verbs of a deny entry at one key. *)
Lemma subtract_turn key denyVerbs allowMap n :
  ∃ m',
    (allowMap ← subtractVerbs shuffle key denyVerbs allowMap;
     mret (deleteIfNoVerbs key allowMap)) n = Ok (m', S n)
    ∧ coveredBy allowMap m'.
Proof.
  destruct (GetSurvivingVerbs_sub (rbacv1.Verbs (ruleAt allowMap key)) denyVerbs n)
    as (vs & Hrun & Hsub).
  eexists. split.
  - unfold subtractVerbs. rewrite (M_bind_Ok _ _ n _ (S n))
      by (by rewrite (M_bind_Ok _ _ _ _ _ Hrun)).
    reflexivity.
  - rewrite deleteIfNoVerbs_insert. cbn [rbacv1.withVerbs rbacv1.Verbs].
    destruct (isEmpty vs) eqn:Hvs.
    + intros k rule Hrule. apply lookup_delete_Some in Hrule as [_ Hrule].
      by apply coveredBy_refl.
    + intros k rule Hrule. destruct (decide (k = key)) as [->|Hne].
      * rewrite lookup_insert_eq in Hrule. injection Hrule as <-.
        destruct (allowMap !! key) as [b|] eqn:Hb.
        -- exists key, b. split; [exact Hb|]. split; [apply HasPrefix_refl|].
           rewrite (ruleAt_Some _ _ _ Hb) in Hsub |- *.
           split; [reflexivity|]. split; [reflexivity | exact Hsub].
        -- exfalso. unfold ruleAt in Hsub. rewrite Hb in Hsub. cbn in Hsub.
           destruct vs as [|v vs]; [discriminate Hvs|].
           specialize (Hsub v (list_elem_of_here _ _)). by apply elem_of_nil in Hsub.
      * rewrite lookup_insert_ne in Hrule by (intros Heq; by apply Hne).
        by apply coveredBy_refl.
Qed.

Lemma prefix_total prefix denyVerbs (l : list (string * rbacv1.PolicyRule)) allowMap n :
  ∃ m' n',
    foldM (λ (allowMap : gmap string rbacv1.PolicyRule) '(allowMapKey, _),
             allowMap ←
               (if HasPrefix allowMapKey prefix
                then subtractVerbs shuffle allowMapKey denyVerbs allowMap
                else mret allowMap);
             mret (deleteIfNoVerbs allowMapKey allowMap))
          allowMap l n = Ok (m', n')
    ∧ coveredBy allowMap m'.
Proof.
  revert allowMap n. induction l as [|[key x] l IH]; intros allowMap n.
  - eexists _, _. split; [reflexivity | apply coveredBy_refl].
  - cbn [foldM]. destruct (HasPrefix key prefix).
    + destruct (subtract_turn key denyVerbs allowMap n) as (m1 & Hrun1 & Hcov1).
      rewrite (M_bind_Ok _ _ _ _ _ Hrun1).
      destruct (IH m1 (S n)) as (m' & n' & Hrun & Hcov).
      exists m', n'. split; [exact Hrun | by eapply coveredBy_trans].
    + rewrite (M_bind_Ok _ _ n (deleteIfNoVerbs key allowMap) n) by reflexivity.
      destruct (IH (deleteIfNoVerbs key allowMap) n) as (m' & n' & Hrun & Hcov).
      exists m', n'. split; [exact Hrun|].
      eapply coveredBy_trans; [apply deleteIfNoVerbs_covered | exact Hcov].
Qed.

Lemma subtractByPrefix_total prefix denyVerbs allowMap n :
  ∃ m' n',
    subtractByPrefix shuffle prefix denyVerbs allowMap n = Ok (m', n')
    ∧ coveredBy allowMap m'.
Proof.
  unfold subtractByPrefix.
  destruct (rangeMap_Ok shuffle shuffle_perm allowMap n) as (entries & Hrange & _).
  rewrite (M_bind_Ok _ _ _ _ _ Hrange). apply prefix_total.
Qed.

Lemma evaluate_total (entries : list (string * rbacv1.PolicyRule)) allowMap n :
  Forall (λ e, splittable e.1) entries →
  ∃ m' n',
    foldM (λ (allowMap : gmap string rbacv1.PolicyRule) '(denyMapKey, policyRule),
      if HasPrefix denyMapKey "nonresourceurl" then
        if HasSuffix denyMapKey star then
          subtractByPrefix shuffle (TrimSuffix denyMapKey star)
                           (rbacv1.Verbs policyRule) allowMap
        else
          allowMap ← subtractVerbs shuffle denyMapKey (rbacv1.Verbs policyRule) allowMap;
          mret (deleteIfNoVerbs denyMapKey allowMap)
      else
        let denyMapKeyParts := Split denyMapKey hash in
        name ← lift (index denyMapKeyParts 2);
        if decide (name = "") then
          subtractByPrefix shuffle denyMapKey (rbacv1.Verbs policyRule) allowMap
        else
          match allowMap !! denyMapKey with
          | Some _ =>
              allowMap ← subtractVerbs shuffle denyMapKey (rbacv1.Verbs policyRule) allowMap;
              mret (deleteIfNoVerbs denyMapKey allowMap)
          | None => mret allowMap
          end)
      allowMap entries n = Ok (m', n')
    ∧ coveredBy allowMap m'.
Proof.
  revert allowMap n. induction entries as [|[d dr] entries IH]; intros allowMap n Hok.
  - eexists _, _. split; [reflexivity | apply coveredBy_refl].
  - apply Forall_cons in Hok as [Hd Hok]. cbn [fst] in Hd. cbn [foldM].
    assert (Hturn : ∃ m1 n1,
      (if HasPrefix d "nonresourceurl" then
         if HasSuffix d star then
           subtractByPrefix shuffle (TrimSuffix d star) (rbacv1.Verbs dr) allowMap
         else
           allowMap ← subtractVerbs shuffle d (rbacv1.Verbs dr) allowMap;
           mret (deleteIfNoVerbs d allowMap)
       else
         let denyMapKeyParts := Split d hash in
         name ← lift (index denyMapKeyParts 2);
         if decide (name = "") then
           subtractByPrefix shuffle d (rbacv1.Verbs dr) allowMap
         else
           match allowMap !! d with
           | Some _ =>
               allowMap ← subtractVerbs shuffle d (rbacv1.Verbs dr) allowMap;
               mret (deleteIfNoVerbs d allowMap)
           | None => mret allowMap
           end) n = Ok (m1, n1)
      ∧ coveredBy allowMap m1).
    { destruct (HasPrefix d "nonresourceurl") eqn:Hurl.
      - destruct (HasSuffix d star); [apply subtractByPrefix_total|].
        destruct (subtract_turn d (rbacv1.Verbs dr) allowMap n) as (m1 & Hrun1 & Hcov1).
        by exists m1, (S n).
      - destruct Hd as [?|[name Hname]]; [congruence|].
        cbn zeta. unfold index. rewrite Hname.
        rewrite M_bind_Ok with (a := name) (n' := n) by reflexivity.
        destruct (decide (name = "")); [apply subtractByPrefix_total|].
        destruct (allowMap !! d) as [r|] eqn:Hr.
        + destruct (subtract_turn d (rbacv1.Verbs dr) allowMap n) as (m1 & Hrun1 & Hcov1).
          by exists m1, (S n).
        + exists allowMap, n. split; [reflexivity | apply coveredBy_refl]. }
    destruct Hturn as (m1 & n1 & Hrun1 & Hcov1).
    rewrite (M_bind_Ok _ _ _ _ _ Hrun1).
    destruct (IH m1 n1 Hok) as (m' & n' & Hrun & Hcov).
    exists m', n'. split; [exact Hrun | by eapply coveredBy_trans].
Qed.

Lemma EvaluatePolicyRules_total allowMap denyMap n :
  map_Forall (λ d _, splittable d) denyMap →
  ∃ result n',
    EvaluatePolicyRules shuffle allowMap denyMap n = Ok (result, n')
    ∧ coveredBy allowMap result.
Proof.
  intros Hok.
  destruct (rangeMap_Ok shuffle shuffle_perm denyMap n) as (entries & Hrange & Hperm).
  assert (Hall : Forall (λ e : string * rbacv1.PolicyRule, splittable e.1) entries).
  { rewrite Hperm. apply Forall_forall. intros [d dr] Hin.
    apply elem_of_map_to_list in Hin. by apply (Hok d dr). }
  unfold EvaluatePolicyRules. rewrite (M_bind_Ok _ _ _ _ _ Hrange).
  by apply evaluate_total.
Qed.

End EvaluationMore.

Lemma Split_length_hash a rest :
  (S (length (Split rest hash)) ≤ length (Split (a +:+ String hash rest) hash))%nat.
Proof.
  induction a as [|c a IH].
  - rewrite append_nil_l, Split_cons_sep. cbn [length]. lia.
  - rewrite append_cons. cbn [Split]. destruct (decide (c = hash)).
    + cbn [length]. lia.
    + pose proof (Split_nonempty (a +:+ String hash rest) hash) as Hnil.
      destruct (Split (a +:+ String hash rest) hash) as [|h t]; [done|].
      cbn [length] in IH |- *. exact IH.
Qed.

Lemma Split_two_hashes g r name :
  is_Some (Split ((g +:+ "#" +:+ r +:+ "#") +:+ name) hash !! 2%nat).
Proof.
  apply lookup_lt_is_Some.
  assert (Hkey : (g +:+ "#" +:+ r +:+ "#") +:+ name
                 = g +:+ String hash (r +:+ String hash name)).
  { rewrite !append_assoc. reflexivity. }
  rewrite Hkey.
  pose proof (Split_length_hash g (r +:+ String hash name)) as H1.
  pose proof (Split_length_hash r name) as H2.
  pose proof (Split_nonempty name hash) as Hnil.
  destruct (Split name hash) as [|h t]; [done|]. cbn [length] in H2. lia.
Qed.

Lemma keyMerged_readable rules m :
  Forall shaped rules → keyMerged rules m → map_Forall readable m.
Proof.
  intros Hshaped Hm key r Hr. destruct (Hm key) as (_ & He & _).
  destruct (He r Hr) as (rule & Hin & <- & ->).
  rewrite Forall_forall in Hshaped. specialize (Hshaped rule Hin).
  unfold readable, keyOf. cbn [rbacv1.withVerbs rbacv1.APIGroups rbacv1.Resources].
  destruct Hshaped as [(Hu & _)|(Hu & Hg & Hres)].
  - left. destruct (rbacv1.NonResourceURLs rule); [done|]. cbn [isEmpty negb].
    apply (HasPrefix_trans _ "nonresourceurl#"); [apply HasPrefix_app | reflexivity].
  - right. rewrite Hu. cbn [isEmpty negb]. split; [|by split].
    destruct (negb (isEmpty (rbacv1.ResourceNames rule))).
    + apply Split_two_hashes.
    + rewrite <- (append_nil_r (_ +:+ "#" +:+ _ +:+ "#")). apply Split_two_hashes.
Qed.

Lemma readable_splittable key rule : readable key rule → splittable key.
Proof. intros [?|[? _]]; [by left | by right]. Qed.

Lemma allowPerInstance_covered key names (m : gmap string rbacv1.PolicyRule) b :
  m !! key = Some b →
  ∀ k r,
    allowPerInstance key names m !! k = Some r →
    m !! k = Some r
    ∨ (HasPrefix k key = true
       ∧ rbacv1.APIGroups r = rbacv1.APIGroups b
       ∧ rbacv1.Resources r = rbacv1.Resources b
       ∧ rbacv1.Verbs r = rbacv1.Verbs b).
Proof.
  revert m b. induction names as [|x names IH]; intros m b Hkey k r Hr; [by left|].
  change (allowPerInstance key (x :: names) m)
    with (allowPerInstance key names
            (<[key +:+ x :=
                {| rbacv1.APIGroups := rbacv1.APIGroups (ruleAt m key);
                   rbacv1.Resources := rbacv1.Resources (ruleAt m key);
                   rbacv1.ResourceNames := [x];
                   rbacv1.Verbs := rbacv1.Verbs (ruleAt m key);
                   rbacv1.NonResourceURLs := [] |}]> m)) in Hr.
  rewrite (ruleAt_Some _ _ _ Hkey) in Hr.
  set (copy := {| rbacv1.APIGroups := rbacv1.APIGroups b;
                  rbacv1.Resources := rbacv1.Resources b;
                  rbacv1.ResourceNames := [x];
                  rbacv1.Verbs := rbacv1.Verbs b;
                  rbacv1.NonResourceURLs := [] |}) in Hr.
  assert (Hb1 : ∃ b1, <[key +:+ x := copy]> m !! key = Some b1
                      ∧ rbacv1.APIGroups b1 = rbacv1.APIGroups b
                      ∧ rbacv1.Resources b1 = rbacv1.Resources b
                      ∧ rbacv1.Verbs b1 = rbacv1.Verbs b).
  { destruct (decide (key +:+ x = key)) as [Heq|Hne].
    - exists copy. rewrite Heq, lookup_insert_eq. repeat split.
    - exists b. rewrite lookup_insert_ne by exact Hne. repeat split. exact Hkey. }
  destruct Hb1 as (b1 & Hkey1 & Hg1 & Hr1 & Hv1).
  destruct (IH _ _ Hkey1 k r Hr) as [Hin|(Hpre & Hg & Hres & Hv)].
  - destruct (decide (key +:+ x = k)) as [<-|Hne].
    + rewrite lookup_insert_eq in Hin. injection Hin as <-. right.
      split; [apply HasPrefix_app|]. repeat split.
    + rewrite lookup_insert_ne in Hin by exact Hne. by left.
  - right. split; [exact Hpre|]. split; [congruence|]. split; congruence.
Qed.

Section CompilerRuns.

Variable shuffle : nat → ∀ A : Type, list A → list A.
Hypothesis shuffle_perm : ∀ n A (l : list A), shuffle n A l ≡ₚ l.

Variable p : PolicyRulesProcessorT.

(** One turn of the loop of [EvaluateSpecialCases]. *)
Lemma special_turn_total denyMapkey policyRule allowMap n :
  readable denyMapkey policyRule →
  match
    (if HasPrefix denyMapkey "nonresourceurl" then mret allowMap
     else
       let parts := Split denyMapkey hash in
       name ← lift (index parts 2);
       if decide (name = "") then mret allowMap
       else
         let key := Join (take 2 parts) "#" +:+ "#" in
         match allowMap !! key with
         | None => mret allowMap
         | Some _ =>
             resource ← lift (index (rbacv1.Resources policyRule) 0);
             let coreResourceType := firstPart resource slash in
             group ← lift (index (rbacv1.APIGroups policyRule) 0);
             let tmpGvkr := findGvkr p group coreResourceType in
             names ← lift (Client_List p (GVK tmpGvkr));
             mret (delete key (allowPerInstance key names allowMap))
         end) n
  with
  | Ok (m', n') => n' = n ∧ coveredBy allowMap m'
  | Err e => ∃ gvk, Client_List p gvk = Err e
  | Panic => ∃ gvk, Client_List p gvk = Panic
  end.
Proof.
  intros Hread.
  destruct (HasPrefix denyMapkey "nonresourceurl") eqn:Hurl.
  { split; [reflexivity | apply coveredBy_refl]. }
  destruct Hread as [?|([name Hname] & Hgroups & Hresources)]; [congruence|].
  cbn zeta. unfold index. rewrite Hname.
  rewrite (M_bind_Ok _ _ n name n) by reflexivity.
  destruct (decide (name = "")); [split; [reflexivity | apply coveredBy_refl]|].
  set (key := Join (take 2 (Split denyMapkey hash)) "#" +:+ "#").
  destruct (allowMap !! key) as [b|] eqn:Hb;
    [|split; [reflexivity | apply coveredBy_refl]].
  destruct (rbacv1.Resources policyRule) as [|r rs]; [done|].
  destruct (rbacv1.APIGroups policyRule) as [|g gs]; [done|].
  rewrite (M_bind_Ok _ _ n r n) by reflexivity. cbn zeta.
  rewrite (M_bind_Ok _ _ n g n) by reflexivity.
  destruct (Client_List p (GVK (findGvkr p g (firstPart r slash)))) as [names|e|] eqn:Hlist.
  - rewrite (M_bind_Ok _ _ n names n) by reflexivity.
    unfold mret, M_ret. split; [reflexivity|].
    intros k rule Hrule. apply lookup_delete_Some in Hrule as [_ Hrule].
    destruct (allowPerInstance_covered key names allowMap b Hb k rule Hrule)
      as [Hin|(Hpre & Hg & Hres & Hv)].
    + by apply coveredBy_refl.
    + exists key, b. split; [exact Hb|]. split; [exact Hpre|].
      split; [exact Hg|]. split; [exact Hres|]. by rewrite Hv.
  - rewrite (M_bind_Err _ _ n e) by reflexivity. by eexists.
  - rewrite (M_bind_Panic _ _ n) by reflexivity. by eexists.
Qed.

Lemma special_total (entries : list (string * rbacv1.PolicyRule)) allowMap n :
  Forall (λ e, readable e.1 e.2) entries →
  match
    foldM (λ (allowMap : gmap string rbacv1.PolicyRule) '(denyMapkey, policyRule),
      if HasPrefix denyMapkey "nonresourceurl" then mret allowMap
      else
        let parts := Split denyMapkey hash in
        name ← lift (index parts 2);
        if decide (name = "") then mret allowMap
        else
          let key := Join (take 2 parts) "#" +:+ "#" in
          match allowMap !! key with
          | None => mret allowMap
          | Some _ =>
              resource ← lift (index (rbacv1.Resources policyRule) 0);
              let coreResourceType := firstPart resource slash in
              group ← lift (index (rbacv1.APIGroups policyRule) 0);
              let tmpGvkr := findGvkr p group coreResourceType in
              names ← lift (Client_List p (GVK tmpGvkr));
              mret (delete key (allowPerInstance key names allowMap))
          end)
      allowMap entries n
  with
  | Ok (m', n') => n' = n ∧ coveredBy allowMap m'
  | Err e => ∃ gvk, Client_List p gvk = Err e
  | Panic => ∃ gvk, Client_List p gvk = Panic
  end.
Proof.
  revert allowMap. induction entries as [|[d dr] entries IH]; intros allowMap Hok.
  - split; [reflexivity | apply coveredBy_refl].
  - apply Forall_cons in Hok as [Hd Hok]. cbn [fst snd] in Hd. cbn [foldM].
    pose proof (special_turn_total d dr allowMap n Hd) as Hturn.
    unfold mbind at 1, M_bind at 1.
    match goal with
    | H : match ?t with _ => _ end |- context [match ?t' with _ => _ end] =>
        change t' with t; destruct t as [[m1 n1]|e|]
    end.
    + destruct Hturn as [-> Hcov1]. specialize (IH m1 Hok).
      match goal with
      | |- match ?t with _ => _ end => destruct t as [[m' n']|e|]
      end.
      * destruct IH as [-> Hcov]. split; [reflexivity | by eapply coveredBy_trans].
      * exact IH.
      * exact IH.
    + exact Hturn.
    + exact Hturn.
Qed.

Lemma EvaluateSpecialCases_total allowMap denyMap n :
  map_Forall readable denyMap →
  match EvaluateSpecialCases shuffle p allowMap denyMap n with
  | Ok (m', n') => n' = S n ∧ coveredBy allowMap m'
  | Err e => ∃ gvk, Client_List p gvk = Err e
  | Panic => ∃ gvk, Client_List p gvk = Panic
  end.
Proof.
  intros Hok.
  destruct (rangeMap_Ok shuffle shuffle_perm denyMap n) as (entries & Hrange & Hperm).
  assert (Hall : Forall (λ e : string * rbacv1.PolicyRule, readable e.1 e.2) entries).
  { rewrite Hperm. apply Forall_forall. intros [d dr] Hin.
    apply elem_of_map_to_list in Hin. by apply (Hok d dr). }
  unfold EvaluateSpecialCases. rewrite (M_bind_Ok _ _ _ _ _ Hrange).
  apply (special_total entries allowMap (S n) Hall).
Qed.

(** The run of the compiler up to the evaluation. *)
Lemma CompileRules_run allow deny n :
  ∃ allowMap denyMap n2,
    value (KeyMerge shuffle p allow) n = Ok allowMap
    ∧ map_Forall readable denyMap
    ∧ CompileRules shuffle p allow deny n
      = (allowMap ← wrapErr "error evaluating especial cases: "
                            (EvaluateSpecialCases shuffle p allowMap denyMap);
         wrapErr "error evaluating allow and deny maps: "
                 (EvaluatePolicyRules shuffle allowMap denyMap)) n2.
Proof.
  destruct (ExpandPolicyRules_loop shuffle p allow [] n (Forall_nil_2 _))
    as (expandedAllow & n1 & Hallow & _).
  destruct (ExpandPolicyRules_loop shuffle p deny [] n1 (Forall_nil_2 _))
    as (expandedDeny & n2 & Hdeny & _).
  fold (ExpandPolicyRules shuffle p allow) in Hallow.
  fold (ExpandPolicyRules shuffle p deny) in Hdeny.
  destruct (GetMap_keyMerged _ (stretched_shaped p expandedAllow)) as (allowMap & Hmap & _).
  destruct (GetMap_keyMerged _ (stretched_shaped p expandedDeny)) as (denyMap & Hmap' & Hmerged).
  exists allowMap, denyMap, n2. split; [|split].
  - unfold value, KeyMerge. rewrite (M_bind_Ok _ _ _ _ _ Hallow). by rewrite Hmap.
  - eapply keyMerged_readable; [apply stretched_shaped | exact Hmerged].
  - unfold CompileRules. rewrite (M_bind_Ok _ _ _ _ _ Hallow).
    rewrite (M_bind_Ok _ _ _ _ _ Hdeny). cbn zeta. rewrite Hmap, Hmap'.
    rewrite (M_bind_Ok _ _ n2 allowMap n2) by reflexivity.
    rewrite (M_bind_Ok _ _ n2 denyMap n2) by reflexivity. reflexivity.
Qed.

Lemma CompileRules_outcome allow deny n :
  failsWithTheLister p (CompileRules shuffle p allow deny n)
  ∧ ∀ result n',
      CompileRules shuffle p allow deny n = Ok (result, n') →
      ∃ allowMap, value (KeyMerge shuffle p allow) n = Ok allowMap
                  ∧ coveredBy allowMap result.
Proof.
  destruct (CompileRules_run allow deny n) as (allowMap & denyMap & n2 & Hmerge & Hread & ->).
  pose proof (EvaluateSpecialCases_total allowMap denyMap n2 Hread) as Hspecial.
  destruct (EvaluateSpecialCases shuffle p allowMap denyMap n2) as [[m1 n3]|e|] eqn:Hesc.
  - destruct Hspecial as [-> Hcov1].
    assert (H1 : wrapErr "error evaluating especial cases: "
                   (EvaluateSpecialCases shuffle p allowMap denyMap) n2 = Ok (m1, S n2))
      by (unfold wrapErr; by rewrite Hesc).
    rewrite (M_bind_Ok _ _ _ _ _ H1).
    destruct (EvaluatePolicyRules_total shuffle shuffle_perm m1 denyMap (S n2))
      as (result & n' & Hrun & Hcov).
    { intros d dr Hd. eapply readable_splittable. by apply (Hread d dr). }
    unfold wrapErr. rewrite Hrun. split; [exact I|].
    intros result0 n0 [= <- <-]. exists allowMap. split; [exact Hmerge|].
    by eapply coveredBy_trans.
  - assert (H1 : wrapErr "error evaluating especial cases: "
                   (EvaluateSpecialCases shuffle p allowMap denyMap) n2
                 = Err ("error evaluating especial cases: " +:+ e))
      by (unfold wrapErr; by rewrite Hesc).
    rewrite (M_bind_Err _ _ _ _ H1).
    split; [|discriminate]. destruct Hspecial as [gvk Hgvk]. by exists gvk, e.
  - assert (H1 : wrapErr "error evaluating especial cases: "
                   (EvaluateSpecialCases shuffle p allowMap denyMap) n2 = Panic)
      by (unfold wrapErr; by rewrite Hesc).
    rewrite (M_bind_Panic _ _ _ H1).
    split; [|discriminate]. exact Hspecial.
Qed.

End CompilerRuns.

(** X20. For rules of the shape [StretchPolicyRules] makes,
    [GetMapFromStretchedPolicyRules] returns a map that holds an entry under
    a key exactly when a rule has this key; the verbs of the entry are the
    verbs of all the rules of the key, and its other fields those of one of
    them.  On a rule that has neither URL nor group, or neither URL nor
    resource, it panics. *)
Theorem keyed_map_merges_the_verbs_of_a_key (policyRules : list rbacv1.PolicyRule) :
  Forall shaped policyRules →
  (∃ m, GetMapFromStretchedPolicyRules policyRules = Ok m ∧ keyMerged policyRules m)
  ∧ ∀ rule,
      rbacv1.NonResourceURLs rule = [] →
      rbacv1.APIGroups rule = [] ∨ rbacv1.Resources rule = [] →
      GetMapFromStretchedPolicyRules (policyRules ++ [rule]) = Panic.
Proof.
  intros Hshaped. split; [by apply GetMap_keyMerged|].
  intros rule Hurls Hnone. unfold GetMapFromStretchedPolicyRules.
  destruct (GetMap_keyMerged policyRules Hshaped) as (m & Hrun & _).
  unfold GetMapFromStretchedPolicyRules in Hrun.
  rewrite foldM_outcome_app, Hrun. unfold mbind at 1, outcome_bind at 1.
  cbn [foldM]. rewrite Hurls. cbn [isEmpty negb].
  destruct Hnone as [Hg|Hr].
  - rewrite Hg. reflexivity.
  - rewrite Hr. destruct (rbacv1.APIGroups rule); reflexivity.
Qed.

(** X21. Whatever the rules and the inventory, the map of the stretched
    rules is built without a panic: every rule [StretchPolicyRules] returns
    has the URL, or the group and the resource, that
    [GetMapFromStretchedPolicyRules] indexes. *)
Theorem stretched_rules_are_keyed_without_panic
    (p : PolicyRulesProcessorT) (policyRules : list rbacv1.PolicyRule) :
  ∃ m,
    GetMapFromStretchedPolicyRules (StretchPolicyRules p policyRules) = Ok m
    ∧ keyMerged (StretchPolicyRules p policyRules) m.
Proof. apply GetMap_keyMerged, stretched_shaped. Qed.

(** X22. The compiler of [SyncTarget] does not index out of range, and it
    fails only when the listing of the objects of a resource fails, which a
    deny rule with a name asks for: it returns a map, or the error of a
    listing under the prefix ["error evaluating especial cases: "], or
    panics with a listing that panics. *)
Theorem compiler_fails_only_with_the_listing
    (shuffle : nat → ∀ A : Type, list A → list A) (p : PolicyRulesProcessorT)
    (allow deny : list rbacv1.PolicyRule) (n : nat) :
  (∀ n A (l : list A), shuffle n A l ≡ₚ l) →
  failsWithTheLister p (CompileRules shuffle p allow deny n).
Proof.
  intros Hperm. by destruct (CompileRules_outcome shuffle Hperm p allow deny n) as [H _].
Qed.

(** X23. The deny list never adds to what the allow list grants: every
    rule of the compiled map stands under a rule of the key-merged allow
    list, of which it has the groups and the resources, whose key begins its
    key, and among whose verbs are all its verbs. *)
Theorem compiled_rules_are_under_the_allowed_rules
    (shuffle : nat → ∀ A : Type, list A → list A) (p : PolicyRulesProcessorT)
    (allow deny : list rbacv1.PolicyRule) (n n' : nat)
    (result : gmap string rbacv1.PolicyRule) :
  (∀ n A (l : list A), shuffle n A l ≡ₚ l) →
  CompileRules shuffle p allow deny n = Ok (result, n') →
  ∃ allowMap,
    value (KeyMerge shuffle p allow) n = Ok allowMap ∧ coveredBy allowMap result.
Proof.
  intros Hperm Hrun.
  destruct (CompileRules_outcome shuffle Hperm p allow deny n) as [_ Hcovered].
  by apply (Hcovered result n').
Qed.

(** *** [SplitPolicyRules] *)

Lemma placeRule_find (resources : list GVKR) policyRule r rs lists :
  rbacv1.Resources policyRule = r :: rs →
  placeRule resources policyRule lists
  = Ok (match find (λ gvkr, bool_decide (resourceName gvkr = r)) resources with
        | Some gvkr => if Namespaced gvkr then (lists.1, lists.2 ++ [policyRule])
                       else (lists.1 ++ [policyRule], lists.2)
        | None => lists
        end).
Proof.
  intros Hres. induction resources as [|gvkr resources IH]; [reflexivity|].
  cbn [placeRule find]. rewrite Hres. cbn [index lookup list_lookup].
  unfold mbind, outcome_bind.
  destruct (decide (r ≠ resourceName gvkr)) as [Hne|Heq].
  - rewrite bool_decide_eq_false_2 by (intros H; by apply Hne).
    exact IH.
  - assert (resourceName gvkr = r) as Hname.
    { destruct (decide (resourceName gvkr = r)) as [?|Hne]; [done|].
      exfalso. apply Heq. intros H. by apply Hne. }
    rewrite bool_decide_eq_true_2 by exact Hname.
    by destruct (Namespaced gvkr).
Qed.

Lemma SplitPolicyRules_loop p (policyRules : list rbacv1.PolicyRule) lists :
  Forall (λ rule, rbacv1.APIGroups rule ≠ [] ∧ rbacv1.Resources rule ≠ []) policyRules →
  foldM (λ lists policyRule,
           group ← index (rbacv1.APIGroups policyRule) 0;
           placeRule (groupResources p group) policyRule lists)
        lists policyRules
  = Ok (lists.1 ++ filter (λ rule, scopeOf p rule = Some false) policyRules,
        lists.2 ++ filter (λ rule, scopeOf p rule = Some true) policyRules).
Proof.
  revert lists. induction policyRules as [|rule rules IH]; intros [cl ns] Hall.
  - cbn [foldM filter list_filter fst snd]. by rewrite !app_nil_r.
  - apply Forall_cons in Hall as [[Hg Hr] Hall]. cbn [foldM].
    destruct (rbacv1.APIGroups rule) as [|g gs] eqn:Hgs; [done|].
    destruct (rbacv1.Resources rule) as [|r rs] eqn:Hrs; [done|].
    unfold mbind, outcome_bind, index. cbn [lookup list_lookup].
    rewrite (placeRule_find _ _ r rs _ Hrs).
    change (foldM ?f ?a rules) with (foldM f a rules).
    rewrite IH by exact Hall. rewrite !filter_cons.
    unfold scopeOf. rewrite Hgs, Hrs. cbn [head].
    change (default "" (Some g)) with g. change (default "" (Some r)) with r.
    destruct (find _ (groupResources p g)) as [gvkr|]; cbn [fmap option_fmap option_map].
    + destruct (Namespaced gvkr); cbn [fst snd].
      * rewrite decide_False by discriminate. rewrite decide_True by reflexivity.
        by rewrite <- app_assoc.
      * rewrite decide_True by reflexivity. rewrite decide_False by discriminate.
        by rewrite <- app_assoc.
    + rewrite !decide_False by discriminate. reflexivity.
Qed.

Lemma SplitPolicyRules_scopes
    (p : PolicyRulesProcessorT) (policyRules : list rbacv1.PolicyRule) :
  Forall (λ rule, rbacv1.APIGroups rule ≠ [] ∧ rbacv1.Resources rule ≠ []) policyRules →
  SplitPolicyRules p policyRules
  = Ok (filter (λ rule, scopeOf p rule = Some false) policyRules,
        filter (λ rule, scopeOf p rule = Some true) policyRules).
Proof. intros Hall. by apply (SplitPolicyRules_loop p policyRules ([], [])). Qed.

(** X24. On rules that have a group and a resource, [SplitPolicyRules]
    returns, both in the order of its input, the rules whose resource the
    inventory of their group holds as not namespaced and those it holds as
    namespaced, by the first entry of the name; a rule whose resource the
    inventory of its group does not hold is in neither list. *)
Theorem split_places_a_rule_by_the_scope_of_its_resource
    (p : PolicyRulesProcessorT) (policyRules : list rbacv1.PolicyRule) :
  Forall (λ rule, rbacv1.APIGroups rule ≠ [] ∧ rbacv1.Resources rule ≠ []) policyRules →
  SplitPolicyRules p policyRules
  = Ok (filter (λ rule, scopeOf p rule = Some false) policyRules,
        filter (λ rule, scopeOf p rule = Some true) policyRules).
Proof. intros Hall. by apply (SplitPolicyRules_loop p policyRules ([], [])). Qed.

Section SplitOfCompiled.

Variable shuffle : nat → ∀ A : Type, list A → list A.
Hypothesis shuffle_perm : ∀ n A (l : list A), shuffle n A l ≡ₚ l.

Variable p : PolicyRulesProcessorT.

Lemma expandRule_urls policyRule n rule' n' :
  expandRule shuffle p policyRule n = Ok (rule', n') →
  rbacv1.NonResourceURLs rule' = rbacv1.NonResourceURLs policyRule.
Proof.
  unfold expandRule. destruct (Contains (rbacv1.APIGroups policyRule) "*");
    unfold rangeMap, mbind, M_bind, mret, M_ret; intros [= <- _]; reflexivity.
Qed.

Lemma ExpandPolicyRules_urls policyRules result n expanded n' :
  Forall (λ rule, rbacv1.NonResourceURLs rule = []) policyRules →
  Forall (λ rule, rbacv1.NonResourceURLs rule = []) result →
  foldM (λ result policyRule,
           if validRule policyRule then
             newPolicyRule ← expandRule shuffle p policyRule;
             mret (result ++ [newPolicyRule])
           else mret result)
        result policyRules n = Ok (expanded, n') →
  Forall (λ rule, rbacv1.NonResourceURLs rule = []) expanded.
Proof.
  revert result n. induction policyRules as [|rule rules IH]; intros result n Hrules Hres.
  - cbn [foldM]. intros [= <- _]. exact Hres.
  - apply Forall_cons in Hrules as [Hrule Hrules]. cbn [foldM].
    destruct (validRule rule).
    + destruct (expandRule_spec shuffle p rule n) as (rule' & n1 & Hrun & _).
      rewrite (M_bind_Ok _ _ n (result ++ [rule']) n1)
        by (by rewrite (M_bind_Ok _ _ _ _ _ Hrun)).
      apply IH; [exact Hrules|]. apply Forall_app. split; [exact Hres|].
      apply Forall_singleton. rewrite (expandRule_urls _ _ _ _ Hrun). exact Hrule.
    + rewrite (M_bind_Ok _ _ n result n) by reflexivity. by apply IH.
Qed.

(** The entries of the key-merged form of rules without URLs hold one group
    and one resource, which the inventory of the group holds. *)
Lemma KeyMerge_placeable allow n allowMap :
  Forall (λ rule, rbacv1.NonResourceURLs rule = []) allow →
  value (KeyMerge shuffle p allow) n = Ok allowMap →
  ∀ key rule,
    allowMap !! key = Some rule →
    ∃ group resource,
      rbacv1.APIGroups rule = [group] ∧ rbacv1.Resources rule = [resource]
      ∧ resourceFound p group resource = true.
Proof.
  intros Hurls Hmerge key rule Hrule. unfold value, KeyMerge in Hmerge.
  destruct (ExpandPolicyRules_loop shuffle p allow [] n (Forall_nil_2 _))
    as (expanded & n1 & Hexp & _).
  pose proof (ExpandPolicyRules_urls allow [] n expanded n1 Hurls (Forall_nil_2 _) Hexp)
    as Hexpanded.
  fold (ExpandPolicyRules shuffle p allow) in Hexp.
  rewrite (M_bind_Ok _ _ _ _ _ Hexp) in Hmerge.
  destruct (GetMap_keyMerged _ (stretched_shaped p expanded)) as (m & Hmap & Hm).
  rewrite Hmap in Hmerge. cbn in Hmerge. injection Hmerge as <-.
  destruct (Hm key) as (_ & He & _). destruct (He rule Hrule) as (rule0 & Hin & _ & ->).
  rewrite StretchPolicyRules_join in Hin. apply list_elem_of_join in Hin as (l & Hin & Hl).
  apply list_elem_of_fmap in Hl as (source & -> & Hsource).
  apply stretchOne_elem in Hin. unfold stretchedFrom in Hin.
  rewrite Forall_forall in Hexpanded. rewrite (Hexpanded source Hsource) in Hin.
  cbn [isEmpty] in Hin.
  destruct Hin as (resource & group & _ & _ & Hfound & [[_ ->]|(name & _ & ->)]);
    exists group, resource; (split; [reflexivity|]); (split; [reflexivity | exact Hfound]).
Qed.

Lemma found_scope group resource rule :
  rbacv1.APIGroups rule = [group] → rbacv1.Resources rule = [resource] →
  resourceFound p group resource = true →
  scopeOf p rule = Some false ∨ scopeOf p rule = Some true.
Proof.
  intros Hg Hr Hfound. unfold scopeOf. rewrite Hg, Hr. cbn [head].
  change (default "" (Some group)) with group. change (default "" (Some resource)) with resource.
  apply resourceFound_spec in Hfound as (gvkr & Hin & Hname).
  destruct (find _ (groupResources p group)) as [found|] eqn:Hfind.
  - cbn. destruct (Namespaced found); [by right | by left].
  - exfalso. apply list_elem_of_In in Hin.
    pose proof (find_none _ _ Hfind gvkr Hin) as Hnone. cbn beta in Hnone.
    apply bool_decide_eq_false_1 in Hnone. by apply Hnone.
Qed.

Lemma compiled_split allow deny n n' result values n'' :
  Forall (λ rule, rbacv1.NonResourceURLs rule = []) allow →
  CompileRules shuffle p allow deny n = Ok (result, n') →
  mapValues shuffle result n' = Ok (values, n'') →
  SplitPolicyRules p values
  = Ok (filter (λ rule, scopeOf p rule = Some false) values,
        filter (λ rule, scopeOf p rule = Some true) values)
  ∧ filter (λ rule, scopeOf p rule = Some false) values
    ++ filter (λ rule, scopeOf p rule = Some true) values ≡ₚ values.
Proof.
  intros Hurls Hrun Hvalues.
  destruct (CompileRules_outcome shuffle shuffle_perm p allow deny n) as [_ Hcovered].
  destruct (Hcovered result n' Hrun) as (allowMap & Hmerge & Hcov).
  assert (Hplaced : ∀ rule, rule ∈ values →
            ∃ group resource,
              rbacv1.APIGroups rule = [group] ∧ rbacv1.Resources rule = [resource]
              ∧ resourceFound p group resource = true).
  { intros rule Hin. unfold mapValues in Hvalues.
    destruct (rangeMap_Ok shuffle shuffle_perm result n') as (entries & Hrange & Hperm).
    rewrite (M_bind_Ok _ _ _ _ _ Hrange) in Hvalues. injection Hvalues as <- _.
    apply list_elem_of_fmap in Hin as ([key rule'] & -> & Hin). cbn [snd].
    rewrite Hperm in Hin. apply elem_of_map_to_list in Hin.
    destruct (Hcov key rule' Hin) as (key0 & rule0 & Hrule0 & _ & Hg & Hr & _).
    destruct (KeyMerge_placeable allow n allowMap Hurls Hmerge key0 rule0 Hrule0)
      as (group & resource & Hg0 & Hr0 & Hfound).
    exists group, resource. split; [congruence|]. split; [congruence | exact Hfound]. }
  split.
  - apply SplitPolicyRules_scopes.
    apply Forall_forall. intros rule Hin.
    destruct (Hplaced rule Hin) as (group & resource & -> & -> & _). by split.
  - rewrite <- (filter_app_complement (λ rule, scopeOf p rule = Some false) values) at 3.
    f_equiv. apply reflexive_eq. apply filter_ext_elem. intros rule Hin.
    destruct (Hplaced rule Hin) as (group & resource & Hg & Hr & Hfound).
    destruct (found_scope group resource rule Hg Hr Hfound) as [Hs|Hs]; rewrite Hs.
    + split; [discriminate|]. intros H. by exfalso.
    + split; [intros _; discriminate | reflexivity].
Qed.

End SplitOfCompiled.

(** X25. When no rule of the allow list is on URLs, [SplitPolicyRules]
    splits the rules of the compiled map without a panic and drops none:
    the two lists together are the rules it was given, those of a resource
    that is not namespaced in the one and those of a namespaced resource in
    the other. *)
Theorem compiled_rules_without_urls_are_all_placed
    (shuffle : nat → ∀ A : Type, list A → list A) (p : PolicyRulesProcessorT)
    (allow deny : list rbacv1.PolicyRule) (n n' n'' : nat)
    (result : gmap string rbacv1.PolicyRule) (values : list rbacv1.PolicyRule) :
  (∀ n A (l : list A), shuffle n A l ≡ₚ l) →
  Forall (λ rule, rbacv1.NonResourceURLs rule = []) allow →
  CompileRules shuffle p allow deny n = Ok (result, n') →
  mapValues shuffle result n' = Ok (values, n'') →
  ∃ clusterScopedRules namespaceScopedRules,
    SplitPolicyRules p values = Ok (clusterScopedRules, namespaceScopedRules)
    ∧ clusterScopedRules ++ namespaceScopedRules ≡ₚ values
    ∧ Forall (λ rule, scopeOf p rule = Some false) clusterScopedRules
    ∧ Forall (λ rule, scopeOf p rule = Some true) namespaceScopedRules.
Proof.
  intros Hperm Hurls Hrun Hvalues.
  destruct (compiled_split shuffle Hperm p allow deny n n' result values n''
              Hurls Hrun Hvalues) as [Hsplit Hall].
  eexists _, _. split; [exact Hsplit|]. split; [exact Hall|].
  split; apply Forall_forall; intros rule Hin;
    by apply list_elem_of_filter in Hin as [? _].
Qed.

(** ** The further properties at sample inputs *)

Lemma teardown_deletes_the_owned_cluster_roles_witness :
  ∃ w',
    DynamicClusterRoleReconciler.DeleteTargets deletedRole
      (roleWorld deletedRole [ownedRole; strangerRole "other"])
    = (Ok (), w')
    ∧ calls w'
      = calls (roleWorld deletedRole [ownedRole; strangerRole "other"])
        ++ (DeleteClusterRole <$>
              ownedClusterRoles deletedRole
                (clusterRoles (cluster (roleWorld deletedRole
                                          [ownedRole; strangerRole "other"]))))
    ∧ clusterRoles (cluster w')
      = foreignClusterRoles deletedRole
          (clusterRoles (cluster (roleWorld deletedRole [ownedRole; strangerRole "other"])))
    ∧ ownedClusterRoles deletedRole (clusterRoles (cluster w')) = [].
Proof.
  apply (teardown_deletes_the_owned_cluster_roles deletedRole
           (roleWorld deletedRole [ownedRole; strangerRole "other"])).
  apply (bool_decide_unpack _). vm_compute. exact I.
Defined.

Lemma sync_replaces_a_foreign_cluster_role_witness :
  ∃ w' new,
    DynamicClusterRoleReconciler.SyncTarget inOrder (liveRole "10s") 0%nat
      (roleWorld (liveRole "10s") [strangerRole "role"; strangerRole "other"])
    = (Ok (), w')
    ∧ calls w'
      = calls (roleWorld (liveRole "10s") [strangerRole "role"; strangerRole "other"])
        ++ [UpdateClusterRole new]
    ∧ rbacv1.ClusterRole.Name new = "role"
    ∧ rbacv1.ClusterRole.Annotations new
      = DynamicClusterRoleReconciler.referenceAnnotations (liveRole "10s")
    ∧ new ∈ clusterRoles (cluster w')
    ∧ strangerRole "role" ∉ clusterRoles (cluster w').
Proof.
  eapply (sync_replaces_a_foreign_cluster_role inOrder (liveRole "10s") 0%nat
            (roleWorld (liveRole "10s") [strangerRole "role"; strangerRole "other"])
            (strangerRole "role")).
  - reflexivity.
  - apply (bool_decide_unpack _). vm_compute. exact I.
  - left.
  - reflexivity.
  - vm_compute. reflexivity.
  - vm_compute. reflexivity.
Defined.

Lemma reconcile_drops_the_sync_time_error_witness :
  ∃ w',
    DynamicClusterRoleReconciler.Reconcile inOrder parsesTenSeconds
      sampleNewCondition sampleUpdateCondition
      "ResourceSynced" "TargetSynced" "synced" "KubernetesApiCallError" "call failed"
      "" "role" 0%nat (roleWorld (liveRole "soon") [])
    = (Ok {| DynamicClusterRoleReconciler.RequeueAfter := 0 |}, w')
    ∧ calls w'
      = calls (roleWorld (liveRole "soon") [])
        ++ (if DynamicClusterRoleReconciler.ContainsFinalizer (liveRole "soon")
                 DynamicClusterRoleReconciler.patchFinalizer
            then []
            else [UpdateDynamicClusterRole
                    (DynamicClusterRoleReconciler.AddFinalizer (liveRole "soon")
                       DynamicClusterRoleReconciler.patchFinalizer)])
        ++ [UpdateStatusDynamicClusterRole
              (DynamicClusterRoleReconciler.AddFinalizer (liveRole "soon")
                 DynamicClusterRoleReconciler.patchFinalizer)]
    ∧ clusterRoles (cluster w') = clusterRoles (cluster (roleWorld (liveRole "soon") [])).
Proof.
  apply (reconcile_drops_the_sync_time_error inOrder parsesTenSeconds
           sampleNewCondition sampleUpdateCondition
           "ResourceSynced" "TargetSynced" "synced" "KubernetesApiCallError" "call failed"
           "" "role" 0%nat (roleWorld (liveRole "soon") []) (liveRole "soon")).
  - reflexivity.
  - reflexivity.
  - reflexivity.
Defined.


Lemma sync_fails_before_it_writes_witness :
  (DynamicRoleBindingReconciler.SyncTarget noCompile neverMatches
     (userBinding "Robot" true kuberbacv1alpha1.NamespaceSelectorT.zero) sampleWorld).2
  = sampleWorld.
Proof.
  apply (sync_fails_before_it_writes noCompile neverMatches
           (userBinding "Robot" true kuberbacv1alpha1.NamespaceSelectorT.zero) sampleWorld).
  vm_compute. discriminate.
Defined.

Lemma cluster_scoped_sync_writes_one_binding_witness :
  ∃ w',
    DynamicRoleBindingReconciler.SyncTarget noCompile neverMatches
      (userBinding "User" true kuberbacv1alpha1.NamespaceSelectorT.zero) unboundWorld
    = (Ok (), w')
    ∧ calls w'
      = calls unboundWorld
        ++ [UpdateClusterRoleBinding
              (DynamicRoleBindingReconciler.bindingResource
                 (userBinding "User" true kuberbacv1alpha1.NamespaceSelectorT.zero) [alice])]
    ∧ DynamicRoleBindingReconciler.bindingResource
        (userBinding "User" true kuberbacv1alpha1.NamespaceSelectorT.zero) [alice]
      ∈ clusterRoleBindings (cluster w')
    ∧ roleBindings (cluster w') = roleBindings (cluster unboundWorld).
Proof.
  apply (cluster_scoped_sync_writes_one_binding noCompile neverMatches
           (userBinding "User" true kuberbacv1alpha1.NamespaceSelectorT.zero) unboundWorld
           (namespaces sampleCluster) [alice]).
  - reflexivity.
  - apply userBinding_expands.
  - intros existing Hin. cbn [unboundWorld cluster clusterRoleBindings] in Hin.
    by apply elem_of_nil in Hin.
Defined.

Lemma role_binding_lacking_an_annotation_is_not_updated_witness :
  ∃ w' new,
    DynamicRoleBindingReconciler.SyncTarget noCompile neverMatches
      (withTargetAnnotations {[ "team" := "a" ]}
         (userBinding "User" false (namespacesListed ["ns3"; "ns4"]))) sampleWorld
    = (Ok (), w')
    ∧ calls w' = calls sampleWorld ++ new
    ∧ ∀ o, UpdateRoleBinding o ∈ new →
           rbacv1.RoleBinding.Namespace o
           ≠ rbacv1.RoleBinding.Namespace (roleBindingIn "ns3" "x" sampleOwnership).
Proof.
  apply (role_binding_lacking_an_annotation_is_not_updated noCompile neverMatches
           (withTargetAnnotations {[ "team" := "a" ]}
              (userBinding "User" false (namespacesListed ["ns3"; "ns4"]))) sampleWorld
           (namespaces sampleCluster) [alice] ["ns3"; "ns4"]
           (roleBindingIn "ns3" "x" sampleOwnership)).
  - reflexivity.
  - reflexivity.
  - vm_compute. reflexivity.
  - left.
  - reflexivity.
  - vm_compute. reflexivity.
Defined.

Lemma filtered_namespaces_are_namespaces_of_the_list_witness :
  ["ns3"] `sublist_of` (corev1.Namespace.Name <$> namespaces sampleCluster)
  ∧ (kuberbacv1alpha1.NamespaceSelectorT.IsZero (namespacesListed ["ns3"; "ns9"]) = true
     ∨ exactlyOne
         (default ∅ (kuberbacv1alpha1.NamespaceSelectorT.MatchLabels
                       (namespacesListed ["ns3"; "ns9"])) ≠ ∅)
         (default [] (kuberbacv1alpha1.NamespaceSelectorT.MatchList
                        (namespacesListed ["ns3"; "ns9"])) ≠ [])
         (kuberbacv1alpha1.MatchRegexT.Expression
            (kuberbacv1alpha1.NamespaceSelectorT.MatchRegex
               (namespacesListed ["ns3"; "ns9"])) ≠ "")).
Proof.
  apply (filtered_namespaces_are_namespaces_of_the_list noCompile neverMatches
           (namespaces sampleCluster) (namespacesListed ["ns3"; "ns9"]) ["ns3"]).
  vm_compute. reflexivity.
Defined.

Lemma selector_selects_the_namespaces_its_field_picks_witness :
  DynamicRoleBindingReconciler.FilterNamespaceListBySelector noCompile neverMatches
    (namespaces sampleCluster) (namespacesListed ["ns4"; "ns1"])
  = Ok (corev1.Namespace.Name <$>
          filter (λ namespace,
                    picksNamespace (namespacesListed ["ns4"; "ns1"]) (λ _, false) namespace
                    = true)
                 (namespaces sampleCluster)).
Proof.
  apply (selector_selects_the_namespaces_its_field_picks noCompile neverMatches
           (namespaces sampleCluster) (namespacesListed ["ns4"; "ns1"]) (λ _, false)).
  - reflexivity.
  - right. left. split; [intros H; apply H; reflexivity|].
    split; [discriminate | intros H; apply H; reflexivity].
  - intros H. exfalso. apply H. reflexivity.
Defined.

Lemma service_accounts_come_from_the_filtered_namespaces_witness :
  sampleWorld = sampleWorld
  ∧ [serviceAccountIn "ns1" "default"] `sublist_of` serviceAccounts (cluster sampleWorld)
  ∧ (["ns1"] ≠ [] →
     Forall (λ sa, corev1.ServiceAccount.Namespace sa ∈ ["ns1"])
            [serviceAccountIn "ns1" "default"])
  ∧ (kuberbacv1alpha1.NameSelectorT.IsZero
       (kuberbacv1alpha1.DynamicRoleBindingSourceSubject.NameSelector
          (kuberbacv1alpha1.DynamicRoleBindingSource.Subject
             (kuberbacv1alpha1.DynamicRoleBindingSpec.Source
                (kuberbacv1alpha1.DynamicRoleBinding.Spec
                   (sampleBinding "ServiceAccount" (namesListed ["default"])
                      kuberbacv1alpha1.NamespaceSelectorT.zero true
                      kuberbacv1alpha1.NamespaceSelectorT.zero))))) = true
     ∨ kuberbacv1alpha1.MetaSelectorT.IsZero
         (kuberbacv1alpha1.DynamicRoleBindingSourceSubject.MetaSelector
            (kuberbacv1alpha1.DynamicRoleBindingSource.Subject
               (kuberbacv1alpha1.DynamicRoleBindingSpec.Source
                  (kuberbacv1alpha1.DynamicRoleBinding.Spec
                     (sampleBinding "ServiceAccount" (namesListed ["default"])
                        kuberbacv1alpha1.NamespaceSelectorT.zero true
                        kuberbacv1alpha1.NamespaceSelectorT.zero))))) = true).
Proof.
  apply (service_accounts_come_from_the_filtered_namespaces noCompile neverMatches
           ["ns1"]
           (kuberbacv1alpha1.DynamicRoleBindingSource.Subject
              (kuberbacv1alpha1.DynamicRoleBindingSpec.Source
                 (kuberbacv1alpha1.DynamicRoleBinding.Spec
                    (sampleBinding "ServiceAccount" (namesListed ["default"])
                       kuberbacv1alpha1.NamespaceSelectorT.zero true
                       kuberbacv1alpha1.NamespaceSelectorT.zero))))
           sampleWorld sampleWorld [serviceAccountIn "ns1" "default"]).
  vm_compute. reflexivity.
Defined.

Lemma user_and_group_subjects_are_the_listed_names_witness :
  let subject := kuberbacv1alpha1.DynamicRoleBindingSource.Subject
                   (kuberbacv1alpha1.DynamicRoleBindingSpec.Source
                      (kuberbacv1alpha1.DynamicRoleBinding.Spec
                         (userBinding "Group" true kuberbacv1alpha1.NamespaceSelectorT.zero))) in
  let nameSelector :=
    kuberbacv1alpha1.DynamicRoleBindingSourceSubject.NameSelector subject in
  (∀ matchList,
     kuberbacv1alpha1.NameSelectorT.MatchList nameSelector = Some matchList →
     kuberbacv1alpha1.NamespaceSelectorT.IsZero
       (kuberbacv1alpha1.DynamicRoleBindingSourceSubject.NamespaceSelector subject) = true →
     kuberbacv1alpha1.MetaSelectorT.IsZero
       (kuberbacv1alpha1.DynamicRoleBindingSourceSubject.MetaSelector subject) = true →
     kuberbacv1alpha1.MatchRegexT.IsZero
       (kuberbacv1alpha1.NameSelectorT.MatchRegex nameSelector) = true →
     DynamicRoleBindingReconciler.expandSubjects noCompile neverMatches
       (userBinding "Group" true kuberbacv1alpha1.NamespaceSelectorT.zero) sampleWorld
     = (Ok (namespaces (cluster sampleWorld), listedSubject subject <$> matchList),
        sampleWorld))
  ∧ (kuberbacv1alpha1.NameSelectorT.MatchList nameSelector = None
     ∨ kuberbacv1alpha1.NamespaceSelectorT.IsZero
         (kuberbacv1alpha1.DynamicRoleBindingSourceSubject.NamespaceSelector subject) = false
     ∨ kuberbacv1alpha1.MetaSelectorT.IsZero
         (kuberbacv1alpha1.DynamicRoleBindingSourceSubject.MetaSelector subject) = false
     ∨ kuberbacv1alpha1.MatchRegexT.IsZero
         (kuberbacv1alpha1.NameSelectorT.MatchRegex nameSelector) = false →
     ∃ e, DynamicRoleBindingReconciler.expandSubjects noCompile neverMatches
            (userBinding "Group" true kuberbacv1alpha1.NamespaceSelectorT.zero) sampleWorld
          = (Err e, sampleWorld)).
Proof.
  apply (user_and_group_subjects_are_the_listed_names noCompile neverMatches
           (userBinding "Group" true kuberbacv1alpha1.NamespaceSelectorT.zero) sampleWorld).
  right. reflexivity.
Defined.

Lemma is_subset_in_any_order_witness :
  IsSubset_visit (reverse (map_to_list ({[ "a" := "1"; "b" := "2" ]} : gmap string string)))
                 {[ "a" := "1"; "b" := "2"; "c" := "3" ]}
  = globals.IsSubset {[ "a" := "1"; "b" := "2" ]} {[ "a" := "1"; "b" := "2"; "c" := "3" ]}
  ∧ (globals.IsSubset {[ "a" := "1"; "b" := "2" ]} {[ "a" := "1"; "b" := "2"; "c" := "3" ]}
     = true
     ↔ ({[ "a" := "1"; "b" := "2" ]} : gmap string string)
       ⊆ {[ "a" := "1"; "b" := "2"; "c" := "3" ]})
  ∧ globals.IsSubset ∅ {[ "a" := "1"; "b" := "2"; "c" := "3" ]} = true.
Proof.
  apply (is_subset_in_any_order
           (reverse (map_to_list ({[ "a" := "1"; "b" := "2" ]} : gmap string string)))).
  apply reverse_Permutation.
Defined.

Lemma stored_resource_keeps_its_name_witness :
  schema.Group (GVK (gvkrOf "apps" "v1" (apiResource "deployments/scale" "Scale" true)))
  = "apps"
  ∧ ∃ resourcesLists apiResource0,
      resourcesLists ∈ sampleDiscovery ∧ groupOf resourcesLists = "apps"
      ∧ apiResource0 ∈ metav1.APIResourceList.APIResources resourcesLists
      ∧ (resourceName (gvkrOf "apps" "v1" (apiResource "deployments/scale" "Scale" true))
         = metav1.APIResource.Name apiResource0
         ∨ metav1.APIResource.Name apiResource0
           = resourceName (gvkrOf "apps" "v1" (apiResource "deployments/scale" "Scale" true))
             +:+ "/").
Proof.
  eapply (stored_resource_keeps_its_name sampleDiscovery _ "apps"
            [gvkrOf "apps" "v1" (apiResource "deployments" "Deployment" true);
             gvkrOf "apps" "v1" (apiResource "deployments/scale" "Scale" true)]).
  - reflexivity.
  - vm_compute. reflexivity.
  - right. left.
Defined.

Lemma expansion_keeps_the_well_formed_rules_witness :
  ∃ expanded n',
    ExpandPolicyRules inOrder sampleProcessor
      [ resourceRule ["*"] ["pods"] ["a"] ["*"];
        resourceRule [""] [] [] ["get"];
        urlRule ["/healthz"] ["get"] ] 0%nat
    = Ok (expanded, n')
    ∧ Forall2 (expansionOf sampleProcessor)
        (filter wellFormed
           [ resourceRule ["*"] ["pods"] ["a"] ["*"];
             resourceRule [""] [] [] ["get"];
             urlRule ["/healthz"] ["get"] ])
        expanded.
Proof.
  apply (expansion_keeps_the_well_formed_rules inOrder sampleProcessor
           [ resourceRule ["*"] ["pods"] ["a"] ["*"];
             resourceRule [""] [] [] ["get"];
             urlRule ["/healthz"] ["get"] ] 0%nat 1%nat 0%nat).
  - exact inOrder_perm.
  - vm_compute. reflexivity.
Defined.

Lemma keyed_map_merges_the_verbs_of_a_key_witness :
  (∃ m,
     GetMapFromStretchedPolicyRules
       [ resourceRule [""] ["pods"] [] ["get"];
         resourceRule [""] ["pods"] [] ["list"];
         urlRule ["/healthz"] ["get"] ] = Ok m
     ∧ keyMerged [ resourceRule [""] ["pods"] [] ["get"];
                   resourceRule [""] ["pods"] [] ["list"];
                   urlRule ["/healthz"] ["get"] ] m)
  ∧ ∀ rule,
      rbacv1.NonResourceURLs rule = [] →
      rbacv1.APIGroups rule = [] ∨ rbacv1.Resources rule = [] →
      GetMapFromStretchedPolicyRules
        ([ resourceRule [""] ["pods"] [] ["get"];
           resourceRule [""] ["pods"] [] ["list"];
           urlRule ["/healthz"] ["get"] ] ++ [rule]) = Panic.
Proof.
  apply (keyed_map_merges_the_verbs_of_a_key
           [ resourceRule [""] ["pods"] [] ["get"];
             resourceRule [""] ["pods"] [] ["list"];
             urlRule ["/healthz"] ["get"] ]).
  repeat apply Forall_cons_2; [right | right | left | apply Forall_nil_2].
  - split; [reflexivity | split; discriminate].
  - split; [reflexivity | split; discriminate].
  - split; [discriminate | repeat split].
Defined.

Lemma compiler_fails_only_with_the_listing_witness :
  failsWithTheLister sampleProcessor
    (CompileRules inOrder sampleProcessor sampleAllow sampleDeny 0%nat).
Proof.
  apply (compiler_fails_only_with_the_listing inOrder sampleProcessor
           sampleAllow sampleDeny 0%nat).
  exact inOrder_perm.
Defined.

Lemma compiled_rules_are_under_the_allowed_rules_witness :
  ∃ allowMap,
    value (KeyMerge inOrder sampleProcessor sampleAllow) 0%nat = Ok allowMap
    ∧ coveredBy allowMap sampleCompiled.
Proof.
  eapply (compiled_rules_are_under_the_allowed_rules inOrder sampleProcessor
            sampleAllow sampleDeny 0%nat).
  - exact inOrder_perm.
  - vm_compute. reflexivity.
Defined.

Lemma split_places_a_rule_by_the_scope_of_its_resource_witness :
  SplitPolicyRules sampleProcessor
    [ resourceRule [""] ["nodes"] [] ["get"];
      resourceRule [""] ["pods"] [] ["get"];
      resourceRule ["apps"] ["pods"] [] ["get"] ]
  = Ok (filter (λ rule, scopeOf sampleProcessor rule = Some false)
          [ resourceRule [""] ["nodes"] [] ["get"];
            resourceRule [""] ["pods"] [] ["get"];
            resourceRule ["apps"] ["pods"] [] ["get"] ],
        filter (λ rule, scopeOf sampleProcessor rule = Some true)
          [ resourceRule [""] ["nodes"] [] ["get"];
            resourceRule [""] ["pods"] [] ["get"];
            resourceRule ["apps"] ["pods"] [] ["get"] ]).
Proof.
  apply (split_places_a_rule_by_the_scope_of_its_resource sampleProcessor).
  repeat apply Forall_cons_2; [| | | apply Forall_nil_2]; split; discriminate.
Defined.

Lemma compiled_rules_without_urls_are_all_placed_witness :
  ∃ clusterScopedRules namespaceScopedRules,
    SplitPolicyRules sampleProcessor sampleCompiledRules
    = Ok (clusterScopedRules, namespaceScopedRules)
    ∧ clusterScopedRules ++ namespaceScopedRules ≡ₚ sampleCompiledRules
    ∧ Forall (λ rule, scopeOf sampleProcessor rule = Some false) clusterScopedRules
    ∧ Forall (λ rule, scopeOf sampleProcessor rule = Some true) namespaceScopedRules.
Proof.
  eapply (compiled_rules_without_urls_are_all_placed inOrder sampleProcessor
            sampleAllow sampleDeny 0%nat _ _ sampleCompiled sampleCompiledRules).
  - exact inOrder_perm.
  - repeat apply Forall_cons_2; [reflexivity | reflexivity | apply Forall_nil_2].
  - vm_compute. reflexivity.
  - vm_compute. reflexivity.
Defined.
